(** * Tool-orchestration core of the 2nd Brain assistant

    A shallow embedding of [src/services/mcp-client.ts] (auth store,
    protocol client, tool aggregator) and of the agent loop of the core
    agent module ([detectRelevantSkills], [buildMCPFunctionDeclarations],
    [chat]), with the properties the specification states about them.

    Conventions.
    - JavaScript strings are [string], the sequence of their bytes;
      [toLowerCase] and [trim], which depend on the Unicode tables, are
      operations of the platform.
    - A plain object used as a dictionary is a [gmap string _]; an
      assignment under the key "__proto__" stores nothing ([setRoute]),
      and lookups are stated for names that are not members inherited
      from [Object.prototype].
    - JSON data is a [JValue]; numbers are integers (Z), [JNumber] adds NaN.
    - A tool result is the JavaScript value itself: what a server sends
      is not checked against the interface [MCPToolResult]. The tools of
      a catalog are read under their declared type [MCPTool].
    - Module-level [let]/[const] state of mcp-client.ts is the record
      [World]; every function that touches it, the network, the clock or
      secure storage is a computation in the monad [M], which threads the
      world and carries thrown [Error]s (by their [message]).
    - What the platform supplies (fetch, Date.now, JSON.parse, the model
      backend, ...) is a field of the record [Env]. *)

From Stdlib Require Import ZArith List Bool Ascii String Lia.
From stdpp Require Import base option strings pretty gmap list.

Import ListNotations.
Set Warnings "-register-all".
Local Open Scope string_scope.
Local Open Scope list_scope.
Local Open Scope Z_scope.

(* stdpp freezes [String.append] under [simpl]; the proofs below compute
   with it. *)
#[local] Arguments String.append !_ _ /.

(* ===================================================================== *)
(** ** JavaScript strings *)
(* ===================================================================== *)

Module JSString.

(** [s.startsWith(p)] *)
Definition startsWith (s p : string) : bool := String.prefix p s.

(** [s.includes(sub)]: [sub] starts at some position of [s]. *)
Fixpoint includes (s sub : string) : bool :=
  String.prefix sub s ||
  match s with
  | EmptyString => false
  | String _ s' => includes s' sub
  end.

(** [s.endsWith(suf)]: some tail of [s] is [suf]. *)
Fixpoint endsWith (s suf : string) : bool :=
  String.eqb s suf ||
  match s with
  | EmptyString => false
  | String _ s' => endsWith s' suf
  end.

(** [s.replace(/suf$/, "")] for a literal, non-empty [suf]. *)
Fixpoint stripSuffix (suf s : string) : string :=
  if String.eqb s suf then EmptyString
  else match s with
       | EmptyString => EmptyString
       | String c s' => String c (stripSuffix suf s')
       end.

(** [s.replace(/^pre/, "")] for a literal [pre]. *)
Fixpoint stripPrefix (pre s : string) : string :=
  match pre, s with
  | EmptyString, _ => s
  | String a pre', String b s' =>
      if Ascii.eqb a b
      then (if String.prefix pre' s' then stripPrefix pre' s' else s)
      else s
  | String _ _, EmptyString => s
  end.

(** [s.replace(/\/mcp\/?$/, "")] *)
Definition stripMcpSuffix (s : string) : string :=
  if endsWith s "/mcp/" then stripSuffix "/mcp/" s else stripSuffix "/mcp" s.

Definition mapChars (f : ascii -> ascii) : string -> string :=
  fix go s := match s with
              | EmptyString => EmptyString
              | String c s' => String (f c) (go s')
              end.

Definition lowerChar (c : ascii) : ascii :=
  let n := nat_of_ascii c in
  if (Nat.leb 65 n && Nat.leb n 90)%bool then ascii_of_nat (n + 32) else c.

(** Lower-casing of the letters A-Z, every other character left as it
    is: what [s.toLowerCase()] does on a string of ASCII characters. *)
Definition asciiLowerCase : string -> string := mapChars lowerChar.

(** A string of ASCII characters. *)
Fixpoint isAscii (s : string) : bool :=
  match s with
  | EmptyString => true
  | String c s' => Nat.ltb (nat_of_ascii c) 128 && isAscii s'
  end.

(** [s.replace(/\./g, "_")] *)
Definition dotsToUnderscores : string -> string :=
  mapChars (fun c => if Ascii.eqb c "."%char then "_"%char else c).

Definition isSpace (c : ascii) : bool :=
  let n := nat_of_ascii c in
  (Nat.eqb n 32 || (Nat.leb 9 n && Nat.leb n 13))%bool.

Fixpoint trimStart (s : string) : string :=
  match s with
  | String c s' => if isSpace c then trimStart s' else s
  | EmptyString => EmptyString
  end.

Fixpoint trimEnd (s : string) : string :=
  match s with
  | EmptyString => EmptyString
  | String c s' =>
      match trimEnd s' with
      | EmptyString => if isSpace c then EmptyString else String c EmptyString
      | t => String c t
      end
  end.

(** Removal of leading and trailing ASCII white space (U+0020 and
    U+0009 to U+000D): what [s.trim()] does on a string whose white
    space is of that kind. *)
Definition asciiTrim (s : string) : string := trimEnd (trimStart s).

(** A string is truthy when it is not empty. *)
Definition truthy (s : string) : bool := negb (String.eqb s "").

(** [a || b] on strings. *)
Definition orElse (a b : string) : string := if truthy a then a else b.

(** [s.split(sep)] for a one-character separator. *)
Fixpoint splitOn (sep : ascii) (s : string) : list string :=
  match s with
  | EmptyString => [EmptyString]
  | String c s' =>
      if Ascii.eqb c sep then EmptyString :: splitOn sep s'
      else match splitOn sep s' with
           | l :: ls => String c l :: ls
           | [] => [String c EmptyString]
           end
  end.

(** [s.slice(n)] *)
Fixpoint slice (n : nat) (s : string) : string :=
  match n, s with
  | O, _ => s
  | S n', String _ s' => slice n' s'
  | S _, EmptyString => EmptyString
  end.

(** [parts.join(sep)] *)
Fixpoint join (sep : string) (parts : list string) : string :=
  match parts with
  | [] => ""
  | [p] => p
  | p :: rest => p +:+ sep +:+ join sep rest
  end.

End JSString.

Import JSString.

(* ===================================================================== *)
(** ** JSON values *)
(* ===================================================================== *)

Inductive JValue : Type :=
| JUndefined
| JNull
| JBool (b : bool)
| JNum (n : Z)
| JStr (s : string)
| JArr (items : list JValue)
| JObj (fields : list (string * JValue)).

Inductive JNumber : Type :=
| NaN
| Num (n : Z).

Module JS.

Definition truthy (v : JValue) : bool :=
  match v with
  | JUndefined | JNull => false
  | JBool b => b
  | JNum n => negb (n =? 0)
  | JStr s => JSString.truthy s
  | JArr _ | JObj _ => true
  end.

Fixpoint assoc (k : string) (fs : list (string * JValue)) : JValue :=
  match fs with
  | [] => JUndefined
  | (k', v) :: fs' => if String.eqb k k' then v else assoc k fs'
  end.

(** [v?.k]: [undefined] on [null]/[undefined] and on values without the
    property. *)
Definition optGet (v : JValue) (k : string) : JValue :=
  match v with
  | JObj fs => assoc k fs
  | _ => JUndefined
  end.

(** [v.k]: a [TypeError] on [null] and [undefined]. *)
Definition get (v : JValue) (k : string) : option JValue :=
  match v with
  | JUndefined | JNull => None
  | _ => Some (optGet v k)
  end.

Definition add (a b : JNumber) : JNumber :=
  match a, b with
  | Num x, Num y => Num (x + y)
  | _, _ => NaN
  end.

Definition mul (a b : JNumber) : JNumber :=
  match a, b with
  | Num x, Num y => Num (x * y)
  | _, _ => NaN
  end.

(** [a <= b] and [a > b]: false as soon as one side is NaN. *)
Definition leb (a b : JNumber) : bool :=
  match a, b with
  | Num x, Num y => x <=? y
  | _, _ => false
  end.

Definition gtb (a b : JNumber) : bool :=
  match a, b with
  | Num x, Num y => y <? x
  | _, _ => false
  end.

End JS.

(* ===================================================================== *)
(** ** Data model *)
(* ===================================================================== *)

(** *** mcp-client.ts *)

Inductive AuthEventType : Type :=
| needs_relogin
| token_refreshed
| token_cleared.

(** The values of [_serverProtocol]. *)
Inductive Protocol : Type :=
| proto_rest    (* "rest" *)
| proto_mcp.    (* "mcp" *)

Record PropertySchema : Type := {
  prop_type : string;
  prop_description : option string
}.

Record InputSchema : Type := {
  schema_type : string;
  schema_properties : option (list (string * PropertySchema));
  schema_required : option (list string)
}.

Record MCPTool : Type := {
  tool_name : string;
  tool_description : string;
  tool_inputSchema : InputSchema
}.

(** [MCPToolResult] is a TypeScript interface: [{ content: { type: string;
    text?: string }[]; isError?: boolean }]. Nothing checks it at run
    time, and what a server answers is returned under this type as it
    came. A tool result is therefore the JavaScript value itself. *)
Definition MCPToolResult : Type := JValue.

Record MCPSession : Type := {
  sessionId : string;
  connected : bool;
  tools : list MCPTool;
  toolToServer : gmap string string
}.

(** A [fetch] request; the body is the value handed to [JSON.stringify]. *)
Record Request : Type := {
  req_url : string;
  req_method : string;
  req_headers : gmap string string;
  req_body : option JValue
}.

(** The parts of a [Response] the client reads. *)
Record Response : Type := {
  status : Z;
  statusText : string;
  contentType : option string;      (* headers.get("content-type") *)
  mcpSessionId : option string;     (* headers.get("mcp-session-id") *)
  bodyText : string                 (* await res.text() *)
}.

Definition ok (r : Response) : bool := (200 <=? status r) && (status r <=? 299).

Inductive FetchOutcome : Type :=
| FetchError (message : string)      (* the promise rejects *)
| FetchResponse (r : Response).

(** *** The agent module *)

Record AgentSkill : Type := {
  skill_id : string;
  skill_name : string;
  skill_description : string;
  skill_category : string;
  skill_triggers : list string;
  skill_enabled : bool
}.

Record AgentSoul : Type := {
  soul_name : string;
  soul_skills : list AgentSkill
}.

(** The fields of [BrainState] the turn reads after initialization. *)
Record BrainState : Type := {
  soul : AgentSoul;
  mcpTools : list MCPTool;
  mcpConnected : bool
}.

Record FunctionCall : Type := {
  fc_name : string;
  fc_args : option JValue
}.

Record FunctionResponse : Type := {
  fr_name : string;
  fr_result : string                (* response: { result: resultText } *)
}.

Record Part : Type := {
  part_text : option string;
  part_thought : bool;
  part_functionCall : option FunctionCall;
  part_functionResponse : option FunctionResponse
}.

Record Content : Type := {
  role : string;
  parts : list Part
}.

Record Candidate : Type := {
  cand_parts : option (list Part)    (* candidate.content?.parts *)
}.

Record GenerateContentResponse : Type := {
  resp_candidates : list Candidate;
  resp_text : option string          (* the SDK's [text] getter *)
}.

Record GeminiProperty : Type := {
  gp_type : string;
  gp_description : string
}.

Record FunctionDeclaration : Type := {
  fd_name : string;
  fd_description : string;
  fd_properties : list (string * GeminiProperty);
  fd_required : list string
}.

(** An entry of the [tools] array of a model call. *)
Inductive ToolEntry : Type :=
| functionDeclarations (fs : list FunctionDeclaration)
| googleSearch.

Record ModelRequest : Type := {
  mr_model : string;
  mr_contents : list Content;
  mr_systemInstruction : string;
  mr_tools : list ToolEntry
}.

Inductive ModelOutcome : Type :=
| ModelError (message : string)
| ModelResponse (r : GenerateContentResponse).

Inductive ToolStatus : Type :=
| status_pending    (* "pending" *)
| status_success    (* "success" *)
| status_error.     (* "error" *)

(** [ToolCall] of the agent types: the record kept per tool invocation. *)
Record ToolCall : Type := {
  tc_name : string;
  tc_args : JValue;
  tc_result : option string;
  tc_status : ToolStatus
}.

Inductive AgentEvent : Type :=
| ev_thinking (skills : list string) (useWorkspace useTravel useSearch : bool)
| ev_tool_call (name : string) (args : JValue)
| ev_tool_result (name : string) (succeeded : bool)
| ev_complete.

Record AgentResponse : Type := {
  ar_text : string;
  ar_agentName : string;
  ar_toolCalls : list ToolCall;
  ar_thinking : option string;
  ar_error : option string;          (* metadata.error *)
  ar_model : option string           (* metadata.model *)
}.

(** *** What has happened so far

    Every effect that leaves the process (a [fetch], a model call), every
    auth event handed to the subscribers, every agent event handed to
    [onEvent] and every entry into [refreshGoogleToken] is appended to the
    trace of the world. A [fetch] and a call of [refreshGoogleToken] are
    tagged with the place they are issued from. *)

Inductive Site : Type :=
| site_refresh      (* refreshGoogleToken: POST /auth/refresh *)
| site_rpc          (* mcpRpc *)
| site_discover     (* fetchToolsFromServer: GET of the REST fallback *)
| site_call         (* callMCPTool: first POST to a call path *)
| site_retry.       (* callMCPTool: POST retried after a 401 *)

(** Why [refreshGoogleToken] is called. *)
Inductive RefreshCause : Type :=
| cause_expired         (* getMCPAuthHeaders: the cached token has expired *)
| cause_unauthorized.   (* callMCPTool: a call path answered 401 *)

Inductive Event : Type :=
| EvFetch (site : Site) (req : Request)
| EvAuth (e : AuthEventType)
| EvRefreshCall (cause : RefreshCause)
| EvModel (req : ModelRequest)
| EvAgent (e : AgentEvent).

(** *** The environment *)

(** The errors the JavaScript engine throws by itself; the text of their
    [message] is the engine's. *)
Inductive EngineFault : Type :=
| fault_json (text : string)                  (* SyntaxError: [text] is not JSON *)
| fault_property (key : string) (v : JValue) (* TypeError: [v.key], [v] null or undefined *)
| fault_not_a_function (callee : string).     (* TypeError: [callee] is called and is no function *)

Record Env : Type := {
  (* Constants.expoConfig.extra / process.env, "" when unset *)
  MCP_GOOGLE_URL : string;
  MCP_TRAVEL_URL : string;
  SERPAPI_API_KEY : string;
  MCP_API_KEY : string;
  (* the network: the outcome of a fetch, given what happened before *)
  net : list Event -> Request -> FetchOutcome;
  (* Date.now(), by the number of earlier reads *)
  clock : nat -> Z;
  (* the native secure store: the error of the n-th operation, if any *)
  storeFault : nat -> option string;
  (* the model backend: ai.models.generateContent *)
  generateContent : list Event -> ModelRequest -> ModelOutcome;
  (* JavaScript built-ins *)
  faultMessage : EngineFault -> string;           (* error.message of an engine error *)
  toLowerCase : string -> string;                 (* String.prototype.toLowerCase *)
  trim : string -> string;                        (* String.prototype.trim *)
  JSON_parse : string -> option JValue;           (* None: SyntaxError *)
  JSON_stringify : JValue -> option string;       (* JSON.stringify(v); None: undefined *)
  JSON_stringify_pretty : JValue -> option string;  (* JSON.stringify(v, null, 2) *)
  ToString : JValue -> string;
  ToNumber : JValue -> JNumber;
  numberToString : JNumber -> string;
  parseInt10 : string -> JNumber;
  encodeURIComponent : string -> string
}.

(** *** Module state of mcp-client.ts, secure storage, and the trace *)

Record World : Type := {
  googleAccessToken : option string;
  googleRefreshToken : option string;
  googleTokenExpiry : JNumber;
  authInitialized : bool;
  mcpSessions : gmap string string;
  serverProtocol : gmap string Protocol;
  rpcId : Z;
  currentSession : option MCPSession;
  toolToServerMap : gmap string string;
  secureStore : gmap string string;
  storeOps : nat;
  ticks : nat;
  trace : list Event
}.

Definition initialWorld : World := {|
  googleAccessToken := None;
  googleRefreshToken := None;
  googleTokenExpiry := Num 0;
  authInitialized := false;
  mcpSessions := ∅;
  serverProtocol := ∅;
  rpcId := 1;
  currentSession := None;
  toolToServerMap := ∅;
  secureStore := ∅;
  storeOps := 0;
  ticks := 0;
  trace := []
|}.

(* ===================================================================== *)
(** ** The monad of effectful code *)
(* ===================================================================== *)

Inductive Result (A : Type) : Type :=
| Ok (a : A)
| Throw (message : string).

Arguments Ok {A} a.
Arguments Throw {A} message.

Definition M (A : Type) : Type := World -> Result A * World.

Definition ret {A} (a : A) : M A := fun w => (Ok a, w).

Definition throw {A} (message : string) : M A := fun w => (Throw message, w).

Definition bind {A B} (m : M A) (k : A -> M B) : M B :=
  fun w => match m w with
           | (Ok a, w') => k a w'
           | (Throw e, w') => (Throw e, w')
           end.

(** [try { m } catch (e) { h(e.message) }] *)
Definition tryCatch {A} (m : M A) (h : string -> M A) : M A :=
  fun w => match m w with
           | (Ok a, w') => (Ok a, w')
           | (Throw e, w') => h e w'
           end.

Definition gets {A} (f : World -> A) : M A := fun w => (Ok (f w), w).

Definition modify (f : World -> World) : M unit := fun w => (Ok tt, f w).

Notation "'let*' x ':=' m 'in' k" := (bind m (fun x => k))
  (at level 10, x pattern, m at level 200, k at level 200).
Notation "m ';;' k" := (bind m (fun _ => k))
  (at level 100, k at level 200, right associativity).

(** Field updates of the world. *)
Definition set_access (v : option string) (w : World) : World :=
  {| googleAccessToken := v; googleRefreshToken := googleRefreshToken w;
     googleTokenExpiry := googleTokenExpiry w; authInitialized := authInitialized w;
     mcpSessions := mcpSessions w; serverProtocol := serverProtocol w;
     rpcId := rpcId w; currentSession := currentSession w;
     toolToServerMap := toolToServerMap w; secureStore := secureStore w;
     storeOps := storeOps w; ticks := ticks w; trace := trace w |}.

Definition set_refresh (v : option string) (w : World) : World :=
  {| googleAccessToken := googleAccessToken w; googleRefreshToken := v;
     googleTokenExpiry := googleTokenExpiry w; authInitialized := authInitialized w;
     mcpSessions := mcpSessions w; serverProtocol := serverProtocol w;
     rpcId := rpcId w; currentSession := currentSession w;
     toolToServerMap := toolToServerMap w; secureStore := secureStore w;
     storeOps := storeOps w; ticks := ticks w; trace := trace w |}.

Definition set_expiry (v : JNumber) (w : World) : World :=
  {| googleAccessToken := googleAccessToken w; googleRefreshToken := googleRefreshToken w;
     googleTokenExpiry := v; authInitialized := authInitialized w;
     mcpSessions := mcpSessions w; serverProtocol := serverProtocol w;
     rpcId := rpcId w; currentSession := currentSession w;
     toolToServerMap := toolToServerMap w; secureStore := secureStore w;
     storeOps := storeOps w; ticks := ticks w; trace := trace w |}.

Definition set_authInitialized (v : bool) (w : World) : World :=
  {| googleAccessToken := googleAccessToken w; googleRefreshToken := googleRefreshToken w;
     googleTokenExpiry := googleTokenExpiry w; authInitialized := v;
     mcpSessions := mcpSessions w; serverProtocol := serverProtocol w;
     rpcId := rpcId w; currentSession := currentSession w;
     toolToServerMap := toolToServerMap w; secureStore := secureStore w;
     storeOps := storeOps w; ticks := ticks w; trace := trace w |}.

Definition set_sessions (v : gmap string string) (w : World) : World :=
  {| googleAccessToken := googleAccessToken w; googleRefreshToken := googleRefreshToken w;
     googleTokenExpiry := googleTokenExpiry w; authInitialized := authInitialized w;
     mcpSessions := v; serverProtocol := serverProtocol w;
     rpcId := rpcId w; currentSession := currentSession w;
     toolToServerMap := toolToServerMap w; secureStore := secureStore w;
     storeOps := storeOps w; ticks := ticks w; trace := trace w |}.

Definition set_protocol (v : gmap string Protocol) (w : World) : World :=
  {| googleAccessToken := googleAccessToken w; googleRefreshToken := googleRefreshToken w;
     googleTokenExpiry := googleTokenExpiry w; authInitialized := authInitialized w;
     mcpSessions := mcpSessions w; serverProtocol := v;
     rpcId := rpcId w; currentSession := currentSession w;
     toolToServerMap := toolToServerMap w; secureStore := secureStore w;
     storeOps := storeOps w; ticks := ticks w; trace := trace w |}.

Definition set_rpcId (v : Z) (w : World) : World :=
  {| googleAccessToken := googleAccessToken w; googleRefreshToken := googleRefreshToken w;
     googleTokenExpiry := googleTokenExpiry w; authInitialized := authInitialized w;
     mcpSessions := mcpSessions w; serverProtocol := serverProtocol w;
     rpcId := v; currentSession := currentSession w;
     toolToServerMap := toolToServerMap w; secureStore := secureStore w;
     storeOps := storeOps w; ticks := ticks w; trace := trace w |}.

Definition set_currentSession (v : option MCPSession) (w : World) : World :=
  {| googleAccessToken := googleAccessToken w; googleRefreshToken := googleRefreshToken w;
     googleTokenExpiry := googleTokenExpiry w; authInitialized := authInitialized w;
     mcpSessions := mcpSessions w; serverProtocol := serverProtocol w;
     rpcId := rpcId w; currentSession := v;
     toolToServerMap := toolToServerMap w; secureStore := secureStore w;
     storeOps := storeOps w; ticks := ticks w; trace := trace w |}.

Definition set_toolToServerMap (v : gmap string string) (w : World) : World :=
  {| googleAccessToken := googleAccessToken w; googleRefreshToken := googleRefreshToken w;
     googleTokenExpiry := googleTokenExpiry w; authInitialized := authInitialized w;
     mcpSessions := mcpSessions w; serverProtocol := serverProtocol w;
     rpcId := rpcId w; currentSession := currentSession w;
     toolToServerMap := v; secureStore := secureStore w;
     storeOps := storeOps w; ticks := ticks w; trace := trace w |}.

Definition set_store (v : gmap string string) (ops : nat) (w : World) : World :=
  {| googleAccessToken := googleAccessToken w; googleRefreshToken := googleRefreshToken w;
     googleTokenExpiry := googleTokenExpiry w; authInitialized := authInitialized w;
     mcpSessions := mcpSessions w; serverProtocol := serverProtocol w;
     rpcId := rpcId w; currentSession := currentSession w;
     toolToServerMap := toolToServerMap w; secureStore := v;
     storeOps := ops; ticks := ticks w; trace := trace w |}.

Definition set_ticks (v : nat) (w : World) : World :=
  {| googleAccessToken := googleAccessToken w; googleRefreshToken := googleRefreshToken w;
     googleTokenExpiry := googleTokenExpiry w; authInitialized := authInitialized w;
     mcpSessions := mcpSessions w; serverProtocol := serverProtocol w;
     rpcId := rpcId w; currentSession := currentSession w;
     toolToServerMap := toolToServerMap w; secureStore := secureStore w;
     storeOps := storeOps w; ticks := v; trace := trace w |}.

Definition set_trace (v : list Event) (w : World) : World :=
  {| googleAccessToken := googleAccessToken w; googleRefreshToken := googleRefreshToken w;
     googleTokenExpiry := googleTokenExpiry w; authInitialized := authInitialized w;
     mcpSessions := mcpSessions w; serverProtocol := serverProtocol w;
     rpcId := rpcId w; currentSession := currentSession w;
     toolToServerMap := toolToServerMap w; secureStore := secureStore w;
     storeOps := storeOps w; ticks := ticks w; trace := v |}.

(** Append to the trace. *)
Definition emit (e : Event) : M unit :=
  modify (fun w => set_trace (trace w ++ [e]) w).

(** [o || d] for [string | null | undefined]. *)
Definition optTruthy (o : option string) : bool :=
  match o with
  | Some s => JSString.truthy s
  | None => false
  end.

(* ===================================================================== *)
(** ** mcp-client.ts *)
(* ===================================================================== *)

Section Client.

Context (E : Env).

(** [const MCP_SERVER_URL = MCP_GOOGLE_URL] *)
Definition MCP_SERVER_URL : string := MCP_GOOGLE_URL E.

Definition SECURE_googleAccessToken : string := "mcp_google_access_token".
Definition SECURE_googleRefreshToken : string := "mcp_google_refresh_token".
Definition SECURE_googleTokenExpiry : string := "mcp_google_token_expiry".

(** *** Platform operations *)

(** [Date.now()] *)
Definition dateNow : M JNumber :=
  fun w => (Ok (Num (clock E (ticks w))), set_ticks (S (ticks w)) w).

(** [await fetch(url, init)], issued from [site]. *)
Definition fetch (site : Site) (req : Request) : M Response :=
  fun w =>
    let w' := set_trace (trace w ++ [EvFetch site req]) w in
    match net E (trace w) req with
    | FetchError msg => (Throw msg, w')
    | FetchResponse r => (Ok r, w')
    end.

(** [await res.json()] *)
Definition resJson (res : Response) : M JValue :=
  match JSON_parse E (bodyText res) with
  | Some v => ret v
  | None => throw (faultMessage E (fault_json (bodyText res)))
  end.

(** secure-storage.ts, seen from its callers: reading and writing can
    throw, [deleteSecureItemAsync] falls back and never throws. *)
Definition getSecureItemAsync (key : string) : M (option string) :=
  fun w =>
    let w' := set_store (secureStore w) (S (storeOps w)) w in
    match storeFault E (storeOps w) with
    | Some msg => (Throw msg, w')
    | None => (Ok (secureStore w !! key), w')
    end.

Definition setSecureItemAsync (key value : string) : M unit :=
  fun w =>
    match storeFault E (storeOps w) with
    | Some msg => (Throw msg, set_store (secureStore w) (S (storeOps w)) w)
    | None => (Ok tt, set_store (<[key := value]> (secureStore w)) (S (storeOps w)) w)
    end.

Definition deleteSecureItemAsync (key : string) : M unit :=
  fun w =>
    match storeFault E (storeOps w) with
    | Some _ => (Ok tt, set_store (secureStore w) (S (storeOps w)) w)
    | None => (Ok tt, set_store (delete key (secureStore w)) (S (storeOps w)) w)
    end.

(** [await Promise.all(ps)]: every operation is started; the first
    rejection, if any, is the one thrown. *)
Fixpoint promiseAll (ps : list (M unit)) : M unit :=
  match ps with
  | [] => ret tt
  | p :: rest =>
      fun w => match p w with
               | (Ok _, w') => promiseAll rest w'
               | (Throw e, w') =>
                   match promiseAll rest w' with
                   | (_, w'') => (Throw e, w'')
                   end
               end
  end.

(** [await Promise.all([a, b, c])] for three operations with results:
    every operation is started; the first rejection, if any, is the one
    thrown. *)
Definition promiseAll3 {A : Type} (a b c : M A) : M (A * A * A) :=
  fun w =>
    match a w with
    | (ra, w1) =>
        match b w1 with
        | (rb, w2) =>
            match c w2 with
            | (rc, w3) =>
                (match ra, rb, rc with
                 | Ok x, Ok y, Ok z => Ok (x, y, z)
                 | Throw e, _, _ => Throw e
                 | Ok _, Throw e, _ => Throw e
                 | Ok _, Ok _, Throw e => Throw e
                 end, w3)
            end
        end
    end.

(** *** Auth event system *)

(** The callbacks are wrapped in try/catch: emitting never throws. *)
Definition emitAuthEvent (event : AuthEventType) : M unit :=
  emit (EvAuth event).

(** *** Auth mode and token store *)

Inductive MCPAuthMode : Type :=
| mode_oauth
| mode_api_key
| mode_none.

Definition getMCPAuthMode : M MCPAuthMode :=
  let* at_ := gets googleAccessToken in
  let* valid :=
    (if optTruthy at_
     then (let* exp := gets googleTokenExpiry in
           let* now := dateNow in
           ret (JS.gtb exp now))
     else ret false) in
  if valid then ret mode_oauth
  else if JSString.truthy (MCP_API_KEY E) then ret mode_api_key
  else ret mode_none.

Definition clearMCPGoogleToken : M unit :=
  modify (set_access None);;
  modify (set_refresh None);;
  modify (set_expiry (Num 0));;
  promiseAll [ deleteSecureItemAsync SECURE_googleAccessToken;
               deleteSecureItemAsync SECURE_googleRefreshToken;
               deleteSecureItemAsync SECURE_googleTokenExpiry ];;
  emitAuthEvent token_cleared.

Definition setMCPGoogleToken (accessToken : string) (expiresIn : JNumber)
    (refreshToken : option string) : M unit :=
  modify (set_access (Some accessToken));;
  let* now := dateNow in
  let expiry := JS.add now (JS.mul expiresIn (Num 1000)) in
  modify (set_expiry expiry);;
  (if optTruthy refreshToken then modify (set_refresh refreshToken) else ret tt);;
  promiseAll
    ([ setSecureItemAsync SECURE_googleAccessToken accessToken;
       setSecureItemAsync SECURE_googleTokenExpiry (numberToString E expiry) ]
     ++ match refreshToken with
        | Some r => if JSString.truthy r
                    then [ setSecureItemAsync SECURE_googleRefreshToken r ]
                    else []
        | None => []
        end).

Definition loadPersistedAuth : M unit :=
  let* initialized := gets authInitialized in
  if initialized then ret tt
  else
    tryCatch
      (let* items := promiseAll3 (getSecureItemAsync SECURE_googleAccessToken)
                                 (getSecureItemAsync SECURE_googleRefreshToken)
                                 (getSecureItemAsync SECURE_googleTokenExpiry) in
       let token := fst (fst items) in
       let refresh := snd (fst items) in
       let expiry := snd items in
       match token, expiry with
       | Some t, Some e =>
           if JSString.truthy t && JSString.truthy e then
             let expiryMs := parseInt10 E e in
             let* now := dateNow in
             if JS.gtb expiryMs now then
               modify (set_access (Some t));;
               modify (set_refresh refresh);;
               modify (set_expiry expiryMs)
             else clearMCPGoogleToken
           else ret tt
       | _, _ => ret tt
       end)
      (fun _ => ret tt);;
    modify (set_authInitialized true).

(** [typeof v === "string" ? v : String(v)]: how a value of type [any]
    is used where the declared type is [string]. *)
Definition asString (v : JValue) : string :=
  match v with
  | JStr s => s
  | _ => ToString E v
  end.

Definition jsonHeaders : gmap string string :=
  {[ "Content-Type" := "application/json" ]}.

Definition refreshGoogleToken (cause : RefreshCause) : M bool :=
  emit (EvRefreshCall cause);;
  let* rt := gets googleRefreshToken in
  if negb (optTruthy rt) then
    let* at_ := gets googleAccessToken in
    (if optTruthy at_
     then clearMCPGoogleToken;; emitAuthEvent needs_relogin
     else ret tt);;
    ret false
  else
    let serverBase :=
      if JSString.truthy MCP_SERVER_URL
      then stripSuffix "/" (stripMcpSuffix MCP_SERVER_URL)
      else "" in
    if negb (JSString.truthy serverBase) then
      clearMCPGoogleToken;; emitAuthEvent needs_relogin;; ret false
    else
      tryCatch
        (let* res := fetch site_refresh
                       {| req_url := serverBase +:+ "/auth/refresh";
                          req_method := "POST";
                          req_headers := jsonHeaders;
                          req_body := Some (JObj [("refresh_token",
                                                   JStr (default "" rt))]) |} in
         if negb (ok res) then
           clearMCPGoogleToken;; emitAuthEvent needs_relogin;; ret false
         else
           let* data := resJson res in
           match JS.get data "access_token" with
           | None => throw (faultMessage E (fault_property "access_token" data))
           | Some token =>
               if JS.truthy token then
                 let expires_in := JS.optGet data "expires_in" in
                 let* rt' := gets googleRefreshToken in
                 setMCPGoogleToken (asString token)
                   (if JS.truthy expires_in then ToNumber E expires_in else Num 3600)
                   (if optTruthy rt' then rt' else None);;
                 emitAuthEvent token_refreshed;;
                 ret true
               else
                 clearMCPGoogleToken;; emitAuthEvent needs_relogin;; ret false
           end)
        (fun _ => clearMCPGoogleToken;; emitAuthEvent needs_relogin;; ret false).

(** *** Auth headers *)

(** [isTravelUrl && apiKey]: the endpoint is the one configured for the
    static API key. *)
Definition usesStaticKey (mcpUrl : option string) : bool :=
  let apiKey := trim E (MCP_API_KEY E) in
  let travelRoot := stripSuffix "/mcp" (stripSuffix "/" (trim E (MCP_TRAVEL_URL E))) in
  let mcpRoot := stripSuffix "/mcp" (stripSuffix "/" (default "" mcpUrl)) in
  let isTravelUrl :=
    optTruthy mcpUrl && JSString.truthy travelRoot && String.eqb mcpRoot travelRoot in
  isTravelUrl && JSString.truthy apiKey.

Definition getMCPAuthHeaders (mcpUrl : option string) : M (gmap string string) :=
  let headers := jsonHeaders in
  let apiKey := trim E (MCP_API_KEY E) in
  if usesStaticKey mcpUrl then
    ret (<["X-API-Key" := apiKey]> headers)
  else
    let* at_ := gets googleAccessToken in
    if optTruthy at_ then
      let* exp := gets googleTokenExpiry in
      let* now := dateNow in
      (if JS.leb exp now
       then (let* refreshed := refreshGoogleToken cause_expired in ret tt)
       else ret tt);;
      let* at' := gets googleAccessToken in
      if optTruthy at' then
        let* exp' := gets googleTokenExpiry in
        let* now' := dateNow in
        if JS.gtb exp' now'
        then ret (<["Authorization" := "Bearer " +:+ default "" at']> headers)
        else ret headers
      else ret headers
    else ret headers.

(** *** MCP protocol (JSON-RPC over HTTP) *)

Definition newline : ascii := ascii_of_nat 10.

(** The loop of [parseMcpResponse] over the lines of an event stream:
    the first [data: ] line that parses is the envelope. *)
Fixpoint firstEnvelope (lines : list string) : option JValue :=
  match lines with
  | [] => None
  | line :: more =>
      if startsWith line "data: " then
        match JSON_parse E (trim E (slice 6 line)) with
        | Some envelope => Some envelope
        | None => firstEnvelope more
        end
      else firstEnvelope more
  end.

Definition parseMcpResponse (res : Response) : M JValue :=
  let ct := default "" (contentType res) in
  if includes ct "text/event-stream" then
    match firstEnvelope (splitOn newline (bodyText res)) with
    | Some envelope => ret envelope
    | None => throw "No valid JSON-RPC message in SSE stream"
    end
  else resJson res.

Definition rpcHeaders : gmap string string :=
  {[ "Content-Type" := "application/json";
     "Accept" := "application/json, text/event-stream" ]}.

Definition mcpRpc (mcpUrl method : string) (params : option JValue)
    (isNotification : bool) : M JValue :=
  let* authHeaders := getMCPAuthHeaders (Some mcpUrl) in
  let headers := authHeaders ∪ rpcHeaders in
  let* sessions := gets mcpSessions in
  let headers :=
    match sessions !! mcpUrl with
    | Some sid => if JSString.truthy sid
                  then <["Mcp-Session-Id" := sid]> headers else headers
    | None => headers
    end in
  let body := ([("jsonrpc", JStr "2.0"); ("method", JStr method)]
               ++ match params with Some p => [("params", p)] | None => [] end)%list in
  let* body :=
    (if isNotification then ret body
     else (let* id := gets rpcId in
           modify (set_rpcId (id + 1));;
           ret (body ++ [("id", JNum id)])%list)) in
  let* res := fetch site_rpc {| req_url := mcpUrl; req_method := "POST";
                                req_headers := headers;
                                req_body := Some (JObj body) |} in
  (if optTruthy (mcpSessionId res)
   then modify (fun w => set_sessions
                  (<[mcpUrl := default "" (mcpSessionId res)]> (mcpSessions w)) w)
   else ret tt);;
  if isNotification then ret JNull
  else if negb (ok res) then
    throw ("MCP RPC " +:+ method +:+ " failed (" +:+ pretty (status res) +:+ "): "
           +:+ bodyText res)
  else
    let* data := parseMcpResponse res in
    let err := JS.optGet data "error" in
    if JS.truthy err then
      let m := JS.optGet err "message" in
      throw ("MCP RPC " +:+ method +:+ " error: "
             +:+ (if JS.truthy m then ToString E m
                  else default "undefined" (JSON_stringify E err)))
    else ret (JS.optGet data "result").

Definition MCP_PROTOCOL_VERSION : string := "2024-11-05".

Definition mcpInitialize (mcpUrl : string) : M unit :=
  let* _ := mcpRpc mcpUrl "initialize"
              (Some (JObj [("protocolVersion", JStr MCP_PROTOCOL_VERSION);
                           ("capabilities", JObj []);
                           ("clientInfo", JObj [("name", JStr "agentcore");
                                                ("version", JStr "1.0.0")])]))
              false in
  let* _ := mcpRpc mcpUrl "notifications/initialized" (Some (JObj [])) true in
  ret tt.

(** [if (!_mcpSessions[mcpUrl]) await mcpInitialize(mcpUrl)] *)
Definition ensureSession (mcpUrl : string) : M unit :=
  let* sessions := gets mcpSessions in
  if optTruthy (sessions !! mcpUrl) then ret tt else mcpInitialize mcpUrl.

(** The cast [as MCPTool[]] applied to a value of type [any] that comes
    from a server: a value of the declared shape is read field by field;
    the code does not check the shape, and what it would do with another
    one is outside the declared types. *)
Definition castProperty (v : JValue) : PropertySchema :=
  {| prop_type := asString (JS.optGet v "type");
     prop_description :=
       match JS.optGet v "description" with
       | JUndefined | JNull => None
       | d => Some (asString d)
       end |}.

Definition castSchema (v : JValue) : InputSchema :=
  {| schema_type := asString (JS.optGet v "type");
     schema_properties :=
       match JS.optGet v "properties" with
       | JObj fs => Some (map (fun kv => (fst kv, castProperty (snd kv))) fs)
       | _ => None
       end;
     schema_required :=
       match JS.optGet v "required" with
       | JArr l => Some (map asString l)
       | _ => None
       end |}.

Definition castTool (v : JValue) : MCPTool :=
  {| tool_name := asString (JS.optGet v "name");
     tool_description := asString (JS.optGet v "description");
     tool_inputSchema := castSchema (JS.optGet v "inputSchema") |}.

Definition castTools (v : JValue) : list MCPTool :=
  match v with
  | JArr items => map castTool items
  | _ => []
  end.

(** [{ type: "text", text }] *)
Definition textItem (text : JValue) : JValue :=
  JObj [("type", JStr "text"); ("text", text)].

(** [{ content: [{ type: "text", text }] }]; [None] is [undefined], which
    [JSON.stringify] returns for [undefined]. *)
Definition textResult (text : option string) : MCPToolResult :=
  JObj [("content", JArr [textItem match text with
                                   | Some s => JStr s
                                   | None => JUndefined
                                   end])].

(** [{ content: [{ type: "text", text }], isError: true }] *)
Definition errorResult (text : string) : MCPToolResult :=
  JObj [("content", JArr [textItem (JStr text)]); ("isError", JBool true)].

Definition mcpListTools (mcpUrl : string) : M (list MCPTool) :=
  ensureSession mcpUrl;;
  let* result := mcpRpc mcpUrl "tools/list" None false in
  match JS.optGet result "tools" with
  | JUndefined | JNull => ret []
  | ts => ret (castTools ts)
  end.

Definition mcpCallTool (mcpUrl toolName : string) (args : JValue) : M MCPToolResult :=
  ensureSession mcpUrl;;
  let* result := mcpRpc mcpUrl "tools/call"
                   (Some (JObj [("name", JStr toolName); ("arguments", args)]))
                   false in
  if JS.truthy (JS.optGet result "content") then ret result
  else match result with
       | JStr s => ret (textResult (Some s))
       | _ => ret (textResult (JSON_stringify_pretty E result))
       end.

(** *** Tool aliases *)

Definition MINIMAL_TOOL_ALIASES : list (string * string) :=
  [ ("gmail_read_message", "gmail_read_email");
    ("gmail_list_messages", "gmail_list_emails");
    ("gmail_search_messages", "gmail_list_emails");
    ("contacts_search_contacts", "contacts_search");
    ("contacts_list_contacts", "contacts_list");
    ("drive_search", "drive_search_files") ].

(** The members a plain object inherits from [Object.prototype]. *)
Definition OBJECT_PROTOTYPE_MEMBERS : list string :=
  [ "constructor"; "__proto__"; "__defineGetter__"; "__defineSetter__";
    "__lookupGetter__"; "__lookupSetter__"; "hasOwnProperty"; "isPrototypeOf";
    "propertyIsEnumerable"; "toString"; "toLocaleString"; "valueOf" ].

Definition inheritedMember (name : string) : bool :=
  existsb (String.eqb name) OBJECT_PROTOTYPE_MEMBERS.

(** [table[name]] among the entries of the table itself. The table is a
    plain object: for a [name] that is an inherited member the lookup of
    the code finds that member - a function or an object, not a string -
    and this is not modelled; what is stated about the lookup is stated
    for the other names. *)
Fixpoint aliasOf (name : string) (table : list (string * string)) : option string :=
  match table with
  | [] => None
  | (k, v) :: more => if String.eqb name k then Some v else aliasOf name more
  end.

Definition normalizeToolName (session : option MCPSession) (toolName : string) : string :=
  let normalized := stripPrefix "google_" (dotsToUnderscores toolName) in
  match aliasOf normalized MINIMAL_TOOL_ALIASES with
  | Some alias => alias
  | None =>
      let validNames := match session with
                        | Some s => map tool_name (tools s)
                        | None => []
                        end in
      if (0 <? Z.of_nat (length validNames))
         && existsb (String.eqb normalized) validNames
      then normalized
      else normalized
  end.

(** *** Fetch tools *)

(** One [{ baseUrl, name, rootUrl }] entry of [getMcpServerUrls]. *)
Record Server : Type := {
  baseUrl : string;
  name : string;
  rootUrl : option string
}.

(** The REST fallback of [fetchToolsFromServer]: the nested loops over
    [bases] and [paths], as one loop over the URLs in the order tried. *)
Fixpoint fetchToolsRest (headers : gmap string string)
    (candidates : list (string * string)) : M (option (list MCPTool * string)) :=
  match candidates with
  | [] => ret None
  | (base, path) :: more =>
      let* found :=
        tryCatch
          (let* res := fetch site_discover
                         {| req_url := base +:+ path; req_method := "GET";
                            req_headers := headers; req_body := None |} in
           if negb (ok res) then ret None
           else
             let* data := resJson res in
             let list :=
               match JS.optGet data "tools" with
               | JArr ts => JArr ts
               | _ => match data with
                      | JArr ds => JArr ds
                      | _ => JArr []
                      end
               end in
             if 0 <? Z.of_nat (length (castTools list)) then
               modify (fun w => set_protocol (<[base := proto_rest]> (serverProtocol w)) w);;
               ret (Some (castTools list, base))
             else ret None)
          (fun _ => ret None) in
      match found with
      | Some r => ret (Some r)
      | None => fetchToolsRest headers more
      end
  end.

Definition fetchToolsFromServer (baseUrl : string) (rootUrl : option string)
    (serverName : string) : M (list MCPTool * string) :=
  let* viaMcp :=
    tryCatch
      (let* tools := mcpListTools baseUrl in
       if 0 <? Z.of_nat (length tools) then
         modify (fun w => set_protocol (<[baseUrl := proto_mcp]> (serverProtocol w)) w);;
         ret (Some (tools, baseUrl))
       else ret None)
      (fun _ => ret None) in
  match viaMcp with
  | Some r => ret r
  | None =>
      if negb (String.eqb serverName "travel") then
        let* headers := getMCPAuthHeaders (Some baseUrl) in
        let baseForRest := stripSuffix "/mcp" baseUrl in
        let bases := if optTruthy rootUrl
                     then [default "" rootUrl; baseForRest]
                     else [baseForRest] in
        let paths := ["/api/tools"; "/tools"] in
        let* viaRest :=
          fetchToolsRest headers
            (flat_map (fun base => map (fun path => (base, path)) paths) bases) in
        match viaRest with
        | Some r => ret r
        | None => ret ([], baseUrl)
        end
      else ret ([], baseUrl)
  end.

(** *** Configured servers *)

Definition normalizeBaseUrl (url : string) : string * string :=
  let baseUrl := stripSuffix "/" url in
  let baseUrl := if negb (endsWith baseUrl "/mcp") then baseUrl +:+ "/mcp" else baseUrl in
  (baseUrl, stripSuffix "/mcp" baseUrl).

Definition getMcpServerUrls : list Server :=
  let googleUrl := trim E (MCP_GOOGLE_URL E) in
  let travelUrl := trim E (MCP_TRAVEL_URL E) in
  let serpKey := trim E (SERPAPI_API_KEY E) in
  ((if JSString.truthy googleUrl
    then [ {| baseUrl := fst (normalizeBaseUrl googleUrl); name := "google";
              rootUrl := Some (snd (normalizeBaseUrl googleUrl)) |} ]
    else [])
   ++
   (if JSString.truthy travelUrl
    then [ {| baseUrl := fst (normalizeBaseUrl travelUrl); name := "travel";
              rootUrl := Some (snd (normalizeBaseUrl travelUrl)) |} ]
    else if JSString.truthy serpKey
    then [ {| baseUrl := "https://mcp.serpapi.com/" +:+ encodeURIComponent E serpKey
                         +:+ "/mcp";
              name := "travel"; rootUrl := None |} ]
    else []))%list.

(** *** Initialize / list / call *)

(** [table[key] = value] on a routing table, which is a plain object, for
    a string [value]. The key "__proto__" names the accessor property of
    [Object.prototype]; its setter ignores a value that is neither an
    object nor [null], so nothing is stored under it. *)
Definition setRoute (key value : string) (table : gmap string string)
    : gmap string string :=
  if String.eqb key "__proto__" then table else <[key := value]> table.

(** [for (const t of tools) { allTools.push(t); toolToServer[t.name] = baseUrlForCalls; }]
    on the local table of [initializeMCPConnection]. *)
Definition recordTools (tools : list MCPTool) (baseUrlForCalls : string)
    (acc : list MCPTool * gmap string string) : list MCPTool * gmap string string :=
  fold_left (fun a t => ((fst a ++ [t])%list, setRoute (tool_name t) baseUrlForCalls (snd a)))
            tools acc.

(** The discovery loop of [initializeMCPConnection]. *)
Fixpoint initializeLoop (servers : list Server)
    (acc : list MCPTool * gmap string string) : M (list MCPTool * gmap string string) :=
  match servers with
  | [] => ret acc
  | s :: more =>
      let* acc' :=
        tryCatch
          (let* r := fetchToolsFromServer (baseUrl s) (rootUrl s) (name s) in
           ret (recordTools (fst r) (snd r) acc))
          (fun _ => ret acc) in
      initializeLoop more acc'
  end.

Definition initializeMCPConnection : M MCPSession :=
  loadPersistedAuth;;
  let* now := dateNow in
  let sessionId := "session-" +:+ numberToString E now in
  let servers := getMcpServerUrls in
  let* r := initializeLoop servers ([], ∅) in
  let allTools := fst r in
  let toolToServer := snd r in
  if (length allTools =? 0)%nat then
    throw "No MCP tools available from any server. Check server URLs and health."
  else
    modify (set_toolToServerMap toolToServer);;
    let session := {| sessionId := sessionId; connected := true;
                      tools := allTools; toolToServer := toolToServer |} in
    modify (set_currentSession (Some session));;
    let* _ := getMCPAuthMode in
    ret session.

(** [for (const t of tools) { allTools.push(t); toolToServerMap[t.name] = baseUrlForCalls; }]
    on the module-level table, as [listMCPTools] does. *)
Fixpoint pushTools (tools : list MCPTool) (baseUrlForCalls : string)
    (allTools : list MCPTool) : M (list MCPTool) :=
  match tools with
  | [] => ret allTools
  | t :: more =>
      modify (fun w => set_toolToServerMap
                (setRoute (tool_name t) baseUrlForCalls (toolToServerMap w)) w);;
      pushTools more baseUrlForCalls (allTools ++ [t])
  end.

(** The discovery loop of [listMCPTools]. *)
Fixpoint listLoop (servers : list Server) (allTools : list MCPTool) : M (list MCPTool) :=
  match servers with
  | [] => ret allTools
  | s :: more =>
      let* allTools' :=
        tryCatch
          (let* r := fetchToolsFromServer (baseUrl s) (rootUrl s) (name s) in
           pushTools (fst r) (snd r) allTools)
          (fun _ => ret allTools) in
      listLoop more allTools'
  end.

(** [listMCPTools], over a given list of configured servers. *)
Definition listMCPToolsOf (servers : list Server) : M (list MCPTool) :=
  loadPersistedAuth;;
  modify (set_toolToServerMap ∅);;
  listLoop servers [].

Definition listMCPTools : M (list MCPTool) := listMCPToolsOf getMcpServerUrls.

(** The [for (const url of callUrls)] loop of [callMCPTool]; [response]
    is the variable of that name, the last response received. *)
Fixpoint callLoop (callUrls : list string) (headers : gmap string string)
    (body : JValue) (response : option Response) : M (option Response) :=
  match callUrls with
  | [] => ret response
  | url :: more =>
      let* res := fetch site_call {| req_url := url; req_method := "POST";
                                     req_headers := headers;
                                     req_body := Some body |} in
      if ok res then ret (Some res)
      else if status res =? 401 then
        let* rt := gets googleRefreshToken in
        if optTruthy rt then
          let* refreshed := refreshGoogleToken cause_unauthorized in
          if refreshed then
            let* retryHeaders := getMCPAuthHeaders None in
            let* retryRes := fetch site_retry
                               {| req_url := url; req_method := "POST";
                                  req_headers := retryHeaders;
                                  req_body := Some body |} in
            if ok retryRes then ret (Some retryRes)
            else callLoop more headers body (Some retryRes)
          else callLoop more headers body (Some res)
        else
          clearMCPGoogleToken;;
          emitAuthEvent needs_relogin;;
          callLoop more headers body (Some res)
      else callLoop more headers body (Some res)
  end.

(** What [callMCPTool] makes of the last response of the REST path. *)
Definition decodeCallResponse (normalizedToolName : string)
    (response : option Response) : M MCPToolResult :=
  match response with
  | None => ret (errorResult ("Error: No call endpoint responded for "
                              +:+ normalizedToolName))
  | Some response =>
      let parsed :=
        if JSString.truthy (bodyText response)
        then JSON_parse E (bodyText response)
        else Some (JObj []) in
      match parsed with
      | None =>
          ret (errorResult ("Error: Server returned " +:+ pretty (status response)
                            +:+ " (" +:+ statusText response +:+ "). Not valid JSON."))
      | Some data =>
          match JS.get data "error" with
          | None => throw (faultMessage E (fault_property "error" data))
          | Some err =>
              if negb (ok response) then
                ret (errorResult ("Error: " +:+
                       (if JS.truthy err then ToString E err else statusText response)))
              else if JS.truthy err then
                ret (errorResult ("Error: " +:+ ToString E err))
              else
                let result := JS.optGet data "result" in
                match result with
                | JStr s => ret (textResult (Some s))
                | _ =>
                    if JS.truthy (JS.optGet result "content")
                    then ret result
                    else ret (textResult (JSON_stringify_pretty E result))
                end
          end
      end
  end.

(** [toolToServerMap[normalizedToolName] ||
     (MCP_SERVER_URL ? MCP_SERVER_URL.replace(/\/$/, "") : "")] *)
Definition resolveBaseUrl (routes : gmap string string) (normalizedToolName : string)
    : string :=
  if optTruthy (routes !! normalizedToolName)
  then default "" (routes !! normalizedToolName)
  else if JSString.truthy MCP_SERVER_URL then stripSuffix "/" MCP_SERVER_URL
  else "".

(** The server URL [callMCPTool] resolves for [toolName] in world [w]. *)
Definition serverUrlFor (w : World) (toolName : string) : string :=
  resolveBaseUrl (toolToServerMap w) (normalizeToolName (currentSession w) toolName).

(** The [try] block of [callMCPTool]. *)
Definition callMCPToolBody (toolName : string) (args : JValue) : M MCPToolResult :=
  let* session := gets currentSession in
  let normalizedToolName := normalizeToolName session toolName in
  let* routes := gets toolToServerMap in
  let baseUrl := resolveBaseUrl routes normalizedToolName in
  if negb (JSString.truthy baseUrl) then
    ret (errorResult ("No MCP server configured for tool: " +:+ normalizedToolName
                      +:+ ". Set EXPO_PUBLIC_MCP_SERVER_URL or connect MCP."))
  else if includes baseUrl "localhost" || startsWith baseUrl "http://127.0.0.1" then
    ret (errorResult ("MCP is pointing at localhost (" +:+ baseUrl
                      +:+ "). Set EXPO_PUBLIC_MCP_SERVER_URL to your deployed MCP URL."))
  else
    let* _ := getMCPAuthMode in
    let* protocols := gets serverProtocol in
    match protocols !! baseUrl with
    | Some proto_mcp => mcpCallTool baseUrl normalizedToolName args
    | _ =>
        let restBase := orElse (stripMcpSuffix baseUrl) baseUrl in
        let* headers := getMCPAuthHeaders (Some baseUrl) in
        let callUrls := [restBase +:+ "/api/call"; restBase +:+ "/call"] in
        let* response :=
          callLoop callUrls headers
            (JObj [("name", JStr normalizedToolName); ("arguments", args)]) None in
        decodeCallResponse normalizedToolName response
    end.

Definition callMCPTool (toolName : string) (args : JValue) : M MCPToolResult :=
  tryCatch (callMCPToolBody toolName args)
    (fun message =>
       ret (errorResult ("Error calling " +:+ toolName +:+ ": " +:+ message))).

End Client.

(* ===================================================================== *)
(** ** The core agent *)
(* ===================================================================== *)

Section Brain.

Context (E : Env).

Definition MODEL : string := "gemini-3-flash-preview".
Definition FALLBACK_MODEL : string := "gemini-2.5-flash".
Definition MAX_TOOL_ITERATIONS : Z := 8.

(** *** Skill detection *)

(** The inner loop of [detectRelevantSkills]: does some trigger occur in
    the lower-cased message? ([break] on the first that does.) *)
Fixpoint anyTrigger (messageLower : string) (triggers : list string) : bool :=
  match triggers with
  | [] => false
  | trigger :: more =>
      if includes messageLower (toLowerCase E trigger) then true
      else anyTrigger messageLower more
  end.

(** The outer loop, pushing onto [relevantSkills]. *)
Fixpoint detectLoop (messageLower : string) (skills : list AgentSkill)
    (relevantSkills : list string) : list string :=
  match skills with
  | [] => relevantSkills
  | skill :: more =>
      if negb (skill_enabled skill) then detectLoop messageLower more relevantSkills
      else if anyTrigger messageLower (skill_triggers skill)
           then detectLoop messageLower more (relevantSkills ++ [skill_id skill])
           else detectLoop messageLower more relevantSkills
  end.

Definition detectRelevantSkills (message : string) (soul : AgentSoul) : list string :=
  detectLoop (toLowerCase E message) (soul_skills soul) [].

(** [xs.includes(x)] on an array of strings. *)
Definition arrayIncludes (xs : list string) (x : string) : bool :=
  existsb (String.eqb x) xs.

Definition needsWorkspace (skills : list string) : bool :=
  let workspaceSkills :=
    ["gmail_manage"; "calendar_manage"; "drive_manage"; "contacts_manage"] in
  existsb (fun s => arrayIncludes workspaceSkills s) skills.

Definition travelHints : list string :=
  [ "flight"; "flights"; "fly"; "flying"; "airline";
    "hotel"; "hotels"; "stay"; "accommodation"; "book";
    "travel"; "trip"; "vacation"; "holiday";
    "airport"; "departure"; "arrival"; "outbound"; "return date";
    "one way"; "round trip";
    "cheapest flight"; "budget hotel"; "find budget";
    "check in"; "check out"; "check-in"; "check-out";
    "hotel details"; "hotel rating"; "sort by price"; "sort by rating" ].

Definition needsTravel (skills : list string) (message : string) : bool :=
  if arrayIncludes skills "travel_search" then
    let query := toLowerCase E message in
    existsb (fun hint => includes query hint) travelHints
  else false.

Definition needsCalendar (skills : list string) : bool :=
  arrayIncludes skills "calendar_manage".

Definition realtimeHints : list string :=
  [ "today"; "current"; "latest"; "news"; "price"; "rate"; "cost"; "stock";
    "market"; "silver"; "gold"; "crypto"; "weather"; "who won"; "score";
    "election"; "convert"; "conversion"; "how many"; "how much is";
    "exchange rate" ].

Definition needsSearch (skills : list string) (message : string) : bool :=
  if arrayIncludes skills "web_search" then true
  else
    let query := toLowerCase E message in
    existsb (fun hint => includes query hint) realtimeHints.

(** *** Tool building *)

Definition EXCLUDED_MCP_TOOLS : list string :=
  [ "search"; "get_cache_stats"; "clear_cache" ].

Definition declarationOf (tool : MCPTool) : FunctionDeclaration :=
  {| fd_name := tool_name tool;
     fd_description := tool_description tool;
     fd_properties :=
       map (fun kv =>
              (fst kv,
               {| gp_type := if String.eqb (prop_type (snd kv)) "number"
                             then "number" else "string";
                  gp_description :=
                    if optTruthy (prop_description (snd kv))
                    then default "" (prop_description (snd kv)) else "" |}))
           (default [] (schema_properties (tool_inputSchema tool)));
     fd_required := default [] (schema_required (tool_inputSchema tool)) |}.

Definition buildMCPFunctionDeclarations (state : BrainState) : list FunctionDeclaration :=
  if negb (mcpConnected state) || (length (mcpTools state) =? 0)%nat then []
  else map declarationOf
         (List.filter (fun tool => negb (arrayIncludes EXCLUDED_MCP_TOOLS (tool_name tool)))
                 (mcpTools state)).

(** The routing flags of a turn. *)
Record Routing : Type := {
  useWorkspace : bool;
  useTravel : bool;
  useSearch : bool;
  useCalendar : bool
}.

Definition routingOf (state : BrainState) (message : string) (skills : list string)
    : Routing :=
  {| useWorkspace := needsWorkspace skills && mcpConnected state;
     useTravel := needsTravel skills message && mcpConnected state;
     useSearch := needsSearch skills message;
     useCalendar := needsCalendar skills |}.

(** The [tools] array of [chat]. *)
Definition buildTools (state : BrainState) (r : Routing) : list ToolEntry :=
  let mcpFunctions :=
    if useWorkspace r || useTravel r then buildMCPFunctionDeclarations state else [] in
  if (0 <? length mcpFunctions)%nat then [functionDeclarations mcpFunctions]
  else if useSearch r then [googleSearch]
  else [].

(** *** The agentic loop *)

(** [await ai.models.generateContent({ model, contents, config })] *)
Definition generate (req : ModelRequest) : M GenerateContentResponse :=
  fun w =>
    let w' := set_trace (trace w ++ [EvModel req]) w in
    match generateContent E (trace w) req with
    | ModelError msg => (Throw msg, w')
    | ModelResponse r => (Ok r, w')
    end.

(** The [for (let attempt = 0; attempt < 2; attempt++)] loop: the primary
    model, then once the fallback model; the second failure is rethrown.
    Returns the response and the model that gave it. *)
Definition generateWithFallback (contents : list Content) (systemInstruction : string)
    (tools : list ToolEntry) : M (GenerateContentResponse * string) :=
  let request model := {| mr_model := model; mr_contents := contents;
                          mr_systemInstruction := systemInstruction;
                          mr_tools := tools |} in
  tryCatch
    (let* response := generate (request MODEL) in ret (response, MODEL))
    (fun _ =>
       let* response := generate (request FALLBACK_MODEL) in
       ret (response, FALLBACK_MODEL)).

(** [candidates[0]?.content?.parts || []] *)
Definition partsOf (response : GenerateContentResponse) : list Part :=
  match resp_candidates response with
  | firstCandidate :: _ => default [] (cand_parts firstCandidate)
  | [] => []
  end.

Definition hasFunctionCall (p : Part) : bool :=
  match part_functionCall p with
  | Some _ => true
  | None => false
  end.

(** [c.text || JSON.stringify(c)] for an element [c] of [result.content]:
    reading [c.text] is a TypeError when [c] is [null] or [undefined]. *)
Definition itemText (c : JValue) : Result JValue :=
  match JS.get c "text" with
  | None => Throw (faultMessage E (fault_property "text" c))
  | Some text =>
      if JS.truthy text then Ok text
      else Ok match JSON_stringify E c with
              | Some s => JStr s
              | None => JUndefined
              end
  end.

(** [items.map((c) => c.text || JSON.stringify(c))]: the elements are
    visited in order, and the first exception ends the visit. *)
Fixpoint itemTexts (items : list JValue) : Result (list JValue) :=
  match items with
  | [] => Ok []
  | c :: more =>
      match itemText c with
      | Throw e => Throw e
      | Ok text =>
          match itemTexts more with
          | Throw e => Throw e
          | Ok texts => Ok (text :: texts)
          end
      end
  end.

(** How [Array.prototype.join] writes an element: nothing for [null] and
    [undefined], the string itself, [String(v)] for another value. *)
Definition joined (v : JValue) : string :=
  match v with
  | JUndefined | JNull => ""
  | _ => asString E v
  end.

(** [result.content.map((c) => c.text || JSON.stringify(c)).join("\n")].
    The code does not look at the shape of [result]: reading
    [result.content] is a TypeError when [result] is [null] or
    [undefined], reading [.map] is one when the content is, and calling
    it is one when the content is not an array. *)
Definition resultTextOf (result : MCPToolResult) : Result string :=
  match JS.get result "content" with
  | None => Throw (faultMessage E (fault_property "content" result))
  | Some (JArr items) =>
      match itemTexts items with
      | Throw e => Throw e
      | Ok texts => Ok (join (String newline EmptyString) (map joined texts))
      end
  | Some JUndefined => Throw (faultMessage E (fault_property "map" JUndefined))
  | Some JNull => Throw (faultMessage E (fault_property "map" JNull))
  | Some _ => Throw (faultMessage E (fault_not_a_function "result.content.map"))
  end.

(** [result.isError], as a condition. *)
Definition isErrorSet (result : MCPToolResult) : bool :=
  JS.truthy (JS.optGet result "isError").

Definition functionResponsePart (toolName resultText : string) : Part :=
  {| part_text := None; part_thought := false; part_functionCall := None;
     part_functionResponse := Some {| fr_name := toolName; fr_result := resultText |} |}.

(** The [for (const part of functionCallParts)] loop. [toolCalls] is the
    array of the turn, which lives outside the [try] block: what has been
    pushed stays pushed when an exception leaves the loop. *)
Fixpoint dispatch (functionCalls : list FunctionCall) (toolCalls : list ToolCall)
    (functionResponses : list Part) (w : World)
    : Result (list Part) * list ToolCall * World :=
  match functionCalls with
  | [] => (Ok functionResponses, toolCalls, w)
  | functionCall :: more =>
      let toolName := fc_name functionCall in
      let toolArgs := default (JObj []) (fc_args functionCall) in
      match (emit (EvAgent (ev_tool_call toolName toolArgs));;
             callMCPTool E toolName toolArgs) w with
      | (Throw e, w1) => (Throw e, toolCalls, w1)
      | (Ok result, w1) =>
          match resultTextOf result with
          | Throw e => (Throw e, toolCalls, w1)
          | Ok resultText =>
              let toolCalls' :=
                toolCalls ++ [ {| tc_name := toolName; tc_args := toolArgs;
                                  tc_result := Some resultText;
                                  tc_status := if isErrorSet result
                                               then status_error else status_success |} ] in
              match emit (EvAgent (ev_tool_result toolName (negb (isErrorSet result)))) w1 with
              | (Throw e, w2) => (Throw e, toolCalls', w2)
              | (Ok _, w2) =>
                  dispatch more toolCalls'
                    (functionResponses ++ [functionResponsePart toolName resultText]) w2
              end
          end
      end
  end.

(** The local variables of the loop. *)
Record LoopState : Type := {
  iteration : Z;
  currentContents : list Content;
  finalResponse : option GenerateContentResponse;
  lastModelUsed : string;
  toolCalls : list ToolCall
}.

(** How one pass through the body of the [try] block ends. *)
Inductive Step : Type :=
| StepBreak (st : LoopState)          (* [break]: a final response *)
| StepNext (st : LoopState)           (* back to the loop test *)
| StepCatch (message : string) (toolCalls : list ToolCall).   (* [catch] *)

(** The body of the [while] loop after [iteration++]. *)
Definition iterate (systemInstruction : string) (tools : list ToolEntry)
    (st : LoopState) (w : World) : Step * World :=
  match generateWithFallback (currentContents st) systemInstruction tools w with
  | (Throw e, w1) => (StepCatch e (toolCalls st), w1)
  | (Ok (response, modelToUse), w1) =>
      let functionCallParts := List.filter hasFunctionCall (partsOf response) in
      if (length functionCallParts =? 0)%nat then
        (StepBreak {| iteration := iteration st;
                      currentContents := currentContents st;
                      finalResponse := Some response;
                      lastModelUsed := modelToUse;
                      toolCalls := toolCalls st |}, w1)
      else
        match dispatch (omap part_functionCall functionCallParts) (toolCalls st) [] w1 with
        | (Throw e, toolCalls', w2) => (StepCatch e toolCalls', w2)
        | (Ok functionResponses, toolCalls', w2) =>
            (StepNext {| iteration := iteration st;
                         currentContents :=
                           currentContents st
                           ++ [ {| role := "model"; parts := functionCallParts |};
                                {| role := "user"; parts := functionResponses |} ];
                         finalResponse := finalResponse st;
                         lastModelUsed := modelToUse;
                         toolCalls := toolCalls' |}, w2)
        end
  end.

(** How the [while] loop is left. *)
Inductive LoopExit : Type :=
| LoopDone (st : LoopState)                 (* the test failed, or [break] *)
| LoopReturn (response : AgentResponse).    (* [return] from the [catch] *)

Definition errorResponse (agentName message : string) (toolCalls : list ToolCall)
    : AgentResponse :=
  {| ar_text := "I encountered an error: " +:+ message
                +:+ ". Let me try a different approach.";
     ar_agentName := agentName;
     ar_toolCalls := toolCalls;
     ar_thinking := None;
     ar_error := Some message;
     ar_model := None |}.

Definition withIteration (i : Z) (st : LoopState) : LoopState :=
  {| iteration := i; currentContents := currentContents st;
     finalResponse := finalResponse st; lastModelUsed := lastModelUsed st;
     toolCalls := toolCalls st |}.

(** [while (iteration < MAX_TOOL_ITERATIONS) { iteration++; try {...} catch {...} }].
    [fuel] bounds the number of passes of the model; [None] means it ran out. *)
Fixpoint agenticLoop (fuel : nat) (agentName systemInstruction : string)
    (tools : list ToolEntry) (st : LoopState) (w : World) : option LoopExit * World :=
  if iteration st <? MAX_TOOL_ITERATIONS then
    match fuel with
    | O => (None, w)
    | S fuel' =>
        match iterate systemInstruction tools (withIteration (iteration st + 1) st) w with
        | (StepBreak st', w') => (Some (LoopDone st'), w')
        | (StepNext st', w') => agenticLoop fuel' agentName systemInstruction tools st' w'
        | (StepCatch e toolCalls', w') =>
            (Some (LoopReturn (errorResponse agentName e toolCalls')), w')
        end
    end
  else (Some (LoopDone st), w).

Definition FALLBACK_TEXT : string :=
  "I wasn't able to complete that request. Could you try again?".

(** What follows the loop: the final text (or the fallback message), the
    thinking trace, the "complete" event, the response. *)
Definition finalize (agentName : string) (st : LoopState) : M AgentResponse :=
  let text := match finalResponse st with
              | Some r => if optTruthy (resp_text r)
                          then default "" (resp_text r) else FALLBACK_TEXT
              | None => FALLBACK_TEXT
              end in
  let parts := match finalResponse st with
               | Some r => partsOf r
               | None => []
               end in
  let thinking := match List.find part_thought parts with
                  | Some thoughtPart => part_text thoughtPart
                  | None => None
                  end in
  emit (EvAgent ev_complete);;
  ret {| ar_text := text; ar_agentName := agentName;
         ar_toolCalls := toolCalls st; ar_thinking := thinking;
         ar_error := None; ar_model := Some (lastModelUsed st) |}.

(** [chat] from the comment "Agentic loop" to its end: the loop over the
    contents of the turn, then [finalize]. The result is [None] only if
    [fuel] passes were not enough. *)
Definition agenticTurn (fuel : nat) (agentName systemInstruction : string)
    (tools : list ToolEntry) (contents : list Content) (w : World)
    : option (Result AgentResponse) * World :=
  match agenticLoop fuel agentName systemInstruction tools
          {| iteration := 0; currentContents := contents; finalResponse := None;
             lastModelUsed := MODEL; toolCalls := [] |} w with
  | (None, w') => (None, w')
  | (Some (LoopReturn response), w') => (Some (Ok response), w')
  | (Some (LoopDone st), w') =>
      match finalize agentName st w' with
      | (r, w'') => (Some r, w'')
      end
  end.

(** [chat], from skill detection on. The brain is initialized ([state]);
    [historyContents] is the history window and [systemInstruction] the
    instruction text of the turn, which the loop only hands to the model.
    The memory lookup before the loop and the memory writes after it are
    left out: [getRelevantMemories] catches its own errors, the writes
    are not awaited, and none of them touches the loop's variables or the
    tool client. Of the metadata the model and the error are kept.
    The result is [None] only if [fuel] passes were not enough. *)
Definition chatWithFuel (fuel : nat) (state : BrainState) (message : string)
    (historyContents : list Content) (systemInstruction : string)
    (w : World) : option (Result AgentResponse) * World :=
  let skills := detectRelevantSkills message (soul state) in
  let routing := routingOf state message skills in
  let w0 := set_trace (trace w ++ [EvAgent (ev_thinking skills (useWorkspace routing)
                                              (useTravel routing) (useSearch routing))]) w in
  let contents :=
    historyContents
    ++ [ {| role := "user";
            parts := [ {| part_text := Some message; part_thought := false;
                          part_functionCall := None;
                          part_functionResponse := None |} ] |} ] in
  let tools := buildTools state routing in
  agenticTurn fuel (soul_name (soul state)) systemInstruction tools contents w0.

Definition chat : BrainState -> string -> list Content -> string -> World ->
                  option (Result AgentResponse) * World :=
  chatWithFuel (Z.to_nat MAX_TOOL_ITERATIONS).

End Brain.

(* ===================================================================== *)
(** ** Specification-side predicates *)
(* ===================================================================== *)

(** [trigger] occurs in [message] up to the case of the letters A-Z:
    some substring of [message] differs from [trigger] at most in the
    case of such letters. A trigger that occurs in the message as it is
    written occurs in this sense. *)
Definition occursIgnoringCase (trigger message : string) : Prop :=
  exists pre sub post,
    message = pre +:+ sub +:+ post /\ asciiLowerCase sub = asciiLowerCase trigger.

(** A skill fires on a message: it is enabled and the lower-cased message
    includes the lower-casing of one of its triggers. *)
Definition skillFires (E : Env) (message : string) (skill : AgentSkill) : bool :=
  skill_enabled skill &&
  existsb (fun trigger => includes (toLowerCase E message) (toLowerCase E trigger))
          (skill_triggers skill).

(** On a string of ASCII characters the platform lower-cases the letters
    A-Z and nothing else, as [String.prototype.toLowerCase] does. *)
Definition lowersAscii (E : Env) : Prop :=
  forall s, isAscii s = true -> toLowerCase E s = asciiLowerCase s.

(** The claim "a skill is detected exactly when it is enabled and one of
    its triggers occurs in the message up to case", for one skill of the
    table. *)
Definition detectedIffOccurs (ids : list string) (message : string) (skill : AgentSkill)
    : Prop :=
  In (skill_id skill) ids
  <-> skill_enabled skill = true
      /\ exists trigger, In trigger (skill_triggers skill)
                         /\ occursIgnoringCase trigger message.

(** The names declared as functions in a [tools] array. *)
Definition declaredNames (tools : list ToolEntry) : list string :=
  flat_map (fun entry => match entry with
                         | functionDeclarations fs => map fd_name fs
                         | googleSearch => []
                         end) tools.

Definition declaresFunctions (tools : list ToolEntry) : bool :=
  existsb (fun entry => match entry with
                        | functionDeclarations _ => true
                        | googleSearch => false
                        end) tools.

Definition declaresGoogleSearch (tools : list ToolEntry) : bool :=
  existsb (fun entry => match entry with
                        | functionDeclarations _ => false
                        | googleSearch => true
                        end) tools.

(** [getMCPAuthHeaders] called for each of [urls] in turn. *)
Fixpoint authHeadersMany (E : Env) (urls : list (option string)) : M unit :=
  match urls with
  | [] => ret tt
  | url :: more =>
      tryCatch (let* _ := getMCPAuthHeaders E url in ret tt) (fun _ => ret tt);;
      authHeadersMany E more
  end.

(** The refresh that [getMCPAuthHeaders] attempts in world [w], once it
    has read the clock, fails: [refreshGoogleToken] returns [false]. *)
Definition refreshFails (E : Env) (w : World) : Prop :=
  fst (refreshGoogleToken E cause_expired (set_ticks (S (ticks w)) w)) = Ok false.

(** *** Sample environments

    Concrete platforms and worlds, used to run the definitions. *)

Module Sample.

(** A JSON parser that knows a few bodies. *)
Definition parse (s : string) : option JValue :=
  if String.eqb s "{}" then Some (JObj [])
  else if String.eqb s "token" then
    Some (JObj [("access_token", JStr "fresh"); ("expires_in", JNum 3600)])
  else if String.eqb s "mail-tools" then
    Some (JObj [("result",
                 JObj [("tools", JArr [JObj [("name", JStr "gmail_list_emails")];
                                       JObj [("name", JStr "search")]])])])
  else if String.eqb s "travel-tools" then
    Some (JObj [("result",
                 JObj [("tools", JArr [JObj [("name", JStr "search_flights")];
                                       JObj [("name", JStr "search")]])])])
  else if String.eqb s "flights" then
    Some (JObj [("result",
                 JObj [("content", JArr [JObj [("type", JStr "text");
                                               ("text", JStr "3 flights found")]])])])
  else if String.eqb s "odd-flights" then
    Some (JObj [("result", JObj [("content", JStr "3 flights found")])])
  else None.

(** The messages of an engine's errors. *)
Definition engineMessage (fault : EngineFault) : string :=
  match fault with
  | fault_json _ => "Unexpected token in JSON"
  | fault_property key JNull =>
      "Cannot read properties of null (reading '" +:+ key +:+ "')"
  | fault_property key _ =>
      "Cannot read properties of undefined (reading '" +:+ key +:+ "')"
  | fault_not_a_function callee => callee +:+ " is not a function"
  end.

Definition offline : list Event -> Request -> FetchOutcome :=
  fun _ _ => FetchError "Network request failed".

Definition silent : list Event -> ModelRequest -> ModelOutcome :=
  fun _ _ => ModelError "model unavailable".

(** A platform with the given configuration, network and model backend;
    the clock stands at 1000 and secure storage works. Its string
    operations are those of JavaScript on ASCII strings. *)
Definition platform (google travel apiKey : string)
    (network : list Event -> Request -> FetchOutcome)
    (backend : list Event -> ModelRequest -> ModelOutcome) : Env :=
  {| MCP_GOOGLE_URL := google;
     MCP_TRAVEL_URL := travel;
     SERPAPI_API_KEY := "";
     MCP_API_KEY := apiKey;
     net := network;
     clock := fun _ => 1000;
     storeFault := fun _ => None;
     generateContent := backend;
     faultMessage := engineMessage;
     toLowerCase := asciiLowerCase;
     trim := asciiTrim;
     JSON_parse := parse;
     JSON_stringify := fun v => match v with
                                | JUndefined => None
                                | _ => Some "{...}"
                                end;
     JSON_stringify_pretty := fun v => match v with
                                       | JUndefined => None
                                       | _ => Some "{...}"
                                       end;
     ToString := fun v => match v with
                          | JStr s => s
                          | _ => "[object Object]"
                          end;
     ToNumber := fun v => match v with
                          | JNum n => Num n
                          | _ => NaN
                          end;
     numberToString := fun _ => "0";
     parseInt10 := fun _ => NaN;
     encodeURIComponent := fun s => s |}.

(** The initial world with a cached OAuth credential. *)
Definition signedIn (access : string) (refresh : option string) (expiry : Z) : World :=
  set_expiry (Num expiry) (set_refresh refresh (set_access (Some access) initialWorld)).

(** A workspace server, unreachable, and a token that expired at 500. *)
Definition expiredEnv : Env :=
  platform "https://workspace.example/mcp" "" "" offline silent.

Definition expiredWorld : World := signedIn "stale" (Some "r1") 500.

(** A workspace server that answers every call with 401 and every
    refresh request with a new token, and a cached token that has not
    expired. *)
Definition unauthorized : list Event -> Request -> FetchOutcome :=
  fun _ req =>
    if endsWith (req_url req) "/auth/refresh"
    then FetchResponse {| status := 200; statusText := "OK"; contentType := None;
                          mcpSessionId := None; bodyText := "token" |}
    else FetchResponse {| status := 401; statusText := "Unauthorized";
                          contentType := None; mcpSessionId := None;
                          bodyText := "" |}.

Definition unauthorizedEnv : Env :=
  platform "https://workspace.example/mcp" "" "" unauthorized silent.

Definition validWorld : World := signedIn "old" (Some "r1") 5000.

(** Two servers that speak the MCP protocol; both offer a tool named
    "search". *)
Definition listing (body : string) : FetchOutcome :=
  FetchResponse {| status := 200; statusText := "OK";
                   contentType := Some "application/json";
                   mcpSessionId := Some "session-1"; bodyText := body |}.

Definition catalogs : list Event -> Request -> FetchOutcome :=
  fun _ req =>
    if String.eqb (req_url req) "https://workspace.example/mcp" then listing "mail-tools"
    else if String.eqb (req_url req) "https://travel.example/mcp" then listing "travel-tools"
    else FetchError "Network request failed".

Definition twoServersEnv : Env :=
  platform "https://workspace.example/mcp" "https://travel.example/mcp" "" catalogs silent.




Definition travelServer : Server :=
  {| baseUrl := "https://travel.example/mcp"; name := "travel";
     rootUrl := Some "https://travel.example" |}.

(** A backend whose every response requests one more tool call, and a
    deployment without any tool server. *)
Definition insistent : list Event -> ModelRequest -> ModelOutcome :=
  fun _ _ =>
    ModelResponse
      {| resp_candidates :=
           [ {| cand_parts :=
                  Some [ {| part_text := None; part_thought := false;
                            part_functionCall :=
                              Some {| fc_name := "search_flights"; fc_args := None |};
                            part_functionResponse := None |} ] |} ];
         resp_text := None |}.

Definition insistentEnv : Env := platform "" "" "" offline insistent.

(** The same deployment while the primary model is down: only the
    fallback model answers. *)
Definition fallbackOnly : list Event -> ModelRequest -> ModelOutcome :=
  fun history req =>
    if String.eqb (mr_model req) MODEL then ModelError "model overloaded"
    else insistent history req.

Definition fallbackOnlyEnv : Env := platform "" "" "" offline fallbackOnly.

(** The same backend with a travel server that answers every request
    with 200 and the given body. With the body "flights" the result of a
    call has the declared shape; with "odd-flights" its [content] is a
    string. *)
Definition answering (body : string) : list Event -> Request -> FetchOutcome :=
  fun _ _ => FetchResponse {| status := 200; statusText := "OK";
                              contentType := Some "application/json";
                              mcpSessionId := None; bodyText := body |}.

Definition flightsEnv : Env :=
  platform "" "https://travel.example/mcp" "" (answering "flights") insistent.

Definition oddFlightsEnv : Env :=
  platform "" "https://travel.example/mcp" "" (answering "odd-flights") insistent.

Definition bareBrain : BrainState :=
  {| soul := {| soul_name := "2nd Brain"; soul_skills := [] |};
     mcpTools := []; mcpConnected := false |}.

(** A platform with another [toLowerCase]. *)
Definition withLowerCase (lower : string -> string) (E : Env) : Env :=
  {| MCP_GOOGLE_URL := MCP_GOOGLE_URL E;
     MCP_TRAVEL_URL := MCP_TRAVEL_URL E;
     SERPAPI_API_KEY := SERPAPI_API_KEY E;
     MCP_API_KEY := MCP_API_KEY E;
     net := net E;
     clock := clock E;
     storeFault := storeFault E;
     generateContent := generateContent E;
     faultMessage := faultMessage E;
     toLowerCase := lower;
     trim := trim E;
     JSON_parse := JSON_parse E;
     JSON_stringify := JSON_stringify E;
     JSON_stringify_pretty := JSON_stringify_pretty E;
     ToString := ToString E;
     ToNumber := ToNumber E;
     numberToString := numberToString E;
     parseInt10 := parseInt10 E;
     encodeURIComponent := encodeURIComponent E |}.

(** Two Greek capitals, alpha and sigma, and the same followed by another
    alpha. JavaScript lower-cases the sigma of the first to the final
    form (it ends the word) and the sigma of the second to the medial
    form. *)
Definition greekTrigger : string := "ΑΣ".
Definition greekMessage : string := "ΑΣΑ".

(** A [toLowerCase] that knows these two words, and ASCII text. *)
Definition greekLower (s : string) : string :=
  if String.eqb s greekTrigger then "ας"
  else if String.eqb s greekMessage then "ασα"
  else asciiLowerCase s.

Definition greekEnv : Env := withLowerCase greekLower (platform "" "" "" offline silent).

Definition greekSkill : AgentSkill :=
  {| skill_id := "greek"; skill_name := "Greek"; skill_description := "";
     skill_category := "language"; skill_triggers := [greekTrigger];
     skill_enabled := true |}.

Definition greekSoul : AgentSoul :=
  {| soul_name := "2nd Brain"; soul_skills := [greekSkill] |}.

(** A deployment whose server URL was left at a development address. *)
Definition localEnv : Env :=
  platform "http://localhost:8000/mcp" "" "" offline silent.

End Sample.

(** The data the REST path of [callMCPTool] reads from a response body:
    an empty body counts as [{}]. *)
Definition restData (E : Env) (res : Response) : option JValue :=
  if JSString.truthy (bodyText res) then JSON_parse E (bodyText res)
  else Some (JObj []).

(** The JSON-RPC envelope [parseMcpResponse] reads from a response. *)
Definition rpcData (E : Env) (res : Response) : option JValue :=
  if includes (default "" (contentType res)) "text/event-stream"
  then firstEnvelope E (splitOn newline (bodyText res))
  else JSON_parse E (bodyText res).

(** What [callMCPTool] makes of the [result] a server sent: the value
    itself, unexamined, when it has a (truthy) [content]; one text item
    otherwise, with the string or the JSON text of the value. *)
Definition resultOf (E : Env) (result : JValue) : MCPToolResult :=
  if JS.truthy (JS.optGet result "content") then result
  else match result with
       | JStr s => textResult (Some s)
       | _ => textResult (JSON_stringify_pretty E result)
       end.

(** The last event between [w] and [w'] is a POST to a call path (first
    or retried), which the network answered with [res]. *)
Definition lastAnswer (E : Env) (w w' : World) (res : Response) : Prop :=
  exists evs site req,
    trace w' = trace w ++ evs ++ [EvFetch site req]
    /\ (site = site_call \/ site = site_retry)
    /\ net E (trace w ++ evs) req = FetchResponse res.

(** The last event between [w] and [w'] is a request of a tool call - a
    POST to a call path, first or retried, or a JSON-RPC request - which
    the network answered with a 2xx response whose body could be read,
    has no (truthy) [error] field, and has [result] as its [result]. *)
Definition answeredWith (E : Env) (w w' : World) (result : JValue) : Prop :=
  exists evs site req res data,
    trace w' = trace w ++ evs ++ [EvFetch site req]
    /\ net E (trace w ++ evs) req = FetchResponse res
    /\ ok res = true
    /\ match site with
       | site_call | site_retry => restData E res = Some data
       | site_rpc => rpcData E res = Some data
       | site_refresh | site_discover => False
       end
    /\ JS.truthy (JS.optGet data "error") = false
    /\ result = JS.optGet data "result".

(** *** Discovery passes *)

(** What one endpoint contributes to a discovery pass: the tools
    [fetchToolsFromServer] returned and the URL to call them at; nothing
    when it threw. *)
Definition contributionOf (s : Server) (r : Result (list MCPTool * string))
    : list MCPTool * string :=
  match r with
  | Ok c => c
  | Throw _ => ([], baseUrl s)
  end.

(** The routing table after the tools of a contribution are entered. *)
Definition recordRoutes (c : list MCPTool * string) (table : gmap string string)
    : gmap string string :=
  fold_left (fun m t => setRoute (tool_name t) (snd c) m) (fst c) table.

(** The contributions of the endpoints in a discovery pass that starts in
    world [w], in order, and the world it ends in. Each endpoint is
    queried in the world the earlier ones left; [listMCPTools] enters the
    routes in the module-level table as it goes ([live]),
    [initializeMCPConnection] collects them in a local table. *)
Fixpoint discoveries (E : Env) (live : bool) (servers : list Server) (w : World)
    : list (list MCPTool * string) * World :=
  match servers with
  | [] => ([], w)
  | s :: more =>
      let (r, w1) := fetchToolsFromServer E (baseUrl s) (rootUrl s) (name s) w in
      let c := contributionOf s r in
      let w2 := if live
                then set_toolToServerMap (recordRoutes c (toolToServerMap w1)) w1
                else w1 in
      let (cs, w') := discoveries E live more w2 in
      (c :: cs, w')
  end.

(** The merged catalog: the contributions, concatenated. *)
Definition catalogOf (cs : list (list MCPTool * string)) : list MCPTool :=
  concat (map fst cs).

(** The routing table built from the contributions, starting empty. *)
Definition routesOf (cs : list (list MCPTool * string)) : gmap string string :=
  fold_left (fun m c => recordRoutes c m) cs ∅.

(** The endpoint that last contributed a tool named [toolName]. *)
Definition lastOwner (toolName : string) (cs : list (list MCPTool * string))
    : option string :=
  fold_left (fun owner c =>
               if existsb (fun t => String.eqb (tool_name t) toolName) (fst c)
               then Some (snd c) else owner)
            cs None.

(** The world in which the discovery loop of [listMCPTools] starts. *)
Definition listingStart (E : Env) (w : World) : World :=
  set_toolToServerMap ∅ (snd (loadPersistedAuth E w)).

(** The world in which the discovery loop of [initializeMCPConnection]
    starts. *)
Definition initializeStart (E : Env) (w : World) : World :=
  snd ((loadPersistedAuth E;; dateNow E) w).



(** The claim "the merged catalog is de-duplicated by tool name". *)
Definition catalogDeduplicated (E : Env) (servers : list Server) (w : World) : Prop :=
  match fst (listMCPToolsOf E servers w) with
  | Ok catalog => List.NoDup (map tool_name catalog)
  | Throw _ => True
  end.

(** *** Tool invocations of a turn *)

(** The tool invocations made for the function calls of one model
    response, in order, each with the result [callMCPTool] returned, and
    the world they leave. An invocation from whose result no text can be
    derived is the last one: the exception ends the pass. *)
Fixpoint invocations (E : Env) (functionCalls : list FunctionCall) (w : World)
    : list (FunctionCall * MCPToolResult) * World :=
  match functionCalls with
  | [] => ([], w)
  | functionCall :: more =>
      let toolName := fc_name functionCall in
      let toolArgs := default (JObj []) (fc_args functionCall) in
      match callMCPTool E toolName toolArgs
              (set_trace (trace w ++ [EvAgent (ev_tool_call toolName toolArgs)]) w) with
      | (Ok result, w1) =>
          match resultTextOf E result with
          | Ok _ =>
              let (rest, w') :=
                invocations E more
                  (set_trace (trace w1 ++ [EvAgent (ev_tool_result toolName
                                                      (negb (isErrorSet result)))]) w1) in
              ((functionCall, result) :: rest, w')
          | Throw _ => ([(functionCall, result)], w1)
          end
      | (Throw _, w1) => ([], w1)
      end
  end.

(** The record of an invocation whose result has the text [resultText]. *)
Definition recordOf (inv : FunctionCall * MCPToolResult) (resultText : string)
    : ToolCall :=
  {| tc_name := fc_name (fst inv);
     tc_args := default (JObj []) (fc_args (fst inv));
     tc_result := Some resultText;
     tc_status := if isErrorSet (snd inv) then status_error else status_success |}.

(** The function response handed back to the model for it. *)
Definition responseOf (inv : FunctionCall * MCPToolResult) (resultText : string) : Part :=
  functionResponsePart (fc_name (fst inv)) resultText.

(** The records of a list of invocations: one for each invocation from
    whose result a text can be derived. *)
Definition recordsOf (E : Env) (invs : list (FunctionCall * MCPToolResult))
    : list ToolCall :=
  omap (fun inv => match resultTextOf E (snd inv) with
                   | Ok resultText => Some (recordOf inv resultText)
                   | Throw _ => None
                   end) invs.

Definition responsesOf (E : Env) (invs : list (FunctionCall * MCPToolResult))
    : list Part :=
  omap (fun inv => match resultTextOf E (snd inv) with
                   | Ok resultText => Some (responseOf inv resultText)
                   | Throw _ => None
                   end) invs.

(** The exception of the first invocation, if any, from whose result no
    text can be derived. *)
Fixpoint unreadable (E : Env) (invs : list (FunctionCall * MCPToolResult))
    : option string :=
  match invs with
  | [] => None
  | inv :: more =>
      match resultTextOf E (snd inv) with
      | Throw e => Some e
      | Ok _ => unreadable E more
      end
  end.

(** Whatever the network answers, the loop can derive a text from the
    tool result [callMCPTool] would make of the answer: the [content] of
    the [result], when it has one, is an array without [null] elements. *)
Definition readableAnswers (E : Env) : Prop :=
  forall history req res data,
    net E history req = FetchResponse res ->
    restData E res = Some data \/ rpcData E res = Some data ->
    exists resultText,
      resultTextOf E (resultOf E (JS.optGet data "result")) = Ok resultText.

Definition isToolCallEvent (e : Event) : bool :=
  match e with
  | EvAgent (ev_tool_call _ _) => true
  | _ => false
  end.

(** The function calls a model response requests. *)
Definition requestedCalls (response : GenerateContentResponse) : list FunctionCall :=
  omap part_functionCall (List.filter hasFunctionCall (partsOf response)).

(** The loop state at the start of a turn. *)
Definition initialLoopState (contents : list Content) : LoopState :=
  {| iteration := 0; currentContents := contents; finalResponse := None;
     lastModelUsed := MODEL; toolCalls := [] |}.

(** The request of a pass of the loop to [model]. *)
Definition requestFor (systemInstruction : string) (tools : list ToolEntry)
    (st : LoopState) (model : string) : ModelRequest :=
  {| mr_model := model; mr_contents := currentContents st;
     mr_systemInstruction := systemInstruction; mr_tools := tools |}.

(** The number of model requests among [evs] that the backend answered
    with a response (not an error), [history] being the trace before. *)
Fixpoint modelResponses (E : Env) (history evs : list Event) : nat :=
  match evs with
  | [] => 0
  | e :: more =>
      (match e with
       | EvModel req =>
           match generateContent E history req with
           | ModelResponse _ => 1
           | ModelError _ => 0
           end
       | _ => 0
       end + modelResponses E (history ++ [e]) more)%nat
  end.

(** The events appended to the trace between [w] and [w']. *)
Definition eventsSince (w w' : World) : list Event :=
  drop (length (trace w)) (trace w').

(** The passes of the loop still allowed. *)
Definition remaining (st : LoopState) : nat :=
  Z.to_nat (MAX_TOOL_ITERATIONS - iteration st).

(** A backend whose every response requests a tool call (and that always
    responds). *)
Definition alwaysRequestsTool (E : Env) : Prop :=
  forall history req,
    exists response,
      generateContent E history req = ModelResponse response
      /\ List.filter hasFunctionCall (partsOf response) <> [].

(** *** Traces *)

(** [m] never throws. *)
Definition Total {A} (m : M A) : Prop :=
  forall w, exists a w', m w = (Ok a, w').

(** [m] only appends to the trace, and every event it appends is in [P]. *)
Definition Adds {A} (P : Event -> Prop) (m : M A) : Prop :=
  forall w, exists evs, trace (snd (m w)) = trace w ++ evs /\ Forall P evs.

(** [m] leaves the routing table [toolToServerMap] as it is. *)
Definition KeepsRoutes {A} (m : M A) : Prop :=
  forall w, toolToServerMap (snd (m w)) = toolToServerMap w.

(** The events the auth store emits besides the entry into
    [refreshGoogleToken]: auth events and the refresh request. *)
Definition authNoise (e : Event) : Prop :=
  match e with
  | EvAuth _ => True
  | EvFetch site_refresh _ => True
  | _ => False
  end.

(** The events of the auth store when it is entered from
    [getMCPAuthHeaders]. *)
Definition authEvent (e : Event) : Prop :=
  authNoise e \/ e = EvRefreshCall cause_expired.

(** The events of mcp-client.ts: everything but model calls and agent
    events. *)
Definition clientEvent (e : Event) : Prop :=
  match e with
  | EvModel _ | EvAgent _ => False
  | _ => True
  end.

Definition isNeedsRelogin (e : Event) : bool :=
  match e with
  | EvAuth needs_relogin => true
  | _ => false
  end.

Definition isRefreshCall (e : Event) : bool :=
  match e with
  | EvRefreshCall _ => true
  | _ => false
  end.

Definition isRefreshFor (cause : RefreshCause) (e : Event) : bool :=
  match e, cause with
  | EvRefreshCall cause_expired, cause_expired => true
  | EvRefreshCall cause_unauthorized, cause_unauthorized => true
  | _, _ => false
  end.

Definition isFetchAt (site : Site) (e : Event) : bool :=
  match e, site with
  | EvFetch site_refresh _, site_refresh => true
  | EvFetch site_rpc _, site_rpc => true
  | EvFetch site_discover _, site_discover => true
  | EvFetch site_call _, site_call => true
  | EvFetch site_retry _, site_retry => true
  | _, _ => false
  end.

Definition isFetch (e : Event) : bool :=
  match e with
  | EvFetch _ _ => true
  | _ => false
  end.

Definition isModelCall (e : Event) : bool :=
  match e with
  | EvModel _ => true
  | _ => false
  end.

Definition isModelCallOf (model : string) (e : Event) : bool :=
  match e with
  | EvModel req => String.eqb (mr_model req) model
  | _ => false
  end.

(** How many events of a kind a trace holds. *)
Definition countEvents (kind : Event -> bool) (evs : list Event) : nat :=
  length (List.filter kind evs).

(** The events [m] appends to the trace of [w]. *)
Definition newEvents {A} (m : M A) (w : World) : list Event :=
  drop (length (trace w)) (trace (snd (m w))).

(** The 401 handling of one invocation, counted on its events: retried
    POSTs, calls of [refreshGoogleToken] made because of a 401, and first
    POSTs to a call path. *)
Definition retries (evs : list Event) : nat := countEvents (isFetchAt site_retry) evs.

Definition refreshesOn401 (evs : list Event) : nat :=
  countEvents (isRefreshFor cause_unauthorized) evs.

Definition firstPosts (evs : list Event) : nat := countEvents (isFetchAt site_call) evs.

(** Calls of [refreshGoogleToken] and refresh requests, whatever caused
    them. *)
Definition refreshCalls (evs : list Event) : nat := countEvents isRefreshCall evs.

Definition refreshPosts (evs : list Event) : nat :=
  countEvents (isFetchAt site_refresh) evs.

(** An event that is none of the three. *)
Definition quiet (e : Event) : Prop :=
  isFetchAt site_retry e = false
  /\ isRefreshFor cause_unauthorized e = false
  /\ isFetchAt site_call e = false.

(** No more retried POSTs than refreshes on a 401, no more of these than
    first POSTs, and at most [n] first POSTs. *)
Definition wellNested (n : nat) (evs : list Event) : Prop :=
  (retries evs <= refreshesOn401 evs)%nat
  /\ (refreshesOn401 evs <= firstPosts evs)%nat
  /\ (firstPosts evs <= n)%nat.

(** The claim "at most one credential refresh and at most one retried
    POST in response to 401 responses, over a single tool invocation". *)
Definition atMostOneRefreshAndRetry (E : Env) (toolName : string) (args : JValue)
    (w : World) : Prop :=
  let evs := newEvents (callMCPTool E toolName args) w in
  (refreshesOn401 evs <= 1)%nat /\ (retries evs <= 1)%nat.

(** How a call of [refreshGoogleToken] ends. It never throws. It returns
    [true] after a refresh request and a "token_refreshed" event. It
    returns [false] either silently, when no token at all is cached, or
    after clearing the credential and emitting "needs_relogin" once. *)
Definition refreshOutcome (cause : RefreshCause) (w : World) (b : bool) (w' : World)
    : Prop :=
  exists evs,
    trace w' = trace w ++ EvRefreshCall cause :: evs
    /\ if b then
         (exists req, evs = [EvFetch site_refresh req; EvAuth token_refreshed])
         /\ optTruthy (googleRefreshToken w) = true
       else
         (evs = [] /\ optTruthy (googleAccessToken w) = false
          /\ optTruthy (googleRefreshToken w) = false
          /\ googleAccessToken w' = googleAccessToken w)
         \/ ((exists pre, evs = pre ++ [EvAuth token_cleared; EvAuth needs_relogin]
                          /\ (pre = [] \/ exists req, pre = [EvFetch site_refresh req]))
             /\ googleAccessToken w' = None
             /\ googleRefreshToken w' = None).

(* ===================================================================== *)
(** ** mcp-client.ts: status, declarations, session helpers *)
(* ===================================================================== *)

Section ClientStatus.

Context (E : Env).

(** [!!_googleAccessToken && _googleTokenExpiry > Date.now()] *)
Definition isGoogleConnected : M bool :=
  let* at_ := gets googleAccessToken in
  if optTruthy at_ then
    let* exp := gets googleTokenExpiry in
    let* now := dateNow E in
    ret (JS.gtb exp now)
  else ret false.

Record MCPAuthStatus : Type := {
  auth_mode : MCPAuthMode;
  auth_hasApiKey : bool;
  auth_hasOAuthToken : bool;
  auth_isGoogleConnected : bool;
  auth_oauthTokenExpiry : option JNumber      (* null when not positive *)
}.

Definition getMCPAuthStatus : M MCPAuthStatus :=
  let* mode := getMCPAuthMode E in
  let* at_ := gets googleAccessToken in
  let* isConnected := isGoogleConnected in
  let* exp := gets googleTokenExpiry in
  ret {| auth_mode := mode;
         auth_hasApiKey := JSString.truthy (MCP_API_KEY E);
         auth_hasOAuthToken := optTruthy at_;
         auth_isGoogleConnected := isConnected;
         auth_oauthTokenExpiry := if JS.gtb exp (Num 0) then Some exp else None |}.

(** [mcpToolsToGeminiFunctions] *)
Definition mcpToolsToGeminiFunctions (tools : list MCPTool) : list FunctionDeclaration :=
  map (fun tool =>
         {| fd_name := tool_name tool;
            fd_description := tool_description tool;
            fd_properties :=
              map (fun kv =>
                     (fst kv,
                      {| gp_type := if String.eqb (prop_type (snd kv)) "number"
                                    then "number" else "string";
                         gp_description :=
                           JSString.orElse (default "" (prop_description (snd kv))) "" |}))
                  (default [] (schema_properties (tool_inputSchema tool)));
            fd_required := default [] (schema_required (tool_inputSchema tool)) |})
      tools.

(** [getMCPSession] *)
Definition getMCPSession : M (option MCPSession) := gets currentSession.

(** [currentSession?.connected || false] *)
Definition isMCPConnected : M bool :=
  let* session := gets currentSession in
  ret (match session with
       | Some s => connected s
       | None => false
       end).

(** [getMCPServerURL], [getTravelServerURL] *)
Definition getMCPServerURL : string := MCP_SERVER_URL E.

Definition getTravelServerURL : string := MCP_TRAVEL_URL E.

(** [reinitializeMCP] *)
Definition reinitializeMCP : M bool :=
  modify (set_currentSession None);;
  tryCatch
    (let* _ := initializeMCPConnection E in ret true)
    (fun _ => ret false).

End ClientStatus.

(* ===================================================================== *)
(** ** The soul and the history window of a turn *)
(* ===================================================================== *)

(** [toggleSkill], on the fields of the soul that are modelled. *)
Definition toggleSkill (soul : AgentSoul) (skillId : string) (enabled : bool) : AgentSoul :=
  {| soul_name := soul_name soul;
     soul_skills :=
       map (fun s =>
              if String.eqb (skill_id s) skillId
              then {| skill_id := skill_id s; skill_name := skill_name s;
                      skill_description := skill_description s;
                      skill_category := skill_category s;
                      skill_triggers := skill_triggers s;
                      skill_enabled := enabled |}
              else s)
           (soul_skills soul) |}.

(** The fields of [ConversationMessage] a turn reads. *)
Record ConversationMessage : Type := {
  msg_role : string;          (* "user" | "assistant" | "system" *)
  msg_content : string
}.

(** [xs.slice(-n)] *)
Definition sliceLast {A} (n : nat) (xs : list A) : list A :=
  drop (length xs - n) xs.

Definition textPart (text : string) : Part :=
  {| part_text := Some text; part_thought := false;
     part_functionCall := None; part_functionResponse := None |}.

(** The filter of the history window: [msg.role !== "assistant" || msg.content]. *)
Definition inHistoryWindow (msg : ConversationMessage) : bool :=
  negb (String.eqb (msg_role msg) "assistant") || JSString.truthy (msg_content msg).

(** [{ role: msg.role === "user" ? "user" : "model", parts: [{ text: msg.content }] }] *)
Definition historyEntry (msg : ConversationMessage) : Content :=
  {| role := if String.eqb (msg_role msg) "user" then "user" else "model";
     parts := [textPart (msg_content msg)] |}.

(** The [historyContents] of [chat]:
    [conversationHistory.filter(...).slice(-10).map(...)]. *)
Definition historyContentsOf (conversationHistory : list ConversationMessage)
    : list Content :=
  map historyEntry (sliceLast 10 (List.filter inHistoryWindow conversationHistory)).

(** The [contents] of [chat]: the history window and the new message. *)
Definition contentsOf (conversationHistory : list ConversationMessage)
    (message : string) : list Content :=
  historyContentsOf conversationHistory
  ++ [ {| role := "user"; parts := [textPart message] |} ].

(** [needsThinking] *)
Definition needsThinking (skills : list string) : bool :=
  arrayIncludes skills "deep_think".

(** A string holds the character [c]. *)
Fixpoint hasChar (c : ascii) (s : string) : bool :=
  match s with
  | EmptyString => false
  | String c' s' => Ascii.eqb c' c || hasChar c s'
  end.

(* ===================================================================== *)
(** ** Restarting the application *)
(* ===================================================================== *)

(** The world after the application is restarted: the module state of
    mcp-client.ts is back at its initial values; secure storage, the
    clock and what has happened stay. *)
Definition restart (w : World) : World :=
  {| googleAccessToken := None; googleRefreshToken := None;
     googleTokenExpiry := Num 0; authInitialized := false;
     mcpSessions := ∅; serverProtocol := ∅; rpcId := 1;
     currentSession := None; toolToServerMap := ∅;
     secureStore := secureStore w; storeOps := storeOps w;
     ticks := ticks w; trace := trace w |}.

(** The request [refreshGoogleToken] sends for the refresh token [rt]. *)
Definition refreshRequest (E : Env) (rt : string) : Request :=
  {| req_url := stripSuffix "/" (stripMcpSuffix (MCP_SERVER_URL E)) +:+ "/auth/refresh";
     req_method := "POST";
     req_headers := jsonHeaders;
     req_body := Some (JObj [("refresh_token", JStr rt)]) |}.

(** The secure store holds no Google credential. *)
Definition noStoredCredential (store : gmap string string) : Prop :=
  store !! SECURE_googleAccessToken = None
  /\ store !! SECURE_googleRefreshToken = None
  /\ store !! SECURE_googleTokenExpiry = None.

(** The in-memory credential cache is empty. *)
Definition signedOut (w : World) : Prop :=
  googleAccessToken w = None /\ googleRefreshToken w = None
  /\ googleTokenExpiry w = Num 0.

(** Sample platforms for the auth store. *)
Module SampleAuth.

(** A device whose clock stands at 1000 and whose number conversions know
    the expiry 4601000. *)
Definition device : Env :=
  {| MCP_GOOGLE_URL := "https://workspace.example/mcp";
     MCP_TRAVEL_URL := "";
     SERPAPI_API_KEY := "";
     MCP_API_KEY := "";
     net := Sample.unauthorized;
     clock := fun _ => 1000;
     storeFault := fun _ => None;
     generateContent := Sample.silent;
     faultMessage := Sample.engineMessage;
     toLowerCase := asciiLowerCase;
     trim := asciiTrim;
     JSON_parse := Sample.parse;
     JSON_stringify := fun v => match v with
                                | JUndefined => None
                                | _ => Some "{...}"
                                end;
     JSON_stringify_pretty := fun v => match v with
                                       | JUndefined => None
                                       | _ => Some "{...}"
                                       end;
     ToString := fun _ => "[object Object]";
     ToNumber := fun v => match v with
                          | JNum n => Num n
                          | _ => NaN
                          end;
     numberToString := fun n => match n with
                                | Num 4601000 => "4601000"
                                | _ => "NaN"
                                end;
     parseInt10 := fun s => if String.eqb s "4601000" then Num 4601000 else NaN;
     encodeURIComponent := fun s => s |}.

(** A platform with another clock. *)
Definition withClock (c : nat -> Z) (E : Env) : Env :=
  {| MCP_GOOGLE_URL := MCP_GOOGLE_URL E;
     MCP_TRAVEL_URL := MCP_TRAVEL_URL E;
     SERPAPI_API_KEY := SERPAPI_API_KEY E;
     MCP_API_KEY := MCP_API_KEY E;
     net := net E;
     clock := c;
     storeFault := storeFault E;
     generateContent := generateContent E;
     faultMessage := faultMessage E;
     toLowerCase := toLowerCase E;
     trim := trim E;
     JSON_parse := JSON_parse E;
     JSON_stringify := JSON_stringify E;
     JSON_stringify_pretty := JSON_stringify_pretty E;
     ToString := ToString E;
     ToNumber := ToNumber E;
     numberToString := numberToString E;
     parseInt10 := parseInt10 E;
     encodeURIComponent := encodeURIComponent E |}.

(** The same device, later: the clock stands at 5000000. *)
Definition deviceLater : Env := withClock (fun _ => 5000000) device.

(** The same device with a clock that advances by 3000 at every reading,
    from 1000. *)
Definition ticking : Env := withClock (fun n => 1000 + 3000 * Z.of_nat n) device.

(** A secure store left by an earlier session. *)
Definition stored : gmap string string :=
  {[ "mcp_google_access_token" := "old";
     "mcp_google_refresh_token" := "r1";
     "mcp_google_token_expiry" := "4601000" ]}.

Definition afterInstall : World :=
  {| googleAccessToken := None; googleRefreshToken := None;
     googleTokenExpiry := Num 0; authInitialized := false;
     mcpSessions := ∅; serverProtocol := ∅; rpcId := 1;
     currentSession := None; toolToServerMap := ∅;
     secureStore := stored; storeOps := 0; ticks := 0; trace := [] |}.

End SampleAuth.

(* ===================================================================== *)
(** ** Protocol state and JSON-RPC requests *)
(* ===================================================================== *)

(** The module state of mcp-client.ts besides the credential cache:
    sessions, protocols, the JSON-RPC counter, the session and the
    routing table. *)
Definition protocolState (w : World)
    : gmap string string * gmap string Protocol * Z * option MCPSession
      * gmap string string :=
  (mcpSessions w, serverProtocol w, rpcId w, currentSession w, toolToServerMap w).

(** [m] takes every world to one related to it by [R]. *)
Definition Preserves (R : World -> World -> Prop) {A} (m : M A) : Prop :=
  forall w, R w (snd (m w)).

(** The protocol state is the same in both worlds. *)
Definition sameProtocolState (w w' : World) : Prop :=
  protocolState w' = protocolState w.

(** The JSON-RPC requests among the events of a trace, in order. *)
Definition rpcRequests (evs : list Event) : list Request :=
  omap (fun e => match e with
                 | EvFetch site_rpc req => Some req
                 | _ => None
                 end) evs.

(** The body of a JSON-RPC message; a notification has no [id]. *)
Definition rpcBody (method : string) (params : option JValue) (id : option Z) : JValue :=
  JObj ([("jsonrpc", JStr "2.0"); ("method", JStr method)]
        ++ match params with Some p => [("params", p)] | None => [] end
        ++ match id with Some n => [("id", JNum n)] | None => [] end)%list.

(** The [id] of a JSON-RPC message, if it has one. *)
Definition rpcIdOf (req : Request) : option JValue :=
  match req_body req with
  | Some (JObj fields) => match JS.assoc "id" fields with
                          | JUndefined => None
                          | v => Some v
                          end
  | _ => None
  end.

(** The [method] of a JSON-RPC message. *)
Definition rpcMethodOf (req : Request) : JValue :=
  match req_body req with
  | Some body => JS.optGet body "method"
  | None => JUndefined
  end.

(** The parameters of the "initialize" request. *)
Definition initializeParams : JValue :=
  JObj [("protocolVersion", JStr MCP_PROTOCOL_VERSION);
        ("capabilities", JObj []);
        ("clientInfo", JObj [("name", JStr "agentcore"); ("version", JStr "1.0.0")])].

(** The endpoint [mcpUrl] answers every request with [res]. *)
Definition alwaysAnswers (E : Env) (mcpUrl : string) (res : Response) : Prop :=
  forall history req, req_url req = mcpUrl -> net E history req = FetchResponse res.

(** What [mcpRpc] makes of the response to a request (not a
    notification): the [result] of the envelope, or an error. *)
Definition rpcOutcome (E : Env) (method : string) (res : Response) : Result JValue :=
  if negb (ok res) then
    Throw ("MCP RPC " +:+ method +:+ " failed (" +:+ pretty (status res) +:+ "): "
           +:+ bodyText res)
  else
    match rpcData E res with
    | None =>
        Throw (if includes (default "" (contentType res)) "text/event-stream"
               then "No valid JSON-RPC message in SSE stream"
               else faultMessage E (fault_json (bodyText res)))
    | Some data =>
        let err := JS.optGet data "error" in
        if JS.truthy err then
          Throw ("MCP RPC " +:+ method +:+ " error: "
                 +:+ (if JS.truthy (JS.optGet err "message")
                      then ToString E (JS.optGet err "message")
                      else default "undefined" (JSON_stringify E err)))
        else Ok (JS.optGet data "result")
    end.

(** The headers of a JSON-RPC request: the auth headers over the
    protocol headers, and the session id if one is known. *)
Definition rpcRequestHeaders (authHeaders : gmap string string) (session : option string)
    : gmap string string :=
  match session with
  | Some sid => if JSString.truthy sid
                then <["Mcp-Session-Id" := sid]> (authHeaders ∪ rpcHeaders)
                else authHeaders ∪ rpcHeaders
  | None => authHeaders ∪ rpcHeaders
  end.

(** The JSON-RPC request [mcpRpc] sends in a world with the given auth
    headers, session and counter. *)
Definition rpcRequest (mcpUrl method : string) (params : option JValue)
    (id : option Z) (authHeaders : gmap string string) (session : option string)
    : Request :=
  {| req_url := mcpUrl; req_method := "POST";
     req_headers := rpcRequestHeaders authHeaders session;
     req_body := Some (rpcBody method params id) |}.

(** The world after a response: the session id it carries is recorded. *)
Definition recordSession (mcpUrl : string) (res : Response) (w : World) : World :=
  if optTruthy (mcpSessionId res)
  then set_sessions (<[mcpUrl := default "" (mcpSessionId res)]> (mcpSessions w)) w
  else w.

(** What identifies a JSON-RPC request on the wire: its method, its id
    (none for a notification) and the session id it carries. *)
Definition rpcSummary (req : Request) : JValue * option JValue * option string :=
  (rpcMethodOf req, rpcIdOf req, req_headers req !! "Mcp-Session-Id").

(** The JSON-RPC requests [m] sends from [w], summarized. *)
Definition rpcSent {A} (m : M A) (w : World)
    : list (JValue * option JValue * option string) :=
  map rpcSummary (rpcRequests (newEvents m w)).

Module SampleRpc.

(** A server that answers every request with a tool list and issues no
    session id. *)
Definition stateless : list Event -> Request -> FetchOutcome :=
  fun _ _ =>
    FetchResponse {| status := 200; statusText := "OK";
                     contentType := Some "application/json";
                     mcpSessionId := None; bodyText := "travel-tools" |}.

Definition statelessEnv : Env :=
  Sample.platform "" "https://travel.example/mcp" "" stateless Sample.silent.

End SampleRpc.

(* ===================================================================== *)
(** ** Routing state *)
(* ===================================================================== *)

(** The routing table, the recorded protocols and the current session
    are the same in both worlds. *)
Definition sameRouting (w w' : World) : Prop :=
  toolToServerMap w' = toolToServerMap w
  /\ serverProtocol w' = serverProtocol w
  /\ currentSession w' = currentSession w.

(** From [w] to [w'] the protocol state has only grown: the current
    session is the same, the JSON-RPC counter has not decreased, no
    recorded protocol and no MCP session has been forgotten. *)
Definition advances (w w' : World) : Prop :=
  currentSession w' = currentSession w
  /\ rpcId w <= rpcId w'
  /\ (forall url, is_Some (serverProtocol w !! url) -> is_Some (serverProtocol w' !! url))
  /\ (forall url, optTruthy (mcpSessions w !! url) = true ->
                  optTruthy (mcpSessions w' !! url) = true).

(** Every server the routing table points to has a recorded protocol. *)
Definition routesHaveProtocols (w : World) : Prop :=
  forall toolName url,
    toolToServerMap w !! toolName = Some url -> is_Some (serverProtocol w !! url).

(** The first POSTs of [callMCPTool] among the events of a trace. *)
Definition callPosts (evs : list Event) : list Request :=
  omap (fun e => match e with
                 | EvFetch site_call req => Some req
                 | _ => None
                 end) evs.

(** The URL the REST calls of a tool are derived from. *)
Definition restBaseFor (E : Env) (w : World) (toolName : string) : string :=
  orElse (stripMcpSuffix (serverUrlFor E w toolName)) (serverUrlFor E w toolName).

(** The body of a REST call. *)
Definition callBody (E : Env) (w : World) (toolName : string) (args : JValue) : JValue :=
  JObj [("name", JStr (normalizeToolName (currentSession w) toolName));
        ("arguments", args)].

(** The server [callMCPTool] resolves for the tool is remote: the URL is
    not empty and not a local address. *)
Definition remoteServer (E : Env) (w : World) (toolName : string) : Prop :=
  JSString.truthy (serverUrlFor E w toolName) = true
  /\ includes (serverUrlFor E w toolName) "localhost" = false
  /\ startsWith (serverUrlFor E w toolName) "http://127.0.0.1" = false.

(** An event of a call over the MCP protocol at [url]: an event of the
    auth store, or a JSON-RPC request to [url]. *)
Definition rpcEventAt (url : string) (e : Event) : Prop :=
  authEvent e \/ exists req, e = EvFetch site_rpc req /\ req_url req = url.

(** An event other than the first POST of a call path. *)
Definition notPost (e : Event) : Prop := isFetchAt site_call e = false.

(** An event other than a JSON-RPC request. *)
Definition notRpc (e : Event) : Prop :=
  match e with
  | EvFetch site_rpc _ => False
  | _ => True
  end.

(** The POST of a REST call. *)
Definition restPost (headers : gmap string string) (body : JValue) (url : string)
    : Request :=
  {| req_url := url; req_method := "POST"; req_headers := headers;
     req_body := Some body |}.

Module SampleCalls.

(** The world after the travel server of [Sample.twoServersEnv] was
    discovered over the MCP protocol and issued a session id. *)
Definition discovered : World :=
  set_toolToServerMap {["search_flights" := "https://travel.example/mcp"]}
    (set_protocol {["https://travel.example/mcp" := proto_mcp]}
       (set_sessions {["https://travel.example/mcp" := "session-1"]} initialWorld)).

(** A server without the MCP protocol and without the "/api/call" path:
    it answers 404 there and 200 with an empty object anywhere else. *)
Definition legacy : list Event -> Request -> FetchOutcome :=
  fun _ req =>
    if endsWith (req_url req) "/api/call"
    then FetchResponse {| status := 404; statusText := "Not Found"; contentType := None;
                          mcpSessionId := None; bodyText := "" |}
    else FetchResponse {| status := 200; statusText := "OK"; contentType := None;
                          mcpSessionId := None; bodyText := "{}" |}.

Definition legacyEnv : Env :=
  Sample.platform "https://workspace.example/mcp" "" "" legacy Sample.silent.

End SampleCalls.


(** A line of an event stream that [parseMcpResponse] passes over: it
    does not start with "data: ", or what follows does not parse. *)
Definition skippedLine (E : Env) (line : string) : Prop :=
  startsWith line "data: " = false \/ JSON_parse E (trim E (slice 6 line)) = None.

(* ===================================================================== *)
(** ** Properties of JavaScript strings *)
(* ===================================================================== *)

Section StringFacts.

Lemma append_assoc (a b c : string) : (a +:+ b) +:+ c = a +:+ (b +:+ c).
Proof. induction a as [|x a IH]; simpl; [reflexivity | now rewrite IH]. Qed.

Lemma prefix_iff (p s : string) :
  String.prefix p s = true <-> exists post, s = p +:+ post.
Proof.
  revert s. induction p as [|a p IH]; intros s.
  - split; [intros _; now exists s | intros _; now destruct s].
  - destruct s as [|b s]; simpl.
    + split; [discriminate | intros [post H]; discriminate].
    + destruct (Ascii.ascii_dec a b) as [->|Hne].
      * rewrite IH. split; intros [post H]; exists post.
        -- now rewrite H.
        -- now injection H.
      * split; [discriminate | intros [post H]]. injection H as H1 _. congruence.
Qed.

Lemma includes_iff (s sub : string) :
  includes s sub = true <-> exists pre post, s = pre +:+ sub +:+ post.
Proof.
  induction s as [|c s IH]; cbn [includes].
  - rewrite orb_false_r, prefix_iff. split.
    + intros [post H]. now exists EmptyString, post.
    + intros (pre & post & H). destruct pre; simpl in H; [now exists post | discriminate].
  - rewrite orb_true_iff, prefix_iff, IH. split.
    + intros [[post H] | (pre & post & H)].
      * now exists EmptyString, post.
      * exists (String c pre), post. simpl. now rewrite H.
    + intros (pre & post & H). destruct pre as [|d pre]; simpl in H.
      * left. now exists post.
      * right. injection H as _ H. now exists pre, post.
Qed.

Lemma mapChars_append f (a b : string) :
  mapChars f (a +:+ b) = mapChars f a +:+ mapChars f b.
Proof. induction a as [|x a IH]; simpl; [reflexivity | now rewrite IH]. Qed.

Lemma mapChars_append_inv f (s a b : string) :
  mapChars f s = a +:+ b ->
  exists s1 s2, s = s1 +:+ s2 /\ mapChars f s1 = a /\ mapChars f s2 = b.
Proof.
  revert s. induction a as [|x a IH]; intros s H; simpl in H.
  - now exists EmptyString, s.
  - destruct s as [|c s]; simpl in H; [discriminate|].
    injection H as Hc Hs. destruct (IH s Hs) as (s1 & s2 & -> & H1 & H2).
    exists (String c s1), s2. simpl. now rewrite Hc, H1, H2.
Qed.

(** [includes] on strings lower-cased letter by letter is occurrence up
    to case. *)
Lemma includes_lower_iff (message trigger : string) :
  includes (asciiLowerCase message) (asciiLowerCase trigger) = true
  <-> occursIgnoringCase trigger message.
Proof.
  rewrite includes_iff. unfold occursIgnoringCase, asciiLowerCase. split.
  - intros (pre & post & H).
    apply mapChars_append_inv in H as (s1 & s23 & -> & H1 & H23).
    apply mapChars_append_inv in H23 as (s2 & s3 & -> & H2 & H3).
    now exists s1, s2, s3.
  - intros (pre & sub & post & -> & H).
    exists (mapChars lowerChar pre), (mapChars lowerChar post).
    now rewrite !mapChars_append, H.
Qed.

Lemma includes_nonempty (s sub : string) :
  includes s sub = true -> sub <> "" -> JSString.truthy s = true.
Proof.
  intros H Hne. destruct s; [|reflexivity].
  cbn [includes] in H. rewrite orb_false_r in H. destruct sub; [congruence | discriminate].
Qed.

Lemma startsWith_nonempty (s p : string) :
  startsWith s p = true -> p <> "" -> JSString.truthy s = true.
Proof.
  unfold startsWith. intros H Hne. destruct s; [|reflexivity].
  destruct p; [congruence | discriminate].
Qed.

End StringFacts.

(* ===================================================================== *)
(** ** Skill detection *)
(* ===================================================================== *)

Section SkillDetection.

Context (E : Env).

Lemma anyTrigger_existsb (messageLower : string) (triggers : list string) :
  anyTrigger E messageLower triggers
  = existsb (fun trigger => includes messageLower (toLowerCase E trigger)) triggers.
Proof.
  induction triggers as [|t ts IH]; simpl; [reflexivity|].
  destruct (includes messageLower (toLowerCase E t)); [reflexivity | exact IH].
Qed.

Lemma detectLoop_filter (message : string) (skills : list AgentSkill) (acc : list string) :
  detectLoop E (toLowerCase E message) skills acc
  = acc ++ map skill_id (List.filter (skillFires E message) skills).
Proof.
  revert acc. induction skills as [|s skills IH]; intros acc; simpl.
  - now rewrite app_nil_r.
  - unfold skillFires at 1. rewrite <- anyTrigger_existsb.
    destruct (skill_enabled s); simpl.
    + destruct (anyTrigger E (toLowerCase E message) (skill_triggers s)); simpl.
      * rewrite IH, <- app_assoc. reflexivity.
      * apply IH.
    + apply IH.
Qed.

(** A skill fires exactly when it is enabled and the lower-cased message
    includes the lower-casing of one of its triggers. *)
Lemma skillFires_iff (message : string) (skill : AgentSkill) :
  skillFires E message skill = true
  <-> skill_enabled skill = true
      /\ exists trigger, In trigger (skill_triggers skill)
                         /\ includes (toLowerCase E message) (toLowerCase E trigger) = true.
Proof. unfold skillFires. now rewrite andb_true_iff, existsb_exists. Qed.

(** On ASCII text, firing is occurrence of a trigger up to case. *)
Lemma skillFires_ascii (message : string) (skill : AgentSkill) :
  lowersAscii E ->
  isAscii message = true ->
  forallb isAscii (skill_triggers skill) = true ->
  skillFires E message skill = true
  <-> skill_enabled skill = true
      /\ exists trigger, In trigger (skill_triggers skill)
                         /\ occursIgnoringCase trigger message.
Proof.
  intros Hlow Hm Hts. rewrite skillFires_iff, (Hlow message Hm).
  rewrite forallb_forall in Hts.
  split; intros [He (t & Hin & Ht)]; (split; [exact He|]); exists t; (split; [exact Hin|]).
  - apply includes_lower_iff. now rewrite <- (Hlow t (Hts t Hin)).
  - rewrite (Hlow t (Hts t Hin)). now apply includes_lower_iff.
Qed.

Lemma NoDup_map_filter {A B} (f : A -> B) (p : A -> bool) (l : list A) :
  List.NoDup (map f l) -> List.NoDup (map f (List.filter p l)).
Proof.
  induction l as [|a l IH]; simpl; intros H; [constructor|].
  apply NoDup_cons_iff in H as [Hnin Hnd].
  destruct (p a); simpl; [|now apply IH].
  apply NoDup_cons_iff. split; [|now apply IH].
  intros Hin. apply Hnin. apply in_map_iff in Hin as (x & Hx & Hin).
  apply in_map_iff. exists x. split; [exact Hx|].
  apply List.filter_In in Hin. tauto.
Qed.

(** C9, as the code has it. [detectRelevantSkills] returns, in
    skill-table order, the id of every skill that fires and of no other.
    A skill fires exactly when it is enabled and the message, lower-cased
    by [String.prototype.toLowerCase], includes the lower-casing of one
    of its triggers. When the message and the triggers are ASCII text,
    this is the same as: one of the triggers occurs in the message up to
    the case of letters. A disabled skill never fires; every firing skill
    contributes its id once, however many of its triggers match, so with
    distinct ids in the table no id is repeated. *)
Theorem detectRelevantSkills_spec (message : string) (soul : AgentSoul) :
  let detected := detectRelevantSkills E message soul in
  (* one id per firing skill, in table order *)
  detected = map skill_id (List.filter (skillFires E message) (soul_skills soul))
  (* an id is returned iff it is the id of an enabled skill of the table
     one of whose triggers, lower-cased, is part of the lower-cased message *)
  /\ (forall id,
         In id detected
         <-> exists skill, In skill (soul_skills soul) /\ skill_id skill = id
                           /\ skill_enabled skill = true
                           /\ exists trigger,
                                In trigger (skill_triggers skill)
                                /\ includes (toLowerCase E message)
                                     (toLowerCase E trigger) = true)
  (* on ASCII text: iff it is the id of an enabled skill one of whose
     triggers occurs in the message up to case *)
  /\ (lowersAscii E ->
      isAscii message = true ->
      (forall skill, In skill (soul_skills soul) ->
                     forallb isAscii (skill_triggers skill) = true) ->
      forall id,
        In id detected
        <-> exists skill, In skill (soul_skills soul) /\ skill_id skill = id
                          /\ skill_enabled skill = true
                          /\ exists trigger, In trigger (skill_triggers skill)
                                             /\ occursIgnoringCase trigger message)
  (* a disabled skill contributes nothing *)
  /\ (forall skill, skill_enabled skill = false -> skillFires E message skill = false)
  (* table order: the result is a subsequence of the ids of the table *)
  /\ sublist detected (map skill_id (soul_skills soul))
  (* no repetition when the table has distinct ids *)
  /\ (List.NoDup (map skill_id (soul_skills soul)) -> List.NoDup detected).
Proof.
  assert (Heq : detectRelevantSkills E message soul
                = map skill_id (List.filter (skillFires E message) (soul_skills soul))).
  { unfold detectRelevantSkills. now rewrite detectLoop_filter. }
  assert (Hin : forall id,
             In id (map skill_id (List.filter (skillFires E message) (soul_skills soul)))
             <-> exists skill, In skill (soul_skills soul) /\ skill_id skill = id
                               /\ skillFires E message skill = true).
  { intros id. rewrite in_map_iff. split.
    - intros (skill & Hid & Hf). apply List.filter_In in Hf as [Hs Hf]. eauto.
    - intros (skill & Hs & Hid & Hf). exists skill. split; [exact Hid|].
      apply List.filter_In. auto. }
  cbv zeta. rewrite Heq.
  split; [reflexivity|].
  split; [|split; [|split; [|split]]].
  - intros id. rewrite Hin. split; intros (skill & Hs & Hid & Hf); exists skill;
      (split; [exact Hs|]); (split; [exact Hid|]); now apply skillFires_iff.
  - intros Hlow Hm Hts id. rewrite Hin.
    split; intros (skill & Hs & Hid & Hf); exists skill;
      (split; [exact Hs|]); (split; [exact Hid|]);
      now apply (skillFires_ascii message skill Hlow Hm (Hts skill Hs)).
  - intros skill Hd. unfold skillFires. now rewrite Hd.
  - clear Heq Hin. generalize (soul_skills soul). intros l.
    induction l as [|s l IH]; simpl.
    + apply sublist_nil.
    + destruct (skillFires E message s); simpl.
      * now apply sublist_skip.
      * now apply sublist_cons.
  - apply NoDup_map_filter.
Qed.

End SkillDetection.

(** C9, as stated, fails. JavaScript lower-cases a capital sigma to its
    final form at the end of a word and to its medial form inside one.
    The trigger is two Greek capitals, alpha and sigma, and the message
    is this word followed by another alpha: the trigger occurs in the
    message as it is written, the skill is enabled, and it is not
    detected. *)
Lemma detectRelevantSkills_final_sigma :
  includes Sample.greekMessage Sample.greekTrigger = true
  /\ occursIgnoringCase Sample.greekTrigger Sample.greekMessage
  /\ skill_enabled Sample.greekSkill = true
  /\ detectRelevantSkills Sample.greekEnv Sample.greekMessage Sample.greekSoul = []
  /\ ~ detectedIffOccurs
         (detectRelevantSkills Sample.greekEnv Sample.greekMessage Sample.greekSoul)
         Sample.greekMessage Sample.greekSkill.
Proof.
  assert (Hocc : occursIgnoringCase Sample.greekTrigger Sample.greekMessage).
  { exists "", Sample.greekTrigger, "Α". split; reflexivity. }
  split; [reflexivity|]. split; [exact Hocc|]. split; [reflexivity|].
  split; [reflexivity|].
  intros [_ H].
  assert (Hin : In (skill_id Sample.greekSkill) []).
  { apply H. split; [reflexivity|]. exists Sample.greekTrigger.
    split; [now left | exact Hocc]. }
  destruct Hin.
Qed.

(* ===================================================================== *)
(** ** Tool declarations of a turn *)
(* ===================================================================== *)

Section ToolDeclarations.

Lemma declaration_not_excluded (state : BrainState) (d : FunctionDeclaration) :
  In d (buildMCPFunctionDeclarations state) ->
  arrayIncludes EXCLUDED_MCP_TOOLS (fd_name d) = false.
Proof.
  unfold buildMCPFunctionDeclarations.
  destruct (negb (mcpConnected state) || (length (mcpTools state) =? 0)%nat);
    [intros [] |].
  intros Hin. apply in_map_iff in Hin as (tool & <- & Hin).
  apply List.filter_In in Hin as [_ Hk]. simpl.
  now apply negb_true_iff in Hk.
Qed.

Lemma arrayIncludes_In (xs : list string) (x : string) :
  arrayIncludes xs x = true <-> In x xs.
Proof.
  unfold arrayIncludes. rewrite existsb_exists. split.
  - intros (y & Hin & Heq). apply String.eqb_eq in Heq. now subst.
  - intros Hin. exists x. split; [exact Hin | apply String.eqb_refl].
Qed.

(** The [tools] array built from the routing flags: no declared function
    bears a name of the deny-list; functions are declared only if the
    workspace or the travel flag is set; [googleSearch] is declared only
    if the search flag is set and no function is declared; so the array
    never holds both (it has at most one entry). *)
Lemma buildTools_flags (state : BrainState) (r : Routing) :
  let tools := buildTools state r in
  (forall n, In n (declaredNames tools) ->
             ~ In n ["search"; "get_cache_stats"; "clear_cache"])
  /\ (declaresFunctions tools = true -> useWorkspace r || useTravel r = true)
  /\ (declaresGoogleSearch tools = true ->
        useSearch r = true /\ declaresFunctions tools = false
        /\ declaredNames tools = [])
  /\ declaresFunctions tools && declaresGoogleSearch tools = false
  /\ (length tools <= 1)%nat.
Proof.
  cbv zeta. unfold buildTools.
  destruct (useWorkspace r || useTravel r) eqn:Hflags.
  - destruct (0 <? length (buildMCPFunctionDeclarations state))%nat eqn:Hlen.
    + simpl. rewrite app_nil_r. repeat split; try discriminate; try lia.
      intros n Hin Hex. apply in_map_iff in Hin as (d & <- & Hin).
      apply declaration_not_excluded in Hin.
      apply (arrayIncludes_In EXCLUDED_MCP_TOOLS) in Hex. congruence.
    + destruct (useSearch r); simpl; repeat split; try discriminate; try tauto; lia.
  - simpl. destruct (useSearch r); simpl; repeat split; try discriminate; try tauto; lia.
Qed.

End ToolDeclarations.

(* ===================================================================== *)
(** ** Reasoning about effectful code *)
(* ===================================================================== *)

Section Effects.

Context {A B : Type}.

Lemma Total_ret (a : A) : Total (ret a).
Proof. intros w. now exists a, w. Qed.

Lemma Total_gets (f : World -> A) : Total (gets f).
Proof. intros w. now exists (f w), w. Qed.

Lemma Total_bind (m : M A) (k : A -> M B) :
  Total m -> (forall a, Total (k a)) -> Total (bind m k).
Proof.
  intros Hm Hk w. unfold bind. destruct (Hm w) as (a & w' & ->). apply Hk.
Qed.

Lemma Total_tryCatch (m : M A) (h : string -> M A) :
  (forall e, Total (h e)) -> Total (tryCatch m h).
Proof.
  intros Hh w. unfold tryCatch. destruct (m w) as [[a|e] w'].
  - now exists a, w'.
  - apply Hh.
Qed.

Lemma Adds_mono (P Q : Event -> Prop) (m : M A) :
  (forall e, P e -> Q e) -> Adds P m -> Adds Q m.
Proof.
  intros HPQ Hm w. destruct (Hm w) as (evs & Ht & HP).
  exists evs. split; [exact Ht|]. eapply Forall_impl; eauto.
Qed.

Context (P : Event -> Prop).

Lemma Adds_ret (a : A) : Adds P (ret a).
Proof. intros w. exists []. simpl. now rewrite app_nil_r. Qed.

Lemma Adds_throw (e : string) : Adds P (throw (A := A) e).
Proof. intros w. exists []. simpl. now rewrite app_nil_r. Qed.

Lemma Adds_gets (f : World -> A) : Adds P (gets f).
Proof. intros w. exists []. simpl. now rewrite app_nil_r. Qed.

Lemma Adds_bind (m : M A) (k : A -> M B) :
  Adds P m -> (forall a, Adds P (k a)) -> Adds P (bind m k).
Proof.
  intros Hm Hk w. unfold bind. destruct (Hm w) as (evs & Ht & HP).
  destruct (m w) as [[a|e] w']; simpl in *.
  - destruct (Hk a w') as (evs' & Ht' & HP'). exists (evs ++ evs').
    rewrite Ht', Ht, app_assoc. split; [reflexivity | now apply Forall_app].
  - now exists evs.
Qed.

Lemma Adds_tryCatch (m : M A) (h : string -> M A) :
  Adds P m -> (forall e, Adds P (h e)) -> Adds P (tryCatch m h).
Proof.
  intros Hm Hh w. unfold tryCatch. destruct (Hm w) as (evs & Ht & HP).
  destruct (m w) as [[a|e] w']; simpl in *.
  - now exists evs.
  - destruct (Hh e w') as (evs' & Ht' & HP'). exists (evs ++ evs').
    rewrite Ht', Ht, app_assoc. split; [reflexivity | now apply Forall_app].
Qed.

End Effects.

Lemma Total_modify (f : World -> World) : Total (modify f).
Proof. intros w. now exists tt, (f w). Qed.

Lemma Total_emit (e : Event) : Total (emit e).
Proof. apply Total_modify. Qed.

Lemma Adds_modify (P : Event -> Prop) (f : World -> World) :
  (forall w, trace (f w) = trace w) -> Adds P (modify f).
Proof. intros Hf w. exists []. simpl. now rewrite Hf, app_nil_r. Qed.

Lemma Adds_emit (P : Event -> Prop) (e : Event) : P e -> Adds P (emit e).
Proof. intros He w. exists [e]. simpl. split; [reflexivity | now constructor]. Qed.

(** One step of a proof that a computation is [Total] or [Adds] events
    of a class: peel a bind, a handler or a branch. *)
Ltac effect_step :=
  match goal with
  | |- Total (bind _ _) => apply Total_bind; [|intros ?]
  | |- Total (tryCatch _ _) => apply Total_tryCatch; intros ?
  | |- Total (ret _) => apply Total_ret
  | |- Total (gets _) => apply Total_gets
  | |- Total (modify _) => apply Total_modify
  | |- Total (emit _) => apply Total_emit
  | |- Adds _ (bind _ _) => apply Adds_bind; [|intros ?]
  | |- Adds _ (tryCatch _ _) => apply Adds_tryCatch; [|intros ?]
  | |- Adds _ (ret _) => apply Adds_ret
  | |- Adds _ (throw _) => apply Adds_throw
  | |- Adds _ (gets _) => apply Adds_gets
  | |- Adds _ (modify _) => apply Adds_modify; intros ?; reflexivity
  | |- Adds _ (emit _) => apply Adds_emit
  | |- Total (if ?b then _ else _) => destruct b
  | |- Adds _ (if ?b then _ else _) => destruct b
  | |- Total (match ?x with _ => _ end) => destruct x
  | |- Adds _ (match ?x with _ => _ end) => destruct x
  | |- Total (let _ := _ in _) => cbv zeta
  | |- Adds _ (let _ := _ in _) => cbv zeta
  end.

Ltac effects := repeat effect_step.

(* ===================================================================== *)
(** ** The auth store *)
(* ===================================================================== *)

Section AuthStore.

Context (E : Env).

Ltac run :=
  unfold bind, ret, throw, gets, modify, emit, emitAuthEvent, tryCatch; simpl.

Lemma Adds_dateNow P : Adds P (dateNow E).
Proof. intros w. exists []. simpl. now rewrite app_nil_r. Qed.

Lemma Total_dateNow : Total (dateNow E).
Proof. intros w. unfold dateNow. eauto. Qed.

Lemma Adds_fetch P site req : P (EvFetch site req) -> Adds P (fetch E site req).
Proof.
  intros HP w. exists [EvFetch site req]. unfold fetch.
  split; [now destruct (net E (trace w) req) | now constructor].
Qed.

Lemma Adds_resJson P res : Adds P (resJson E res).
Proof. unfold resJson. destruct (JSON_parse E (bodyText res)); effects. Qed.

Lemma Adds_getSecureItemAsync P key : Adds P (getSecureItemAsync E key).
Proof.
  intros w. exists []. unfold getSecureItemAsync.
  destruct (storeFault E (storeOps w)); simpl; now rewrite app_nil_r.
Qed.

Lemma Adds_setSecureItemAsync P key value : Adds P (setSecureItemAsync E key value).
Proof.
  intros w. exists []. unfold setSecureItemAsync.
  destruct (storeFault E (storeOps w)); simpl; now rewrite app_nil_r.
Qed.

Lemma Adds_deleteSecureItemAsync P key : Adds P (deleteSecureItemAsync E key).
Proof.
  intros w. exists []. unfold deleteSecureItemAsync.
  destruct (storeFault E (storeOps w)); simpl; now rewrite app_nil_r.
Qed.

Lemma Total_deleteSecureItemAsync key : Total (deleteSecureItemAsync E key).
Proof.
  intros w. unfold deleteSecureItemAsync. destruct (storeFault E (storeOps w)); eauto.
Qed.

Lemma Adds_promiseAll P (ps : list (M unit)) :
  Forall (Adds P) ps -> Adds P (promiseAll ps).
Proof.
  induction 1 as [|p ps Hp _ IH]; simpl; [apply Adds_ret|].
  intros w. destruct (Hp w) as (evs & Ht & HP).
  destruct (p w) as [[[]|e] w1]; simpl in *.
  - destruct (IH w1) as (evs' & Ht' & HP'). exists (evs ++ evs').
    rewrite Ht', Ht, app_assoc. split; [reflexivity | now apply Forall_app].
  - destruct (IH w1) as (evs' & Ht' & HP'). exists (evs ++ evs').
    destruct (promiseAll ps w1) as [r w2]. simpl in *.
    rewrite Ht', Ht, app_assoc. split; [reflexivity | now apply Forall_app].
Qed.

Lemma Total_promiseAll (ps : list (M unit)) :
  Forall Total ps -> Total (promiseAll ps).
Proof.
  induction 1 as [|p ps Hp _ IH]; simpl; [apply Total_ret|].
  intros w. destruct (Hp w) as ([] & w1 & ->). apply IH.
Qed.

(** Clearing the token never throws; it resets the cached credential and
    emits "token_cleared". *)
Lemma clearMCPGoogleToken_spec (w : World) :
  exists w', clearMCPGoogleToken E w = (Ok tt, w')
    /\ trace w' = trace w ++ [EvAuth token_cleared]
    /\ googleAccessToken w' = None
    /\ googleRefreshToken w' = None
    /\ googleTokenExpiry w' = Num 0.
Proof.
  unfold clearMCPGoogleToken. run. unfold deleteSecureItemAsync. simpl.
  repeat (match goal with
          | |- context [storeFault E ?n] => destruct (storeFault E n)
          end; simpl);
    eexists; repeat split; reflexivity.
Qed.

Lemma Total_clearMCPGoogleToken : Total (clearMCPGoogleToken E).
Proof. intros w. destruct (clearMCPGoogleToken_spec w) as (w' & H & _). eauto. Qed.

Lemma Adds_clearMCPGoogleToken P :
  P (EvAuth token_cleared) -> Adds P (clearMCPGoogleToken E).
Proof.
  intros HP w. destruct (clearMCPGoogleToken_spec w) as (w' & H & Ht & _).
  exists [EvAuth token_cleared]. rewrite H. simpl. split; [exact Ht | now constructor].
Qed.

(** Storing a token appends nothing to the trace (it may throw). *)
Lemma Adds_setMCPGoogleToken P accessToken expiresIn refreshToken :
  Adds P (setMCPGoogleToken E accessToken expiresIn refreshToken).
Proof.
  assert (Hall : forall ps qs,
             Forall (Adds P) ps -> Forall (Adds P) qs ->
             Adds P (promiseAll (ps ++ qs))).
  { intros ps qs Hp Hq. apply Adds_promiseAll. now apply Forall_app. }
  unfold setMCPGoogleToken. effects; try apply Adds_dateNow;
    (apply Hall;
     [ repeat constructor; apply Adds_setSecureItemAsync
     | destruct refreshToken as [r|]; [destruct (JSString.truthy r)|];
       repeat constructor; apply Adds_setSecureItemAsync ]).
Qed.

Lemma setMCPGoogleToken_trace accessToken expiresIn refreshToken (w : World) :
  trace (snd (setMCPGoogleToken E accessToken expiresIn refreshToken w)) = trace w.
Proof.
  destruct (Adds_setMCPGoogleToken (fun _ => False) accessToken expiresIn refreshToken w)
    as (evs & Ht & HP).
  destruct evs as [|e evs]; [now rewrite app_nil_r in Ht | now inversion HP].
Qed.

(** [await clearMCPGoogleToken(); emitAuthEvent("needs_relogin"); return false;] *)
Lemma relogin_spec (w : World) :
  exists w',
    (clearMCPGoogleToken E;; emitAuthEvent needs_relogin;; ret false) w = (Ok false, w')
    /\ trace w' = trace w ++ [EvAuth token_cleared; EvAuth needs_relogin]
    /\ googleAccessToken w' = None
    /\ googleRefreshToken w' = None.
Proof.
  destruct (clearMCPGoogleToken_spec w) as (w1 & H & Ht & Ha & Hr & _).
  unfold bind at 1. rewrite H. run.
  eexists. split; [reflexivity|]. simpl. rewrite Ht, <- app_assoc.
  repeat split; assumption.
Qed.

Lemma refreshGoogleToken_spec (cause : RefreshCause) (w : World) :
  exists b w', refreshGoogleToken E cause w = (Ok b, w') /\ refreshOutcome cause w b w'.
Proof.
  unfold refreshGoogleToken. unfold bind at 1. unfold emit, modify. cbv beta iota.
  set (w1 := set_trace (trace w ++ [EvRefreshCall cause]) w).
  assert (Ht1 : trace w1 = trace w ++ [EvRefreshCall cause]) by reflexivity.
  unfold bind at 1. unfold gets at 1. cbv beta iota.
  change (googleRefreshToken w1) with (googleRefreshToken w).
  destruct (optTruthy (googleRefreshToken w)) eqn:Hrt; cbv beta iota; cbn [negb].
  - (* a refresh token is cached *)
    clearbody w1.
    match goal with |- context [negb (JSString.truthy ?b)] => set (serverBase := b) end.
    assert (Hfail : forall pre w2,
               trace w2 = trace w1 ++ pre ->
               (pre = [] \/ exists req, pre = [EvFetch site_refresh req]) ->
               exists b w',
                 (clearMCPGoogleToken E;; emitAuthEvent needs_relogin;; ret false) w2
                 = (Ok b, w') /\ refreshOutcome cause w b w').
    { intros pre w2 Ht2 Hpre. destruct (relogin_spec w2) as (w' & H & Ht & Ha & Hr).
      exists false, w'. split; [exact H|].
      exists (pre ++ [EvAuth token_cleared; EvAuth needs_relogin]). split.
      - rewrite Ht, Ht2, Ht1, <- !app_assoc. reflexivity.
      - right. split; [exists pre; auto | auto]. }
    destruct (negb (JSString.truthy serverBase)).
    + apply (Hfail [] w1); [now rewrite app_nil_r | now left].
    + unfold tryCatch. unfold bind at 1. unfold fetch at 1. cbv beta zeta.
      match goal with |- context [net E (trace w1) ?r] => set (req := r) end.
      set (w2 := set_trace (trace w1 ++ [EvFetch site_refresh req]) w1).
      assert (Ht2 : trace w2 = trace w1 ++ [EvFetch site_refresh req]) by reflexivity.
      clearbody w2.
      assert (Hpre : [EvFetch site_refresh req] = []
                     \/ exists r, [EvFetch site_refresh req] = [EvFetch site_refresh r])
        by (right; eauto).
      destruct (net E (trace w1) req) as [msg|res]; cbv beta iota.
      * apply (Hfail _ w2 Ht2 Hpre).
      * destruct (negb (ok res)).
        { destruct (Hfail _ w2 Ht2 Hpre) as (b & w' & H & Ho). rewrite H. eauto. }
        unfold bind at 1. unfold resJson.
        destruct (JSON_parse E (bodyText res)) as [data|].
        2:{ unfold throw at 1. cbv beta iota. apply (Hfail _ w2 Ht2 Hpre). }
        unfold ret at 1. cbv beta iota.
        destruct (JS.get data "access_token") as [token|].
        2:{ unfold throw at 1. cbv beta iota. apply (Hfail _ w2 Ht2 Hpre). }
        destruct (JS.truthy token).
        2:{ destruct (Hfail _ w2 Ht2 Hpre) as (b & w' & H & Ho). rewrite H. eauto. }
        unfold bind at 1. unfold gets at 1. cbv beta iota. unfold bind at 1.
        match goal with
        | |- context [setMCPGoogleToken E ?a ?b ?c w2] =>
            pose proof (setMCPGoogleToken_trace a b c w2) as Hset;
            destruct (setMCPGoogleToken E a b c w2) as [[[]|e] w3]
        end; simpl in Hset; cbv beta iota.
        { run. exists true. eexists. split; [reflexivity|].
          exists [EvFetch site_refresh req; EvAuth token_refreshed]. simpl.
          rewrite Hset, Ht2, Ht1, <- !app_assoc. split; [reflexivity|].
          split; [eauto | exact Hrt]. }
        apply (Hfail [EvFetch site_refresh req] w3); [congruence | exact Hpre].
  - (* no refresh token *)
    unfold bind at 1. unfold gets at 1. cbv beta iota.
    change (googleAccessToken w1) with (googleAccessToken w).
    assert (Ha1 : googleAccessToken w1 = googleAccessToken w) by reflexivity.
    clearbody w1.
    destruct (optTruthy (googleAccessToken w)) eqn:Hat.
    + destruct (clearMCPGoogleToken_spec w1) as (w2 & H & Ht & Ha & Hr & _).
      unfold bind at 1. unfold bind at 1. rewrite H. run.
      exists false. eexists. split; [reflexivity|].
      exists [EvAuth token_cleared; EvAuth needs_relogin]. simpl.
      rewrite Ht, Ht1, <- !app_assoc. split; [reflexivity|].
      right. split; [exists []; auto | auto].
    + run. exists false, w1. split; [reflexivity|]. exists []. split; [exact Ht1|].
      left. auto.
Qed.

Lemma Total_refreshGoogleToken cause : Total (refreshGoogleToken E cause).
Proof. intros w. destruct (refreshGoogleToken_spec cause w) as (b & w' & H & _). eauto. Qed.

(** A call of [refreshGoogleToken] appends its own entry and, after it,
    only auth events and the refresh request. *)
Lemma refreshGoogleToken_trace cause (w : World) :
  exists evs, trace (snd (refreshGoogleToken E cause w))
              = trace w ++ EvRefreshCall cause :: evs
              /\ Forall authNoise evs.
Proof.
  destruct (refreshGoogleToken_spec cause w) as (b & w' & H & evs & Ht & Ho).
  rewrite H. exists evs. split; [exact Ht|].
  destruct b.
  - destruct Ho as [[req ->] _]. repeat constructor.
  - destruct Ho as [(-> & _) | [(pre & -> & Hpre) _]]; [constructor|].
    apply Forall_app. split; [|repeat constructor].
    destruct Hpre as [->|[req ->]]; repeat constructor.
Qed.

Lemma Total_getMCPAuthHeaders mcpUrl : Total (getMCPAuthHeaders E mcpUrl).
Proof.
  unfold getMCPAuthHeaders. effects;
    try apply Total_dateNow; apply Total_refreshGoogleToken.
Qed.

Lemma Adds_refreshGoogleToken P cause :
  (forall e, authNoise e -> P e) -> P (EvRefreshCall cause) ->
  Adds P (refreshGoogleToken E cause).
Proof.
  intros Hn Hc w. destruct (refreshGoogleToken_trace cause w) as (evs & Ht & HP).
  exists (EvRefreshCall cause :: evs). split; [exact Ht|].
  constructor; [exact Hc|]. eapply Forall_impl; eauto.
Qed.

Lemma Adds_getMCPAuthHeaders mcpUrl : Adds authEvent (getMCPAuthHeaders E mcpUrl).
Proof.
  unfold getMCPAuthHeaders. effects; try apply Adds_dateNow.
  apply Adds_refreshGoogleToken; [now left | now right].
Qed.

(** Without a cached access token the headers carry no bearer token and
    nothing happens. *)
Lemma getMCPAuthHeaders_no_token mcpUrl (w : World) :
  optTruthy (googleAccessToken w) = false ->
  exists headers, getMCPAuthHeaders E mcpUrl w = (Ok headers, w)
                  /\ headers !! "Authorization" = None.
Proof.
  intros Hat. unfold getMCPAuthHeaders.
  destruct (usesStaticKey E mcpUrl).
  - eexists. split; [reflexivity|]. now rewrite lookup_insert_ne.
  - unfold bind, gets. rewrite Hat. eexists. split; [reflexivity | reflexivity].
Qed.

Lemma authHeadersMany_no_token urls (w : World) :
  optTruthy (googleAccessToken w) = false ->
  authHeadersMany E urls w = (Ok tt, w).
Proof.
  intros Hat. induction urls as [|u urls IH]; simpl; [reflexivity|].
  destruct (getMCPAuthHeaders_no_token u w Hat) as (h & H & _).
  unfold bind, tryCatch. rewrite H. simpl. exact IH.
Qed.

End AuthStore.

Section Traces.

Lemma newEvents_eq {A} (m : M A) (w : World) (evs : list Event) :
  trace (snd (m w)) = trace w ++ evs -> newEvents m w = evs.
Proof. intros H. unfold newEvents. rewrite H. apply drop_app_length. Qed.

Lemma countEvents_app kind (xs ys : list Event) :
  countEvents kind (xs ++ ys) = (countEvents kind xs + countEvents kind ys)%nat.
Proof. unfold countEvents. now rewrite List.filter_app, length_app. Qed.

Lemma countEvents_none kind (P : Event -> Prop) (evs : list Event) :
  (forall e, P e -> kind e = false) -> Forall P evs -> countEvents kind evs = 0%nat.
Proof.
  intros HP. induction 1 as [|e evs He _ IH]; [reflexivity|].
  unfold countEvents in *. simpl. now rewrite (HP e He).
Qed.

End Traces.

(* ===================================================================== *)
(** ** Auth headers with an expired token *)
(* ===================================================================== *)

Section AuthHeaders.

Context (E : Env).

Lemma refreshOutcome_counts cause (w : World) b (w' : World) evs :
  trace w' = trace w ++ EvRefreshCall cause :: evs ->
  refreshOutcome cause w b w' ->
  Forall authNoise evs
  /\ (countEvents (isFetchAt site_refresh) evs <= 1)%nat
  /\ (b = false -> optTruthy (googleAccessToken w) = true ->
      countEvents isNeedsRelogin evs = 1%nat /\ googleAccessToken w' = None).
Proof.
  intros Ht (evs' & Ht' & Ho). rewrite Ht in Ht'.
  apply app_inv_head in Ht'. injection Ht' as ->.
  destruct b.
  - destruct Ho as [[req ->] _]. split; [repeat constructor|].
    split; [cbv; lia | discriminate].
  - destruct Ho as [(-> & Hat & _) | [(pre & -> & Hpre) [Ha _]]].
    + split; [constructor|]. split; [cbv; lia | congruence].
    + split.
      * apply Forall_app. split; [|repeat constructor].
        destruct Hpre as [->|[req ->]]; repeat constructor.
      * destruct Hpre as [->|[req ->]]; (split; [cbv; lia | intros _ _; now split]).
Qed.

(** C4. [getMCPAuthHeaders] never throws. Called for an endpoint that
    does not use the static key while the cached access token has
    [expiry <= now], it enters [refreshGoogleToken] exactly once (issuing
    at most one refresh request). If that refresh fails, the headers have
    no [Authorization] entry, exactly one "needs_relogin" event has been
    emitted, and any further calls of [getMCPAuthHeaders] leave the world
    as it is: they emit nothing more. *)
Theorem getMCPAuthHeaders_expired_token :
  (forall mcpUrl w, exists headers w', getMCPAuthHeaders E mcpUrl w = (Ok headers, w'))
  /\ (forall mcpUrl w,
        usesStaticKey E mcpUrl = false ->
        optTruthy (googleAccessToken w) = true ->
        JS.leb (googleTokenExpiry w) (Num (clock E (ticks w))) = true ->
        exists headers w',
          getMCPAuthHeaders E mcpUrl w = (Ok headers, w')
          /\ countEvents isRefreshCall (newEvents (getMCPAuthHeaders E mcpUrl) w) = 1%nat
          /\ (countEvents (isFetchAt site_refresh)
                          (newEvents (getMCPAuthHeaders E mcpUrl) w) <= 1)%nat
          /\ (refreshFails E w ->
                headers !! "Authorization" = None
                /\ countEvents isNeedsRelogin
                     (newEvents (getMCPAuthHeaders E mcpUrl) w) = 1%nat
                /\ forall urls, authHeadersMany E urls w' = (Ok tt, w'))).
Proof.
  split; [intros mcpUrl w; apply Total_getMCPAuthHeaders|].
  intros mcpUrl w Hstatic Hat Hexp. unfold refreshFails.
  set (w1 := set_ticks (S (ticks w)) w).
  destruct (refreshGoogleToken_spec E cause_expired w1) as (b & w2 & Hr & Ho).
  pose proof Ho as (evs & Ht & _).
  destruct (refreshOutcome_counts _ _ _ _ _ Ht Ho) as (Hnoise & Hfetch & Hfail).
  assert (Hrun : exists headers w',
             getMCPAuthHeaders E mcpUrl w = (Ok headers, w')
             /\ trace w' = trace w2
             /\ (googleAccessToken w2 = None -> headers = jsonHeaders /\ w' = w2)).
  { unfold getMCPAuthHeaders. rewrite Hstatic.
    unfold bind at 1. unfold gets at 1. cbv beta iota. rewrite Hat.
    unfold bind at 1. unfold gets at 1. cbv beta iota.
    unfold bind at 1. unfold dateNow at 1. cbv beta iota. fold w1. rewrite Hexp.
    unfold bind at 1. unfold bind at 1. rewrite Hr. unfold ret at 1. cbv beta iota.
    unfold bind at 1. unfold gets at 1. cbv beta iota.
    destruct (optTruthy (googleAccessToken w2)) eqn:Hopt.
    - unfold bind, gets, dateNow, ret. cbv beta iota.
      match goal with |- context [JS.gtb ?x ?y] => destruct (JS.gtb x y) end;
        eexists; eexists;
        (split; [reflexivity | split; [reflexivity |]]);
        intros Hn; rewrite Hn in Hopt; discriminate.
    - eexists; eexists. split; [reflexivity|]. split; [reflexivity | auto]. }
  destruct Hrun as (headers & w' & Hrun & Htw & Hnone).
  assert (Hnew : newEvents (getMCPAuthHeaders E mcpUrl) w = EvRefreshCall cause_expired :: evs).
  { apply newEvents_eq. rewrite Hrun. simpl. now rewrite Htw, Ht. }
  exists headers, w'. rewrite Hnew. split; [exact Hrun|].
  split.
  { change (EvRefreshCall cause_expired :: evs) with ([EvRefreshCall cause_expired] ++ evs).
    rewrite countEvents_app, (countEvents_none isRefreshCall authNoise evs); auto.
    now intros [[]| |[]| |]. }
  split.
  { change (EvRefreshCall cause_expired :: evs) with ([EvRefreshCall cause_expired] ++ evs).
    rewrite countEvents_app. exact Hfetch. }
  intros Hfails. rewrite Hr in Hfails. injection Hfails as ->.
  destruct (Hfail eq_refl Hat) as [Hcount Ha2].
  destruct (Hnone Ha2) as [-> ->].
  split; [reflexivity|]. split.
  - change (EvRefreshCall cause_expired :: evs) with ([EvRefreshCall cause_expired] ++ evs).
    rewrite countEvents_app. exact Hcount.
  - intros urls. apply authHeadersMany_no_token. now rewrite Ha2.
Qed.

End AuthHeaders.

(** At the sample: the token expired at 500, the clock reads 1000, the
    refresh request fails. *)
Lemma getMCPAuthHeaders_expired_token_witness :
  exists headers w',
    getMCPAuthHeaders Sample.expiredEnv (Some "https://workspace.example/mcp")
      Sample.expiredWorld = (Ok headers, w')
    /\ headers !! "Authorization" = None
    /\ countEvents isNeedsRelogin
         (newEvents (getMCPAuthHeaders Sample.expiredEnv
                       (Some "https://workspace.example/mcp")) Sample.expiredWorld)
       = 1%nat.
Proof.
  destruct (proj2 (getMCPAuthHeaders_expired_token Sample.expiredEnv)
              (Some "https://workspace.example/mcp") Sample.expiredWorld
              eq_refl eq_refl eq_refl)
    as (headers & w' & Hrun & _ & _ & Hfail).
  destruct (Hfail eq_refl) as (Hh & Hc & _).
  exists headers, w'. auto.
Defined.

(* ===================================================================== *)
(** ** Calling a tool *)
(* ===================================================================== *)

Section Protocol.

Context (E : Env).

Lemma authEvent_client (e : Event) : authEvent e -> clientEvent e.
Proof. intros [H| ->]; [now destruct e as [[]| | | |] | exact I]. Qed.

Lemma Adds_getMCPAuthMode P : Adds P (getMCPAuthMode E).
Proof. unfold getMCPAuthMode. effects; apply Adds_dateNow. Qed.

Lemma Total_getMCPAuthMode : Total (getMCPAuthMode E).
Proof. unfold getMCPAuthMode. effects; apply Total_dateNow. Qed.

Lemma Adds_headers_client mcpUrl : Adds clientEvent (getMCPAuthHeaders E mcpUrl).
Proof. eapply Adds_mono; [apply authEvent_client | apply Adds_getMCPAuthHeaders]. Qed.

Lemma Adds_refresh_client cause : Adds clientEvent (refreshGoogleToken E cause).
Proof.
  apply Adds_refreshGoogleToken; [|exact I]. now intros [[]| | | |].
Qed.

Lemma Adds_parseMcpResponse P res : Adds P (parseMcpResponse E res).
Proof. unfold parseMcpResponse. effects. apply Adds_resJson. Qed.

(** The MCP protocol path: auth events and requests from [mcpRpc]. *)
Section Rpc.

Context (P : Event -> Prop).
Hypothesis P_auth : forall e, authEvent e -> P e.
Hypothesis P_rpc : forall req, P (EvFetch site_rpc req).

Lemma Adds_headers_gen mcpUrl : Adds P (getMCPAuthHeaders E mcpUrl).
Proof. eapply Adds_mono; [apply P_auth | apply Adds_getMCPAuthHeaders]. Qed.

Lemma Adds_mcpRpc_gen mcpUrl method params isNotification :
  Adds P (mcpRpc E mcpUrl method params isNotification).
Proof.
  unfold mcpRpc. effects;
    first [ apply Adds_headers_gen | apply Adds_fetch; apply P_rpc
          | apply Adds_parseMcpResponse ].
Qed.

Lemma Adds_ensureSession_gen mcpUrl : Adds P (ensureSession E mcpUrl).
Proof. unfold ensureSession, mcpInitialize. effects; apply Adds_mcpRpc_gen. Qed.

Lemma Adds_mcpListTools_gen mcpUrl : Adds P (mcpListTools E mcpUrl).
Proof.
  unfold mcpListTools. effects;
    first [apply Adds_ensureSession_gen | apply Adds_mcpRpc_gen].
Qed.

Lemma Adds_mcpCallTool_gen mcpUrl toolName args :
  Adds P (mcpCallTool E mcpUrl toolName args).
Proof.
  unfold mcpCallTool. effects;
    first [apply Adds_ensureSession_gen | apply Adds_mcpRpc_gen].
Qed.

End Rpc.

Lemma Adds_mcpRpc mcpUrl method params isNotification :
  Adds clientEvent (mcpRpc E mcpUrl method params isNotification).
Proof. apply Adds_mcpRpc_gen; [apply authEvent_client | intros; exact I]. Qed.

Lemma Adds_ensureSession mcpUrl : Adds clientEvent (ensureSession E mcpUrl).
Proof. apply Adds_ensureSession_gen; [apply authEvent_client | intros; exact I]. Qed.

Lemma Adds_mcpListTools mcpUrl : Adds clientEvent (mcpListTools E mcpUrl).
Proof. apply Adds_mcpListTools_gen; [apply authEvent_client | intros; exact I]. Qed.

Lemma Adds_mcpCallTool mcpUrl toolName args :
  Adds clientEvent (mcpCallTool E mcpUrl toolName args).
Proof. apply Adds_mcpCallTool_gen; [apply authEvent_client | intros; exact I]. Qed.

Lemma Adds_callLoop callUrls headers body response :
  Adds clientEvent (callLoop E callUrls headers body response).
Proof.
  revert response. induction callUrls as [|url more IH]; intros response; simpl.
  - apply Adds_ret.
  - effects;
      first [ apply IH | apply Adds_fetch; exact I | apply Adds_refresh_client
            | apply Adds_headers_client
            | apply Adds_clearMCPGoogleToken; exact I
            | apply Adds_emit; exact I ].
Qed.

Lemma Adds_decodeCallResponse P n response : Adds P (decodeCallResponse E n response).
Proof. unfold decodeCallResponse. effects. Qed.

Lemma Adds_callMCPTool toolName args : Adds clientEvent (callMCPTool E toolName args).
Proof.
  unfold callMCPTool, callMCPToolBody. effects;
    first [ apply Adds_getMCPAuthMode | apply Adds_mcpCallTool
          | apply Adds_headers_client | apply Adds_callLoop
          | apply Adds_decodeCallResponse ].
Qed.

Lemma Total_callMCPTool toolName args : Total (callMCPTool E toolName args).
Proof. unfold callMCPTool. effects. Qed.

End Protocol.

Section CallTool.

Context (E : Env).

Lemma answeredWith_extend (w w1 w' : World) pre result :
  trace w1 = trace w ++ pre -> answeredWith E w1 w' result -> answeredWith E w w' result.
Proof.
  intros H1 (evs & site & req & res & data & Ht & Hnet & Hrest).
  exists (pre ++ evs), site, req, res, data.
  rewrite Ht, H1 in *. rewrite <- !app_assoc. rewrite <- app_assoc in Hnet. auto.
Qed.

Lemma lastAnswer_extend (w w1 w' : World) pre res :
  trace w1 = trace w ++ pre -> lastAnswer E w1 w' res -> lastAnswer E w w' res.
Proof.
  intros H1 (evs & site & req & Ht & Hsite & Hnet).
  exists (pre ++ evs), site, req.
  rewrite Ht, H1 in *. rewrite <- !app_assoc. rewrite <- app_assoc in Hnet. auto.
Qed.

Lemma bind_Ok {A B} (m : M A) (k : A -> M B) (w : World) b (w' : World) :
  bind m k w = (Ok b, w') -> exists a w1, m w = (Ok a, w1) /\ k a w1 = (Ok b, w').
Proof.
  unfold bind. destruct (m w) as [[a|e] w1]; [eauto | discriminate].
Qed.

Lemma fetch_Ok site req (w : World) res (w1 : World) :
  fetch E site req w = (Ok res, w1) ->
  net E (trace w) req = FetchResponse res
  /\ trace w1 = trace w ++ [EvFetch site req].
Proof.
  unfold fetch. destruct (net E (trace w) req); [discriminate|].
  intros H. injection H as -> <-. auto.
Qed.

Lemma parseMcpResponse_Ok res (w : World) data (w1 : World) :
  parseMcpResponse E res w = (Ok data, w1) -> rpcData E res = Some data /\ w1 = w.
Proof.
  unfold parseMcpResponse, rpcData, resJson.
  destruct (includes _ _).
  - destruct (firstEnvelope _ _); [|discriminate]. intros H. now injection H as -> ->.
  - destruct (JSON_parse _ _); [|discriminate]. intros H. now injection H as -> ->.
Qed.

(** What [mcpRpc] returns for a request is the [result] of the envelope
    it read from the 2xx response to its POST, the last event. *)
Lemma mcpRpc_answeredWith mcpUrl method params (w : World) v (w' : World) :
  mcpRpc E mcpUrl method params false w = (Ok v, w') -> answeredWith E w w' v.
Proof.
  unfold mcpRpc. intros H.
  apply bind_Ok in H as (h & w1 & Hh & H).
  destruct (Adds_headers_client E (Some mcpUrl) w) as (evs1 & Ht1 & _).
  rewrite Hh in Ht1. simpl in Ht1. cbv zeta in H.
  apply bind_Ok in H as (sessions & w2 & Hs & H). injection Hs as <- <-.
  apply bind_Ok in H as (body & w2 & Hb & H).
  assert (Ht2 : trace w2 = trace w1).
  { apply bind_Ok in Hb as (id & w3 & Hid & Hb). injection Hid as <- <-.
    apply bind_Ok in Hb as ([] & w3 & Hm & Hb). injection Hm as <-.
    now injection Hb as _ <-. }
  apply bind_Ok in H as (res & w3 & Hf & H).
  apply fetch_Ok in Hf as [Hnet Ht3].
  apply bind_Ok in H as ([] & w4 & Hm & H).
  assert (Ht4 : trace w4 = trace w3).
  { destruct (optTruthy (mcpSessionId res)); now injection Hm as <-. }
  destruct (ok res) eqn:Hok; [|discriminate]. cbn [negb] in H.
  apply bind_Ok in H as (data & w5 & Hp & H).
  apply parseMcpResponse_Ok in Hp as [Hdata ->].
  destruct (JS.truthy (JS.optGet data "error")) eqn:Herr; [discriminate|].
  injection H as <- <-.
  eexists evs1, site_rpc, _, res, data.
  rewrite Ht4, Ht3, Ht2, Ht1, <- app_assoc. rewrite Ht2, Ht1 in Hnet.
  split; [reflexivity|]. split; [exact Hnet|]. split; [exact Hok|].
  split; [exact Hdata|]. split; [exact Herr | reflexivity].
Qed.

Lemma mcpCallTool_answeredWith mcpUrl toolName args (w : World) r (w' : World) :
  mcpCallTool E mcpUrl toolName args w = (Ok r, w') ->
  exists result, answeredWith E w w' result /\ r = resultOf E result.
Proof.
  unfold mcpCallTool. intros H.
  apply bind_Ok in H as ([] & w1 & Hs & H).
  destruct (Adds_ensureSession E mcpUrl w) as (pre & Ht1 & _).
  rewrite Hs in Ht1. simpl in Ht1.
  apply bind_Ok in H as (result & w2 & Hr & H).
  apply mcpRpc_answeredWith in Hr. exists result.
  assert (Hout : w' = w2 /\ r = resultOf E result).
  { unfold resultOf. destruct (JS.truthy _); [now injection H|].
    destruct result; now injection H. }
  destruct Hout as [-> ->]. split; [|reflexivity].
  now apply (answeredWith_extend w w1 w2 pre).
Qed.

(** The response [callLoop] ends with is the one it was given or one it
    received; a 2xx response it received is the answer to its last POST. *)
Lemma callLoop_last callUrls headers body response (w : World) out (w' : World) :
  callLoop E callUrls headers body response w = (Ok out, w') ->
  out = response
  \/ exists res, out = Some res /\ (ok res = true -> lastAnswer E w w' res).
Proof.
  revert response w. induction callUrls as [|url more IH]; intros response w; simpl.
  - intros H. injection H as <- <-. now left.
  - intros H. right.
    apply bind_Ok in H as (res & w1 & Hf & H). apply fetch_Ok in Hf as [Hnet Ht1].
    match type of Hnet with net E _ ?q = _ => set (req := q) in * end.
    assert (Hres : forall given wk mid, ok given = false ->
                     trace wk = trace w1 ++ mid ->
                     callLoop E more headers body (Some given) wk = (Ok out, w') ->
                     exists r, out = Some r /\ (ok r = true -> lastAnswer E w w' r)).
    { intros given wk mid Hno Hk Hloop.
      destruct (IH _ _ Hloop) as [-> | (r & -> & Hr)].
      - exists given. split; [reflexivity|]. rewrite Hno. discriminate.
      - exists r. split; [reflexivity|]. intros Hok.
        apply (lastAnswer_extend w wk w' ([EvFetch site_call req] ++ mid)); auto.
        now rewrite Hk, Ht1, app_assoc. }
    destruct (ok res) eqn:Hok.
    { injection H as <- <-. exists res. split; [reflexivity|]. intros _.
      exists [], site_call, req. rewrite app_nil_r. auto. }
    destruct (status res =? 401).
    2:{ apply (Hres res w1 []); [exact Hok | now rewrite app_nil_r | exact H]. }
    apply bind_Ok in H as (rt & w2 & Hg & H). injection Hg as <- <-.
    destruct (optTruthy _).
    + apply bind_Ok in H as (refreshed & w2 & Hr & H).
      destruct (Adds_refresh_client E cause_unauthorized w1) as (mid1 & Hm1 & _).
      rewrite Hr in Hm1. simpl in Hm1.
      destruct refreshed; [|now apply (Hres res w2 mid1)].
      apply bind_Ok in H as (retryHeaders & w3 & Hh & H).
      destruct (Adds_headers_client E None w2) as (mid2 & Hm2 & _).
      rewrite Hh in Hm2. simpl in Hm2.
      apply bind_Ok in H as (retryRes & w4 & Hf & H). apply fetch_Ok in Hf as [Hnet4 Ht4].
      match type of Hnet4 with net E _ ?q = _ => set (rreq := q) in * end.
      destruct (ok retryRes) eqn:Hok4.
      * injection H as <- <-. exists retryRes. split; [reflexivity|]. intros _.
        exists ([EvFetch site_call req] ++ mid1 ++ mid2), site_retry, rreq.
        rewrite Ht4, Hm2, Hm1, Ht1, <- !app_assoc. split; [reflexivity|].
        split; [now right|].
        rewrite Hm2, Hm1, Ht1, <- !app_assoc in Hnet4. exact Hnet4.
      * apply (Hres retryRes w4 (mid1 ++ mid2 ++ [EvFetch site_retry rreq]));
          [exact Hok4 | | exact H].
        now rewrite Ht4, Hm2, Hm1, <- !app_assoc.
    + apply bind_Ok in H as ([] & w2 & Hc & H).
      destruct (Adds_clearMCPGoogleToken E clientEvent I w1) as (mid1 & Hm1 & _).
      rewrite Hc in Hm1. simpl in Hm1.
      apply bind_Ok in H as ([] & w3 & He & H). injection He as <-.
      apply (Hres res (set_trace (trace w2 ++ [EvAuth needs_relogin]) w2)
               (mid1 ++ [EvAuth needs_relogin])); [exact Hok | | exact H].
      simpl. now rewrite Hm1, <- app_assoc.
Qed.

(** What [decodeCallResponse] returns without throwing is an error result
    of the client, unless the response is 2xx, its body could be read and
    has no (truthy) [error] field: then it is what [resultOf] makes of
    the [result] field. *)
Lemma decodeCallResponse_Ok n response (w : World) r (w' : World) :
  decodeCallResponse E n response w = (Ok r, w') ->
  w' = w
  /\ ((exists text, r = errorResult text)
      \/ exists res data, response = Some res /\ ok res = true
                          /\ restData E res = Some data
                          /\ JS.truthy (JS.optGet data "error") = false
                          /\ r = resultOf E (JS.optGet data "result")).
Proof.
  unfold decodeCallResponse. destruct response as [res|].
  2:{ intros H. injection H as <- <-. eauto. }
  fold (restData E res). destruct (restData E res) as [data|] eqn:Hdata.
  2:{ intros H. injection H as <- <-. eauto. }
  destruct (JS.get data "error") as [err|] eqn:Hget; [|discriminate].
  assert (Herr : err = JS.optGet data "error").
  { destruct data; simpl in Hget |- *; congruence. }
  destruct (ok res) eqn:Hok; cbn [negb].
  2:{ intros H. injection H as <- <-. eauto. }
  destruct (JS.truthy err) eqn:Ht.
  { intros H. injection H as <- <-. eauto. }
  intros H.
  assert (Hout : w' = w /\ r = resultOf E (JS.optGet data "result")).
  { unfold resultOf. unfold ret in H.
    destruct (JS.optGet data "result") as [| | | | |items|fields];
      cbn [JS.optGet JS.truthy] in H |- *; try (now injection H).
    destruct (JS.truthy (JS.assoc "content" fields)); now injection H. }
  destruct Hout as [-> ->].
  split; [reflexivity|]. right. exists res, data. subst err. auto.
Qed.

(** How an invocation of [callMCPTool] ends. *)
Lemma callMCPTool_result (toolName : string) (args : JValue) (w : World) :
  exists r w',
    callMCPTool E toolName args w = (Ok r, w')
    /\ ((exists text, r = errorResult text)
        \/ exists result, answeredWith E w w' result /\ r = resultOf E result)
    /\ (forall message w1,
          callMCPToolBody E toolName args w = (Throw message, w1) ->
          r = errorResult ("Error calling " +:+ toolName +:+ ": " +:+ message)
          /\ w' = w1)
    /\ (serverUrlFor E w toolName = "" -> exists text, r = errorResult text)
    /\ (forall text,
          JS.optGet (errorResult text) "isError" = JBool true
          /\ JS.optGet (errorResult text) "content"
             = JArr [JObj [("type", JStr "text"); ("text", JStr text)]]).
Proof.
  unfold callMCPTool, tryCatch.
  destruct (callMCPToolBody E toolName args w) as [[r|e] w'] eqn:Hbody.
  2:{ eexists; eexists. split; [reflexivity|]. split; [eauto|].
      split; [|split; [eauto | auto]].
      intros message w1 H. now injection H as <- <-. }
  exists r, w'. split; [reflexivity|].
  assert (Hcases : ((exists text, r = errorResult text)
                    \/ exists result, answeredWith E w w' result /\ r = resultOf E result)
                   /\ (serverUrlFor E w toolName = "" -> exists text, r = errorResult text)).
  { unfold callMCPToolBody in Hbody.
    apply bind_Ok in Hbody as (session & w1 & Hs & Hbody). injection Hs as <- <-.
    cbv zeta in Hbody.
    apply bind_Ok in Hbody as (routes & w1 & Hr & Hbody). injection Hr as <- <-.
    fold (serverUrlFor E w toolName) in Hbody.
    destruct (JSString.truthy (serverUrlFor E w toolName)) eqn:Hurl; cbn [negb] in Hbody.
    2:{ injection Hbody as <- <-. split; eauto. }
    split; [|intros Hempty; rewrite Hempty in Hurl; discriminate].
    destruct (_ || _).
    { injection Hbody as <- <-. eauto. }
    apply bind_Ok in Hbody as (mode & w1 & Hm & Hbody).
    destruct (Adds_getMCPAuthMode E clientEvent w) as (pre1 & Hp1 & _).
    rewrite Hm in Hp1. simpl in Hp1.
    apply bind_Ok in Hbody as (protocols & w2 & Hp & Hbody). injection Hp as <- <-.
    assert (Hrest :
      (let* headers := getMCPAuthHeaders E (Some (serverUrlFor E w toolName)) in
       let* response :=
         callLoop E
           [orElse (stripMcpSuffix (serverUrlFor E w toolName)) (serverUrlFor E w toolName)
              +:+ "/api/call";
            orElse (stripMcpSuffix (serverUrlFor E w toolName)) (serverUrlFor E w toolName)
              +:+ "/call"]
           headers
           (JObj [("name", JStr (normalizeToolName (currentSession w) toolName));
                  ("arguments", args)]) None in
       decodeCallResponse E (normalizeToolName (currentSession w) toolName) response) w1
      = (Ok r, w') ->
      (exists text, r = errorResult text)
      \/ exists result, answeredWith E w w' result /\ r = resultOf E result).
    { clear Hbody. intros Hbody.
      apply bind_Ok in Hbody as (headers & w2 & Hh & Hbody).
      destruct (Adds_headers_client E (Some (serverUrlFor E w toolName)) w1)
        as (pre2 & Hp2 & _).
      rewrite Hh in Hp2. simpl in Hp2.
      apply bind_Ok in Hbody as (response & w3 & Hloop & Hbody).
      apply decodeCallResponse_Ok in Hbody
        as [-> [Herr | (res & data & -> & Hok & Hdata & Hnoerr & ->)]]; [now left|].
      right. apply callLoop_last in Hloop as [Hnone | (res' & Heq & Hlast)];
        [discriminate|]. injection Heq as <-.
      destruct (Hlast Hok) as (evs & site & req & Ht & Hsite & Hnet).
      exists (JS.optGet data "result"). split; [|reflexivity].
      exists (pre1 ++ pre2 ++ evs), site, req, res, data.
      rewrite Ht, Hp2, Hp1, <- !app_assoc. rewrite Hp2, Hp1, <- !app_assoc in Hnet.
      split; [reflexivity|]. split; [exact Hnet|]. split; [exact Hok|].
      split; [now destruct Hsite as [-> | ->]|]. auto. }
    destruct (serverProtocol w1 !! serverUrlFor E w toolName) as [[]|];
      [now apply Hrest | | now apply Hrest].
    right. apply mcpCallTool_answeredWith in Hbody as (result & Hans & ->).
    exists result. split; [|reflexivity].
    now apply (answeredWith_extend w w1 w' pre1). }
  destruct Hcases as [Hmain Hnone].
  split; [exact Hmain|]. split; [discriminate|]. split; [exact Hnone | auto].
Qed.


(** C10. When the server URL resolved for the tool contains "localhost"
    or starts with "http://127.0.0.1", [callMCPTool] returns an
    error-tagged result with one text item and leaves the world as it
    found it: nothing is appended to the trace, so no request is issued. *)
Theorem callMCPTool_localhost (toolName : string) (args : JValue) (w : World) :
  includes (serverUrlFor E w toolName) "localhost"
  || startsWith (serverUrlFor E w toolName) "http://127.0.0.1" = true ->
  exists text,
    callMCPTool E toolName args w = (Ok (errorResult text), w)
    /\ JS.optGet (errorResult text) "isError" = JBool true
    /\ JS.optGet (errorResult text) "content"
       = JArr [JObj [("type", JStr "text"); ("text", JStr text)]]
    /\ newEvents (callMCPTool E toolName args) w = []
    /\ countEvents isFetch (newEvents (callMCPTool E toolName args) w) = 0%nat.
Proof.
  intros Hlocal.
  assert (Htruthy : JSString.truthy (serverUrlFor E w toolName) = true).
  { apply orb_true_iff in Hlocal as [H|H].
    - now apply (includes_nonempty _ _ H).
    - now apply (startsWith_nonempty _ _ H). }
  assert (Hrun : exists text, callMCPTool E toolName args w = (Ok (errorResult text), w)).
  { unfold callMCPTool, tryCatch, callMCPToolBody.
    unfold bind at 1. unfold gets at 1. cbv beta iota zeta.
    unfold bind at 1. unfold gets at 1. cbv beta iota zeta.
    fold (serverUrlFor E w toolName). rewrite Htruthy, Hlocal. cbn [negb].
    eexists. reflexivity. }
  destruct Hrun as [text Hrun]. exists text.
  assert (Hnew : newEvents (callMCPTool E toolName args) w = []).
  { apply newEvents_eq. rewrite Hrun. simpl. now rewrite app_nil_r. }
  rewrite Hnew. repeat split; auto.
Qed.

End CallTool.

(** At the sample: the workspace URL is "http://localhost:8000/mcp". *)
Lemma callMCPTool_localhost_witness :
  exists text,
    callMCPTool Sample.localEnv "gmail.list_messages" (JObj []) initialWorld
    = (Ok (errorResult text), initialWorld).
Proof.
  destruct (callMCPTool_localhost Sample.localEnv "gmail.list_messages" (JObj [])
              initialWorld eq_refl) as (text & Hrun & _).
  exists text. exact Hrun.
Defined.

(* ===================================================================== *)
(** ** 401 handling of the REST path *)
(* ===================================================================== *)

Section Unauthorized.

Context (E : Env).

Lemma fetch_trace site req (w : World) :
  trace (snd (fetch E site req w)) = trace w ++ [EvFetch site req].
Proof. unfold fetch. now destruct (net E (trace w) req). Qed.

Lemma authNoise_quiet (e : Event) : authNoise e -> quiet e.
Proof. destruct e as [[]| | | |]; intros []; repeat split. Qed.

Lemma authEvent_quiet (e : Event) : authEvent e -> quiet e.
Proof. intros [H| ->]; [now apply authNoise_quiet | repeat split]. Qed.

Lemma quiet_counts (evs : list Event) :
  Forall quiet evs ->
  retries evs = 0%nat /\ refreshesOn401 evs = 0%nat /\ firstPosts evs = 0%nat.
Proof.
  intros H. unfold retries, refreshesOn401, firstPosts.
  repeat split; apply (countEvents_none _ quiet); auto; unfold quiet; tauto.
Qed.

Ltac tally :=
  unfold wellNested, retries, refreshesOn401, firstPosts in *;
  rewrite ?countEvents_app;
  repeat match goal with
         | H : Forall quiet _ |- _ =>
             apply quiet_counts in H as (? & ? & ?);
             unfold retries, refreshesOn401, firstPosts in *
         end;
  cbn [countEvents List.filter isFetchAt isRefreshFor length] in *; lia.

(** The events of the call loop: per call path one first POST, at most
    one refresh because of a 401 and, only after such a refresh, at most
    one retried POST. *)
Lemma callLoop_tally callUrls headers body response (w : World) :
  exists evs,
    trace (snd (callLoop E callUrls headers body response w)) = trace w ++ evs
    /\ wellNested (length callUrls) evs.
Proof.
  revert response w. induction callUrls as [|url more IH]; intros response w.
  - exists []. simpl. rewrite app_nil_r. split; [reflexivity | tally].
  - cbn [callLoop length]. unfold bind at 1.
    match goal with |- context [fetch E site_call ?q w] => set (req := q) end.
    pose proof (fetch_trace site_call req w) as Ht1.
    destruct (fetch E site_call req w) as [[res|e] w1]; cbn [snd] in Ht1.
    2:{ exists [EvFetch site_call req]. split; [cbn [snd]; exact Ht1 | tally]. }
    destruct (ok res).
    { exists [EvFetch site_call req]. split; [cbn [snd]; exact Ht1 | tally]. }
    assert (Hnext : forall wk mid r,
               trace wk = trace w1 ++ mid -> Forall quiet mid ->
               exists evs,
                 trace (snd (callLoop E more headers body r wk)) = trace w ++ evs
                 /\ wellNested (S (length more)) evs).
    { intros wk mid r Hk Hq. destruct (IH r wk) as (evs & Ht & Hw).
      exists ([EvFetch site_call req] ++ mid ++ evs).
      cbn [snd]; rewrite Ht, Hk, Ht1, <- !app_assoc. split; [reflexivity | tally]. }
    destruct (status res =? 401).
    2:{ apply (Hnext w1 []); [now rewrite app_nil_r | constructor]. }
    unfold bind at 1. unfold gets at 1. cbv beta iota.
    destruct (optTruthy (googleRefreshToken w1)).
    + unfold bind at 1.
      destruct (refreshGoogleToken_trace E cause_unauthorized w1) as (noise & Ht2 & Hn).
      assert (Hq : Forall quiet noise)
        by (eapply List.Forall_impl; [apply authNoise_quiet | exact Hn]).
      clear Hn.
      destruct (refreshGoogleToken E cause_unauthorized w1) as [[refreshed|e] w2];
        cbn [snd] in Ht2.
      2:{ exists ([EvFetch site_call req] ++ [EvRefreshCall cause_unauthorized] ++ noise).
          cbn [snd]; rewrite Ht2, Ht1, <- !app_assoc. split; [reflexivity | tally]. }
      destruct refreshed.
      2:{ destruct (IH (Some res) w2) as (evs & Ht & Hw).
          exists ([EvFetch site_call req] ++ [EvRefreshCall cause_unauthorized]
                  ++ noise ++ evs).
          cbn [snd]; rewrite Ht, Ht2, Ht1, <- !app_assoc. split; [reflexivity | tally]. }
      unfold bind at 1.
      destruct (Adds_getMCPAuthHeaders E None w2) as (hs & Ht3 & Hh).
      assert (Hq' : Forall quiet hs)
        by (eapply List.Forall_impl; [apply authEvent_quiet | exact Hh]).
      clear Hh.
      destruct (getMCPAuthHeaders E None w2) as [[retryHeaders|e] w3]; cbn [snd] in Ht3.
      2:{ exists ([EvFetch site_call req] ++ [EvRefreshCall cause_unauthorized]
                  ++ noise ++ hs).
          cbn [snd]; rewrite Ht3, Ht2, Ht1, <- !app_assoc. split; [reflexivity | tally]. }
      unfold bind at 1.
      match goal with |- context [fetch E site_retry ?q w3] => set (rreq := q) end.
      pose proof (fetch_trace site_retry rreq w3) as Ht4.
      assert (Hstop : exists evs,
                 trace (snd (fetch E site_retry rreq w3)) = trace w ++ evs
                 /\ wellNested (S (length more)) evs).
      { exists ([EvFetch site_call req] ++ [EvRefreshCall cause_unauthorized]
                ++ noise ++ hs ++ [EvFetch site_retry rreq]).
        cbn [snd]; rewrite Ht4, Ht3, Ht2, Ht1, <- !app_assoc. split; [reflexivity | tally]. }
      destruct (fetch E site_retry rreq w3) as [[retryRes|e] w4]; cbn [snd] in Ht4, Hstop.
      2:{ exact Hstop. }
      destruct (ok retryRes); [exact Hstop|].
      destruct (IH (Some retryRes) w4) as (evs & Ht & Hw).
      exists ([EvFetch site_call req] ++ [EvRefreshCall cause_unauthorized]
              ++ noise ++ hs ++ [EvFetch site_retry rreq] ++ evs).
      cbn [snd]; rewrite Ht, Ht4, Ht3, Ht2, Ht1, <- !app_assoc. split; [reflexivity | tally].
    + unfold bind at 1.
      destruct (clearMCPGoogleToken_spec E w1) as (w2 & Hc & Ht2 & _).
      rewrite Hc. unfold bind at 1. unfold emitAuthEvent, emit, modify. cbv beta iota.
      apply (Hnext _ [EvAuth token_cleared; EvAuth needs_relogin]).
      * simpl. now rewrite Ht2, <- app_assoc.
      * repeat constructor.
Qed.

Lemma quiet_wellNested n (evs : list Event) : Forall quiet evs -> wellNested n evs.
Proof. intros H. tally. Qed.

Lemma callMCPToolBody_tally toolName args (w : World) :
  exists evs,
    trace (snd (callMCPToolBody E toolName args w)) = trace w ++ evs
    /\ wellNested 2 evs.
Proof.
  assert (Hnil : forall (r : Result MCPToolResult),
             exists evs, trace (snd (r, w)) = trace w ++ evs /\ wellNested 2 evs).
  { intros r. exists []. cbn [snd]. rewrite app_nil_r. split; [reflexivity | tally]. }
  unfold callMCPToolBody.
  unfold bind at 1. unfold gets at 1. cbv beta iota zeta.
  unfold bind at 1. unfold gets at 1. cbv beta iota zeta.
  destruct (negb _); [apply Hnil|].
  destruct (_ || _); [apply Hnil|].
  unfold bind at 1.
  destruct (Adds_getMCPAuthMode E quiet w) as (pre & Hp & Hq).
  destruct (getMCPAuthMode E w) as [[mode|e] w1]; cbn [snd] in Hp.
  2:{ exists pre. split; [exact Hp | now apply quiet_wellNested]. }
  unfold bind at 1. unfold gets at 1. cbv beta iota.
  assert (Hrest : forall restBase n,
    exists evs,
      trace (snd ((let* headers := getMCPAuthHeaders E (Some (serverUrlFor E w toolName)) in
                   let* response :=
                     callLoop E [restBase +:+ "/api/call"; restBase +:+ "/call"] headers
                       (JObj [("name", JStr n); ("arguments", args)]) None in
                   decodeCallResponse E n response) w1)) = trace w ++ evs
      /\ wellNested 2 evs).
  { intros restBase n. unfold bind at 1.
    destruct (Adds_getMCPAuthHeaders E (Some (serverUrlFor E w toolName)) w1)
      as (hs & Hh & Hqh).
    assert (Hq' : Forall quiet hs)
      by (eapply List.Forall_impl; [apply authEvent_quiet | exact Hqh]).
    destruct (getMCPAuthHeaders E (Some (serverUrlFor E w toolName)) w1)
      as [[headers|e] w2]; cbn [snd] in Hh.
    2:{ exists (pre ++ hs). cbn [snd]. rewrite Hh, Hp, <- app_assoc.
        split; [reflexivity | tally]. }
    unfold bind at 1.
    match goal with
    | |- context [callLoop E ?us ?h ?b ?r w2] =>
        destruct (callLoop_tally us h b r w2) as (evs & Ht & Hw);
        destruct (callLoop E us h b r w2) as [[response|e] w3]
    end; cbn [snd length] in Ht, Hw.
    2:{ exists (pre ++ hs ++ evs). cbn [snd]. rewrite Ht, Hh, Hp, <- !app_assoc.
        split; [reflexivity | tally]. }
    destruct (Adds_decodeCallResponse E quiet n response w3) as (ds & Hd & Hqd).
    exists (pre ++ hs ++ evs ++ ds). rewrite Hd, Ht, Hh, Hp, <- !app_assoc.
    split; [reflexivity | tally]. }
  fold (serverUrlFor E w toolName).
  destruct (serverProtocol w1 !! serverUrlFor E w toolName) as [[]|];
    [apply Hrest | | apply Hrest].
  match goal with
  | |- context [mcpCallTool E ?u ?n ?a w1] =>
      destruct (Adds_mcpCallTool_gen E quiet authEvent_quiet
                  (fun req => conj eq_refl (conj eq_refl eq_refl)) u n a w1)
        as (evs & Ht & Hqe)
  end.
  exists (pre ++ evs). rewrite Ht, Hp, <- app_assoc. split; [reflexivity | tally].
Qed.

End Unauthorized.

(* ===================================================================== *)
(** ** Discovery *)
(* ===================================================================== *)

Section KeepsRoutes.

Context {A B : Type}.

Lemma Keeps_ret (a : A) : KeepsRoutes (ret a).
Proof. now intros w. Qed.

Lemma Keeps_throw (e : string) : KeepsRoutes (throw (A := A) e).
Proof. now intros w. Qed.

Lemma Keeps_gets (f : World -> A) : KeepsRoutes (gets f).
Proof. now intros w. Qed.

Lemma Keeps_bind (m : M A) (k : A -> M B) :
  KeepsRoutes m -> (forall a, KeepsRoutes (k a)) -> KeepsRoutes (bind m k).
Proof.
  intros Hm Hk w. unfold bind. specialize (Hm w).
  destruct (m w) as [[a|e] w1]; simpl in *; [now rewrite Hk | exact Hm].
Qed.

Lemma Keeps_tryCatch (m : M A) (h : string -> M A) :
  KeepsRoutes m -> (forall e, KeepsRoutes (h e)) -> KeepsRoutes (tryCatch m h).
Proof.
  intros Hm Hh w. unfold tryCatch. specialize (Hm w).
  destruct (m w) as [[a|e] w1]; simpl in *; [exact Hm | now rewrite Hh].
Qed.

End KeepsRoutes.

Lemma Keeps_modify (f : World -> World) :
  (forall w, toolToServerMap (f w) = toolToServerMap w) -> KeepsRoutes (modify f).
Proof. intros Hf w. apply Hf. Qed.

Ltac keeps_step :=
  match goal with
  | |- KeepsRoutes (bind _ _) => apply Keeps_bind; [|intros ?]
  | |- KeepsRoutes (tryCatch _ _) => apply Keeps_tryCatch; [|intros ?]
  | |- KeepsRoutes (ret _) => apply Keeps_ret
  | |- KeepsRoutes (throw _) => apply Keeps_throw
  | |- KeepsRoutes (gets _) => apply Keeps_gets
  | |- KeepsRoutes (modify _) => apply Keeps_modify; intros ?; reflexivity
  | |- KeepsRoutes (emit _) => apply Keeps_modify; intros ?; reflexivity
  | |- KeepsRoutes (emitAuthEvent _) => apply Keeps_modify; intros ?; reflexivity
  | |- KeepsRoutes (if ?b then _ else _) => destruct b
  | |- KeepsRoutes (match ?x with _ => _ end) => destruct x
  | |- KeepsRoutes (let _ := _ in _) => cbv zeta
  end.

Ltac keeps := repeat keeps_step.

Section DiscoveryFrame.

Context (E : Env).

Lemma Keeps_dateNow : KeepsRoutes (dateNow E).
Proof. now intros w. Qed.

Lemma Keeps_fetch site req : KeepsRoutes (fetch E site req).
Proof. intros w. unfold fetch. now destruct (net E (trace w) req). Qed.

Lemma Keeps_resJson res : KeepsRoutes (resJson E res).
Proof. unfold resJson. keeps. Qed.

Lemma Keeps_getSecureItemAsync key : KeepsRoutes (getSecureItemAsync E key).
Proof. intros w. unfold getSecureItemAsync. now destruct (storeFault E (storeOps w)). Qed.

Lemma Keeps_setSecureItemAsync key value : KeepsRoutes (setSecureItemAsync E key value).
Proof. intros w. unfold setSecureItemAsync. now destruct (storeFault E (storeOps w)). Qed.

Lemma Keeps_deleteSecureItemAsync key : KeepsRoutes (deleteSecureItemAsync E key).
Proof. intros w. unfold deleteSecureItemAsync. now destruct (storeFault E (storeOps w)). Qed.

Lemma Keeps_promiseAll (ps : list (M unit)) :
  Forall KeepsRoutes ps -> KeepsRoutes (promiseAll ps).
Proof.
  induction 1 as [|p ps Hp _ IH]; simpl; [apply Keeps_ret|].
  intros w. specialize (Hp w). destruct (p w) as [[[]|e] w1]; simpl in *.
  - now rewrite IH.
  - specialize (IH w1). destruct (promiseAll ps w1) as [r w2]. simpl in *. congruence.
Qed.

Lemma Keeps_promiseAll3 {A : Type} (a b c : M A) :
  KeepsRoutes a -> KeepsRoutes b -> KeepsRoutes c -> KeepsRoutes (promiseAll3 a b c).
Proof.
  intros Ha Hb Hc w. unfold promiseAll3. specialize (Ha w).
  destruct (a w) as [ra w1]. specialize (Hb w1). destruct (b w1) as [rb w2].
  specialize (Hc w2). destruct (c w2) as [rc w3]. cbn [snd] in *. congruence.
Qed.

Lemma Keeps_clearMCPGoogleToken : KeepsRoutes (clearMCPGoogleToken E).
Proof.
  unfold clearMCPGoogleToken. keeps.
  apply Keeps_promiseAll. repeat constructor; apply Keeps_deleteSecureItemAsync.
Qed.

Lemma Keeps_setMCPGoogleToken accessToken expiresIn refreshToken :
  KeepsRoutes (setMCPGoogleToken E accessToken expiresIn refreshToken).
Proof.
  unfold setMCPGoogleToken. keeps; try apply Keeps_dateNow;
    (apply Keeps_promiseAll; apply Forall_app; split;
     [ repeat constructor; apply Keeps_setSecureItemAsync
     | destruct refreshToken as [r|]; [destruct (JSString.truthy r)|];
       repeat constructor; apply Keeps_setSecureItemAsync ]).
Qed.

Lemma Keeps_loadPersistedAuth : KeepsRoutes (loadPersistedAuth E).
Proof.
  unfold loadPersistedAuth. keeps;
    first [ apply Keeps_promiseAll3; apply Keeps_getSecureItemAsync | apply Keeps_dateNow
          | apply Keeps_clearMCPGoogleToken ].
Qed.

Lemma Keeps_refreshGoogleToken cause : KeepsRoutes (refreshGoogleToken E cause).
Proof.
  unfold refreshGoogleToken. keeps;
    first [ apply Keeps_clearMCPGoogleToken | apply Keeps_fetch | apply Keeps_resJson
          | apply Keeps_setMCPGoogleToken ].
Qed.

Lemma Keeps_getMCPAuthHeaders mcpUrl : KeepsRoutes (getMCPAuthHeaders E mcpUrl).
Proof.
  unfold getMCPAuthHeaders. keeps;
    first [apply Keeps_dateNow | apply Keeps_refreshGoogleToken].
Qed.

Lemma Keeps_getMCPAuthMode : KeepsRoutes (getMCPAuthMode E).
Proof. unfold getMCPAuthMode. keeps; apply Keeps_dateNow. Qed.

Lemma Keeps_mcpRpc mcpUrl method params isNotification :
  KeepsRoutes (mcpRpc E mcpUrl method params isNotification).
Proof.
  unfold mcpRpc, parseMcpResponse. keeps;
    first [apply Keeps_getMCPAuthHeaders | apply Keeps_fetch | apply Keeps_resJson].
Qed.

Lemma Keeps_mcpListTools mcpUrl : KeepsRoutes (mcpListTools E mcpUrl).
Proof. unfold mcpListTools, ensureSession, mcpInitialize. keeps; apply Keeps_mcpRpc. Qed.

Lemma Keeps_fetchToolsRest headers candidates :
  KeepsRoutes (fetchToolsRest E headers candidates).
Proof.
  induction candidates as [|[base path] more IH]; simpl; [apply Keeps_ret|].
  keeps; first [apply IH | apply Keeps_fetch | apply Keeps_resJson].
Qed.

Lemma Keeps_fetchToolsFromServer baseUrl rootUrl serverName :
  KeepsRoutes (fetchToolsFromServer E baseUrl rootUrl serverName).
Proof.
  unfold fetchToolsFromServer. keeps;
    first [ apply Keeps_mcpListTools | apply Keeps_getMCPAuthHeaders
          | apply Keeps_fetchToolsRest ].
Qed.

End DiscoveryFrame.

Section Discovery.

Context (E : Env).

Lemma set_toolToServerMap_same (w : World) :
  set_toolToServerMap (toolToServerMap w) w = w.
Proof. now destruct w. Qed.

Lemma pushTools_spec tools baseUrlForCalls allTools (w : World) :
  pushTools tools baseUrlForCalls allTools w
  = (Ok (allTools ++ tools),
     set_toolToServerMap
       (recordRoutes (tools, baseUrlForCalls) (toolToServerMap w)) w).
Proof.
  unfold recordRoutes. simpl fst. simpl snd.
  revert allTools w. induction tools as [|t tools IH]; intros allTools w; simpl.
  - now rewrite app_nil_r, set_toolToServerMap_same.
  - unfold bind, modify. rewrite IH. simpl. now rewrite <- app_assoc.
Qed.

Lemma recordTools_spec tools baseUrlForCalls (acc : list MCPTool * gmap string string) :
  recordTools tools baseUrlForCalls acc
  = (fst acc ++ tools, recordRoutes (tools, baseUrlForCalls) (snd acc)).
Proof.
  unfold recordTools, recordRoutes. simpl fst. simpl snd.
  revert acc. induction tools as [|t tools IH]; intros [all table]; simpl.
  - now rewrite app_nil_r.
  - rewrite IH. simpl. now rewrite <- app_assoc.
Qed.

(** The discovery loop of [listMCPTools] never throws: the catalog is
    what it had plus the contributions, and the routes are entered. *)
Lemma listLoop_spec servers allTools (w : World) :
  listLoop E servers allTools w
  = (Ok (allTools ++ catalogOf (fst (discoveries E true servers w))),
     snd (discoveries E true servers w))
  /\ toolToServerMap (snd (discoveries E true servers w))
     = fold_left (fun m c => recordRoutes c m) (fst (discoveries E true servers w))
         (toolToServerMap w).
Proof.
  revert allTools w. induction servers as [|s more IH]; intros allTools w.
  - simpl. unfold catalogOf. simpl. now rewrite app_nil_r.
  - cbn [listLoop discoveries]. unfold bind at 1, tryCatch, bind at 1.
    pose proof (Keeps_fetchToolsFromServer E (baseUrl s) (rootUrl s) (name s) w) as Hk.
    destruct (fetchToolsFromServer E (baseUrl s) (rootUrl s) (name s) w)
      as [[[tools url]|e] w1]; cbn [snd fst contributionOf] in *.
    + rewrite pushTools_spec.
      destruct (IH (allTools ++ tools)
                  (set_toolToServerMap
                     (recordRoutes (tools, url) (toolToServerMap w1)) w1)) as [H1 H2].
      destruct (discoveries E true more _) as [cs w'] eqn:Hd.
      cbn [fst snd] in *. rewrite H1. unfold catalogOf. cbn [map concat fst].
      rewrite <- app_assoc. split; [reflexivity|]. rewrite H2. simpl. now rewrite Hk.
    + unfold ret at 1. cbv beta iota.
      assert (Hsame : set_toolToServerMap
                        (recordRoutes ([], baseUrl s) (toolToServerMap w1)) w1 = w1)
        by apply set_toolToServerMap_same.
      rewrite Hsame. destruct (IH allTools w1) as [H1 H2].
      destruct (discoveries E true more w1) as [cs w'] eqn:Hd.
      cbn [fst snd] in *. rewrite H1. split; [reflexivity|]. rewrite H2. simpl.
      now rewrite Hk.
Qed.

Lemma initializeLoop_spec servers (acc : list MCPTool * gmap string string) (w : World) :
  initializeLoop E servers acc w
  = (Ok (fst acc ++ catalogOf (fst (discoveries E false servers w)),
         fold_left (fun m c => recordRoutes c m) (fst (discoveries E false servers w))
           (snd acc)),
     snd (discoveries E false servers w))
  /\ toolToServerMap (snd (discoveries E false servers w)) = toolToServerMap w.
Proof.
  revert acc w. induction servers as [|s more IH]; intros acc w.
  - simpl. unfold catalogOf. simpl. rewrite app_nil_r. now destruct acc.
  - cbn [initializeLoop discoveries]. unfold bind at 1, tryCatch, bind at 1.
    pose proof (Keeps_fetchToolsFromServer E (baseUrl s) (rootUrl s) (name s) w) as Hk.
    destruct (fetchToolsFromServer E (baseUrl s) (rootUrl s) (name s) w)
      as [[[tools url]|e] w1]; cbn [snd fst contributionOf] in *.
    + unfold ret at 1. cbv beta iota. rewrite recordTools_spec.
      destruct (IH (fst acc ++ tools, recordRoutes (tools, url) (snd acc)) w1) as [H1 H2].
      destruct (discoveries E false more w1) as [cs w'] eqn:Hd.
      cbn [fst snd] in *. rewrite H1. unfold catalogOf. cbn [map concat fst].
      rewrite <- app_assoc. split; [reflexivity | congruence].
    + unfold ret at 1. cbv beta iota.
      destruct (IH acc w1) as [H1 H2].
      destruct (discoveries E false more w1) as [cs w'] eqn:Hd.
      cbn [fst snd] in *. rewrite H1. split; [reflexivity | congruence].
Qed.

Lemma setRoute_lookup (key value : string) table toolName :
  setRoute key value table !! toolName
  = if String.eqb key toolName && negb (String.eqb toolName "__proto__")
    then Some value else table !! toolName.
Proof.
  unfold setRoute.
  destruct (String.eqb_spec key toolName) as [->|Hne]; cbn [andb].
  - destruct (String.eqb toolName "__proto__"); [reflexivity|]. apply lookup_insert_eq.
  - destruct (String.eqb key "__proto__"); [reflexivity|]. now apply lookup_insert_ne.
Qed.

Lemma recordRoutes_lookup (c : list MCPTool * string) table toolName :
  recordRoutes c table !! toolName
  = if existsb (fun t => String.eqb (tool_name t) toolName) (fst c)
       && negb (String.eqb toolName "__proto__")
    then Some (snd c) else table !! toolName.
Proof.
  destruct c as [tools url]. unfold recordRoutes. simpl fst. simpl snd.
  revert table. induction tools as [|t tools IH]; intros table; simpl; [reflexivity|].
  rewrite IH, setRoute_lookup.
  destruct (String.eqb toolName "__proto__"); [now rewrite !andb_false_r|].
  rewrite !andb_true_r.
  destruct (existsb _ tools); [now rewrite orb_true_r|]. now rewrite orb_false_r.
Qed.

(** Last endpoint wins: a name is routed to the endpoint that last
    contributed a tool of that name; nothing is ever stored under
    "__proto__". *)
Lemma routes_lastOwner cs table toolName :
  fold_left (fun m c => recordRoutes c m) cs table !! toolName
  = if String.eqb toolName "__proto__" then table !! toolName
    else fold_left (fun owner c =>
                      if existsb (fun t => String.eqb (tool_name t) toolName) (fst c)
                      then Some (snd c) else owner)
                   cs (table !! toolName).
Proof.
  revert table. induction cs as [|c cs IH]; intros table; simpl.
  - now destruct (String.eqb toolName "__proto__").
  - rewrite IH, recordRoutes_lookup.
    destruct (String.eqb toolName "__proto__"); [now rewrite andb_false_r|].
    now rewrite andb_true_r.
Qed.

Lemma routesOf_lastOwner cs toolName :
  toolName <> "__proto__" -> routesOf cs !! toolName = lastOwner toolName cs.
Proof.
  intros Hne. unfold routesOf, lastOwner. rewrite routes_lastOwner, lookup_empty.
  now destruct (String.eqb_spec toolName "__proto__").
Qed.

Lemma routesOf_proto cs : routesOf cs !! "__proto__" = None.
Proof. unfold routesOf. rewrite routes_lastOwner. apply lookup_empty. Qed.

Lemma lastOwner_app toolName cs1 cs2 :
  lastOwner toolName (cs1 ++ cs2)
  = match lastOwner toolName cs2 with
    | Some owner => Some owner
    | None => lastOwner toolName cs1
    end.
Proof.
  unfold lastOwner. rewrite fold_left_app.
  generalize (fold_left
                (fun owner c =>
                   if existsb (fun t => String.eqb (tool_name t) toolName) (fst c)
                   then Some (snd c) else owner) cs1 None).
  induction cs2 as [|c cs2 IH] using rev_ind; intros o; simpl.
  - now destruct o.
  - rewrite !fold_left_app. simpl. destruct (existsb _ (fst c)); [reflexivity | apply IH].
Qed.

(** Every tool of the catalog has an owner. *)
Lemma catalog_owned cs (t : MCPTool) :
  In t (catalogOf cs) -> exists owner, lastOwner (tool_name t) cs = Some owner.
Proof.
  induction cs as [|c cs IH] using rev_ind; [intros []|].
  unfold catalogOf. rewrite map_app, concat_app. simpl. rewrite app_nil_r.
  intros Hin. rewrite lastOwner_app. apply in_app_or in Hin as [Hin|Hin].
  - destruct (lastOwner (tool_name t) [c]); [eauto | now apply IH].
  - unfold lastOwner. simpl.
    assert (Hex : existsb (fun t' => String.eqb (tool_name t') (tool_name t)) (fst c) = true).
    { apply existsb_exists. exists t. split; [exact Hin | apply String.eqb_refl]. }
    rewrite Hex. eauto.
Qed.

Lemma Total_loadPersistedAuth : Total (loadPersistedAuth E).
Proof. unfold loadPersistedAuth. effects. Qed.

Lemma listMCPToolsOf_spec servers (w : World) :
  listMCPToolsOf E servers w
  = (Ok (catalogOf (fst (discoveries E true servers (listingStart E w)))),
     snd (discoveries E true servers (listingStart E w)))
  /\ toolToServerMap (snd (discoveries E true servers (listingStart E w)))
     = routesOf (fst (discoveries E true servers (listingStart E w))).
Proof.
  unfold listMCPToolsOf, listingStart. unfold bind at 1.
  destruct (Total_loadPersistedAuth w) as ([] & w1 & Hl). rewrite Hl. cbn [snd].
  unfold bind at 1, modify. cbv beta iota.
  destruct (listLoop_spec servers [] (set_toolToServerMap ∅ w1)) as [H1 H2].
  rewrite H1. split; [reflexivity|]. rewrite H2. reflexivity.
Qed.

Lemma initializeMCPConnection_spec (w : World) :
  let cs := fst (discoveries E false (getMcpServerUrls E) (initializeStart E w)) in
  let w1 := snd (discoveries E false (getMcpServerUrls E) (initializeStart E w)) in
  toolToServerMap w1 = toolToServerMap w
  /\ if (length (catalogOf cs) =? 0)%nat then
       initializeMCPConnection E w
       = (Throw "No MCP tools available from any server. Check server URLs and health.",
          w1)
     else
       exists session w',
         initializeMCPConnection E w = (Ok session, w')
         /\ tools session = catalogOf cs
         /\ toolToServer session = routesOf cs
         /\ toolToServerMap w' = routesOf cs
         /\ currentSession w' = Some session.
Proof.
  cbv zeta.
  pose proof (Keeps_loadPersistedAuth E w) as Hk0.
  destruct (Total_loadPersistedAuth w) as ([] & w0 & Hl). rewrite Hl in Hk0.
  cbn [snd] in Hk0.
  set (ws := set_ticks (S (ticks w0)) w0).
  assert (Hs : initializeStart E w = ws).
  { unfold initializeStart, bind. now rewrite Hl. }
  rewrite Hs.
  destruct (initializeLoop_spec (getMcpServerUrls E) ([], ∅) ws) as [H1 H2].
  cbn [fst snd app] in H1.
  split; [rewrite H2; exact Hk0|].
  assert (Hrun : forall k : list MCPTool * gmap string string -> JNumber -> M MCPSession,
             (loadPersistedAuth E;;
              let* now := dateNow E in
              let* r := initializeLoop E (getMcpServerUrls E) ([], ∅) in
              k r now) w
             = k (catalogOf (fst (discoveries E false (getMcpServerUrls E) ws)),
                  routesOf (fst (discoveries E false (getMcpServerUrls E) ws)))
                 (Num (clock E (ticks w0)))
                 (snd (discoveries E false (getMcpServerUrls E) ws))).
  { intros k. unfold bind at 1. rewrite Hl. unfold bind at 1. unfold dateNow at 1.
    cbv beta iota zeta. fold ws. unfold bind at 1. now rewrite H1. }
  unfold initializeMCPConnection. cbv zeta.
  rewrite (Hrun (fun r now =>
                   if (length (fst r) =? 0)%nat then throw _ else _)).
  cbn [fst snd].
  destruct (length (catalogOf (fst (discoveries E false (getMcpServerUrls E) ws))) =? 0)%nat;
    [reflexivity|].
  unfold bind at 1, modify at 1. cbv beta iota.
  unfold bind at 1, modify at 1. cbv beta iota.
  unfold bind at 1.
  match goal with
  | |- context [getMCPAuthMode E ?wx] =>
      pose proof (Keeps_getMCPAuthMode E wx) as Hk;
      assert (Hc : currentSession (snd (getMCPAuthMode E wx)) = currentSession wx)
        by (unfold getMCPAuthMode, bind, gets, dateNow, ret;
            repeat match goal with
                   | |- context [if ?b then _ else _] => destruct b
                   end; reflexivity);
      destruct (Total_getMCPAuthMode E wx) as (mode & w' & Hm)
  end.
  rewrite Hm in *. cbn [snd] in Hk, Hc. unfold ret. eexists; eexists.
  split; [reflexivity|]. cbn [tools toolToServer].
  split; [reflexivity|]. split; [reflexivity|]. split; [exact Hk | exact Hc].
Qed.

(** C5, as the code has it. A discovery pass never de-duplicates the
    catalog: the catalog is the concatenation, in endpoint order, of what
    each endpoint contributed. The routing table is rebuilt from empty and
    maps a name to the endpoint that last contributed a tool of that
    name; every tool of the catalog is routed. The one exception is a
    tool named "__proto__": the table is a plain object, the assignment
    stores nothing under that name, and the table has no entry for it.
    [listMCPTools] always does so; [initializeMCPConnection] does so when
    at least one tool was discovered, and otherwise throws and leaves the
    table as it was. *)
Theorem discovery_catalog_and_routes :
  (forall servers w,
      let cs := fst (discoveries E true servers (listingStart E w)) in
      let w' := snd (discoveries E true servers (listingStart E w)) in
      listMCPToolsOf E servers w = (Ok (catalogOf cs), w')
      /\ toolToServerMap w' = routesOf cs
      /\ (forall toolName, toolName <> "__proto__" ->
                           toolToServerMap w' !! toolName = lastOwner toolName cs)
      /\ toolToServerMap w' !! "__proto__" = None
      /\ (forall t, In t (catalogOf cs) -> tool_name t <> "__proto__" ->
                    exists owner, toolToServerMap w' !! tool_name t = Some owner))
  /\ (forall w,
        let cs := fst (discoveries E false (getMcpServerUrls E) (initializeStart E w)) in
        let w1 := snd (discoveries E false (getMcpServerUrls E) (initializeStart E w)) in
        if (length (catalogOf cs) =? 0)%nat then
          initializeMCPConnection E w
          = (Throw "No MCP tools available from any server. Check server URLs and health.",
             w1)
          /\ toolToServerMap w1 = toolToServerMap w
        else
          exists session w',
            initializeMCPConnection E w = (Ok session, w')
            /\ tools session = catalogOf cs
            /\ toolToServerMap w' = routesOf cs
            /\ toolToServer session = routesOf cs
            /\ (forall toolName, toolName <> "__proto__" ->
                                 toolToServerMap w' !! toolName = lastOwner toolName cs)
            /\ toolToServerMap w' !! "__proto__" = None
            /\ (forall t, In t (tools session) -> tool_name t <> "__proto__" ->
                          exists owner, toolToServerMap w' !! tool_name t = Some owner)).
Proof.
  split.
  - intros servers w. cbv zeta.
    destruct (listMCPToolsOf_spec servers w) as [H1 H2].
    split; [exact H1|]. split; [exact H2|]. rewrite H2.
    split; [intros toolName; apply routesOf_lastOwner|].
    split; [apply routesOf_proto|].
    intros t Hin Hne. rewrite (routesOf_lastOwner _ _ Hne). now apply catalog_owned.
  - intros w. cbv zeta. destruct (initializeMCPConnection_spec w) as [Hkeep H].
    destruct (length _ =? 0)%nat; [now split|].
    destruct H as (session & w' & Hrun & Ht & Hs & Hm & _).
    exists session, w'. split; [exact Hrun|]. split; [exact Ht|].
    split; [exact Hm|]. split; [exact Hs|]. rewrite Hm, Ht.
    split; [intros toolName; apply routesOf_lastOwner|].
    split; [apply routesOf_proto|].
    intros t Hin Hne. rewrite (routesOf_lastOwner _ _ Hne). now apply catalog_owned.
Qed.

End Discovery.

(** C5, as stated, fails: two endpoints that both offer "search" leave
    two tools of that name in the catalog. *)
Lemma listMCPTools_keeps_duplicates :
  ~ catalogDeduplicated Sample.twoServersEnv
      (getMcpServerUrls Sample.twoServersEnv) initialWorld.
Proof.
  unfold catalogDeduplicated.
  assert (H : match fst (listMCPToolsOf Sample.twoServersEnv
                           (getMcpServerUrls Sample.twoServersEnv) initialWorld) with
              | Ok catalog => Some (map tool_name catalog)
              | Throw _ => None
              end
              = Some ["gmail_list_emails"; "search"; "search_flights"; "search"])
    by (vm_compute; reflexivity).
  destruct (fst (listMCPToolsOf _ _ _)) as [catalog|e]; [|discriminate].
  injection H as ->. intros Hnd.
  apply List.NoDup_cons_iff in Hnd as [_ Hnd].
  apply List.NoDup_cons_iff in Hnd as [Hnin _].
  apply Hnin. simpl. auto.
Qed.

(* ===================================================================== *)
(** ** Partial failure of discovery *)
(* ===================================================================== *)

Section PartialFailure.

Context (E : Env).









End PartialFailure.


(* ===================================================================== *)
(** ** The agentic loop *)
(* ===================================================================== *)

Section Loop.

Context (E : Env).

Lemma countEvents_cons kind e (evs : list Event) :
  countEvents kind (e :: evs)
  = ((if kind e then 1 else 0) + countEvents kind evs)%nat.
Proof. unfold countEvents. simpl. now destruct (kind e). Qed.

(** The text the loop derives from an error result of the client is the
    message of the result. *)
Lemma resultTextOf_errorResult (text : string) :
  text <> "" ->
  resultTextOf E (errorResult text) = Ok text /\ isErrorSet (errorResult text) = true.
Proof.
  intros Hne. split; [|reflexivity].
  unfold resultTextOf, errorResult, textItem. cbn.
  unfold itemText. cbn. unfold JSString.truthy.
  destruct (String.eqb_spec text ""); [contradiction|]. reflexivity.
Qed.

(** A text can be derived from every result the client makes itself. *)
Lemma readable_errorResult (text : string) :
  exists resultText, resultTextOf E (errorResult text) = Ok resultText.
Proof.
  unfold resultTextOf, errorResult, textItem. cbn. unfold itemText. cbn.
  destruct (JSString.truthy text); eexists; reflexivity.
Qed.

Lemma readable_textResult (text : option string) :
  exists resultText, resultTextOf E (textResult text) = Ok resultText.
Proof.
  unfold resultTextOf, textResult, textItem. cbn. unfold itemText. cbn.
  destruct text as [s|]; cbn; [destruct (JSString.truthy s)|]; eexists; reflexivity.
Qed.

(** The text derived from a result of the declared shape whose items all
    carry a text: the texts, one per line. *)
Lemma resultTextOf_texts (result : MCPToolResult) (items : list JValue)
    (texts : list string) :
  JS.optGet result "content" = JArr items ->
  Forall2 (fun c text => JS.optGet c "text" = JStr text /\ text <> "") items texts ->
  resultTextOf E result = Ok (join (String newline EmptyString) texts).
Proof.
  intros Hcontent Hitems.
  assert (Htexts : itemTexts E items = Ok (map JStr texts)).
  { clear Hcontent.
    induction Hitems as [|c text items texts [Hc Hne] _ IH]; [reflexivity|].
    cbn [itemTexts map]. rewrite IH. unfold itemText.
    destruct c; try discriminate. cbn [JS.get]. rewrite Hc. cbn [JS.truthy].
    unfold JSString.truthy. destruct (String.eqb_spec text ""); [contradiction|].
    reflexivity. }
  unfold resultTextOf. destruct result; try discriminate.
  cbn [JS.get]. rewrite Hcontent, Htexts. do 2 f_equal.
  clear. induction texts as [|text texts IH]; [reflexivity|].
  cbn [map]. now rewrite IH.
Qed.

(** With a network whose answers are readable, a text can be derived from
    every result [callMCPTool] returns. *)
Lemma callMCPTool_readable :
  readableAnswers E ->
  forall toolName args (w : World) result (w' : World),
    callMCPTool E toolName args w = (Ok result, w') ->
    exists resultText, resultTextOf E result = Ok resultText.
Proof.
  intros Hreadable toolName args w result w' Hcall.
  destruct (callMCPTool_result E toolName args w)
    as (r & w1 & Hc & [[text ->] | (answer & Hans & ->)] & _);
    rewrite Hc in Hcall; injection Hcall as <- <-.
  - apply readable_errorResult.
  - destruct Hans as (evs & site & req & res & data & _ & Hnet & _ & Hsite & _ & ->).
    apply (Hreadable _ req res data Hnet). destruct site; tauto.
Qed.

Lemma invocations_readable :
  readableAnswers E ->
  forall functionCalls (w : World),
    unreadable E (fst (invocations E functionCalls w)) = None.
Proof.
  intros Hreadable functionCalls.
  induction functionCalls as [|fc more IH]; intros w; [reflexivity|].
  cbn [invocations].
  destruct (callMCPTool E _ _ _) as [[result|e] w1] eqn:Hc; [|reflexivity].
  destruct (callMCPTool_readable Hreadable _ _ _ _ _ Hc) as [resultText Htext].
  rewrite Htext.
  match goal with
  | |- context [invocations E more ?wx] =>
      specialize (IH wx); destruct (invocations E more wx) as [rest w']
  end.
  cbn [fst snd unreadable] in *. now rewrite Htext.
Qed.

(** Dispatching makes the requested calls in order. An invocation from
    whose result a text is derived gets one record and one function
    response; an invocation from whose result none can be derived gets
    neither, and its exception ends the dispatch. *)
Lemma dispatch_spec functionCalls toolCalls functionResponses (w : World) :
  dispatch E functionCalls toolCalls functionResponses w
  = (match unreadable E (fst (invocations E functionCalls w)) with
     | Some e => Throw e
     | None => Ok (functionResponses
                   ++ responsesOf E (fst (invocations E functionCalls w)))
     end,
     toolCalls ++ recordsOf E (fst (invocations E functionCalls w)),
     snd (invocations E functionCalls w))
  /\ map fst (fst (invocations E functionCalls w))
     = take (length (fst (invocations E functionCalls w))) functionCalls
  /\ match unreadable E (fst (invocations E functionCalls w)) with
     | None =>
         length (fst (invocations E functionCalls w)) = length functionCalls
         /\ length (recordsOf E (fst (invocations E functionCalls w)))
            = length functionCalls
     | Some _ =>
         (length (fst (invocations E functionCalls w)) <= length functionCalls)%nat
         /\ S (length (recordsOf E (fst (invocations E functionCalls w))))
            = length (fst (invocations E functionCalls w))
     end
  /\ exists evs,
       trace (snd (invocations E functionCalls w)) = trace w ++ evs
       /\ Forall (fun e => isModelCall e = false) evs
       /\ countEvents isToolCallEvent evs
          = length (fst (invocations E functionCalls w)).
Proof.
  revert toolCalls functionResponses w.
  induction functionCalls as [|fc more IH]; intros toolCalls functionResponses w.
  - simpl. rewrite !app_nil_r. repeat split. exists []. simpl.
    rewrite app_nil_r. repeat split. constructor.
  - cbn [dispatch invocations]. unfold bind at 1, emit at 1, modify at 1.
    cbv beta iota zeta.
    set (toolName := fc_name fc). set (toolArgs := default (JObj []) (fc_args fc)).
    set (w0 := set_trace (trace w ++ [EvAgent (ev_tool_call toolName toolArgs)]) w).
    destruct (Total_callMCPTool E toolName toolArgs w0) as (result & w1 & Hc).
    destruct (Adds_callMCPTool E toolName toolArgs w0) as (cevs & Htc & Hcl).
    rewrite Hc in *. cbn [snd] in Htc.
    assert (Hquiet : Forall (fun e => isModelCall e = false) cevs).
    { eapply List.Forall_impl; [|exact Hcl]. now intros [| | | |]. }
    assert (Hnone : countEvents isToolCallEvent cevs = 0%nat).
    { apply (countEvents_none isToolCallEvent clientEvent cevs); auto.
      now intros [| | | |]. }
    destruct (resultTextOf E result) as [resultText|e] eqn:Htext.
    + unfold emit at 1, modify at 1. cbv beta iota.
      set (w2 := set_trace
                   (trace w1
                    ++ [EvAgent (ev_tool_result toolName (negb (isErrorSet result)))])
                   w1).
      destruct (IH (toolCalls ++ [recordOf (fc, result) resultText])
                  (functionResponses ++ [responseOf (fc, result) resultText]) w2)
        as (Hd & Hfst & Hlen & evs & Ht & Hnm & Hcount).
      unfold recordOf, responseOf in Hd. cbn [fst snd] in Hd.
      fold toolName toolArgs in Hd. rewrite Hd.
      destruct (invocations E more w2) as [rest w'] eqn:Hinv. cbn [fst snd] in *.
      unfold recordsOf, responsesOf. cbn [omap list_omap unreadable snd].
      rewrite Htext. fold (recordsOf E rest) (responsesOf E rest).
      rewrite <- !app_assoc. split.
      { destruct (unreadable E rest); reflexivity. }
      split; [cbn [map length take fst]; now rewrite Hfst|].
      split.
      { cbn [length]. destruct (unreadable E rest); destruct Hlen as [H1 H2];
          split; lia. }
      exists ([EvAgent (ev_tool_call toolName toolArgs)] ++ cevs
              ++ [EvAgent (ev_tool_result toolName (negb (isErrorSet result)))] ++ evs).
      split; [|split].
      * rewrite Ht. unfold w2. cbn [trace set_trace]. rewrite Htc. unfold w0.
        cbn [trace set_trace]. now rewrite <- !app_assoc.
      * apply Forall_app. split; [repeat constructor|].
        apply Forall_app. split; [exact Hquiet|].
        apply Forall_app. split; [repeat constructor | exact Hnm].
      * rewrite !countEvents_app, Hcount, Hnone. reflexivity.
    + cbn [fst snd]. unfold recordsOf, responsesOf.
      cbn [omap list_omap unreadable snd]. rewrite Htext. rewrite app_nil_r.
      split; [reflexivity|]. split; [reflexivity|].
      split; [cbn [length]; split; lia|].
      exists ([EvAgent (ev_tool_call toolName toolArgs)] ++ cevs).
      split; [|split].
      * rewrite Htc. unfold w0. cbn [trace set_trace]. now rewrite <- !app_assoc.
      * apply Forall_app. split; [repeat constructor | exact Hquiet].
      * rewrite !countEvents_app, Hnone. reflexivity.
Qed.

(** One model round-trip: the primary model is asked; the fallback model
    is asked once, and only if the primary failed. *)
Lemma generateWithFallback_spec systemInstruction tools (st : LoopState) (w : World) :
  exists r w' mevs,
    generateWithFallback E (currentContents st) systemInstruction tools w = (r, w')
    /\ trace w' = trace w ++ EvModel (requestFor systemInstruction tools st MODEL) :: mevs
    /\ (mevs = []
        \/ (mevs = [EvModel (requestFor systemInstruction tools st FALLBACK_MODEL)]
            /\ exists msg, generateContent E (trace w)
                             (requestFor systemInstruction tools st MODEL)
                           = ModelError msg))
    /\ (forall response,
          generateContent E (trace w) (requestFor systemInstruction tools st MODEL)
          = ModelResponse response ->
          r = Ok (response, MODEL) /\ mevs = []).
Proof.
  unfold generateWithFallback, tryCatch, bind, generate. cbv beta zeta.
  fold (requestFor systemInstruction tools st MODEL).
  fold (requestFor systemInstruction tools st FALLBACK_MODEL).
  destruct (generateContent E (trace w) (requestFor systemInstruction tools st MODEL))
    as [msg|response] eqn:Hprimary.
  - cbn [trace set_trace].
    destruct (generateContent E _ (requestFor systemInstruction tools st FALLBACK_MODEL))
      as [msg'|response'];
      eexists; eexists; exists [EvModel (requestFor systemInstruction tools st FALLBACK_MODEL)];
      (split; [reflexivity|]); cbn [trace set_trace]; rewrite <- app_assoc;
      (split; [reflexivity|]); (split; [right; eauto | discriminate]).
  - eexists; eexists; exists []. split; [reflexivity|]. cbn [trace set_trace].
    split; [reflexivity|]. split; [now left|].
    intros r H. injection H as <-. auto.
Qed.

(** One pass through the loop body. *)
Lemma iterate_spec systemInstruction tools (st : LoopState) (w : World) :
  exists step w' mevs devs,
    iterate E systemInstruction tools st w = (step, w')
    /\ trace w' = trace w ++ EvModel (requestFor systemInstruction tools st MODEL)
                             :: mevs ++ devs
    /\ (mevs = []
        \/ (mevs = [EvModel (requestFor systemInstruction tools st FALLBACK_MODEL)]
            /\ exists msg, generateContent E (trace w)
                             (requestFor systemInstruction tools st MODEL)
                           = ModelError msg))
    /\ Forall (fun e => isModelCall e = false) devs
    /\ match step with
       | StepBreak st' =>
           iteration st' = iteration st /\ toolCalls st' = toolCalls st
           /\ (exists response, finalResponse st' = Some response
                                /\ requestedCalls response = [])
           /\ devs = []
       | StepNext st' =>
           iteration st' = iteration st /\ finalResponse st' = finalResponse st
           /\ length (toolCalls st')
              = (length (toolCalls st) + countEvents isToolCallEvent devs)%nat
       | StepCatch e toolCalls' =>
           (length toolCalls'
            <= length (toolCalls st) + countEvents isToolCallEvent devs)%nat
           /\ (length (toolCalls st) + countEvents isToolCallEvent devs
               <= S (length toolCalls'))%nat
       end.
Proof.
  unfold iterate.
  destruct (generateWithFallback_spec systemInstruction tools st w)
    as (r & w1 & mevs & Hg & Ht1 & Hm & _).
  rewrite Hg. destruct r as [[response modelToUse]|e].
  2:{ eexists; eexists; exists mevs, []. split; [reflexivity|]. rewrite app_nil_r.
      split; [exact Ht1|]. split; [exact Hm|]. split; [constructor|].
      cbn. lia. }
  destruct (length (List.filter hasFunctionCall (partsOf response)) =? 0)%nat eqn:Hlen.
  { eexists; eexists; exists mevs, []. split; [reflexivity|]. rewrite app_nil_r.
    split; [exact Ht1|]. split; [exact Hm|]. split; [constructor|].
    cbn [iteration toolCalls finalResponse]. split; [reflexivity|]. split; [reflexivity|].
    split; [|reflexivity]. exists response. split; [reflexivity|].
    unfold requestedCalls. apply Nat.eqb_eq in Hlen.
    now destruct (List.filter hasFunctionCall (partsOf response)). }
  fold (requestedCalls response).
  destruct (dispatch_spec (requestedCalls response) (toolCalls st) [] w1)
    as (Hd & _ & Hl & devs & Ht2 & Hnm & Hcount).
  rewrite Hd.
  destruct (unreadable E (fst (invocations E (requestedCalls response) w1)));
    eexists; eexists; exists mevs, devs; (split; [reflexivity|]);
    rewrite Ht2, Ht1, <- app_assoc; (split; [reflexivity|]); (split; [exact Hm|]);
    (split; [exact Hnm|]); cbn [iteration finalResponse toolCalls];
    rewrite ?length_app, Hcount; destruct Hl as [Hl1 Hl2].
  - split; lia.
  - split; [reflexivity|]. split; [reflexivity|]. lia.
Qed.

(** A pass in which the model requests tool calls. When a text was
    derived from every result, it ends by going back to the loop test,
    with the calls and the result texts - those of error results
    included - appended to the conversation. Otherwise it ends in the
    [catch] block, with the records made so far. *)
Lemma iterate_with_calls systemInstruction tools (st : LoopState) (w : World)
    response modelToUse (w1 : World) :
  generateWithFallback E (currentContents st) systemInstruction tools w
  = (Ok (response, modelToUse), w1) ->
  List.filter hasFunctionCall (partsOf response) <> [] ->
  iterate E systemInstruction tools st w
  = (match unreadable E (fst (invocations E (requestedCalls response) w1)) with
     | None =>
         StepNext
           {| iteration := iteration st;
              currentContents :=
                currentContents st
                ++ [ {| role := "model";
                        parts := List.filter hasFunctionCall (partsOf response) |};
                     {| role := "user";
                        parts := responsesOf E
                                   (fst (invocations E (requestedCalls response) w1)) |} ];
              finalResponse := finalResponse st;
              lastModelUsed := modelToUse;
              toolCalls := toolCalls st
                           ++ recordsOf E
                                (fst (invocations E (requestedCalls response) w1)) |}
     | Some e =>
         StepCatch e (toolCalls st
                      ++ recordsOf E (fst (invocations E (requestedCalls response) w1)))
     end,
     snd (invocations E (requestedCalls response) w1)).
Proof.
  intros Hg Hcalls. unfold iterate. rewrite Hg.
  destruct (length (List.filter hasFunctionCall (partsOf response)) =? 0)%nat eqn:Hlen.
  { apply Nat.eqb_eq in Hlen.
    destruct (List.filter hasFunctionCall (partsOf response)); [congruence | discriminate]. }
  fold (requestedCalls response).
  destruct (dispatch_spec (requestedCalls response) (toolCalls st) [] w1) as (Hd & _).
  rewrite Hd.
  now destruct (unreadable E (fst (invocations E (requestedCalls response) w1))).
Qed.

Lemma eventsSince_eq (w w' : World) (evs : list Event) :
  trace w' = trace w ++ evs -> eventsSince w w' = evs.
Proof. intros H. unfold eventsSince. rewrite H. apply drop_app_length. Qed.

Lemma modelResponses_app history (xs ys : list Event) :
  modelResponses E history (xs ++ ys)
  = (modelResponses E history xs + modelResponses E (history ++ xs) ys)%nat.
Proof.
  revert history. induction xs as [|x xs IH]; intros history; simpl.
  - now rewrite app_nil_r.
  - rewrite IH, <- app_assoc. simpl. lia.
Qed.

Lemma modelResponses_none history (evs : list Event) :
  Forall (fun e => isModelCall e = false) evs -> modelResponses E history evs = 0%nat.
Proof.
  intros H. revert history. induction H as [|e evs He _ IH]; intros history; simpl.
  - reflexivity.
  - rewrite IH. now destruct e.
Qed.

Lemma no_model_counts (evs : list Event) :
  Forall (fun e => isModelCall e = false) evs ->
  countEvents isModelCall evs = 0%nat
  /\ (forall model, countEvents (isModelCallOf model) evs = 0%nat)
  /\ forall req, ~ In (EvModel req) evs.
Proof.
  intros H. split; [|split].
  - apply (countEvents_none _ (fun e => isModelCall e = false)); auto.
  - intros model. apply (countEvents_none _ (fun e => isModelCall e = false)); auto.
    now intros [| | | |].
  - intros req Hin. rewrite List.Forall_forall in H. apply H in Hin. discriminate.
Qed.

(** The events of one pass: one request to the primary model, at most
    one to the fallback model, at most one of the two answered. *)
Lemma pass_counts systemInstruction tools (st : LoopState) (w : World) mevs devs :
  mevs = []
  \/ (mevs = [EvModel (requestFor systemInstruction tools st FALLBACK_MODEL)]
      /\ exists msg, generateContent E (trace w)
                       (requestFor systemInstruction tools st MODEL) = ModelError msg) ->
  Forall (fun e => isModelCall e = false) devs ->
  let pass := EvModel (requestFor systemInstruction tools st MODEL) :: mevs ++ devs in
  countEvents (isModelCallOf MODEL) pass = 1%nat
  /\ (countEvents isModelCall pass <= 2)%nat
  /\ (modelResponses E (trace w) pass <= 1)%nat
  /\ (forall req, In (EvModel req) pass ->
                  mr_tools req = tools /\ mr_systemInstruction req = systemInstruction)
  /\ countEvents isToolCallEvent pass = countEvents isToolCallEvent devs.
Proof.
  intros Hm Hnm. cbv zeta.
  destruct (no_model_counts devs Hnm) as (Hc1 & Hc2 & Hc3).
  pose proof (fun h => modelResponses_none h devs Hnm) as Hr.
  assert (H1 : isModelCallOf MODEL (EvModel (requestFor systemInstruction tools st MODEL))
               = true) by reflexivity.
  assert (H2 : isModelCallOf MODEL
                 (EvModel (requestFor systemInstruction tools st FALLBACK_MODEL))
               = false) by reflexivity.
  destruct Hm as [-> | [-> [msg Hfail]]]; cbn [app].
  - rewrite !countEvents_cons, H1. cbn [isModelCall isToolCallEvent].
    rewrite Hc1, Hc2. cbn [modelResponses]. rewrite Hr.
    split; [reflexivity|]. split; [lia|]. split.
    { match goal with
      | |- context [match ?x with ModelError _ => _ | ModelResponse _ => _ end] =>
          destruct x
      end; lia. }
    split; [|lia]. intros req [Heq|Hin]; [|now apply Hc3 in Hin].
    injection Heq as <-. auto.
  - rewrite !countEvents_cons, H1, H2. cbn [isModelCall isToolCallEvent].
    rewrite Hc1, Hc2. cbn [modelResponses]. rewrite Hr, Hfail. cbv iota.
    split; [reflexivity|]. split; [lia|]. split.
    { match goal with
      | |- context [match ?x with ModelError _ => _ | ModelResponse _ => _ end] =>
          destruct x
      end; lia. }
    split; [|lia]. intros req [Heq|[Heq|Hin]]; [| |now apply Hc3 in Hin];
      injection Heq as <-; auto.
Qed.

(** The loop ends within the passes still allowed, whatever the backend
    and the tool servers do. *)
Lemma agenticLoop_spec agentName systemInstruction tools (n : nat) :
  forall (st : LoopState) (w : World),
    remaining st = n ->
    exists exit w' evs,
      (forall fuel, (n <= fuel)%nat ->
                    agenticLoop E fuel agentName systemInstruction tools st w
                    = (Some exit, w'))
      /\ trace w' = trace w ++ evs
      /\ (countEvents (isModelCallOf MODEL) evs <= n)%nat
      /\ (countEvents isModelCall evs <= 2 * n)%nat
      /\ (modelResponses E (trace w) evs <= n)%nat
      /\ (forall req, In (EvModel req) evs ->
                      mr_tools req = tools /\ mr_systemInstruction req = systemInstruction)
      /\ match exit with
         | LoopDone st' =>
             length (toolCalls st')
             = (length (toolCalls st) + countEvents isToolCallEvent evs)%nat
         | LoopReturn response =>
             (length (ar_toolCalls response)
              <= length (toolCalls st) + countEvents isToolCallEvent evs)%nat
             /\ (length (toolCalls st) + countEvents isToolCallEvent evs
                 <= S (length (ar_toolCalls response)))%nat
             /\ exists e, ar_error response = Some e
                          /\ response = errorResponse agentName e (ar_toolCalls response)
         end.
Proof.
  induction n as [|n IH]; intros st w Hn.
  - assert (Hlt : (iteration st <? MAX_TOOL_ITERATIONS) = false).
    { unfold remaining in Hn. apply Z.ltb_ge. lia. }
    exists (LoopDone st), w, []. split.
    { intros fuel _. destruct fuel; simpl; now rewrite Hlt. }
    split; [now rewrite app_nil_r|].
    split; [cbv; lia|]. split; [cbv; lia|]. split; [cbv; lia|].
    split; [intros r0 []|]. cbn. lia.
  - assert (Hlt : (iteration st <? MAX_TOOL_ITERATIONS) = true).
    { unfold remaining in Hn. apply Z.ltb_lt. lia. }
    set (st1 := withIteration (iteration st + 1) st).
    destruct (iterate_spec systemInstruction tools st1 w)
      as (step & w1 & mevs & devs & Hi & Ht & Hm & Hnm & Hstep).
    destruct (pass_counts systemInstruction tools st1 w mevs devs Hm Hnm)
      as (Hp1 & Hp2 & Hp3 & Hp4 & Hp5).
    assert (Hrun : forall fuel, (S n <= fuel)%nat ->
               agenticLoop E fuel agentName systemInstruction tools st w
               = match step with
                 | StepBreak st' => (Some (LoopDone st'), w1)
                 | StepNext st' =>
                     agenticLoop E (pred fuel) agentName systemInstruction tools st' w1
                 | StepCatch e toolCalls' =>
                     (Some (LoopReturn (errorResponse agentName e toolCalls')), w1)
                 end).
    { intros fuel Hf. destruct fuel as [|fuel]; [lia|].
      cbn [agenticLoop]. rewrite Hlt. fold st1. rewrite Hi. now destruct step. }
    destruct step as [st'|st'|e toolCalls'].
    + destruct Hstep as (_ & Htc & _ & ->).
      exists (LoopDone st'), w1, (EvModel (requestFor systemInstruction tools st1 MODEL)
                                  :: mevs ++ []).
      split; [exact Hrun|]. split; [exact Ht|].
      split; [lia|]. split; [lia|]. split; [lia|]. split; [exact Hp4|].
      rewrite Htc, Hp5. unfold st1. cbn. lia.
    + destruct Hstep as (Hit & _ & Htc).
      assert (Hrem : remaining st' = n).
      { unfold remaining in *. rewrite Hit. unfold st1. cbn [withIteration iteration]. lia. }
      destruct (IH st' w1 Hrem) as (exit & w' & evs & Hloop & Ht' & Hc1 & Hc2 & Hc3 & Hc4 & Hc5).
      exists exit, w', ((EvModel (requestFor systemInstruction tools st1 MODEL)
                         :: mevs ++ devs) ++ evs).
      split.
      { intros fuel Hf. rewrite (Hrun fuel Hf). apply Hloop. lia. }
      split; [now rewrite Ht', Ht, <- app_assoc|].
      rewrite !countEvents_app, modelResponses_app, <- Ht.
      split; [lia|]. split; [lia|]. split; [lia|]. split.
      { intros req Hin. apply in_app_or in Hin as [Hin|Hin]; auto. }
      rewrite Hp5. destruct exit as [st''|response].
      * rewrite Hc5, Htc. unfold st1. cbn [withIteration toolCalls]. lia.
      * destruct Hc5 as (Hc5 & Hc6 & He). rewrite Htc in Hc5, Hc6.
        unfold st1 in Hc5, Hc6. cbn [withIteration toolCalls] in Hc5, Hc6.
        split; [lia|]. split; [lia | exact He].
    + destruct Hstep as (Hs1 & Hs2). unfold st1 in Hs1, Hs2.
      cbn [withIteration toolCalls] in Hs1, Hs2.
      exists (LoopReturn (errorResponse agentName e toolCalls')), w1,
        (EvModel (requestFor systemInstruction tools st1 MODEL) :: mevs ++ devs).
      split; [exact Hrun|]. split; [exact Ht|].
      split; [lia|]. split; [lia|]. split; [lia|]. split; [exact Hp4|].
      cbn [errorResponse ar_toolCalls ar_error]. rewrite Hp5.
      split; [lia|]. split; [lia | eauto].
Qed.

(** With a backend that always asks for one more tool call the loop runs
    all the passes it is allowed and ends without a final response. *)
Lemma agenticLoop_exhausted agentName systemInstruction tools (n : nat) :
  alwaysRequestsTool E -> readableAnswers E ->
  forall (st : LoopState) (w : World),
    remaining st = n -> finalResponse st = None ->
    exists st' w' evs,
      (forall fuel, (n <= fuel)%nat ->
                    agenticLoop E fuel agentName systemInstruction tools st w
                    = (Some (LoopDone st'), w'))
      /\ finalResponse st' = None
      /\ trace w' = trace w ++ evs
      /\ countEvents (isModelCallOf MODEL) evs = n
      /\ countEvents isModelCall evs = n
      /\ modelResponses E (trace w) evs = n.
Proof.
  intros Halways Hreadable. induction n as [|n IH]; intros st w Hn Hfinal.
  - assert (Hlt : (iteration st <? MAX_TOOL_ITERATIONS) = false).
    { unfold remaining in Hn. apply Z.ltb_ge. lia. }
    exists st, w, []. split.
    { intros fuel _. destruct fuel; simpl; now rewrite Hlt. }
    rewrite app_nil_r. auto.
  - assert (Hlt : (iteration st <? MAX_TOOL_ITERATIONS) = true).
    { unfold remaining in Hn. apply Z.ltb_lt. lia. }
    set (st1 := withIteration (iteration st + 1) st).
    destruct (Halways (trace w) (requestFor systemInstruction tools st1 MODEL))
      as (response & Hresp & Hcalls).
    destruct (generateWithFallback_spec systemInstruction tools st1 w)
      as (r & w1 & mevs & Hg & Ht1 & _ & Hprimary).
    destruct (Hprimary response Hresp) as [-> ->].
    pose proof (iterate_with_calls systemInstruction tools st1 w response MODEL w1
                  Hg Hcalls) as Hi.
    rewrite (invocations_readable Hreadable) in Hi.
    destruct (dispatch_spec (requestedCalls response) (toolCalls st1) [] w1)
      as (_ & _ & _ & devs & Ht2 & Hnm & _).
    destruct (no_model_counts devs Hnm) as (Hc1 & Hc2 & _).
    match type of Hi with _ = (StepNext ?s, ?wx) => set (st2 := s) in *; set (w2 := wx) in * end.
    assert (Hrem : remaining st2 = n).
    { unfold remaining in *. unfold st2, st1. cbn [withIteration iteration]. lia. }
    destruct (IH st2 w2 Hrem Hfinal) as (st' & w' & evs & Hloop & Hf & Ht' & H1 & H2 & H3).
    exists st', w', ([EvModel (requestFor systemInstruction tools st1 MODEL)] ++ devs ++ evs).
    split.
    { intros fuel Hfuel. destruct fuel as [|fuel]; [lia|].
      cbn [agenticLoop]. rewrite Hlt. fold st1. rewrite Hi. apply Hloop. lia. }
    split; [exact Hf|]. split.
    { rewrite Ht', Ht2, Ht1, <- !app_assoc. reflexivity. }
    rewrite !countEvents_app, !modelResponses_app, H1, H2, Hc1, Hc2.
    rewrite (modelResponses_none _ devs Hnm).
    assert (Hh : trace w ++ [EvModel (requestFor systemInstruction tools st1 MODEL)] ++ devs
                 = trace w2).
    { now rewrite Ht2, Ht1, <- !app_assoc. }
    rewrite <- app_assoc, Hh, H3. cbn [modelResponses]. rewrite Hresp.
    split; [reflexivity|]. split; reflexivity.
Qed.

(** While passes remain, the next thing the loop does is to ask the
    primary model, with the current contents. *)
Lemma agenticLoop_asks_model agentName systemInstruction tools (st : LoopState) (w : World) :
  iteration st < MAX_TOOL_ITERATIONS ->
  exists exit w' evs,
    (forall fuel, (remaining st <= fuel)%nat ->
                  agenticLoop E fuel agentName systemInstruction tools st w
                  = (Some exit, w'))
    /\ trace w' = trace w ++ EvModel (requestFor systemInstruction tools st MODEL) :: evs.
Proof.
  intros Hlt. destruct (remaining st) as [|n] eqn:Hn.
  { unfold remaining in Hn. lia. }
  apply Z.ltb_lt in Hlt.
  set (st1 := withIteration (iteration st + 1) st).
  destruct (iterate_spec systemInstruction tools st1 w)
    as (step & w1 & mevs & devs & Hi & Ht & _ & _ & Hstep).
  change (requestFor systemInstruction tools st1 MODEL)
    with (requestFor systemInstruction tools st MODEL) in Ht.
  destruct step as [st'|st'|e toolCalls'].
  - exists (LoopDone st'), w1, (mevs ++ devs). split; [|exact Ht].
    intros fuel Hf. destruct fuel as [|fuel]; [lia|].
    cbn [agenticLoop]. rewrite Hlt. fold st1. now rewrite Hi.
  - destruct Hstep as (Hit & _).
    assert (Hrem : remaining st' = n).
    { unfold remaining in *. rewrite Hit. unfold st1. cbn [withIteration iteration]. lia. }
    destruct (agenticLoop_spec agentName systemInstruction tools n st' w1 Hrem)
      as (exit & w' & evs & Hloop & Ht' & _).
    exists exit, w', ((mevs ++ devs) ++ evs). split.
    + intros fuel Hf. destruct fuel as [|fuel]; [lia|].
      cbn [agenticLoop]. rewrite Hlt. fold st1. rewrite Hi. apply Hloop. lia.
    + rewrite Ht', Ht, <- app_assoc. reflexivity.
  - exists (LoopReturn (errorResponse agentName e toolCalls')), w1, (mevs ++ devs).
    split; [|exact Ht].
    intros fuel Hf. destruct fuel as [|fuel]; [lia|].
    cbn [agenticLoop]. rewrite Hlt. fold st1. now rewrite Hi.
Qed.

(** The part of a turn from the loop on: a run of the loop, then
    [finalize]. *)
Lemma agenticTurn_run agentName systemInstruction tools contents (w : World) :
  exists exit w1 evs response w',
    (forall fuel, (8 <= fuel)%nat ->
                  agenticTurn E fuel agentName systemInstruction tools contents w
                  = (Some (Ok response), w'))
    /\ trace w1 = trace w ++ evs
    /\ (forall fuel, (8 <= fuel)%nat ->
          agenticLoop E fuel agentName systemInstruction tools
            (initialLoopState contents) w
          = (Some exit, w1))
    /\ (countEvents (isModelCallOf MODEL) evs <= 8)%nat
    /\ (countEvents isModelCall evs <= 16)%nat
    /\ (modelResponses E (trace w) evs <= 8)%nat
    /\ (forall req, In (EvModel req) evs -> mr_tools req = tools)
    /\ match exit with
       | LoopDone st =>
           trace w' = trace w1 ++ [EvAgent ev_complete]
           /\ ar_toolCalls response = toolCalls st
           /\ ar_error response = None
           /\ ar_text response
              = match finalResponse st with
                | Some r => if optTruthy (resp_text r)
                            then default "" (resp_text r) else FALLBACK_TEXT
                | None => FALLBACK_TEXT
                end
           /\ length (toolCalls st) = countEvents isToolCallEvent evs
       | LoopReturn r =>
           w' = w1 /\ response = r
           /\ (length (ar_toolCalls r) <= countEvents isToolCallEvent evs)%nat
           /\ (countEvents isToolCallEvent evs <= S (length (ar_toolCalls r)))%nat
           /\ exists e, ar_error r = Some e
                        /\ r = errorResponse agentName e (ar_toolCalls r)
       end.
Proof.
  destruct (agenticLoop_spec agentName systemInstruction tools 8
              (initialLoopState contents) w eq_refl)
    as (exit & w1 & evs & Hloop & Ht & Hc1 & Hc2 & Hc3 & Hc4 & Hc5).
  cbn [initialLoopState toolCalls length Nat.add] in Hc5.
  assert (Hrun : forall fuel, (8 <= fuel)%nat ->
             agenticTurn E fuel agentName systemInstruction tools contents w
             = match exit with
               | LoopReturn response => (Some (Ok response), w1)
               | LoopDone st =>
                   (Some (fst (finalize agentName st w1)),
                    snd (finalize agentName st w1))
               end).
  { intros fuel Hf. unfold agenticTurn.
    change {| iteration := 0; currentContents := contents; finalResponse := None;
              lastModelUsed := MODEL; toolCalls := [] |}
      with (initialLoopState contents).
    rewrite (Hloop fuel Hf). destruct exit as [st|r]; [|reflexivity].
    now destruct (finalize agentName st w1). }
  destruct exit as [st|r].
  - exists (LoopDone st), w1, evs. eexists; eexists.
    split; [intros fuel Hf; rewrite (Hrun fuel Hf); reflexivity|].
    split; [exact Ht|]. split; [exact Hloop|].
    split; [exact Hc1|]. split; [lia|]. split; [exact Hc3|].
    split; [intros req Hin; now apply Hc4|].
    cbn. split; [reflexivity|]. split; [reflexivity|]. split; [reflexivity|].
    split; [reflexivity | exact Hc5].
  - exists (LoopReturn r), w1, evs, r, w1.
    split; [exact Hrun|]. split; [exact Ht|]. split; [exact Hloop|].
    split; [exact Hc1|]. split; [lia|]. split; [exact Hc3|].
    split; [intros req Hin; now apply Hc4|].
    destruct Hc5 as (Hc5 & Hc6 & He). auto.
Qed.

(** The events of the part of a turn from the loop on: those of the
    loop, then "complete" unless the loop returned from its [catch]. *)
Lemma agenticTurn_events (w w1 w' : World) (evs : list Event) (exit : LoopExit) :
  trace w1 = trace w ++ evs ->
  match exit with
  | LoopDone _ => trace w' = trace w1 ++ [EvAgent ev_complete]
  | LoopReturn _ => w' = w1
  end ->
  countEvents (isModelCallOf MODEL) (eventsSince w w')
  = countEvents (isModelCallOf MODEL) evs
  /\ countEvents isModelCall (eventsSince w w') = countEvents isModelCall evs
  /\ modelResponses E (trace w) (eventsSince w w') = modelResponses E (trace w) evs
  /\ countEvents isToolCallEvent (eventsSince w w') = countEvents isToolCallEvent evs.
Proof.
  intros Ht Hexit.
  assert (Hev : exists tail, eventsSince w w' = evs ++ tail
                             /\ (tail = [] \/ tail = [EvAgent ev_complete])).
  { destruct exit as [st|r].
    - exists [EvAgent ev_complete]. split; [|now right].
      apply eventsSince_eq. now rewrite Hexit, Ht, <- !app_assoc.
    - subst w'. exists []. split; [|now left].
      apply eventsSince_eq. now rewrite Ht, app_nil_r. }
  destruct Hev as (tail & -> & Htail).
  rewrite !countEvents_app, !modelResponses_app.
  destruct Htail as [-> | ->]; cbn; lia.
Qed.

(** A turn as the "thinking" event followed by the loop and [finalize]. *)
Lemma chat_run (state : BrainState) (message : string) (historyContents : list Content)
    (systemInstruction : string) (w : World) :
  let skills := detectRelevantSkills E message (soul state) in
  let routing := routingOf E state message skills in
  let thinking := EvAgent (ev_thinking skills (useWorkspace routing) (useTravel routing)
                             (useSearch routing)) in
  exists exit w1 evs response w',
    (forall fuel, (8 <= fuel)%nat ->
                  chatWithFuel E fuel state message historyContents systemInstruction w
                  = (Some (Ok response), w'))
    /\ trace w1 = (trace w ++ [thinking]) ++ evs
    /\ (forall fuel, (8 <= fuel)%nat ->
          agenticLoop E fuel (soul_name (soul state)) systemInstruction
            (buildTools state routing)
            {| iteration := 0;
               currentContents :=
                 historyContents
                 ++ [ {| role := "user";
                         parts := [ {| part_text := Some message; part_thought := false;
                                       part_functionCall := None;
                                       part_functionResponse := None |} ] |} ];
               finalResponse := None; lastModelUsed := MODEL; toolCalls := [] |}
            (set_trace (trace w ++ [thinking]) w)
          = (Some exit, w1))
    /\ (countEvents (isModelCallOf MODEL) evs <= 8)%nat
    /\ (countEvents isModelCall evs <= 16)%nat
    /\ (modelResponses E (trace w ++ [thinking]) evs <= 8)%nat
    /\ (forall req, In (EvModel req) evs -> mr_tools req = buildTools state routing)
    /\ match exit with
       | LoopDone st =>
           trace w' = trace w1 ++ [EvAgent ev_complete]
           /\ ar_toolCalls response = toolCalls st
           /\ ar_error response = None
           /\ ar_text response
              = match finalResponse st with
                | Some r => if optTruthy (resp_text r)
                            then default "" (resp_text r) else FALLBACK_TEXT
                | None => FALLBACK_TEXT
                end
           /\ length (toolCalls st) = countEvents isToolCallEvent evs
       | LoopReturn r => w' = w1 /\ response = r
       end.
Proof.
  cbv zeta.
  set (skills := detectRelevantSkills E message (soul state)).
  set (routing := routingOf E state message skills).
  set (thinking := EvAgent (ev_thinking skills (useWorkspace routing) (useTravel routing)
                              (useSearch routing))).
  set (w0 := set_trace (trace w ++ [thinking]) w).
  match goal with
  | |- context [agenticLoop E _ ?n ?s ?t ?st0 w0] =>
      destruct (agenticTurn_run n s t (currentContents st0) w0)
        as (exit & w1 & evs & response & w' & Hrun & Ht & Hloop & Hc1 & Hc2 & Hc3
            & Hc4 & Hexit)
  end.
  exists exit, w1, evs, response, w'.
  split; [exact Hrun|]. split; [exact Ht|]. split; [exact Hloop|].
  split; [exact Hc1|]. split; [exact Hc2|]. split; [exact Hc3|]. split; [exact Hc4|].
  destruct exit as [st|r]; [exact Hexit|]. destruct Hexit as (H1 & H2 & _). auto.
Qed.

Lemma agent_event_counts history (e : AgentEvent) :
  countEvents (isModelCallOf MODEL) [EvAgent e] = 0%nat
  /\ countEvents isModelCall [EvAgent e] = 0%nat
  /\ modelResponses E history [EvAgent e] = 0%nat.
Proof. repeat split. Qed.

(** C1, as the code has it. The part of [chat] from the loop on - the
    tools are declared and the contents of the turn built - ends with a
    response, never with an exception, and within eight passes of the
    loop: at most 8 requests go to the primary model (one per pass), at
    most 8 model responses are received, at most 16 requests are made in
    all (a pass asks the fallback model once when the primary fails).
    The response is either without an error or the error response of
    the [catch] block, which ends the turn at the pass where an
    exception occurred. With a backend whose every response requests a
    tool call and a network whose answers are readable, the loop makes
    exactly 8 passes - 8 requests, 8 responses - and the turn returns
    the fallback message, with no error. (What [chat] does before the
    loop is not part of this statement.) *)
Theorem chat_iteration_ceiling (agentName systemInstruction : string)
    (tools : list ToolEntry) (contents : list Content) (w : World) :
  exists response w',
    (forall fuel, (8 <= fuel)%nat ->
                  agenticTurn E fuel agentName systemInstruction tools contents w
                  = (Some (Ok response), w'))
    /\ (countEvents (isModelCallOf MODEL) (eventsSince w w') <= 8)%nat
    /\ (modelResponses E (trace w) (eventsSince w w') <= 8)%nat
    /\ (countEvents isModelCall (eventsSince w w') <= 16)%nat
    /\ (ar_error response = None
        \/ exists e,
             ar_error response = Some e
             /\ ar_text response
                = "I encountered an error: " +:+ e +:+ ". Let me try a different approach.")
    /\ (alwaysRequestsTool E -> readableAnswers E ->
          countEvents (isModelCallOf MODEL) (eventsSince w w') = 8%nat
          /\ countEvents isModelCall (eventsSince w w') = 8%nat
          /\ modelResponses E (trace w) (eventsSince w w') = 8%nat
          /\ ar_text response
             = "I wasn't able to complete that request. Could you try again?"
          /\ ar_error response = None).
Proof.
  destruct (agenticTurn_run agentName systemInstruction tools contents w)
    as (exit & w1 & evs & response & w' & Hrun & Ht & Hloop & Hc1 & Hc2 & Hc3 & _ & Hexit).
  exists response, w'. split; [exact Hrun|].
  destruct (agenticTurn_events w w1 w' evs exit Ht) as (-> & -> & -> & _).
  { destruct exit; tauto. }
  split; [exact Hc1|]. split; [exact Hc3|]. split; [exact Hc2|]. split.
  { destruct exit as [st|r]; [left; tauto|]. right.
    destruct Hexit as (_ & -> & _ & _ & e & He & Hr). exists e.
    split; [exact He|]. now rewrite Hr. }
  intros Halways Hreadable.
  destruct (agenticLoop_exhausted agentName systemInstruction tools 8 Halways Hreadable
              (initialLoopState contents) w eq_refl eq_refl)
    as (st' & w1' & evs' & Hloop' & Hfinal & Ht' & H1 & H2 & H3).
  specialize (Hloop 8%nat (le_n 8)). specialize (Hloop' 8%nat (le_n 8)).
  rewrite Hloop in Hloop'. injection Hloop' as -> ->.
  rewrite Ht in Ht'. apply app_inv_head in Ht'. subst evs'.
  split; [exact H1|]. split; [exact H2|]. split; [exact H3|].
  destruct Hexit as (_ & _ & Herr & Htext & _). rewrite Hfinal in Htext. auto.
Qed.

(** C2, as the code has it. The tool calls a model response requests are
    dispatched in order.
    An invocation from whose result a text is derived gets exactly one
    record and one function response, whatever the result: the record
    holds the name, the arguments and the text, and its status is
    "error" exactly when the result has a truthy [isError], "success"
    otherwise. The text of an error result of the client is its message,
    and the text of a result whose items carry texts is these texts, one
    per line. When a text was derived from every result of a pass, the
    pass goes back to the loop test with the calls and the result texts
    - error texts included - appended to the conversation, and while
    passes remain the loop then hands exactly these contents to the
    model. An invocation from whose result no text can be derived gets
    no record, the remaining calls are not dispatched, and the pass ends
    in the [catch] block. From the loop on a turn never ends with an
    exception; its response holds one record per dispatched invocation
    when it carries no error, and at most one record less when it does. *)
Theorem tool_call_records :
  (forall functionCalls toolCalls0 functionResponses w,
      let invs := fst (invocations E functionCalls w) in
      dispatch E functionCalls toolCalls0 functionResponses w
      = (match unreadable E invs with
         | Some e => Throw e
         | None => Ok (functionResponses ++ responsesOf E invs)
         end,
         toolCalls0 ++ recordsOf E invs,
         snd (invocations E functionCalls w))
      /\ map fst invs = take (length invs) functionCalls
      /\ match unreadable E invs with
         | None => map fst invs = functionCalls
                   /\ length (recordsOf E invs) = length functionCalls
         | Some _ => S (length (recordsOf E invs)) = length invs
         end)
  /\ (forall inv resultText,
        resultTextOf E (snd inv) = Ok resultText ->
        recordsOf E [inv] = [recordOf inv resultText]
        /\ responsesOf E [inv] = [responseOf inv resultText]
        /\ (tc_status (recordOf inv resultText) = status_error
            <-> JS.truthy (JS.optGet (snd inv) "isError") = true)
        /\ (tc_status (recordOf inv resultText) = status_success
            <-> JS.truthy (JS.optGet (snd inv) "isError") = false)
        /\ tc_name (recordOf inv resultText) = fc_name (fst inv)
        /\ tc_args (recordOf inv resultText) = default (JObj []) (fc_args (fst inv))
        /\ tc_result (recordOf inv resultText) = Some resultText
        /\ part_functionResponse (responseOf inv resultText)
           = Some {| fr_name := fc_name (fst inv); fr_result := resultText |})
  /\ (forall inv e, resultTextOf E (snd inv) = Throw e ->
                    recordsOf E [inv] = [] /\ responsesOf E [inv] = [])
  /\ (forall text, text <> "" ->
                   resultTextOf E (errorResult text) = Ok text
                   /\ JS.truthy (JS.optGet (errorResult text) "isError") = true)
  /\ (forall result items texts,
        JS.optGet result "content" = JArr items ->
        Forall2 (fun c text => JS.optGet c "text" = JStr text /\ text <> "") items texts ->
        resultTextOf E result = Ok (join (String newline EmptyString) texts))
  /\ (forall systemInstruction tools st w response modelToUse w1,
        generateWithFallback E (currentContents st) systemInstruction tools w
        = (Ok (response, modelToUse), w1) ->
        List.filter hasFunctionCall (partsOf response) <> [] ->
        let invs := fst (invocations E (requestedCalls response) w1) in
        match unreadable E invs with
        | Some e =>
            iterate E systemInstruction tools st w
            = (StepCatch e (toolCalls st ++ recordsOf E invs),
               snd (invocations E (requestedCalls response) w1))
        | None =>
            exists st' w',
              iterate E systemInstruction tools st w = (StepNext st', w')
              /\ iteration st' = iteration st
              /\ toolCalls st' = toolCalls st ++ recordsOf E invs
              /\ currentContents st'
                 = currentContents st
                   ++ [ {| role := "model";
                           parts := List.filter hasFunctionCall (partsOf response) |};
                        {| role := "user"; parts := responsesOf E invs |} ]
              /\ (iteration st' < MAX_TOOL_ITERATIONS ->
                  forall agentName,
                  exists exit w'' evs,
                    (forall fuel, (remaining st' <= fuel)%nat ->
                                  agenticLoop E fuel agentName systemInstruction tools st' w'
                                  = (Some exit, w''))
                    /\ trace w''
                       = trace w' ++ EvModel {| mr_model := MODEL;
                                                mr_contents := currentContents st';
                                                mr_systemInstruction := systemInstruction;
                                                mr_tools := tools |} :: evs)
        end)
  /\ (forall agentName systemInstruction tools contents w,
        exists response w',
          (forall fuel, (8 <= fuel)%nat ->
                        agenticTurn E fuel agentName systemInstruction tools contents w
                        = (Some (Ok response), w'))
          /\ (ar_error response = None ->
              length (ar_toolCalls response)
              = countEvents isToolCallEvent (eventsSince w w'))
          /\ (length (ar_toolCalls response)
              <= countEvents isToolCallEvent (eventsSince w w'))%nat
          /\ (countEvents isToolCallEvent (eventsSince w w')
              <= S (length (ar_toolCalls response)))%nat).
Proof.
  split; [|split; [|split; [|split; [|split; [|split]]]]].
  - intros functionCalls toolCalls0 functionResponses w. cbv zeta.
    destruct (dispatch_spec functionCalls toolCalls0 functionResponses w)
      as (Hd & Hfst & Hlen & _).
    split; [exact Hd|]. split; [exact Hfst|].
    destruct (unreadable E (fst (invocations E functionCalls w)));
      destruct Hlen as [Hl1 Hl2]; [exact Hl2|].
    split; [|exact Hl2]. rewrite Hfst, Hl1. apply firstn_all.
  - intros [fc result] resultText Htext. cbn [fst snd] in *.
    unfold recordsOf, responsesOf. cbn [omap list_omap snd]. rewrite Htext.
    unfold recordOf, responseOf, functionResponsePart, isErrorSet. cbn.
    destruct (JS.truthy (JS.optGet result "isError"));
      repeat split; try discriminate; try congruence.
  - intros [fc result] e Htext. cbn [fst snd] in *.
    unfold recordsOf, responsesOf. cbn [omap list_omap snd]. now rewrite Htext.
  - intros text Hne. apply (resultTextOf_errorResult text Hne).
  - exact resultTextOf_texts.
  - intros systemInstruction tools st w response modelToUse w1 Hg Hcalls. cbv zeta.
    pose proof (iterate_with_calls _ _ _ _ _ _ _ Hg Hcalls) as Hi.
    destruct (unreadable E (fst (invocations E (requestedCalls response) w1)));
      [exact Hi|].
    eexists; eexists. split; [exact Hi|].
    cbn [iteration toolCalls currentContents].
    split; [reflexivity|]. split; [reflexivity|]. split; [reflexivity|].
    intros Hlt agentName.
    match goal with
    | |- context [agenticLoop E _ agentName systemInstruction tools ?s ?wx] =>
        destruct (agenticLoop_asks_model agentName systemInstruction tools s wx Hlt)
          as (exit & w'' & evs & Hloop & Ht)
    end.
    exists exit, w'', evs. split; [exact Hloop | exact Ht].
  - intros agentName systemInstruction tools contents w.
    destruct (agenticTurn_run agentName systemInstruction tools contents w)
      as (exit & w1 & evs & response & w' & Hrun & Ht & _ & _ & _ & _ & _ & Hexit).
    exists response, w'. split; [exact Hrun|].
    destruct (agenticTurn_events w w1 w' evs exit Ht) as (_ & _ & _ & ->).
    { destruct exit; tauto. }
    destruct exit as [st|r].
    + destruct Hexit as (_ & -> & _ & _ & Hlen). rewrite Hlen. auto.
    + destruct Hexit as (_ & -> & H1 & H2 & e & He & _).
      split; [rewrite He; discriminate|]. auto.
Qed.

End Loop.

(** The travel server of the sample answers with results of the declared
    shape: its answers are readable. *)
Lemma flights_readable : readableAnswers Sample.flightsEnv.
Proof.
  intros history req res data Hnet Hdata. injection Hnet as <-.
  assert (Hd : data = JObj [("result",
                 JObj [("content", JArr [JObj [("type", JStr "text");
                                               ("text", JStr "3 flights found")]])])]).
  { destruct Hdata as [H|H]; vm_compute in H; now injection H. }
  subst data. eexists. vm_compute. reflexivity.
Qed.

(** At the sample: the backend asks for "search_flights" again and again
    and the travel server answers every call with a text; the loop makes
    8 passes and the turn returns the fallback message. *)
Lemma chat_iteration_ceiling_witness :
  exists response w',
    agenticTurn Sample.flightsEnv 8 "2nd Brain" "" []
      [ {| role := "user";
           parts := [ {| part_text := Some "find me a flight"; part_thought := false;
                         part_functionCall := None; part_functionResponse := None |} ] |} ]
      SampleCalls.discovered
    = (Some (Ok response), w')
    /\ countEvents isModelCall (eventsSince SampleCalls.discovered w') = 8%nat
    /\ ar_text response = "I wasn't able to complete that request. Could you try again?".
Proof.
  match goal with
  | |- context [agenticTurn ?E 8 ?n ?s ?t ?c ?w] =>
      destruct (chat_iteration_ceiling E n s t c w)
        as (response & w' & Hrun & _ & _ & _ & _ & Halways)
  end.
  destruct Halways as (_ & Hcount & _ & Htext & _).
  { intros history req. eexists. split; [reflexivity | discriminate]. }
  { exact flights_readable. }
  exists response, w'. split; [apply Hrun; lia|]. auto.
Defined.

(** C1, as stated, fails. The brain is initialized without skills and
    without a memory service; the travel server has been discovered
    over the MCP protocol. The backend asks for "search_flights" in
    every response, and the server answers the call with a result whose
    [content] is a string. The first pass ends in the [catch] block -
    [result.content.map] is not a function - and the turn returns the
    error response after one model request, not the fallback message
    after eight. *)
Lemma loop_ends_at_first_pass :
  alwaysRequestsTool Sample.oddFlightsEnv
  /\ exists response w',
       chat Sample.oddFlightsEnv Sample.bareBrain "find me a flight" [] "" SampleCalls.discovered
       = (Some (Ok response), w')
       /\ countEvents isModelCall (eventsSince SampleCalls.discovered w') = 1%nat
       /\ ar_text response
          = "I encountered an error: result.content.map is not a function. Let me try a different approach."
       /\ ar_error response = Some "result.content.map is not a function".
Proof.
  split.
  - intros history req. eexists. split; [reflexivity | discriminate].
  - eexists; eexists. split; [vm_compute; reflexivity|]. vm_compute. auto.
Qed.

(** The bound of 16 requests is reached: while the primary model is down
    and the fallback model asks for a tool call in every response, a
    turn sends 16 model requests, 8 of them to the primary model, and
    gets 8 responses. *)
Lemma turn_with_sixteen_requests :
  exists response w',
    chat Sample.fallbackOnlyEnv Sample.bareBrain "find me a flight" [] "" initialWorld
    = (Some (Ok response), w')
    /\ countEvents isModelCall (eventsSince initialWorld w') = 16%nat
    /\ countEvents (isModelCallOf MODEL) (eventsSince initialWorld w') = 8%nat
    /\ modelResponses Sample.fallbackOnlyEnv (trace initialWorld)
         (eventsSince initialWorld w') = 8%nat
    /\ ar_text response = "I wasn't able to complete that request. Could you try again?".
Proof.
  eexists; eexists. split; [vm_compute; reflexivity|]. vm_compute. auto.
Qed.

(** At the sample: no tool server is configured, so the invocation of
    "search_flights" ends in an error result of the client; the pass
    records it with status "error" and the text of the result, and goes
    back to the loop test. *)
Lemma tool_call_records_witness :
  exists st' w',
    iterate Sample.insistentEnv "" [] (initialLoopState []) initialWorld
    = (StepNext st', w')
    /\ toolCalls st'
       = [ {| tc_name := "search_flights"; tc_args := JObj [];
              tc_result := Some "No MCP server configured for tool: search_flights. Set EXPO_PUBLIC_MCP_SERVER_URL or connect MCP.";
              tc_status := status_error |} ].
Proof.
  pose proof (proj1 (proj2 (proj2 (proj2 (proj2 (proj2
                (tool_call_records Sample.insistentEnv))))))
                "" [] (initialLoopState []) initialWorld _ _ _ eq_refl) as H.
  cbv zeta in H.
  destruct H as (st' & w' & Hrun & _ & Hcalls & _).
  { discriminate. }
  exists st', w'. split; [exact Hrun|]. rewrite Hcalls. vm_compute. reflexivity.
Defined.

(** C2, as stated, fails. The brain is initialized without skills and
    without a memory service; the travel server has been discovered
    over the MCP protocol. The model asks for "search_flights" and the
    server answers the call with a result whose [content] is a string.
    The invocation is dispatched - the "tool_call" event is emitted and
    the request is sent and answered - yet no record is appended, and
    the turn is aborted with the error response instead of feeding a
    text back to the model. *)
Lemma tool_call_without_record :
  exists response w',
    chat Sample.oddFlightsEnv Sample.bareBrain "find me a flight" [] "" SampleCalls.discovered
    = (Some (Ok response), w')
    /\ countEvents isToolCallEvent (eventsSince SampleCalls.discovered w') = 1%nat
    /\ countEvents (isFetchAt site_rpc) (eventsSince SampleCalls.discovered w') = 1%nat
    /\ ar_toolCalls response = []
    /\ ar_error response = Some "result.content.map is not a function"
    /\ countEvents isModelCall (eventsSince SampleCalls.discovered w') = 1%nat.
Proof.
  eexists; eexists. split; [vm_compute; reflexivity|]. vm_compute. auto 6.
Qed.

(* ===================================================================== *)
(** ** The tools a turn declares *)
(* ===================================================================== *)

Section DeclaredTools.

Context (E : Env).

(** C7. The tool declarations of a turn. Every model request of the turn
    carries the same [tools] array, built from the routing flags: no
    declared function bears a name of the deny-list (search,
    get_cache_stats, clear_cache); MCP functions are declared only if the
    workspace or the travel flag is set; [googleSearch] is declared only
    if the search flag is set and no MCP function is declared; so one
    model call never gets both. *)
Theorem declared_tools_of_a_turn (state : BrainState) (message : string)
    (historyContents : list Content) (systemInstruction : string) (w : World) :
  let routing := routingOf E state message (detectRelevantSkills E message (soul state)) in
  let tools := buildTools state routing in
  (forall req,
      In (EvModel req)
         (eventsSince w (snd (chat E state message historyContents systemInstruction w))) ->
      mr_tools req = tools)
  /\ (forall n, In n (declaredNames tools) ->
                ~ In n ["search"; "get_cache_stats"; "clear_cache"])
  /\ (declaresFunctions tools = true ->
        useWorkspace routing || useTravel routing = true)
  /\ (declaresGoogleSearch tools = true ->
        useSearch routing = true /\ declaresFunctions tools = false
        /\ declaredNames tools = [])
  /\ declaresFunctions tools && declaresGoogleSearch tools = false.
Proof.
  cbv zeta.
  destruct (buildTools_flags state
              (routingOf E state message (detectRelevantSkills E message (soul state))))
    as (Hdeny & Hfun & Hsearch & Hboth & _).
  split; [|auto].
  destruct (chat_run E state message historyContents systemInstruction w)
    as (exit & w1 & evs & response & w' & Hrun & Ht & _ & _ & _ & _ & Htools & Hexit).
  cbv zeta in *. set (thinking := EvAgent (ev_thinking _ _ _ _)) in *.
  assert (Hchat : chat E state message historyContents systemInstruction w
                  = (Some (Ok response), w'))
    by (apply Hrun; unfold MAX_TOOL_ITERATIONS; simpl; lia).
  rewrite Hchat. cbn [snd].
  assert (Hevents : exists tail,
             eventsSince w w' = [thinking] ++ evs ++ tail
             /\ (tail = [] \/ tail = [EvAgent ev_complete])).
  { destruct exit as [st|r].
    - destruct Hexit as (Ht' & _). exists [EvAgent ev_complete]. split; [|now right].
      apply eventsSince_eq. now rewrite Ht', Ht, <- !app_assoc.
    - destruct Hexit as (-> & _). exists []. split; [|now left].
      apply eventsSince_eq. now rewrite Ht, app_nil_r, <- !app_assoc. }
  destruct Hevents as (tail & -> & Htail).
  intros req Hin. apply in_app_or in Hin as [Hin|Hin].
  { destruct Hin as [Heq|[]]. discriminate. }
  apply in_app_or in Hin as [Hin|Hin]; [now apply Htools|].
  destruct Htail as [-> | ->]; [destruct Hin|].
  destruct Hin as [Heq|[]]. discriminate.
Qed.

End DeclaredTools.

(* ===================================================================== *)
(** ** URL helpers and the configured servers *)
(* ===================================================================== *)

Section Suffixes.

Lemma length_append (a b : string) :
  String.length (a +:+ b) = (String.length a + String.length b)%nat.
Proof. induction a as [|c a IH]; simpl; [reflexivity | now rewrite IH]. Qed.

Lemma eqb_longer (c : ascii) (pre suf : string) :
  String.eqb (String c (pre +:+ suf)) suf = false.
Proof.
  apply String.eqb_neq. intros H. apply (f_equal String.length) in H.
  simpl in H. rewrite length_append in H. lia.
Qed.

Lemma stripSuffix_app (pre suf : string) : stripSuffix suf (pre +:+ suf) = pre.
Proof.
  induction pre as [|c pre IH]; cbn [String.append stripSuffix].
  - destruct suf; cbn [stripSuffix]; now rewrite String.eqb_refl.
  - now rewrite eqb_longer, IH.
Qed.

Lemma endsWith_iff (s suf : string) :
  endsWith s suf = true <-> exists pre, s = pre +:+ suf.
Proof.
  induction s as [|c s IH]; cbn [endsWith].
  - rewrite orb_false_r, String.eqb_eq. split.
    + intros <-. now exists "".
    + intros [pre H]. destruct pre; [exact H | discriminate].
  - rewrite orb_true_iff, String.eqb_eq, IH. split.
    + intros [<- | [pre ->]]; [now exists "" | now exists (String c pre)].
    + intros [pre H]. destruct pre as [|c' pre]; [now left|].
      injection H as -> ->. right. now exists pre.
Qed.

Lemma stripSuffix_id (s suf : string) :
  endsWith s suf = false -> stripSuffix suf s = s.
Proof.
  induction s as [|c s IH]; cbn [endsWith stripSuffix]; intros H;
    apply orb_false_iff in H as [H1 H2]; rewrite H1; [reflexivity|].
  now rewrite IH.
Qed.

Lemma stripSuffix_restore (s suf : string) :
  endsWith s suf = true -> stripSuffix suf s +:+ suf = s.
Proof.
  intros H. apply endsWith_iff in H as [pre ->]. now rewrite stripSuffix_app.
Qed.

(** The last character of a string. *)
Lemma endsWith_last (pre : string) (c d : ascii) (rest suf : string) :
  endsWith (pre +:+ rest +:+ String c "") (suf +:+ String d "") = true -> c = d.
Proof.
  intros H. apply endsWith_iff in H as [p H].
  assert (Hlast : forall a b x y, a +:+ String x "" = b +:+ String y "" -> x = y).
  { induction a as [|u a IH]; intros [|v b] x y Hab; simpl in Hab.
    - now injection Hab.
    - injection Hab as _ Hab. destruct b; discriminate.
    - injection Hab as _ Hab. destruct a; discriminate.
    - injection Hab as _ Hab. eauto. }
  rewrite <- !append_assoc in H. exact (Hlast _ _ _ _ H).
Qed.

End Suffixes.

Section Servers.

Context (E : Env).

Lemma normalizeBaseUrl_root (url : string) :
  fst (normalizeBaseUrl url) = snd (normalizeBaseUrl url) +:+ "/mcp".
Proof.
  unfold normalizeBaseUrl. cbn [fst snd].
  destruct (endsWith (stripSuffix "/" url) "/mcp") eqn:He; cbn [negb].
  - symmetry. now apply stripSuffix_restore.
  - now rewrite stripSuffix_app.
Qed.

Lemma mcp_no_slash (r : string) : endsWith (r +:+ "/mcp") "/" = false.
Proof.
  destruct (endsWith (r +:+ "/mcp") "/") eqn:H; [|reflexivity].
  apply (endsWith_last r "p" "/" "/mc" "") in H. discriminate.
Qed.

Lemma normalizeBaseUrl_facts (url : string) :
  let baseUrl := fst (normalizeBaseUrl url) in
  let rootUrl := snd (normalizeBaseUrl url) in
  baseUrl = rootUrl +:+ "/mcp"
  /\ endsWith baseUrl "/mcp" = true
  /\ normalizeBaseUrl baseUrl = (baseUrl, rootUrl)
  /\ (endsWith url "/" = false ->
      normalizeBaseUrl (url +:+ "/") = normalizeBaseUrl url).
Proof.
  cbv zeta. pose proof (normalizeBaseUrl_root url) as Hroot.
  assert (Hends : endsWith (fst (normalizeBaseUrl url)) "/mcp" = true).
  { apply endsWith_iff. eauto. }
  split; [exact Hroot|]. split; [exact Hends|]. split.
  - unfold normalizeBaseUrl at 1.
    rewrite (stripSuffix_id (fst (normalizeBaseUrl url)) "/")
      by (rewrite Hroot; apply mcp_no_slash).
    rewrite Hends. reflexivity.
  - intros Hslash. unfold normalizeBaseUrl.
    now rewrite stripSuffix_app, (stripSuffix_id url "/" Hslash).
Qed.

(** X1. [normalizeBaseUrl] yields the root of a server and its MCP
    endpoint, the root followed by "/mcp". The endpoint is a fixed point:
    normalizing it again changes nothing. One trailing slash of the
    configured URL makes no difference. *)
Theorem normalizeBaseUrl_canonical (url : string) :
  let baseUrl := fst (normalizeBaseUrl url) in
  let rootUrl := snd (normalizeBaseUrl url) in
  baseUrl = rootUrl +:+ "/mcp"
  /\ endsWith baseUrl "/mcp" = true
  /\ normalizeBaseUrl baseUrl = (baseUrl, rootUrl)
  /\ (endsWith url "/" = false ->
      normalizeBaseUrl (url +:+ "/") = normalizeBaseUrl url).
Proof. exact (normalizeBaseUrl_facts url). Qed.

Lemma truthy_app_r (a b : string) : JSString.truthy b = true -> JSString.truthy (a +:+ b) = true.
Proof.
  unfold JSString.truthy. intros H. apply negb_true_iff, String.eqb_neq.
  apply negb_true_iff, String.eqb_neq in H. intros Hab. apply H.
  destruct a; [exact Hab | discriminate].
Qed.

Lemma getMcpServerUrls_facts :
  let servers := getMcpServerUrls E in
  let google := JSString.truthy (trim E (MCP_GOOGLE_URL E)) in
  let travel := JSString.truthy (trim E (MCP_TRAVEL_URL E)) in
  let serp := JSString.truthy (trim E (SERPAPI_API_KEY E)) in
  map name servers
  = ((if google then ["google"] else []) ++ (if travel || serp then ["travel"] else []))%list
  /\ (length servers <= 2)%nat
  /\ List.NoDup (map name servers)
  /\ (forall s, In s servers ->
        endsWith (baseUrl s) "/mcp" = true
        /\ forall r, rootUrl s = Some r -> baseUrl s = r +:+ "/mcp")
  /\ (forall s, In s servers -> name s = "travel" ->
        if travel
        then baseUrl s = fst (normalizeBaseUrl (trim E (MCP_TRAVEL_URL E)))
             /\ rootUrl s = Some (snd (normalizeBaseUrl (trim E (MCP_TRAVEL_URL E))))
        else baseUrl s = "https://mcp.serpapi.com/"
                         +:+ encodeURIComponent E (trim E (SERPAPI_API_KEY E)) +:+ "/mcp"
             /\ rootUrl s = None)
  /\ (google = false -> travel = false -> serp = false -> servers = []).
Proof.
  cbv zeta. unfold getMcpServerUrls.
  assert (Hn : forall u, endsWith (fst (normalizeBaseUrl u)) "/mcp" = true
                         /\ forall r, Some (snd (normalizeBaseUrl u)) = Some r ->
                                      fst (normalizeBaseUrl u) = r +:+ "/mcp").
  { intros u. destruct (normalizeBaseUrl_facts u) as (Hr & He & _).
    split; [exact He|]. intros r [= <-]. exact Hr. }
  assert (Hs : forall k, endsWith ("https://mcp.serpapi.com/" +:+ k +:+ "/mcp") "/mcp" = true).
  { intros k. apply endsWith_iff. exists ("https://mcp.serpapi.com/" +:+ k).
    now rewrite append_assoc. }
  destruct (JSString.truthy (trim E (MCP_GOOGLE_URL E)));
    destruct (JSString.truthy (trim E (MCP_TRAVEL_URL E)));
    destruct (JSString.truthy (trim E (SERPAPI_API_KEY E)));
    cbn [app map name orb length].
  all: split; [reflexivity|].
  all: split; [lia|].
  all: split; [repeat constructor; simpl; intuition discriminate|].
  all: split.
  all: try (intros s Hin; simpl in Hin;
            repeat (destruct Hin as [Heq|Hin];
                    [subst s; cbn [baseUrl rootUrl];
                     first [apply Hn | split; [apply Hs | discriminate]]|]);
            now destruct Hin).
  all: split.
  all: try (intros s Hin Hname; simpl in Hin;
            repeat (destruct Hin as [Heq|Hin];
                    [subst s; cbn [name] in Hname;
                     first [discriminate Hname | split; reflexivity]|]);
            now destruct Hin).
  all: intros; first [discriminate | reflexivity].
Qed.

(** X2. The configured servers: at most two, the Google Workspace server
    (if its URL is set) before the travel server (if the travel URL or
    the SerpAPI key is set), so the names are distinct. Every endpoint
    ends in "/mcp" and is its root, when one is kept, followed by "/mcp".
    A travel URL takes precedence over the SerpAPI key; the hosted SerpAPI
    endpoint is used only without one, and has no root. *)
Theorem getMcpServerUrls_shape :
  let servers := getMcpServerUrls E in
  let google := JSString.truthy (trim E (MCP_GOOGLE_URL E)) in
  let travel := JSString.truthy (trim E (MCP_TRAVEL_URL E)) in
  let serp := JSString.truthy (trim E (SERPAPI_API_KEY E)) in
  map name servers
  = ((if google then ["google"] else []) ++ (if travel || serp then ["travel"] else []))%list
  /\ (length servers <= 2)%nat
  /\ List.NoDup (map name servers)
  /\ (forall s, In s servers ->
        endsWith (baseUrl s) "/mcp" = true
        /\ forall r, rootUrl s = Some r -> baseUrl s = r +:+ "/mcp")
  /\ (forall s, In s servers -> name s = "travel" ->
        if travel
        then baseUrl s = fst (normalizeBaseUrl (trim E (MCP_TRAVEL_URL E)))
             /\ rootUrl s = Some (snd (normalizeBaseUrl (trim E (MCP_TRAVEL_URL E))))
        else baseUrl s = "https://mcp.serpapi.com/"
                         +:+ encodeURIComponent E (trim E (SERPAPI_API_KEY E)) +:+ "/mcp"
             /\ rootUrl s = None)
  /\ (google = false -> travel = false -> serp = false -> servers = []).
Proof. exact getMcpServerUrls_facts. Qed.

(** X3. The travel server of the configuration is authenticated with the
    static key. When a travel URL with a non-empty root and an API key
    are configured, [getMCPAuthHeaders], called for the travel endpoint
    that [getMcpServerUrls] lists, returns Content-Type and X-API-Key
    only: no bearer token, whatever the OAuth state, and nothing is read
    or changed (no clock read, no refresh, no event). *)
Theorem travel_endpoint_uses_api_key (s : Server) (w : World) :
  In s (getMcpServerUrls E) ->
  name s = "travel" ->
  JSString.truthy (trim E (MCP_TRAVEL_URL E)) = true ->
  snd (normalizeBaseUrl (trim E (MCP_TRAVEL_URL E))) <> "" ->
  JSString.truthy (trim E (MCP_API_KEY E)) = true ->
  exists headers,
    getMCPAuthHeaders E (Some (baseUrl s)) w = (Ok headers, w)
    /\ headers = <["X-API-Key" := trim E (MCP_API_KEY E)]> jsonHeaders
    /\ headers !! "Authorization" = None.
Proof.
  intros Hin Hname Htravel Hroot Hkey.
  destruct getMcpServerUrls_facts as (_ & _ & _ & _ & Hurl & _).
  specialize (Hurl s Hin Hname). rewrite Htravel in Hurl. destruct Hurl as [Hbase _].
  set (t := trim E (MCP_TRAVEL_URL E)) in *.
  destruct (normalizeBaseUrl_facts t) as (Hr & He & _ & _).
  assert (Hstatic : usesStaticKey E (Some (baseUrl s)) = true).
  { unfold usesStaticKey. fold t. rewrite Hkey, andb_true_r. cbn [default from_option optTruthy].
    unfold id. rewrite Hbase.
    rewrite (stripSuffix_id (fst (normalizeBaseUrl t)) "/")
      by (rewrite Hr; apply mcp_no_slash).
    assert (Hsame : stripSuffix "/mcp" (stripSuffix "/" t) = snd (normalizeBaseUrl t)).
    { unfold normalizeBaseUrl. cbn [snd].
      destruct (endsWith (stripSuffix "/" t) "/mcp") eqn:H; cbn [negb];
        [reflexivity | now rewrite stripSuffix_app, stripSuffix_id]. }
    rewrite Hsame. rewrite Hr at 2. rewrite stripSuffix_app, String.eqb_refl, andb_true_r.
    apply andb_true_iff. split.
    - rewrite Hr. now apply truthy_app_r.
    - unfold JSString.truthy. now apply negb_true_iff, String.eqb_neq. }
  unfold getMCPAuthHeaders. rewrite Hstatic. eexists. split; [reflexivity|].
  split; [reflexivity | reflexivity].
Qed.

End Servers.

Lemma travel_endpoint_uses_api_key_witness :
  exists headers,
    getMCPAuthHeaders
      (Sample.platform "" "https://travel.example/mcp/" " key-1 " Sample.offline Sample.silent)
      (Some "https://travel.example/mcp") Sample.expiredWorld
    = (Ok headers, Sample.expiredWorld)
    /\ headers = <["X-API-Key" := "key-1"]> jsonHeaders
    /\ headers !! "Authorization" = None.
Proof.
  apply (travel_endpoint_uses_api_key
           (Sample.platform "" "https://travel.example/mcp/" " key-1 "
              Sample.offline Sample.silent)
           Sample.travelServer Sample.expiredWorld).
  - left. reflexivity.
  - reflexivity.
  - reflexivity.
  - discriminate.
  - reflexivity.
Defined.

(* ===================================================================== *)
(** ** Tool names and declarations *)
(* ===================================================================== *)

Section ToolNames.

Lemma normalizeToolName_eq (session : option MCPSession) (toolName : string) :
  normalizeToolName session toolName
  = default (stripPrefix "google_" (dotsToUnderscores toolName))
            (aliasOf (stripPrefix "google_" (dotsToUnderscores toolName))
                     MINIMAL_TOOL_ALIASES).
Proof.
  unfold normalizeToolName.
  destruct (aliasOf _ MINIMAL_TOOL_ALIASES); [reflexivity|].
  now destruct (_ && _).
Qed.

Lemma hasChar_app (c : ascii) (a b : string) :
  hasChar c (a +:+ b) = hasChar c a || hasChar c b.
Proof.
  induction a as [|x a IH]; cbn [String.append hasChar]; [reflexivity|].
  now rewrite IH, orb_assoc.
Qed.

Lemma stripPrefix_suffix (pre s : string) : exists p, s = p +:+ stripPrefix pre s.
Proof.
  revert s. induction pre as [|a pre IH]; intros s.
  - exists "". now destruct s.
  - destruct s as [|b s]; cbn [stripPrefix]; [now exists ""|].
    destruct (Ascii.eqb a b); [|now exists ""].
    destruct (String.prefix pre s); [|now exists ""].
    destruct (IH s) as [p Hp]. exists (String b p).
    cbn [String.append]. now rewrite <- Hp.
Qed.

Lemma stripPrefix_id (pre s : string) : startsWith s pre = false -> stripPrefix pre s = s.
Proof.
  unfold startsWith. destruct pre as [|a pre]; [now destruct s|].
  destruct s as [|b s]; cbn [stripPrefix String.prefix]; [reflexivity|].
  intros H. destruct (Ascii.eqb_spec a b) as [->|Hab].
  - destruct (ascii_dec b b) as [_|Hn]; [|now destruct Hn]. now rewrite H.
  - reflexivity.
Qed.

Lemma hasChar_dotsToUnderscores (s : string) : hasChar "." (dotsToUnderscores s) = false.
Proof.
  induction s as [|c s IH]; [reflexivity|].
  unfold dotsToUnderscores in *. cbn [mapChars hasChar]. rewrite IH, orb_false_r.
  destruct (Ascii.eqb_spec c "."%char) as [->|Hc]; [reflexivity|].
  now apply Ascii.eqb_neq.
Qed.

Lemma dotsToUnderscores_id (s : string) : hasChar "." s = false -> dotsToUnderscores s = s.
Proof.
  induction s as [|c s IH]; [reflexivity|]. cbn [hasChar]. intros H.
  apply orb_false_iff in H as [Hc Hs]. unfold dotsToUnderscores in *.
  cbn [mapChars]. now rewrite Hc, IH.
Qed.

Lemma aliasOf_In (n : string) table v : aliasOf n table = Some v -> In (n, v) table.
Proof.
  induction table as [|[k x] table IH]; cbn [aliasOf]; [discriminate|].
  destruct (String.eqb_spec n k) as [->|Hn].
  - intros [= ->]. now left.
  - intros H. right. auto.
Qed.

(** X4. Tool-name normalization, for a name that - dots replaced and the
    prefix "google_" removed - is not the name of a member inherited
    from [Object.prototype] ("constructor", "toString", "__proto__" and
    the like, which the lookup in the alias table would find). The
    result does not depend on the session (the check against the
    session's tool names changes nothing); it holds no dot; each alias
    maps to its target and every target is left as it is; a name without
    dots, without the prefix "google_" and that is no alias is returned
    unchanged. *)
Theorem normalizeToolName_canonical (session session' : option MCPSession)
    (toolName : string) :
  inheritedMember (stripPrefix "google_" (dotsToUnderscores toolName)) = false ->
  normalizeToolName session toolName = normalizeToolName session' toolName
  /\ hasChar "." (normalizeToolName session toolName) = false
  /\ (forall alias target, In (alias, target) MINIMAL_TOOL_ALIASES ->
        normalizeToolName session alias = target
        /\ normalizeToolName session target = target)
  /\ (hasChar "." toolName = false ->
      startsWith toolName "google_" = false ->
      aliasOf toolName MINIMAL_TOOL_ALIASES = None ->
      normalizeToolName session toolName = toolName).
Proof.
  intros _.
  split; [now rewrite !normalizeToolName_eq|]. split; [|split].
  - rewrite normalizeToolName_eq.
    set (normalized := stripPrefix "google_" (dotsToUnderscores toolName)).
    destruct (aliasOf normalized MINIMAL_TOOL_ALIASES) as [v|] eqn:Ha; cbn [default from_option].
    + apply aliasOf_In in Ha. unfold MINIMAL_TOOL_ALIASES in Ha. simpl in Ha.
      repeat (destruct Ha as [[= _ <-]|Ha]; [reflexivity|]). destruct Ha.
    + unfold id. destruct (stripPrefix_suffix "google_" (dotsToUnderscores toolName))
        as [p Hp].
      pose proof (hasChar_dotsToUnderscores toolName) as Hd.
      rewrite Hp, hasChar_app in Hd. now apply orb_false_iff in Hd as [_ Hd].
  - intros alias target Hin. rewrite !normalizeToolName_eq.
    unfold MINIMAL_TOOL_ALIASES in Hin. simpl in Hin.
    repeat (destruct Hin as [[= <- <-]|Hin]; [split; reflexivity|]). destruct Hin.
  - intros Hdot Hpre Hal. rewrite normalizeToolName_eq.
    rewrite (dotsToUnderscores_id _ Hdot), (stripPrefix_id _ _ Hpre), Hal. reflexivity.
Qed.

(** X5. Function declarations. [mcpToolsToGeminiFunctions] declares one
    function per tool, in order, under the tool's name and description,
    with the tool's parameters in order and its required list; a
    parameter is typed "number" if the tool says "number", and "string"
    in every other case. The declarations the agent builds when
    connected are those of the converter for the tools outside the
    deny-list. *)
Theorem function_declarations_of_tools (tools : list MCPTool) (state : BrainState) :
  Forall2 (fun tool d =>
             fd_name d = tool_name tool
             /\ fd_description d = tool_description tool
             /\ fd_required d = default [] (schema_required (tool_inputSchema tool))
             /\ Forall2 (fun source declared =>
                           fst declared = fst source
                           /\ gp_type (snd declared)
                              = (if String.eqb (prop_type (snd source)) "number"
                                 then "number" else "string")
                           /\ gp_description (snd declared)
                              = default "" (prop_description (snd source)))
                        (default [] (schema_properties (tool_inputSchema tool)))
                        (fd_properties d))
          tools (mcpToolsToGeminiFunctions tools)
  /\ (mcpConnected state = true ->
      buildMCPFunctionDeclarations state
      = mcpToolsToGeminiFunctions
          (List.filter (fun tool => negb (arrayIncludes EXCLUDED_MCP_TOOLS (tool_name tool)))
                       (mcpTools state)))
  /\ (mcpConnected state = false -> buildMCPFunctionDeclarations state = []).
Proof.
  assert (Hor : forall o, JSString.orElse (default "" o) "" = default "" o).
  { intros [s|]; [|reflexivity]. cbn [default from_option]. unfold id, JSString.orElse.
    destruct (JSString.truthy s) eqn:H; [reflexivity|].
    unfold JSString.truthy in H. apply negb_false_iff, String.eqb_eq in H. now subst. }
  split; [|split].
  - unfold mcpToolsToGeminiFunctions. induction tools as [|tool tools IH]; constructor;
      [|exact IH].
    cbn [fd_name fd_description fd_required fd_properties].
    repeat (split; [reflexivity|]).
    induction (default [] (schema_properties (tool_inputSchema tool))) as [|kv kvs IHk];
      constructor; [|exact IHk].
    cbn [fst snd gp_type gp_description]. now rewrite Hor.
  - intros Hc. unfold buildMCPFunctionDeclarations. rewrite Hc. cbn [negb orb].
    destruct (mcpTools state) as [|t ts] eqn:Ht; [reflexivity|]. cbn [length Nat.eqb].
    unfold mcpToolsToGeminiFunctions. apply map_ext. intros tool. unfold declarationOf.
    f_equal. apply map_ext. intros kv. f_equal. f_equal.
    rewrite Hor. destruct (prop_description (snd kv)) as [s|]; [|reflexivity].
    cbn [optTruthy default from_option]. unfold id.
    destruct (JSString.truthy s) eqn:H; [reflexivity|].
    unfold JSString.truthy in H. apply negb_false_iff, String.eqb_eq in H. now subst.
  - intros Hc. unfold buildMCPFunctionDeclarations. now rewrite Hc.
Qed.

End ToolNames.

(** At the sample: "google_gmail.read_message" is normalized to the alias
    target "gmail_read_email", whatever the session. *)
Lemma normalizeToolName_canonical_witness :
  inheritedMember (stripPrefix "google_" (dotsToUnderscores "google_gmail.read_message"))
  = false
  /\ normalizeToolName None "google_gmail.read_message" = "gmail_read_email"
  /\ hasChar "." (normalizeToolName None "google_gmail.read_message") = false.
Proof.
  split; [reflexivity|]. split; [reflexivity|].
  apply (normalizeToolName_canonical None None "google_gmail.read_message").
  reflexivity.
Defined.

(* ===================================================================== *)
(** ** Skills, routing and the history window *)
(* ===================================================================== *)

Section SkillsAndHistory.

Context (E : Env).

Lemma toggleSkill_other (soul : AgentSoul) (skillId : string) (b : bool) (message : string) :
  List.filter (fun s => negb (String.eqb (skill_id s) skillId))
    (List.filter (skillFires E message) (soul_skills (toggleSkill soul skillId b)))
  = List.filter (fun s => negb (String.eqb (skill_id s) skillId))
      (List.filter (skillFires E message) (soul_skills soul)).
Proof.
  unfold toggleSkill. cbn [soul_skills].
  induction (soul_skills soul) as [|s skills IH]; [reflexivity|].
  cbn [map List.filter].
  destruct (String.eqb (skill_id s) skillId) eqn:Hid.
  - destruct (skillFires E message _); destruct (skillFires E message s);
      cbn [List.filter skill_id]; rewrite ?Hid; cbn [negb]; exact IH.
  - destruct (skillFires E message s); cbn [List.filter]; rewrite ?Hid; cbn [negb];
      [now rewrite IH | exact IH].
Qed.

Lemma filter_map_id {A} (f : A -> string) (p : string -> bool) (l : list A) :
  List.filter p (map f l) = map f (List.filter (fun a => p (f a)) l).
Proof.
  induction l as [|a l IH]; [reflexivity|]. cbn [map List.filter].
  destruct (p (f a)); cbn [map]; now rewrite IH.
Qed.

(** X6. Toggling a skill and detection. Whatever the message, a skill
    switched off by [toggleSkill] is not detected; switched on, it is
    detected exactly when the lower-cased message includes the
    lower-casing of one of its triggers; the detection of every other
    skill is unchanged. The skill table keeps its ids and their order. *)
Theorem toggleSkill_detection (soul : AgentSoul) (skillId message : string) :
  ~ In skillId (detectRelevantSkills E message (toggleSkill soul skillId false))
  /\ (In skillId (detectRelevantSkills E message (toggleSkill soul skillId true))
      <-> exists skill trigger,
            In skill (soul_skills soul) /\ skill_id skill = skillId
            /\ In trigger (skill_triggers skill)
            /\ includes (toLowerCase E message) (toLowerCase E trigger) = true)
  /\ (forall enabled,
        List.filter (fun id => negb (String.eqb id skillId))
          (detectRelevantSkills E message (toggleSkill soul skillId enabled))
        = List.filter (fun id => negb (String.eqb id skillId))
            (detectRelevantSkills E message soul))
  /\ (forall enabled,
        map skill_id (soul_skills (toggleSkill soul skillId enabled))
        = map skill_id (soul_skills soul)
        /\ soul_name (toggleSkill soul skillId enabled) = soul_name soul).
Proof.
  assert (Hdet : forall s, detectRelevantSkills E message s
                           = map skill_id (List.filter (skillFires E message) (soul_skills s))).
  { intros s. unfold detectRelevantSkills. now rewrite detectLoop_filter. }
  assert (Hin : forall enabled skill,
             In skill (soul_skills (toggleSkill soul skillId enabled)) ->
             skill_id skill = skillId -> skill_enabled skill = enabled).
  { intros enabled skill H Hid. unfold toggleSkill in H. cbn [soul_skills] in H.
    apply in_map_iff in H as (s & Hs & _).
    destruct (String.eqb (skill_id s) skillId) eqn:He.
    - now subst skill.
    - subst skill. apply String.eqb_neq in He. contradiction. }
  split; [|split; [|split]].
  - rewrite Hdet. intros H. apply in_map_iff in H as (skill & Hid & H).
    apply List.filter_In in H as [H Hf].
    apply skillFires_iff in Hf as (Hen & _).
    rewrite (Hin false skill H Hid) in Hen. discriminate.
  - rewrite Hdet, in_map_iff. split.
    + intros (skill & Hid & H). apply List.filter_In in H as [H Hf].
      apply skillFires_iff in Hf as (_ & trigger & Ht & Ho).
      unfold toggleSkill in H. cbn [soul_skills] in H.
      apply in_map_iff in H as (s & Hs & Hins).
      exists s, trigger. split; [exact Hins|].
      destruct (String.eqb (skill_id s) skillId) eqn:He; subst skill;
        cbn [skill_id skill_triggers] in *; auto.
    + intros (s & trigger & Hins & Hid & Ht & Ho).
      set (s' := {| skill_id := skill_id s; skill_name := skill_name s;
                    skill_description := skill_description s;
                    skill_category := skill_category s;
                    skill_triggers := skill_triggers s; skill_enabled := true |}).
      exists s'. split; [exact Hid|]. apply List.filter_In. split.
      * unfold toggleSkill. cbn [soul_skills]. apply in_map_iff. exists s.
        split; [|exact Hins]. apply String.eqb_eq in Hid. now rewrite Hid.
      * apply skillFires_iff. split; [reflexivity|]. exists trigger. auto.
  - intros enabled. rewrite !Hdet, !filter_map_id. f_equal. apply toggleSkill_other.
  - intros enabled. split; [|reflexivity]. unfold toggleSkill. cbn [soul_skills].
    rewrite map_map. apply map_ext. intros s.
    now destruct (String.eqb (skill_id s) skillId).
Qed.

(** X7. Routing priority. When the tool servers are not connected, a turn
    declares no function, and Google Search grounding exactly when the
    message needs search. When they are connected, the turn needs
    workspace or travel tools and a tool outside the deny-list is known,
    functions are declared and Google Search grounding is dropped, even
    if the message needs search. *)
Theorem routing_priority (state : BrainState) (message : string) (skills : list string) :
  let routing := routingOf E state message skills in
  (mcpConnected state = false ->
     buildTools state routing
     = if needsSearch E skills message then [googleSearch] else [])
  /\ (mcpConnected state = true ->
      needsWorkspace skills || needsTravel E skills message = true ->
      (exists tool, In tool (mcpTools state)
                    /\ ~ In (tool_name tool) ["search"; "get_cache_stats"; "clear_cache"]) ->
      buildTools state routing
      = [functionDeclarations (buildMCPFunctionDeclarations state)]
      /\ declaresGoogleSearch (buildTools state routing) = false)
  /\ (needsWorkspace skills || needsTravel E skills message = false ->
      buildTools state routing
      = if needsSearch E skills message then [googleSearch] else []).
Proof.
  cbv zeta. unfold buildTools, routingOf. cbn [useWorkspace useTravel useSearch].
  split; [|split].
  - intros ->. now rewrite !andb_false_r.
  - intros Hc Hneed (tool & Hin & Hex). rewrite Hc, !andb_true_r, Hneed.
    assert (Hlen : (0 <? length (buildMCPFunctionDeclarations state))%nat = true).
    { apply Nat.ltb_lt. unfold buildMCPFunctionDeclarations. rewrite Hc. cbn [negb orb].
      destruct (mcpTools state) as [|t ts] eqn:Ht; [destruct Hin|]. cbn [length Nat.eqb].
      rewrite length_map.
      assert (Hf : In tool (List.filter
                              (fun tool => negb (arrayIncludes EXCLUDED_MCP_TOOLS
                                                   (tool_name tool))) (t :: ts))).
      { apply List.filter_In. split; [exact Hin|]. apply negb_true_iff.
        destruct (arrayIncludes EXCLUDED_MCP_TOOLS (tool_name tool)) eqn:Hx; [|reflexivity].
        apply arrayIncludes_In in Hx. contradiction. }
      destruct (List.filter _ (t :: ts)); [destruct Hf | simpl; lia]. }
    rewrite Hlen. split; reflexivity.
  - intros Hneed. apply orb_false_iff in Hneed as [-> ->]. reflexivity.
Qed.

Lemma sliceLast_length {A} (n : nat) (xs : list A) :
  length (sliceLast n xs) = Nat.min n (length xs).
Proof. unfold sliceLast. rewrite length_drop. lia. Qed.

Lemma contentsOf_length (conversationHistory : list ConversationMessage)
    (message : string) :
  (length (contentsOf conversationHistory message) <= 11)%nat.
Proof.
  unfold contentsOf, historyContentsOf.
  rewrite length_app, length_map, sliceLast_length. cbn [length]. lia.
Qed.

(** X8. The history window handed to the model. A message is kept
    unless it is an assistant message with empty content; the window is
    made of the last ten kept messages, in order. Each becomes one
    content with one text part holding the content of the message, with
    role "user" for a user message and "model" for any other
    ("assistant" or "system"). *)
Theorem history_window (conversationHistory : list ConversationMessage) :
  let kept :=
    List.filter (fun msg => negb (String.eqb (msg_role msg) "assistant")
                            || JSString.truthy (msg_content msg))
      conversationHistory in
  let window := historyContentsOf conversationHistory in
  (forall msg, In msg kept
               <-> In msg conversationHistory
                   /\ (msg_role msg = "assistant" -> msg_content msg <> ""))
  /\ length window = Nat.min 10 (length kept)
  /\ (exists older recent,
        kept = (older ++ recent)%list
        /\ window
           = map (fun msg =>
                    {| role := if String.eqb (msg_role msg) "user" then "user" else "model";
                       parts := [ {| part_text := Some (msg_content msg);
                                     part_thought := false;
                                     part_functionCall := None;
                                     part_functionResponse := None |} ] |})
               recent
        /\ (older = [] \/ length recent = 10%nat))
  /\ (forall message, (length (contentsOf conversationHistory message) <= 11)%nat).
Proof.
  cbv zeta. unfold contentsOf, historyContentsOf.
  change (List.filter inHistoryWindow conversationHistory)
    with (List.filter (fun msg => negb (String.eqb (msg_role msg) "assistant")
                                  || JSString.truthy (msg_content msg))
            conversationHistory).
  set (kept := List.filter _ conversationHistory).
  rewrite length_map, sliceLast_length.
  split; [|split; [reflexivity|split]].
  - intros msg. subst kept. rewrite List.filter_In. split.
    + intros [Hin Hk]. split; [exact Hin|]. intros Hr Hempty.
      rewrite Hr, Hempty in Hk. discriminate.
    + intros [Hin Hk]. split; [exact Hin|].
      destruct (String.eqb_spec (msg_role msg) "assistant") as [Hr|Hr]; [|reflexivity].
      cbn [negb orb]. specialize (Hk Hr).
      destruct (msg_content msg); [contradiction | reflexivity].
  - exists (take (length kept - 10) kept), (sliceLast 10 kept).
    split; [unfold sliceLast; now rewrite take_drop|]. split; [reflexivity|].
    destruct (Nat.le_gt_cases (length kept) 10) as [Hle|Hgt].
    + left. replace (length kept - 10)%nat with 0%nat by lia. reflexivity.
    + right. rewrite sliceLast_length. lia.
  - apply contentsOf_length.
Qed.

End SkillsAndHistory.


(* ===================================================================== *)
(** ** The credential store across sessions *)
(* ===================================================================== *)

Section Persistence.

Context (E : Env).

Ltac exec :=
  unfold bind, ret, throw, gets, modify, emit, emitAuthEvent, tryCatch, dateNow,
    promiseAll3, getSecureItemAsync, setSecureItemAsync, deleteSecureItemAsync;
  cbn -[clearMCPGoogleToken refreshGoogleToken].

Lemma loadPersistedAuth_done (w : World) :
  authInitialized w = true -> loadPersistedAuth E w = (Ok tt, w).
Proof. intros H. unfold loadPersistedAuth, bind, gets. now rewrite H. Qed.

Lemma loadPersistedAuth_marks (w : World) :
  exists w', loadPersistedAuth E w = (Ok tt, w') /\ authInitialized w' = true.
Proof.
  destruct (authInitialized w) eqn:Hi.
  - exists w. split; [now apply loadPersistedAuth_done | exact Hi].
  - unfold loadPersistedAuth. unfold bind at 1. unfold gets at 1. rewrite Hi.
    unfold bind at 1.
    match goal with |- context [tryCatch ?m ?h w] => destruct (tryCatch m h w) as [[[]|e] w1] eqn:Ht end.
    + eexists. split; reflexivity.
    + exfalso. unfold tryCatch in Ht.
      match type of Ht with context [match ?x with _ => _ end] => destruct x as [[[]|e'] w2] end;
        discriminate.
Qed.

(** X10. [loadPersistedAuth] runs once. It never throws, whatever secure
    storage does, and leaves the store marked as initialized; once it is
    marked, a call changes nothing at all, so calling it twice is the
    same as calling it once. What it appends to the trace is nothing or a
    single "token_cleared". *)
Theorem loadPersistedAuth_once (w : World) :
  exists w',
    loadPersistedAuth E w = (Ok tt, w')
    /\ authInitialized w' = true
    /\ loadPersistedAuth E w' = (Ok tt, w')
    /\ (loadPersistedAuth E;; loadPersistedAuth E) w = loadPersistedAuth E w
    /\ (authInitialized w = true -> w' = w)
    /\ (eventsSince w w' = [] \/ eventsSince w w' = [EvAuth token_cleared]).
Proof.
  destruct (loadPersistedAuth_marks w) as (w' & Hrun & Hi).
  exists w'. split; [exact Hrun|]. split; [exact Hi|].
  split; [now apply loadPersistedAuth_done|].
  split; [unfold bind; rewrite Hrun; now apply loadPersistedAuth_done|].
  split.
  - intros Hw. rewrite (loadPersistedAuth_done w Hw) in Hrun. now injection Hrun.
  - assert (Hw' : w' = snd (loadPersistedAuth E w)) by now rewrite Hrun.
    destruct (authInitialized w) eqn:Hw.
    { left. rewrite (loadPersistedAuth_done w Hw) in Hw'. subst w'.
      unfold eventsSince. now rewrite drop_all. }
    clear Hrun Hi. subst w'. unfold loadPersistedAuth. exec. rewrite Hw.
    cbn -[clearMCPGoogleToken].
    repeat match goal with
           | |- context [match storeFault E ?n with _ => _ end] =>
               destruct (storeFault E n); cbn -[clearMCPGoogleToken]
           end.
    all: try (left; apply eventsSince_eq; cbn; now rewrite app_nil_r).
    destruct (secureStore w !! SECURE_googleAccessToken) as [t|];
      [|left; apply eventsSince_eq; cbn; now rewrite app_nil_r].
    destruct (secureStore w !! SECURE_googleTokenExpiry) as [e|];
      [|left; apply eventsSince_eq; cbn; now rewrite app_nil_r].
    destruct (JSString.truthy t && JSString.truthy e);
      [|left; apply eventsSince_eq; cbn; now rewrite app_nil_r].
    cbn -[clearMCPGoogleToken].
    destruct (JS.gtb (parseInt10 E e) _).
    + left. apply eventsSince_eq. cbn. now rewrite app_nil_r.
    + right. apply eventsSince_eq.
      match goal with
      | |- context [clearMCPGoogleToken E ?w0] =>
          destruct (clearMCPGoogleToken_spec E w0) as (w1 & -> & Ht & _)
      end.
      cbn. exact Ht.
Qed.

Lemma signedOut_headers (w : World) (mcpUrl : option string) :
  googleAccessToken w = None ->
  exists headers, getMCPAuthHeaders E mcpUrl w = (Ok headers, w)
                  /\ headers !! "Authorization" = None.
Proof. intros H. apply getMCPAuthHeaders_no_token. now rewrite H. Qed.

Lemma clear_empties_store (w : World) :
  (forall n, storeFault E n = None) ->
  secureStore (snd (clearMCPGoogleToken E w))
  = delete SECURE_googleTokenExpiry
      (delete SECURE_googleRefreshToken
         (delete SECURE_googleAccessToken (secureStore w))).
Proof.
  intros Hfault. unfold clearMCPGoogleToken, promiseAll. exec. now rewrite !Hfault.
Qed.

Lemma deleted_credential (store : gmap string string) :
  noStoredCredential
    (delete SECURE_googleTokenExpiry
       (delete SECURE_googleRefreshToken (delete SECURE_googleAccessToken store))).
Proof.
  unfold noStoredCredential. repeat split.
  - rewrite lookup_delete_ne by discriminate. rewrite lookup_delete_ne by discriminate.
    apply lookup_delete_eq.
  - rewrite lookup_delete_ne by discriminate. apply lookup_delete_eq.
  - apply lookup_delete_eq.
Qed.

Lemma load_without_credential (w : World) :
  secureStore w !! SECURE_googleAccessToken = None ->
  googleAccessToken (snd (loadPersistedAuth E w)) = googleAccessToken w
  /\ googleRefreshToken (snd (loadPersistedAuth E w)) = googleRefreshToken w
  /\ googleTokenExpiry (snd (loadPersistedAuth E w)) = googleTokenExpiry w.
Proof.
  intros Hnone. unfold loadPersistedAuth. exec.
  destruct (authInitialized w); [now cbn|]. cbn.
  repeat match goal with
         | |- context [match storeFault E ?n with _ => _ end] =>
             destruct (storeFault E n); cbn
         end; try now cbn.
  rewrite Hnone. now cbn.
Qed.

(** X11. Signing out. [clearMCPGoogleToken] never throws; it empties the
    credential cache and emits "token_cleared" once. Afterwards the
    client is not connected to Google, the auth mode is "api_key" or
    "none", and [getMCPAuthHeaders] sends no bearer token and changes
    nothing. When secure storage works, the three stored items are gone,
    and the user is still signed out after a restart. *)
Theorem clearMCPGoogleToken_signs_out (w : World) :
  exists w',
    clearMCPGoogleToken E w = (Ok tt, w')
    /\ signedOut w'
    /\ trace w' = trace w ++ [EvAuth token_cleared]
    /\ isGoogleConnected E w' = (Ok false, w')
    /\ getMCPAuthMode E w'
       = (Ok (if JSString.truthy (MCP_API_KEY E) then mode_api_key else mode_none), w')
    /\ (forall mcpUrl, exists headers,
          getMCPAuthHeaders E mcpUrl w' = (Ok headers, w')
          /\ headers !! "Authorization" = None)
    /\ ((forall n, storeFault E n = None) ->
        noStoredCredential (secureStore w')
        /\ signedOut (snd (loadPersistedAuth E (restart w')))).
Proof.
  destruct (clearMCPGoogleToken_spec E w) as (w' & Hrun & Ht & Ha & Hr & He).
  exists w'. split; [exact Hrun|]. split; [repeat split; assumption|].
  split; [exact Ht|]. split; [|split; [|split]].
  - unfold isGoogleConnected, bind, gets. now rewrite Ha.
  - unfold getMCPAuthMode, bind, gets. rewrite Ha. cbn.
    now destruct (JSString.truthy (MCP_API_KEY E)).
  - intros mcpUrl. now apply signedOut_headers.
  - intros Hfault.
    assert (Hs : noStoredCredential (secureStore w')).
    { replace w' with (snd (clearMCPGoogleToken E w)) by now rewrite Hrun.
      rewrite clear_empties_store by exact Hfault. apply deleted_credential. }
    split; [exact Hs|].
    destruct (load_without_credential (restart w')) as (H1 & H2 & H3).
    { apply Hs. }
    unfold signedOut. now rewrite H1, H2, H3.
Qed.

(** X12. Storing a credential. The expiry is "now plus the lifetime
    times 1000", in JavaScript arithmetic. When secure storage works,
    [setMCPGoogleToken] caches the access token with this expiry, writes
    both to secure storage, and emits nothing; a refresh token that is
    given replaces the cached and the stored one, and without one (or
    with an empty one) both are kept as they were. When the first write
    fails the call throws its error, but the new access token, the
    expiry and the refresh token are cached already, and the other
    writes have been started all the same: the stored access token is
    the old one, while the stored expiry and the stored refresh token
    are the new ones wherever their own write works. *)
Theorem setMCPGoogleToken_effect (accessToken : string) (expiresIn : JNumber)
    (refreshToken : option string) (w : World) :
  let expiry := JS.add (Num (clock E (ticks w))) (JS.mul expiresIn (Num 1000)) in
  ((forall n, storeFault E n = None) ->
   exists w',
     setMCPGoogleToken E accessToken expiresIn refreshToken w = (Ok tt, w')
     /\ googleAccessToken w' = Some accessToken
     /\ googleTokenExpiry w' = expiry
     /\ googleRefreshToken w'
        = (if optTruthy refreshToken then refreshToken else googleRefreshToken w)
     /\ secureStore w' !! SECURE_googleAccessToken = Some accessToken
     /\ secureStore w' !! SECURE_googleTokenExpiry = Some (numberToString E expiry)
     /\ secureStore w' !! SECURE_googleRefreshToken
        = (if optTruthy refreshToken then refreshToken
           else secureStore w !! SECURE_googleRefreshToken)
     /\ trace w' = trace w)
  /\ (forall message, storeFault E (storeOps w) = Some message ->
      exists w',
        setMCPGoogleToken E accessToken expiresIn refreshToken w = (Throw message, w')
        /\ googleAccessToken w' = Some accessToken
        /\ googleTokenExpiry w' = expiry
        /\ googleRefreshToken w'
           = (if optTruthy refreshToken then refreshToken else googleRefreshToken w)
        /\ secureStore w' !! SECURE_googleAccessToken
           = secureStore w !! SECURE_googleAccessToken
        /\ (storeFault E (S (storeOps w)) = None ->
            secureStore w' !! SECURE_googleTokenExpiry = Some (numberToString E expiry))
        /\ (storeFault E (S (storeOps w)) <> None ->
            secureStore w' !! SECURE_googleTokenExpiry
            = secureStore w !! SECURE_googleTokenExpiry)
        /\ (optTruthy refreshToken = true ->
            storeFault E (S (S (storeOps w))) = None ->
            secureStore w' !! SECURE_googleRefreshToken = refreshToken)
        /\ (optTruthy refreshToken = false ->
            secureStore w' !! SECURE_googleRefreshToken
            = secureStore w !! SECURE_googleRefreshToken)
        /\ trace w' = trace w).
Proof.
  cbv zeta. split.
  - intros Hfault. unfold setMCPGoogleToken.
    destruct refreshToken as [r|]; [destruct (JSString.truthy r) eqn:Hr|];
      cbn [optTruthy]; rewrite ?Hr; unfold promiseAll; exec; rewrite ?Hr; cbn;
      rewrite !Hfault; cbn; eexists; (split; [reflexivity|]); cbn;
      repeat split;
      repeat first [ rewrite lookup_insert_eq | rewrite lookup_insert_ne by discriminate ];
      reflexivity.
  - intros message Hfault. unfold setMCPGoogleToken.
    destruct refreshToken as [r|]; [destruct (JSString.truthy r) eqn:Hr|];
      cbn [optTruthy]; rewrite ?Hr; unfold promiseAll; exec; rewrite ?Hr; cbn;
      rewrite !Hfault; cbn;
      repeat match goal with
             | |- context [match storeFault E ?n with _ => _ end] =>
                 destruct (storeFault E n) eqn:?; cbn
             end;
      eexists; (split; [reflexivity|]); cbn; repeat split;
      try congruence; try discriminate;
      repeat first [ rewrite lookup_insert_eq | rewrite lookup_insert_ne by discriminate ];
      try reflexivity; try congruence.
Qed.

(** X13. A stored credential survives a restart. After
    [setMCPGoogleToken] has stored an access token and a refresh token
    (secure storage working, the expiry surviving the conversion to a
    string and back), the application is restarted and
    [loadPersistedAuth] runs before the token expires: the cache holds
    the same access token, refresh token and expiry again. *)
Theorem credential_survives_restart (accessToken refreshToken : string)
    (seconds : Z) (w : World) :
  let expiry := Num (clock E (ticks w) + seconds * 1000) in
  (forall n, storeFault E n = None) ->
  JSString.truthy accessToken = true ->
  JSString.truthy refreshToken = true ->
  JSString.truthy (numberToString E expiry) = true ->
  parseInt10 E (numberToString E expiry) = expiry ->
  clock E (S (ticks w)) < clock E (ticks w) + seconds * 1000 ->
  exists w1 w2,
    setMCPGoogleToken E accessToken (Num seconds) (Some refreshToken) w = (Ok tt, w1)
    /\ loadPersistedAuth E (restart w1) = (Ok tt, w2)
    /\ googleAccessToken w2 = Some accessToken
    /\ googleRefreshToken w2 = Some refreshToken
    /\ googleTokenExpiry w2 = expiry
    /\ isGoogleConnected E (restart w1) = (Ok false, restart w1)
    /\ trace w2 = trace w.
Proof.
  cbv zeta. intros Hfault Ha Hr Hs Hp Hclock.
  unfold setMCPGoogleToken, promiseAll. exec. rewrite Hr. cbn. rewrite !Hfault. cbn.
  eexists. eexists. split; [reflexivity|].
  unfold loadPersistedAuth, restart. exec. rewrite !Hfault. cbn.
  rewrite lookup_insert_ne by discriminate.
  rewrite lookup_insert_ne by discriminate.
  rewrite lookup_insert_eq.
  rewrite (lookup_insert_ne _ SECURE_googleRefreshToken SECURE_googleTokenExpiry)
    by discriminate.
  rewrite lookup_insert_eq. rewrite lookup_insert_eq.
  rewrite Ha, Hs, Hp. cbn.
  apply Z.ltb_lt in Hclock. rewrite Hclock. cbn.
  split; [reflexivity|]. repeat split; reflexivity.
Qed.

(** X14. An expired stored credential is discarded at startup. If the
    stored access token has an expiry that is not in the future (or that
    does not parse as a number), [loadPersistedAuth] loads nothing: it
    empties the cache, removes the access token, the expiry and also the
    refresh token from secure storage, and emits "token_cleared". *)
Theorem expired_stored_credential_is_discarded (token expiry : string) (w : World) :
  (forall n, storeFault E n = None) ->
  authInitialized w = false ->
  secureStore w !! SECURE_googleAccessToken = Some token ->
  secureStore w !! SECURE_googleTokenExpiry = Some expiry ->
  JSString.truthy token = true ->
  JSString.truthy expiry = true ->
  JS.gtb (parseInt10 E expiry) (Num (clock E (ticks w))) = false ->
  exists w',
    loadPersistedAuth E w = (Ok tt, w')
    /\ signedOut w'
    /\ noStoredCredential (secureStore w')
    /\ authInitialized w' = true
    /\ trace w' = trace w ++ [EvAuth token_cleared].
Proof.
  intros Hfault Hi Ht He Htt Het Hexp.
  unfold loadPersistedAuth. exec. rewrite Hi. cbn -[clearMCPGoogleToken].
  rewrite !Hfault. cbn -[clearMCPGoogleToken]. rewrite Ht, He, Htt, Het.
  cbn -[clearMCPGoogleToken]. rewrite Hexp.
  match goal with
  | |- context [clearMCPGoogleToken E ?w0] =>
      pose proof (clear_empties_store w0 Hfault) as Hstore;
      destruct (clearMCPGoogleToken_spec E w0) as (w1 & Hrun & Htr & Ha & Hr & Hx)
  end.
  rewrite Hrun in *. cbn [snd] in Hstore. cbn.
  eexists. split; [reflexivity|]. cbn.
  split; [repeat split; assumption|].
  split; [rewrite Hstore; apply deleted_credential|].
  split; [reflexivity | exact Htr].
Qed.

Lemma getMCPAuthHeaders_cases (mcpUrl : option string) (w : World) :
  exists headers w',
    getMCPAuthHeaders E mcpUrl w = (Ok headers, w')
    /\ headers !! "Content-Type" = Some "application/json"
    /\ (headers = jsonHeaders
        \/ (usesStaticKey E mcpUrl = true /\ w' = w
            /\ headers = <["X-API-Key" := trim E (MCP_API_KEY E)]> jsonHeaders)
        \/ (exists token tick,
              usesStaticKey E mcpUrl = false
              /\ googleAccessToken w' = Some token /\ JSString.truthy token = true
              /\ ticks w' = S tick
              /\ JS.gtb (googleTokenExpiry w') (Num (clock E tick)) = true
              /\ headers = <["Authorization" := "Bearer " +:+ token]> jsonHeaders))
    /\ (headers !! "X-API-Key" = None \/ headers !! "Authorization" = None).
Proof.
  unfold getMCPAuthHeaders.
  destruct (usesStaticKey E mcpUrl) eqn:Hkey.
  { eexists. eexists. split; [reflexivity|]. split; [reflexivity|].
    split; [right; left; auto | right; reflexivity]. }
  assert (Hend : forall w1 : World,
             exists headers w',
               (let* at' := gets googleAccessToken in
                if optTruthy at' then
                  let* exp' := gets googleTokenExpiry in
                  let* now' := dateNow E in
                  if JS.gtb exp' now'
                  then ret (<["Authorization" := "Bearer " +:+ default "" at']> jsonHeaders)
                  else ret jsonHeaders
                else ret jsonHeaders) w1 = (Ok headers, w')
               /\ headers !! "Content-Type" = Some "application/json"
               /\ (headers = jsonHeaders
                   \/ (false = true /\ w' = w
                       /\ headers = <["X-API-Key" := trim E (MCP_API_KEY E)]> jsonHeaders)
                   \/ (exists token tick,
                         false = false
                         /\ googleAccessToken w' = Some token
                         /\ JSString.truthy token = true
                         /\ ticks w' = S tick
                         /\ JS.gtb (googleTokenExpiry w') (Num (clock E tick)) = true
                         /\ headers = <["Authorization" := "Bearer " +:+ token]> jsonHeaders))
               /\ (headers !! "X-API-Key" = None \/ headers !! "Authorization" = None)).
  { intros w1. exec.
    destruct (googleAccessToken w1) as [token|] eqn:Ha; cbn.
    2:{ eexists. eexists. split; [reflexivity|]. split; [reflexivity|]. auto. }
    destruct (JSString.truthy token) eqn:Ht; cbn.
    2:{ eexists. eexists. split; [reflexivity|]. split; [reflexivity|]. auto. }
    destruct (JS.gtb (googleTokenExpiry w1) (Num (clock E (ticks w1)))) eqn:Hg; cbn.
    2:{ eexists. eexists. split; [reflexivity|]. split; [reflexivity|]. auto. }
    eexists. eexists. split; [reflexivity|]. split; [reflexivity|].
    split; [|left; reflexivity].
    right. right. exists token, (ticks w1). cbn. auto 10. }
  unfold bind at 1. unfold gets at 1.
  destruct (optTruthy (googleAccessToken w)) eqn:Ha.
  2:{ eexists. eexists. split; [reflexivity|]. split; [reflexivity|]. auto. }
  unfold bind at 1. unfold gets at 1. unfold bind at 1. unfold dateNow at 1.
  cbv beta iota zeta.
  unfold bind at 1.
  destruct (JS.leb (googleTokenExpiry w) (Num (clock E (ticks w)))).
  - unfold bind at 1.
    destruct (refreshGoogleToken_spec E cause_expired (set_ticks (S (ticks w)) w))
      as (b & w1 & -> & _).
    unfold ret at 1. cbv beta iota. apply Hend.
  - unfold ret at 1. cbv beta iota. apply Hend.
Qed.

(** X15. The headers of a request. [getMCPAuthHeaders] never throws and
    always sends "Content-Type: application/json". Besides that it sends
    nothing, or the static key (for the travel endpoint; then nothing is
    read or changed), or "Authorization: Bearer" with the access token
    that is cached when it returns, and this only if that token had not
    expired at the last reading of the clock. It never sends both the
    key and a bearer token. *)
Theorem getMCPAuthHeaders_shape (mcpUrl : option string) (w : World) :
  exists headers w',
    getMCPAuthHeaders E mcpUrl w = (Ok headers, w')
    /\ headers !! "Content-Type" = Some "application/json"
    /\ (headers = jsonHeaders
        \/ (usesStaticKey E mcpUrl = true /\ w' = w
            /\ headers = <["X-API-Key" := trim E (MCP_API_KEY E)]> jsonHeaders)
        \/ (exists token tick,
              usesStaticKey E mcpUrl = false
              /\ googleAccessToken w' = Some token /\ JSString.truthy token = true
              /\ ticks w' = S tick
              /\ JS.gtb (googleTokenExpiry w') (Num (clock E tick)) = true
              /\ headers = <["Authorization" := "Bearer " +:+ token]> jsonHeaders))
    /\ (headers !! "X-API-Key" = None \/ headers !! "Authorization" = None).
Proof. exact (getMCPAuthHeaders_cases mcpUrl w). Qed.

(** X16. A token that is found unexpired at the first reading of the
    clock and not unexpired at the second (it expires in between, or its
    expiry is not a number) is neither refreshed nor sent: the headers
    hold Content-Type only, and nothing is emitted or changed but the
    two clock readings. *)
Theorem token_expiring_between_clock_reads (mcpUrl : option string) (w : World) :
  usesStaticKey E mcpUrl = false ->
  optTruthy (googleAccessToken w) = true ->
  JS.leb (googleTokenExpiry w) (Num (clock E (ticks w))) = false ->
  JS.gtb (googleTokenExpiry w) (Num (clock E (S (ticks w)))) = false ->
  getMCPAuthHeaders E mcpUrl w = (Ok jsonHeaders, set_ticks (S (S (ticks w))) w).
Proof.
  intros Hkey Ha Hleb Hgtb. unfold getMCPAuthHeaders. rewrite Hkey. exec.
  rewrite Ha. cbn. rewrite Hleb. cbn. rewrite Ha. cbn. rewrite Hgtb. reflexivity.
Qed.

Lemma getMCPAuthMode_run (w : World) :
  getMCPAuthMode E w
  = if optTruthy (googleAccessToken w)
    then (Ok (if JS.gtb (googleTokenExpiry w) (Num (clock E (ticks w))) then mode_oauth
              else if JSString.truthy (MCP_API_KEY E) then mode_api_key else mode_none),
          set_ticks (S (ticks w)) w)
    else (Ok (if JSString.truthy (MCP_API_KEY E) then mode_api_key else mode_none), w).
Proof.
  unfold getMCPAuthMode. exec.
  destruct (optTruthy (googleAccessToken w)); cbn.
  - destruct (JS.gtb _ _); [reflexivity|].
    now destruct (JSString.truthy (MCP_API_KEY E)).
  - now destruct (JSString.truthy (MCP_API_KEY E)).
Qed.

Lemma isGoogleConnected_run (w : World) :
  isGoogleConnected E w
  = if optTruthy (googleAccessToken w)
    then (Ok (JS.gtb (googleTokenExpiry w) (Num (clock E (ticks w)))),
          set_ticks (S (ticks w)) w)
    else (Ok false, w).
Proof. unfold isGoogleConnected. exec. now destruct (optTruthy (googleAccessToken w)). Qed.

(** X17. The auth status is consistent when the clock does not run
    backwards (and does not show a negative time): a status that reports
    the client connected to Google also reports the mode "oauth", an
    OAuth token and its expiry. Without a cached token the status
    reports no connection and the mode "api_key" or "none", and nothing
    is read from the clock. Nothing is ever emitted. *)
Theorem getMCPAuthStatus_consistent (w : World) :
  exists status w',
    getMCPAuthStatus E w = (Ok status, w')
    /\ trace w' = trace w
    /\ auth_hasApiKey status = JSString.truthy (MCP_API_KEY E)
    /\ auth_hasOAuthToken status = optTruthy (googleAccessToken w)
    /\ (clock E (ticks w) <= clock E (S (ticks w)) ->
        0 <= clock E (S (ticks w)) ->
        auth_isGoogleConnected status = true ->
        auth_mode status = mode_oauth
        /\ auth_hasOAuthToken status = true
        /\ auth_oauthTokenExpiry status = Some (googleTokenExpiry w))
    /\ (auth_mode status = mode_oauth -> auth_hasOAuthToken status = true)
    /\ (optTruthy (googleAccessToken w) = false ->
        w' = w /\ auth_isGoogleConnected status = false
        /\ auth_mode status
           = if JSString.truthy (MCP_API_KEY E) then mode_api_key else mode_none).
Proof.
  unfold getMCPAuthStatus. unfold bind at 1. rewrite getMCPAuthMode_run.
  destruct (optTruthy (googleAccessToken w)) eqn:Ha.
  - unfold bind at 1. unfold gets at 1. unfold bind at 1.
    rewrite isGoogleConnected_run. cbn [googleAccessToken set_ticks]. rewrite Ha.
    cbn [googleTokenExpiry set_ticks ticks]. unfold bind, gets, ret.
    cbn [googleTokenExpiry set_ticks ticks].
    eexists. eexists. split; [reflexivity|].
    cbn [auth_mode auth_hasApiKey auth_hasOAuthToken auth_isGoogleConnected
           auth_oauthTokenExpiry trace set_ticks googleAccessToken].
    split; [reflexivity|]. split; [reflexivity|].
    split; [first [reflexivity | exact Ha | now rewrite Ha]|].
    split; [|split; [auto | discriminate]].
    intros Hmono Hpos Hc.
    destruct (googleTokenExpiry w) as [|exp]; [discriminate Hc|].
    cbn [JS.gtb] in *. apply Z.ltb_lt in Hc.
    assert (H1 : (clock E (ticks w) <? exp) = true) by (apply Z.ltb_lt; lia).
    assert (H0 : (0 <? exp) = true) by (apply Z.ltb_lt; lia).
    rewrite H1, H0. auto.
  - unfold bind at 1. unfold gets at 1. unfold bind at 1.
    rewrite isGoogleConnected_run, Ha. unfold bind, gets, ret.
    eexists. eexists. split; [reflexivity|].
    cbn [auth_mode auth_hasApiKey auth_hasOAuthToken auth_isGoogleConnected
           auth_oauthTokenExpiry].
    split; [reflexivity|]. split; [reflexivity|].
    split; [first [reflexivity | exact Ha | now rewrite Ha]|].
    split; [discriminate|]. split; [|auto].
    now destruct (JSString.truthy (MCP_API_KEY E)).
Qed.

(** X18. A successful refresh. When a refresh token is cached, the
    server URL is configured, the refresh request is answered with a 2xx
    response whose JSON body holds a non-empty string [access_token], and
    secure storage works, [refreshGoogleToken] returns [true]: the new
    access token is cached and stored, with the expiry "now plus
    [expires_in] seconds" (3600 if the body has none), the refresh token
    is kept, and the events are the refresh request and
    "token_refreshed". *)
Theorem refreshGoogleToken_success (cause : RefreshCause) (w : World)
    (rt : string) (res : Response) (data : JValue) (token : string) :
  googleRefreshToken w = Some rt ->
  JSString.truthy rt = true ->
  JSString.truthy (MCP_SERVER_URL E) = true ->
  JSString.truthy (stripSuffix "/" (stripMcpSuffix (MCP_SERVER_URL E))) = true ->
  net E (trace w ++ [EvRefreshCall cause]) (refreshRequest E rt) = FetchResponse res ->
  ok res = true ->
  JSON_parse E (bodyText res) = Some data ->
  JS.get data "access_token" = Some (JStr token) ->
  JSString.truthy token = true ->
  (forall n, storeFault E n = None) ->
  let lifetime := if JS.truthy (JS.optGet data "expires_in")
                  then ToNumber E (JS.optGet data "expires_in") else Num 3600 in
  let expiry := JS.add (Num (clock E (ticks w))) (JS.mul lifetime (Num 1000)) in
  exists w',
    refreshGoogleToken E cause w = (Ok true, w')
    /\ googleAccessToken w' = Some token
    /\ googleRefreshToken w' = Some rt
    /\ googleTokenExpiry w' = expiry
    /\ secureStore w' !! SECURE_googleAccessToken = Some token
    /\ secureStore w' !! SECURE_googleRefreshToken = Some rt
    /\ trace w' = trace w ++ [EvRefreshCall cause;
                             EvFetch site_refresh (refreshRequest E rt);
                             EvAuth token_refreshed].
Proof.
  cbv zeta. intros Hrt Hrtt Hurl Hbase Hnet Hok Hparse Htok Htt Hfault.
  unfold refreshGoogleToken, setMCPGoogleToken, promiseAll, fetch, resJson. exec.
  rewrite Hrt. cbn. rewrite Hrtt, Hurl. cbn. rewrite Hbase. cbn.
  fold (refreshRequest E rt). rewrite Hnet. cbn. rewrite Hok. cbn. rewrite Hparse. cbn.
  rewrite Htok. cbn. rewrite Htt. cbn.
  repeat (progress (rewrite ?Hrt, ?Hrtt, ?Hfault; cbn)).
  eexists. split; [reflexivity|]. cbn.
  repeat split;
    repeat first [ rewrite lookup_insert_eq | rewrite lookup_insert_ne by discriminate ];
    try reflexivity.
  now rewrite <- !app_assoc.
Qed.

End Persistence.

Lemma token_expiring_between_clock_reads_witness :
  getMCPAuthHeaders SampleAuth.ticking (Some "https://workspace.example/mcp")
    (Sample.signedIn "old" (Some "r1") 3000)
  = (Ok jsonHeaders, set_ticks 2 (Sample.signedIn "old" (Some "r1") 3000)).
Proof.
  apply (token_expiring_between_clock_reads SampleAuth.ticking
           (Some "https://workspace.example/mcp")
           (Sample.signedIn "old" (Some "r1") 3000)).
  - reflexivity.
  - reflexivity.
  - reflexivity.
  - reflexivity.
Defined.

Lemma refreshGoogleToken_success_witness :
  exists w',
    refreshGoogleToken SampleAuth.device cause_unauthorized Sample.validWorld
    = (Ok true, w')
    /\ googleAccessToken w' = Some "fresh"
    /\ googleRefreshToken w' = Some "r1"
    /\ googleTokenExpiry w' = Num 3601000
    /\ secureStore w' !! SECURE_googleAccessToken = Some "fresh"
    /\ secureStore w' !! SECURE_googleRefreshToken = Some "r1"
    /\ trace w' = [EvRefreshCall cause_unauthorized;
                   EvFetch site_refresh (refreshRequest SampleAuth.device "r1");
                   EvAuth token_refreshed].
Proof.
  apply (refreshGoogleToken_success SampleAuth.device cause_unauthorized Sample.validWorld
           "r1"
           {| status := 200; statusText := "OK"; contentType := None;
              mcpSessionId := None; bodyText := "token" |}
           (JObj [("access_token", JStr "fresh"); ("expires_in", JNum 3600)])
           "fresh").
  - reflexivity.
  - reflexivity.
  - reflexivity.
  - reflexivity.
  - reflexivity.
  - reflexivity.
  - reflexivity.
  - reflexivity.
  - reflexivity.
  - reflexivity.
Defined.

Lemma credential_survives_restart_witness :
  exists w1 w2,
    setMCPGoogleToken SampleAuth.device "fresh" (Num 4600) (Some "r1") initialWorld
    = (Ok tt, w1)
    /\ loadPersistedAuth SampleAuth.device (restart w1) = (Ok tt, w2)
    /\ googleAccessToken w2 = Some "fresh"
    /\ googleRefreshToken w2 = Some "r1"
    /\ googleTokenExpiry w2 = Num 4601000
    /\ isGoogleConnected SampleAuth.device (restart w1) = (Ok false, restart w1)
    /\ trace w2 = [].
Proof.
  apply (credential_survives_restart SampleAuth.device "fresh" "r1" 4600 initialWorld).
  - reflexivity.
  - reflexivity.
  - reflexivity.
  - reflexivity.
  - reflexivity.
  - reflexivity.
Defined.

Lemma expired_stored_credential_is_discarded_witness :
  exists w',
    loadPersistedAuth SampleAuth.deviceLater SampleAuth.afterInstall = (Ok tt, w')
    /\ signedOut w'
    /\ noStoredCredential (secureStore w')
    /\ authInitialized w' = true
    /\ trace w' = [EvAuth token_cleared].
Proof.
  apply (expired_stored_credential_is_discarded SampleAuth.deviceLater "old" "4601000"
           SampleAuth.afterInstall).
  - reflexivity.
  - reflexivity.
  - reflexivity.
  - reflexivity.
  - reflexivity.
  - reflexivity.
  - reflexivity.
Defined.

(* ===================================================================== *)
(** ** Preservation of a relation between worlds *)
(* ===================================================================== *)

Section Preserving.

Context (R : World -> World -> Prop).
Hypothesis R_refl : forall w, R w w.
Hypothesis R_trans : forall a b c, R a b -> R b c -> R a c.

Context {A B : Type}.

Lemma Preserves_ret (a : A) : Preserves R (ret a).
Proof. intros w. apply R_refl. Qed.

Lemma Preserves_throw (e : string) : Preserves R (throw (A := A) e).
Proof. intros w. apply R_refl. Qed.

Lemma Preserves_gets (f : World -> A) : Preserves R (gets f).
Proof. intros w. apply R_refl. Qed.

Lemma Preserves_bind (m : M A) (k : A -> M B) :
  Preserves R m -> (forall a, Preserves R (k a)) -> Preserves R (bind m k).
Proof.
  intros Hm Hk w. unfold bind. specialize (Hm w).
  destruct (m w) as [[a|e] w1]; cbn [snd] in *; [|exact Hm].
  eapply R_trans; [exact Hm | apply Hk].
Qed.

Lemma Preserves_tryCatch (m : M A) (h : string -> M A) :
  Preserves R m -> (forall e, Preserves R (h e)) -> Preserves R (tryCatch m h).
Proof.
  intros Hm Hh w. unfold tryCatch. specialize (Hm w).
  destruct (m w) as [[a|e] w1]; cbn [snd] in *; [exact Hm|].
  eapply R_trans; [exact Hm | apply Hh].
Qed.

End Preserving.

Lemma Preserves_promiseAll (R : World -> World -> Prop) (ps : list (M unit)) :
  (forall w, R w w) -> (forall a b c, R a b -> R b c -> R a c) ->
  Forall (Preserves R) ps -> Preserves R (promiseAll ps).
Proof.
  intros R_refl R_trans. induction 1 as [|p ps Hp _ IH]; simpl;
    [now apply Preserves_ret|].
  intros w. specialize (Hp w). destruct (p w) as [[[]|e] w1]; cbn [snd] in *.
  - eapply R_trans; [exact Hp | apply IH].
  - specialize (IH w1). destruct (promiseAll ps w1) as [r w2]. cbn [snd] in *.
    eapply R_trans; eauto.
Qed.

Lemma Preserves_promiseAll3 (R : World -> World -> Prop) {A : Type} (a b c : M A) :
  (forall x y z, R x y -> R y z -> R x z) ->
  Preserves R a -> Preserves R b -> Preserves R c -> Preserves R (promiseAll3 a b c).
Proof.
  intros R_trans Ha Hb Hc w. unfold promiseAll3. specialize (Ha w).
  destruct (a w) as [ra w1]. specialize (Hb w1). destruct (b w1) as [rb w2].
  specialize (Hc w2). destruct (c w2) as [rc w3]. cbn [snd] in *.
  eapply R_trans; [exact Ha|]. eapply R_trans; eauto.
Qed.

Lemma Preserves_modify (R : World -> World -> Prop) (f : World -> World) :
  (forall w, R w (f w)) -> Preserves R (modify f).
Proof. intros Hf w. apply Hf. Qed.

(** One step of a proof that a computation preserves a relation; [refl]
    and [trans] prove that the relation is a preorder. *)
Ltac preserve_step refl trans :=
  match goal with
  | |- Preserves _ (bind _ _) => apply Preserves_bind; [exact trans | | intros ?]
  | |- Preserves _ (tryCatch _ _) => apply Preserves_tryCatch; [exact trans | | intros ?]
  | |- Preserves _ (ret _) => apply Preserves_ret; exact refl
  | |- Preserves _ (throw _) => apply Preserves_throw; exact refl
  | |- Preserves _ (gets _) => apply Preserves_gets; exact refl
  | |- Preserves _ (if ?b then _ else _) => destruct b
  | |- Preserves _ (match ?x with _ => _ end) => destruct x
  | |- Preserves _ (let _ := _ in _) => cbv zeta
  end.

(* ===================================================================== *)
(** ** The auth store leaves the protocol state alone *)
(* ===================================================================== *)

Section AuthFrame.

Context (E : Env).

Lemma same_refl (w : World) : sameProtocolState w w.
Proof. reflexivity. Qed.

Lemma same_trans (a b c : World) :
  sameProtocolState a b -> sameProtocolState b c -> sameProtocolState a c.
Proof. unfold sameProtocolState. congruence. Qed.

Ltac same_step :=
  first [ preserve_step same_refl same_trans
        | match goal with
          | |- Preserves _ (modify _) => apply Preserves_modify; intros ?; reflexivity
          | |- Preserves _ (emit _) => apply Preserves_modify; intros ?; reflexivity
          | |- Preserves _ (emitAuthEvent _) => apply Preserves_modify; intros ?; reflexivity
          end ].

Ltac same := repeat same_step.

Lemma same_dateNow : Preserves sameProtocolState (dateNow E).
Proof. now intros w. Qed.

Lemma same_fetch site req : Preserves sameProtocolState (fetch E site req).
Proof. intros w. unfold fetch. now destruct (net E (trace w) req). Qed.

Lemma same_resJson res : Preserves sameProtocolState (resJson E res).
Proof. unfold resJson. same. Qed.

Lemma same_getSecureItemAsync key : Preserves sameProtocolState (getSecureItemAsync E key).
Proof. intros w. unfold getSecureItemAsync. now destruct (storeFault E (storeOps w)). Qed.

Lemma same_setSecureItemAsync key value :
  Preserves sameProtocolState (setSecureItemAsync E key value).
Proof. intros w. unfold setSecureItemAsync. now destruct (storeFault E (storeOps w)). Qed.

Lemma same_deleteSecureItemAsync key :
  Preserves sameProtocolState (deleteSecureItemAsync E key).
Proof. intros w. unfold deleteSecureItemAsync. now destruct (storeFault E (storeOps w)). Qed.

Lemma same_clearMCPGoogleToken : Preserves sameProtocolState (clearMCPGoogleToken E).
Proof.
  unfold clearMCPGoogleToken. same.
  apply Preserves_promiseAll; [exact same_refl | exact same_trans |].
  repeat constructor; apply same_deleteSecureItemAsync.
Qed.

Lemma same_setMCPGoogleToken accessToken expiresIn refreshToken :
  Preserves sameProtocolState (setMCPGoogleToken E accessToken expiresIn refreshToken).
Proof.
  unfold setMCPGoogleToken. same; try apply same_dateNow;
    (apply Preserves_promiseAll; [exact same_refl | exact same_trans |];
     apply Forall_app; split;
     [ repeat constructor; apply same_setSecureItemAsync
     | destruct refreshToken as [r|]; [destruct (JSString.truthy r)|];
       repeat constructor; apply same_setSecureItemAsync ]).
Qed.

Lemma same_loadPersistedAuth : Preserves sameProtocolState (loadPersistedAuth E).
Proof.
  unfold loadPersistedAuth. same;
    first [ apply Preserves_promiseAll3;
            [exact same_trans | apply same_getSecureItemAsync ..]
          | apply same_dateNow | apply same_clearMCPGoogleToken ].
Qed.

Lemma same_refreshGoogleToken cause :
  Preserves sameProtocolState (refreshGoogleToken E cause).
Proof.
  unfold refreshGoogleToken. same;
    first [ apply same_clearMCPGoogleToken | apply same_fetch | apply same_resJson
          | apply same_setMCPGoogleToken ].
Qed.

Lemma same_getMCPAuthHeaders mcpUrl :
  Preserves sameProtocolState (getMCPAuthHeaders E mcpUrl).
Proof.
  unfold getMCPAuthHeaders. same;
    first [apply same_dateNow | apply same_refreshGoogleToken].
Qed.

Lemma same_getMCPAuthMode : Preserves sameProtocolState (getMCPAuthMode E).
Proof. unfold getMCPAuthMode. same; apply same_dateNow. Qed.

(** X19. The auth store and the protocol state are independent. None of
    [loadPersistedAuth], [setMCPGoogleToken], [clearMCPGoogleToken],
    [refreshGoogleToken], [getMCPAuthHeaders] and [getMCPAuthMode]
    changes the MCP sessions, the recorded protocols, the JSON-RPC
    counter, the current session or the routing table: signing out or
    refreshing a token does not disconnect the tool servers. *)
Theorem auth_store_keeps_protocol_state (w : World) :
  sameProtocolState w (snd (loadPersistedAuth E w))
  /\ (forall accessToken expiresIn refreshToken,
        sameProtocolState w (snd (setMCPGoogleToken E accessToken expiresIn refreshToken w)))
  /\ sameProtocolState w (snd (clearMCPGoogleToken E w))
  /\ (forall cause, sameProtocolState w (snd (refreshGoogleToken E cause w)))
  /\ (forall mcpUrl, sameProtocolState w (snd (getMCPAuthHeaders E mcpUrl w)))
  /\ sameProtocolState w (snd (getMCPAuthMode E w)).
Proof.
  split; [apply same_loadPersistedAuth|].
  split; [intros; apply same_setMCPGoogleToken|].
  split; [apply same_clearMCPGoogleToken|].
  split; [intros; apply same_refreshGoogleToken|].
  split; [intros; apply same_getMCPAuthHeaders | apply same_getMCPAuthMode].
Qed.

End AuthFrame.

(* ===================================================================== *)
(** ** JSON-RPC requests and sessions *)
(* ===================================================================== *)

Section RpcRequests.

Context (E : Env).

Lemma rpcRequests_app (xs ys : list Event) :
  rpcRequests (xs ++ ys) = (rpcRequests xs ++ rpcRequests ys)%list.
Proof. unfold rpcRequests. apply omap_app. Qed.

Lemma rpcRequests_auth (evs : list Event) : Forall authEvent evs -> rpcRequests evs = [].
Proof.
  induction 1 as [|e evs He _ IH]; [reflexivity|].
  unfold rpcRequests in *. cbn [omap list_omap]. rewrite IH.
  destruct He as [He| ->]; [|reflexivity].
  destruct e as [[] ?| | | |]; try reflexivity; destruct He.
Qed.

(** [mcpRpc], step by step: the auth headers are computed (this touches
    the credential cache only), one request is sent, the session id of
    the response is recorded, and the response is decoded unless the
    message is a notification. *)
Lemma mcpRpc_run (mcpUrl method : string) (params : option JValue)
    (isNotification : bool) (w : World) :
  exists authHeaders w1 evs,
    getMCPAuthHeaders E (Some mcpUrl) w = (Ok authHeaders, w1)
    /\ sameProtocolState w w1
    /\ trace w1 = trace w ++ evs /\ Forall authEvent evs
    /\ let req := rpcRequest mcpUrl method params
                    (if isNotification then None else Some (rpcId w))
                    authHeaders (mcpSessions w !! mcpUrl) in
       let w2 := set_trace (trace w1 ++ [EvFetch site_rpc req])
                   (if isNotification then w1 else set_rpcId (rpcId w + 1) w1) in
       mcpRpc E mcpUrl method params isNotification w
       = match net E (trace w1) req with
         | FetchError message => (Throw message, w2)
         | FetchResponse res =>
             (if isNotification then Ok JNull else rpcOutcome E method res,
              recordSession mcpUrl res w2)
         end.
Proof.
  destruct (Total_getMCPAuthHeaders E (Some mcpUrl) w) as (authHeaders & w1 & Hh).
  pose proof (same_getMCPAuthHeaders E (Some mcpUrl) w) as Hsame.
  destruct (Adds_getMCPAuthHeaders E (Some mcpUrl) w) as (evs & Ht & Hevs).
  rewrite Hh in Hsame, Ht. cbn [snd] in Hsame, Ht.
  exists authHeaders, w1, evs. split; [exact Hh|]. split; [exact Hsame|].
  split; [exact Ht|]. split; [exact Hevs|]. cbv zeta.
  assert (Hs : mcpSessions w1 = mcpSessions w /\ rpcId w1 = rpcId w).
  { unfold sameProtocolState, protocolState in Hsame. now injection Hsame. }
  destruct Hs as [Hs Hid]. rewrite <- Hs, <- Hid.
  unfold mcpRpc. unfold bind at 1. rewrite Hh. cbv beta iota zeta.
  unfold bind at 1. unfold gets at 1. cbv beta iota.
  unfold rpcRequest, rpcRequestHeaders.
  assert (Hbody : rpcBody method params (if isNotification then None else Some (rpcId w1))
                  = JObj (([("jsonrpc", JStr "2.0"); ("method", JStr method)]
                           ++ match params with Some p => [("params", p)] | None => [] end)
                          ++ (if isNotification then [] else [("id", JNum (rpcId w1))]))%list).
  { unfold rpcBody. destruct isNotification; now rewrite <- app_assoc. }
  rewrite Hbody. clear Hbody.
  unfold parseMcpResponse, rpcOutcome, rpcData, recordSession, resJson.
  destruct isNotification; unfold bind, gets, modify, ret, throw, fetch; cbn;
    rewrite ?app_nil_r;
    (destruct (net E (trace w1) _) as [message|res]; [reflexivity|]); cbn.
  - now destruct (optTruthy (mcpSessionId res)).
  - destruct (optTruthy (mcpSessionId res)); cbn;
      destruct (ok res); cbn; try reflexivity;
      (destruct (includes _ _);
       [destruct (firstEnvelope _ _) as [data|] | destruct (JSON_parse _ _) as [data|]]);
      cbn; try reflexivity;
      destruct (JS.truthy (JS.optGet data "error")); reflexivity.
Qed.

End RpcRequests.

Section Handshake.

Context (E : Env) (mcpUrl : string) (res : Response).
Hypothesis Hanswers : alwaysAnswers E mcpUrl res.

Lemma authHeaders_no_session (mcpUrl' : option string) (w : World) headers (w' : World) :
  getMCPAuthHeaders E mcpUrl' w = (Ok headers, w') ->
  headers !! "Mcp-Session-Id" = None.
Proof.
  intros H. destruct (getMCPAuthHeaders_cases E mcpUrl' w)
    as (h & w1 & Hrun & _ & Hcases & _).
  rewrite H in Hrun. injection Hrun as <- <-.
  destruct Hcases as [-> | [(_ & _ & ->) | (token & tick & _ & _ & _ & _ & _ & ->)]].
  - reflexivity.
  - now rewrite lookup_insert_ne by discriminate.
  - now rewrite lookup_insert_ne by discriminate.
Qed.

Lemma rpcSummary_request (method : string) (params : option JValue) (id : option Z)
    (authHeaders : gmap string string) (session : option string) :
  authHeaders !! "Mcp-Session-Id" = None ->
  rpcSummary (rpcRequest mcpUrl method params id authHeaders session)
  = (JStr method, option_map JNum id, if optTruthy session then session else None).
Proof.
  intros Hh.
  assert (Hs : rpcRequestHeaders authHeaders session !! "Mcp-Session-Id"
               = if optTruthy session then session else None).
  { unfold rpcRequestHeaders.
    assert (Hu : (authHeaders ∪ rpcHeaders) !! "Mcp-Session-Id" = None).
    { apply lookup_union_None. split; [exact Hh | reflexivity]. }
    destruct session as [sid|]; cbn [optTruthy]; [|exact Hu].
    destruct (JSString.truthy sid); [apply lookup_insert_eq | exact Hu]. }
  unfold rpcSummary, rpcRequest, rpcIdOf, rpcMethodOf, rpcBody.
  cbn [req_body req_headers]. rewrite Hs.
  destruct params, id; reflexivity.
Qed.

(** One JSON-RPC exchange with an endpoint that always answers [res]. *)
Lemma mcpRpc_answer (method : string) (params : option JValue) (isNotification : bool)
    (w : World) :
  exists w',
    mcpRpc E mcpUrl method params isNotification w
    = (if isNotification then Ok JNull else rpcOutcome E method res, w')
    /\ rpcSent (mcpRpc E mcpUrl method params isNotification) w
       = [ (JStr method,
            if isNotification then None else Some (JNum (rpcId w)),
            if optTruthy (mcpSessions w !! mcpUrl) then mcpSessions w !! mcpUrl else None) ]
    /\ mcpSessions w'
       = (if optTruthy (mcpSessionId res)
          then <[mcpUrl := default "" (mcpSessionId res)]> (mcpSessions w)
          else mcpSessions w)
    /\ rpcId w' = (if isNotification then rpcId w else rpcId w + 1).
Proof.
  destruct (mcpRpc_run E mcpUrl method params isNotification w)
    as (authHeaders & w1 & evs & Hh & Hsame & Ht & Hevs & Hrun).
  cbv zeta in Hrun.
  match type of Hrun with
  | context [net E ?h ?q] => rewrite (Hanswers h q eq_refl) in Hrun
  end.
  assert (Hs : mcpSessions w1 = mcpSessions w /\ rpcId w1 = rpcId w).
  { unfold sameProtocolState, protocolState in Hsame. now injection Hsame. }
  destruct Hs as [Hs Hid].
  eexists. split; [exact Hrun|]. split; [|split].
  - unfold rpcSent. rewrite (newEvents_eq _ w (evs ++ [EvFetch site_rpc
        (rpcRequest mcpUrl method params
           (if isNotification then None else Some (rpcId w))
           authHeaders (mcpSessions w !! mcpUrl))])).
    + rewrite rpcRequests_app, (rpcRequests_auth evs Hevs). cbn [app rpcRequests omap list_omap map].
      rewrite rpcSummary_request by (eapply authHeaders_no_session; eauto).
      now destruct isNotification.
    + rewrite Hrun. cbn [snd]. unfold recordSession.
      destruct (optTruthy (mcpSessionId res)); cbn [trace set_sessions set_trace];
        now rewrite Ht, <- app_assoc.
  - unfold recordSession. destruct (optTruthy (mcpSessionId res));
      destruct isNotification; cbn; now rewrite ?Hs.
  - unfold recordSession. destruct (optTruthy (mcpSessionId res));
      destruct isNotification; cbn; now rewrite ?Hid.
Qed.

Lemma rpcSent_bind {A B} (m : M A) (k : A -> M B) (w : World) a (w1 : World) :
  m w = (Ok a, w1) ->
  (exists evs, trace w1 = trace w ++ evs) ->
  (exists evs, trace (snd (k a w1)) = trace w1 ++ evs) ->
  rpcSent (bind m k) w = (rpcSent m w ++ rpcSent (k a) w1)%list.
Proof.
  intros Hm [evs1 H1] [evs2 H2]. unfold rpcSent.
  rewrite (newEvents_eq m w evs1) by now rewrite Hm.
  rewrite (newEvents_eq (k a) w1 evs2) by exact H2.
  rewrite (newEvents_eq (bind m k) w (evs1 ++ evs2)).
  - now rewrite rpcRequests_app, map_app.
  - unfold bind. rewrite Hm, H2, H1. now rewrite app_assoc.
Qed.

Lemma rpcSent_seq {A B} (m : M A) (k : A -> M B) (w : World) a (w1 : World) :
  m w = (Ok a, w1) -> Adds clientEvent m -> Adds clientEvent (k a) ->
  rpcSent (bind m k) w = (rpcSent m w ++ rpcSent (k a) w1)%list.
Proof.
  intros Hm Am Ak. apply (rpcSent_bind m k w a w1 Hm).
  - destruct (Am w) as (evs & Ht & _). rewrite Hm in Ht. eauto.
  - destruct (Ak w1) as (evs & Ht & _). eauto.
Qed.

Lemma rpcSent_ret {A} (a : A) (w : World) : rpcSent (ret a) w = [].
Proof. unfold rpcSent, newEvents. cbn. now rewrite drop_all. Qed.

Hypothesis Hok : ok res = true.
Context (data : JValue).
Hypothesis Hdata : rpcData E res = Some data.
Hypothesis Hnoerror : JS.truthy (JS.optGet data "error") = false.

Lemma rpcOutcome_result (method : string) :
  rpcOutcome E method res = Ok (JS.optGet data "result").
Proof. unfold rpcOutcome. now rewrite Hok, Hdata, Hnoerror. Qed.

(** The session an exchange with the endpoint leaves. *)
Lemma session_after (w w' : World) :
  mcpSessions w'
  = (if optTruthy (mcpSessionId res)
     then <[mcpUrl := default "" (mcpSessionId res)]> (mcpSessions w)
     else mcpSessions w) ->
  mcpSessions w' !! mcpUrl
  = if optTruthy (mcpSessionId res) then mcpSessionId res else mcpSessions w !! mcpUrl.
Proof.
  intros ->. destruct (mcpSessionId res) as [sid|]; cbn [optTruthy]; [|reflexivity].
  destruct (JSString.truthy sid); [|reflexivity].
  cbn [default from_option]. apply lookup_insert_eq.
Qed.

Lemma mcpInitialize_run (w : World) :
  exists w',
    mcpInitialize E mcpUrl w = (Ok tt, w')
    /\ rpcSent (mcpInitialize E mcpUrl) w
       = [ (JStr "initialize", Some (JNum (rpcId w)),
            if optTruthy (mcpSessions w !! mcpUrl) then mcpSessions w !! mcpUrl else None);
           (JStr "notifications/initialized", None,
            if optTruthy (mcpSessionId res) then mcpSessionId res
            else if optTruthy (mcpSessions w !! mcpUrl) then mcpSessions w !! mcpUrl
                 else None) ]
    /\ mcpSessions w' !! mcpUrl
       = (if optTruthy (mcpSessionId res) then mcpSessionId res
          else mcpSessions w !! mcpUrl)
    /\ rpcId w' = rpcId w + 1.
Proof.
  destruct (mcpRpc_answer "initialize" (Some initializeParams) false w)
    as (w1 & H1 & S1 & M1 & I1).
  destruct (mcpRpc_answer "notifications/initialized" (Some (JObj [])) true w1)
    as (w2 & H2 & S2 & M2 & I2).
  rewrite rpcOutcome_result in H1. cbv iota in H1, H2, I1, I2.
  pose proof (session_after w w1 M1) as L1.
  pose proof (session_after w1 w2 M2) as L2.
  exists w2. split; [|split; [|split]].
  - unfold mcpInitialize. unfold bind at 1.
    change (mcpRpc E mcpUrl "initialize" _ false w)
      with (mcpRpc E mcpUrl "initialize" (Some initializeParams) false w).
    rewrite H1. unfold bind at 1. rewrite H2. reflexivity.
  - unfold mcpInitialize.
    rewrite (rpcSent_seq _ _ w _ w1 H1);
      [|apply Adds_mcpRpc | effects; apply Adds_mcpRpc].
    rewrite (rpcSent_seq _ _ w1 _ w2 H2); [|apply Adds_mcpRpc | effects].
    change (mcpRpc E mcpUrl "initialize" _ false)
      with (mcpRpc E mcpUrl "initialize" (Some initializeParams) false).
    rewrite S1, S2, rpcSent_ret, L1. cbn [app].
    destruct (optTruthy (mcpSessionId res)) eqn:Hs; [now rewrite Hs|].
    reflexivity.
  - rewrite L2, L1. now destruct (optTruthy (mcpSessionId res)).
  - rewrite I2, I1. reflexivity.
Qed.

Lemma mcpListTools_run (w : World) :
  exists w',
    mcpListTools E mcpUrl w
    = (Ok (match JS.optGet (JS.optGet data "result") "tools" with
           | JUndefined | JNull => []
           | ts => castTools E ts
           end), w')
    /\ (if optTruthy (mcpSessions w !! mcpUrl)
        then rpcSent (mcpListTools E mcpUrl) w
             = [ (JStr "tools/list", Some (JNum (rpcId w)), mcpSessions w !! mcpUrl) ]
             /\ rpcId w' = rpcId w + 1
        else rpcSent (mcpListTools E mcpUrl) w
             = [ (JStr "initialize", Some (JNum (rpcId w)), None);
                 (JStr "notifications/initialized", None,
                  if optTruthy (mcpSessionId res) then mcpSessionId res else None);
                 (JStr "tools/list", Some (JNum (rpcId w + 1)),
                  if optTruthy (mcpSessionId res) then mcpSessionId res else None) ]
             /\ rpcId w' = rpcId w + 2)
    /\ mcpSessions w' !! mcpUrl
       = (if optTruthy (mcpSessionId res) then mcpSessionId res
          else mcpSessions w !! mcpUrl).
Proof.
  assert (Hlist : forall w1 : World,
             exists w',
               (let* result := mcpRpc E mcpUrl "tools/list" None false in
                match JS.optGet result "tools" with
                | JUndefined | JNull => ret []
                | ts => ret (castTools E ts)
                end) w1
               = (Ok (match JS.optGet (JS.optGet data "result") "tools" with
                      | JUndefined | JNull => []
                      | ts => castTools E ts
                      end), w')
               /\ rpcSent (let* result := mcpRpc E mcpUrl "tools/list" None false in
                           match JS.optGet result "tools" with
                           | JUndefined | JNull => ret []
                           | ts => ret (castTools E ts)
                           end) w1
                  = [ (JStr "tools/list", Some (JNum (rpcId w1)),
                       if optTruthy (mcpSessions w1 !! mcpUrl)
                       then mcpSessions w1 !! mcpUrl else None) ]
               /\ mcpSessions w' !! mcpUrl
                  = (if optTruthy (mcpSessionId res) then mcpSessionId res
                     else mcpSessions w1 !! mcpUrl)
               /\ rpcId w' = rpcId w1 + 1).
  { intros w1.
    destruct (mcpRpc_answer "tools/list" None false w1) as (w2 & H & S & Ms & I).
    rewrite rpcOutcome_result in H. cbv iota in H, S, I.
    exists w2. split; [|split; [|split]].
    - unfold bind. rewrite H.
      now destruct (JS.optGet (JS.optGet data "result") "tools").
    - rewrite (rpcSent_seq _ _ w1 _ w2 H); [|apply Adds_mcpRpc|].
      + rewrite S. destruct (JS.optGet (JS.optGet data "result") "tools");
          now rewrite rpcSent_ret.
      + destruct (JS.optGet (JS.optGet data "result") "tools"); effects.
    - now apply session_after.
    - exact I. }
  unfold mcpListTools.
  destruct (optTruthy (mcpSessions w !! mcpUrl)) eqn:Hsess.
  - destruct (Hlist w) as (w' & H & S & L & I). rewrite Hsess in S.
    assert (Hens : ensureSession E mcpUrl w = (Ok tt, w)).
    { unfold ensureSession, bind, gets. now rewrite Hsess. }
    assert (Hnone : rpcSent (ensureSession E mcpUrl) w = []).
    { unfold rpcSent, newEvents. rewrite Hens. cbn [snd]. now rewrite drop_all. }
    exists w'. split; [|split; [split|]].
    + unfold bind at 1. rewrite Hens. exact H.
    + rewrite (rpcSent_seq _ _ w _ w Hens);
        [now rewrite Hnone, S | apply Adds_ensureSession
        | effects; first [apply Adds_mcpRpc | idtac]].
    + exact I.
    + exact L.
  - destruct (mcpInitialize_run w) as (w1 & Hi & Si & Li & Ii).
    destruct (Hlist w1) as (w' & H & S & L & I). rewrite Hsess in Si.
    assert (Hens : ensureSession E mcpUrl w = (Ok tt, w1)).
    { unfold ensureSession, bind, gets. now rewrite Hsess. }
    assert (Hsame : rpcSent (ensureSession E mcpUrl) w
                    = rpcSent (mcpInitialize E mcpUrl) w).
    { unfold rpcSent, newEvents, ensureSession. unfold bind at 1. unfold gets at 1.
      now rewrite Hsess. }
    exists w'. split; [|split; [split|]].
    + unfold bind at 1. rewrite Hens. exact H.
    + rewrite (rpcSent_seq _ _ w _ w1 Hens);
        [| apply Adds_ensureSession | effects; first [apply Adds_mcpRpc | idtac]].
      rewrite S, Hsame, Si, Ii, Li. cbn [app].
      destruct (optTruthy (mcpSessionId res)) eqn:Hs; rewrite ?Hs, ?Hsess; reflexivity.
    + rewrite I, Ii. lia.
    + rewrite L, Li. now destruct (optTruthy (mcpSessionId res)).
Qed.

End Handshake.

(** X20. The MCP handshake happens once per endpoint. With an endpoint
    that answers every request with the same successful response
    carrying a session id, the first [mcpListTools] sends three
    messages: "initialize" with a fresh id and no session,
    the notification "notifications/initialized" without id, and
    "tools/list" with the next id, the last two carrying the session id
    the server issued. A second call sends "tools/list" only, with the
    next id and the same session id, and returns the same tools. *)
Theorem mcp_handshake_once (E : Env) (mcpUrl : string) (res : Response)
    (data : JValue) (sid : string) (w : World) :
  alwaysAnswers E mcpUrl res ->
  ok res = true ->
  rpcData E res = Some data ->
  JS.truthy (JS.optGet data "error") = false ->
  mcpSessionId res = Some sid ->
  JSString.truthy sid = true ->
  optTruthy (mcpSessions w !! mcpUrl) = false ->
  exists tools w' w'',
    mcpListTools E mcpUrl w = (Ok tools, w')
    /\ rpcSent (mcpListTools E mcpUrl) w
       = [ (JStr "initialize", Some (JNum (rpcId w)), None);
           (JStr "notifications/initialized", None, Some sid);
           (JStr "tools/list", Some (JNum (rpcId w + 1)), Some sid) ]
    /\ mcpSessions w' !! mcpUrl = Some sid
    /\ mcpListTools E mcpUrl w' = (Ok tools, w'')
    /\ rpcSent (mcpListTools E mcpUrl) w'
       = [ (JStr "tools/list", Some (JNum (rpcId w + 2)), Some sid) ].
Proof.
  intros Hanswers Hok Hdata Hnoerror Hsid Htruthy Hsess.
  destruct (mcpListTools_run E mcpUrl res Hanswers Hok data Hdata Hnoerror w)
    as (w' & H1 & S1 & L1).
  destruct (mcpListTools_run E mcpUrl res Hanswers Hok data Hdata Hnoerror w')
    as (w'' & H2 & S2 & L2).
  rewrite Hsess in S1. destruct S1 as [S1 I1].
  rewrite Hsid in *. cbn [optTruthy] in *. rewrite Htruthy in *.
  rewrite L1 in S2. cbn [optTruthy] in S2. rewrite Htruthy in S2.
  destruct S2 as [S2 _]. rewrite I1 in S2.
  eexists. exists w', w''. split; [exact H1|]. split; [exact S1|].
  split; [exact L1|]. split; [exact H2 | exact S2].
Qed.

(** X21. An endpoint that issues no session id is initialized again at
    every call: [mcpListTools] sends "initialize", the notification and
    "tools/list", none with a session id, and the endpoint still has no
    session afterwards. *)
Theorem mcp_handshake_repeats_without_session (E : Env) (mcpUrl : string)
    (res : Response) (data : JValue) (w : World) :
  alwaysAnswers E mcpUrl res ->
  ok res = true ->
  rpcData E res = Some data ->
  JS.truthy (JS.optGet data "error") = false ->
  optTruthy (mcpSessionId res) = false ->
  optTruthy (mcpSessions w !! mcpUrl) = false ->
  exists tools w',
    mcpListTools E mcpUrl w = (Ok tools, w')
    /\ rpcSent (mcpListTools E mcpUrl) w
       = [ (JStr "initialize", Some (JNum (rpcId w)), None);
           (JStr "notifications/initialized", None, None);
           (JStr "tools/list", Some (JNum (rpcId w + 1)), None) ]
    /\ optTruthy (mcpSessions w' !! mcpUrl) = false
    /\ rpcId w' = rpcId w + 2.
Proof.
  intros Hanswers Hok Hdata Hnoerror Hsid Hsess.
  destruct (mcpListTools_run E mcpUrl res Hanswers Hok data Hdata Hnoerror w)
    as (w' & H1 & S1 & L1).
  rewrite Hsess in S1. destruct S1 as [S1 I1]. rewrite Hsid in *.
  eexists. exists w'. split; [exact H1|]. split; [exact S1|].
  split; [now rewrite L1 | exact I1].
Qed.

Lemma mcp_handshake_once_witness :
  exists tools w' w'',
    mcpListTools Sample.twoServersEnv "https://travel.example/mcp" initialWorld
    = (Ok tools, w')
    /\ rpcSent (mcpListTools Sample.twoServersEnv "https://travel.example/mcp") initialWorld
       = [ (JStr "initialize", Some (JNum 1), None);
           (JStr "notifications/initialized", None, Some "session-1");
           (JStr "tools/list", Some (JNum (1 + 1)), Some "session-1") ]
    /\ mcpSessions w' !! "https://travel.example/mcp" = Some "session-1"
    /\ mcpListTools Sample.twoServersEnv "https://travel.example/mcp" w' = (Ok tools, w'')
    /\ rpcSent (mcpListTools Sample.twoServersEnv "https://travel.example/mcp") w'
       = [ (JStr "tools/list", Some (JNum (1 + 2)), Some "session-1") ].
Proof.
  apply (mcp_handshake_once Sample.twoServersEnv "https://travel.example/mcp"
           {| status := 200; statusText := "OK"; contentType := Some "application/json";
              mcpSessionId := Some "session-1"; bodyText := "travel-tools" |}
           (JObj [("result",
                   JObj [("tools", JArr [JObj [("name", JStr "search_flights")];
                                         JObj [("name", JStr "search")]])])])
           "session-1" initialWorld).
  - intros history req Hurl. unfold Sample.twoServersEnv, Sample.platform, Sample.catalogs.
    cbn [net]. rewrite Hurl. reflexivity.
  - reflexivity.
  - reflexivity.
  - reflexivity.
  - reflexivity.
  - reflexivity.
  - reflexivity.
Defined.

Lemma mcp_handshake_repeats_without_session_witness :
  exists tools w',
    mcpListTools SampleRpc.statelessEnv "https://travel.example/mcp" initialWorld
    = (Ok tools, w')
    /\ rpcSent (mcpListTools SampleRpc.statelessEnv "https://travel.example/mcp")
         initialWorld
       = [ (JStr "initialize", Some (JNum 1), None);
           (JStr "notifications/initialized", None, None);
           (JStr "tools/list", Some (JNum (1 + 1)), None) ]
    /\ optTruthy (mcpSessions w' !! "https://travel.example/mcp") = false
    /\ rpcId w' = 1 + 2.
Proof.
  apply (mcp_handshake_repeats_without_session SampleRpc.statelessEnv
           "https://travel.example/mcp"
           {| status := 200; statusText := "OK"; contentType := Some "application/json";
              mcpSessionId := None; bodyText := "travel-tools" |}
           (JObj [("result",
                   JObj [("tools", JArr [JObj [("name", JStr "search_flights")];
                                         JObj [("name", JStr "search")]])])])
           initialWorld).
  - intros history req Hurl. reflexivity.
  - reflexivity.
  - reflexivity.
  - reflexivity.
  - reflexivity.
  - reflexivity.
Defined.

(* ===================================================================== *)
(** ** What discovery and calls leave in place *)
(* ===================================================================== *)

Lemma Preserves_weaken (R R' : World -> World -> Prop) {A} (m : M A) :
  (forall w w', R w w' -> R' w w') -> Preserves R m -> Preserves R' m.
Proof. intros H Hm w. apply H, Hm. Qed.

Section RoutingFrame.

Context (E : Env).

Lemma same_sameRouting (w w' : World) : sameProtocolState w w' -> sameRouting w w'.
Proof.
  unfold sameProtocolState, protocolState, sameRouting. intros H.
  injection H as _ Hp _ Hs Ht. auto.
Qed.

Lemma same_advances (w w' : World) : sameProtocolState w w' -> advances w w'.
Proof.
  unfold sameProtocolState, protocolState, advances. intros H.
  injection H as Hm Hp Hi Hs Ht. rewrite Hm, Hp, Hi. repeat split; auto. lia.
Qed.

Lemma routing_refl (w : World) : sameRouting w w.
Proof. now repeat split. Qed.

Lemma routing_trans (a b c : World) : sameRouting a b -> sameRouting b c -> sameRouting a c.
Proof. unfold sameRouting. intros (? & ? & ?) (? & ? & ?). repeat split; congruence. Qed.

Lemma advances_refl (w : World) : advances w w.
Proof. unfold advances. repeat split; auto. lia. Qed.

Lemma advances_trans (a b c : World) : advances a b -> advances b c -> advances a c.
Proof.
  unfold advances. intros (H1 & H2 & H3 & H4) (H1' & H2' & H3' & H4').
  repeat split; [congruence | lia | auto | auto].
Qed.

Ltac routing_step :=
  first [ preserve_step routing_refl routing_trans
        | match goal with
          | |- Preserves sameRouting (modify _) =>
              apply Preserves_modify; intros ?; now repeat split
          | |- Preserves sameRouting (getMCPAuthHeaders _ _) =>
              apply (Preserves_weaken sameProtocolState);
              [exact same_sameRouting | apply same_getMCPAuthHeaders]
          | |- Preserves sameRouting (getMCPAuthMode _) =>
              apply (Preserves_weaken sameProtocolState);
              [exact same_sameRouting | apply same_getMCPAuthMode]
          | |- Preserves sameRouting (refreshGoogleToken _ _) =>
              apply (Preserves_weaken sameProtocolState);
              [exact same_sameRouting | apply same_refreshGoogleToken]
          | |- Preserves sameRouting (clearMCPGoogleToken _) =>
              apply (Preserves_weaken sameProtocolState);
              [exact same_sameRouting | apply same_clearMCPGoogleToken]
          | |- Preserves sameRouting (emitAuthEvent _) =>
              apply Preserves_modify; intros ?; now repeat split
          | |- Preserves sameRouting (fetch _ _ _) =>
              apply (Preserves_weaken sameProtocolState);
              [exact same_sameRouting | apply same_fetch]
          | |- Preserves sameRouting (resJson _ _) =>
              apply (Preserves_weaken sameProtocolState);
              [exact same_sameRouting | apply same_resJson]
          end ].

Ltac routing := repeat routing_step.

Lemma routing_mcpRpc mcpUrl method params isNotification :
  Preserves sameRouting (mcpRpc E mcpUrl method params isNotification).
Proof. unfold mcpRpc, parseMcpResponse. routing. Qed.

Lemma routing_mcpCallTool mcpUrl toolName args :
  Preserves sameRouting (mcpCallTool E mcpUrl toolName args).
Proof.
  unfold mcpCallTool, ensureSession, mcpInitialize. routing; apply routing_mcpRpc.
Qed.

Lemma routing_callLoop callUrls headers body response :
  Preserves sameRouting (callLoop E callUrls headers body response).
Proof.
  revert response. induction callUrls as [|url more IH]; intros response; simpl.
  - routing.
  - routing; apply IH.
Qed.

Lemma routing_decodeCallResponse n response :
  Preserves sameRouting (decodeCallResponse E n response).
Proof. unfold decodeCallResponse. routing. Qed.

Lemma routing_callMCPTool toolName args :
  Preserves sameRouting (callMCPTool E toolName args).
Proof.
  unfold callMCPTool, callMCPToolBody. routing;
    first [ apply routing_mcpCallTool | apply routing_callLoop
          | apply routing_decodeCallResponse ].
Qed.

Ltac advances_step :=
  first [ preserve_step advances_refl advances_trans
        | match goal with
          | |- Preserves advances (getMCPAuthHeaders _ _) =>
              apply (Preserves_weaken sameProtocolState);
              [exact same_advances | apply same_getMCPAuthHeaders]
          | |- Preserves advances (getMCPAuthMode _) =>
              apply (Preserves_weaken sameProtocolState);
              [exact same_advances | apply same_getMCPAuthMode]
          | |- Preserves advances (refreshGoogleToken _ _) =>
              apply (Preserves_weaken sameProtocolState);
              [exact same_advances | apply same_refreshGoogleToken]
          | |- Preserves advances (clearMCPGoogleToken _) =>
              apply (Preserves_weaken sameProtocolState);
              [exact same_advances | apply same_clearMCPGoogleToken]
          | |- Preserves advances (loadPersistedAuth _) =>
              apply (Preserves_weaken sameProtocolState);
              [exact same_advances | apply same_loadPersistedAuth]
          | |- Preserves advances (dateNow _) =>
              apply (Preserves_weaken sameProtocolState);
              [exact same_advances | apply same_dateNow]
          | |- Preserves advances (emitAuthEvent _) =>
              apply Preserves_modify; intros ?;
              unfold advances; cbn; repeat split; auto; lia
          | |- Preserves advances (fetch _ _ _) =>
              apply (Preserves_weaken sameProtocolState);
              [exact same_advances | apply same_fetch]
          | |- Preserves advances (resJson _ _) =>
              apply (Preserves_weaken sameProtocolState);
              [exact same_advances | apply same_resJson]
          end ].

Ltac advancing := repeat advances_step.

Lemma advances_set_rpcId (n : Z) (w : World) :
  rpcId w <= n -> advances w (set_rpcId n w).
Proof. intros H. unfold advances. cbn. repeat split; auto. Qed.

Lemma advances_set_sessions (url sid : string) (w : World) :
  JSString.truthy sid = true ->
  advances w (set_sessions (<[url := sid]> (mcpSessions w)) w).
Proof.
  intros H. unfold advances. cbn. repeat split; auto; [lia|].
  intros u Hu. destruct (decide (u = url)) as [->|Hne].
  - now rewrite lookup_insert_eq.
  - now rewrite lookup_insert_ne by congruence.
Qed.

Lemma advances_set_protocol (url : string) (p : Protocol) (w : World) :
  advances w (set_protocol (<[url := p]> (serverProtocol w)) w).
Proof.
  unfold advances. cbn. repeat split; auto; [lia|].
  intros u Hu. destruct (decide (u = url)) as [->|Hne].
  - rewrite lookup_insert_eq. eauto.
  - now rewrite lookup_insert_ne by congruence.
Qed.

Lemma advances_set_toolToServerMap (m : gmap string string) (w : World) :
  advances w (set_toolToServerMap m w).
Proof. unfold advances. cbn. repeat split; auto. lia. Qed.

Lemma advances_mcpRpc mcpUrl method params isNotification :
  Preserves advances (mcpRpc E mcpUrl method params isNotification).
Proof.
  intros w.
  destruct (mcpRpc_run E mcpUrl method params isNotification w)
    as (authHeaders & w1 & evs & Hh & Hsame & Ht & Hevs & Hrun).
  cbv zeta in Hrun. rewrite Hrun.
  apply (advances_trans w w1); [now apply same_advances|].
  assert (Hid : rpcId w1 = rpcId w).
  { unfold sameProtocolState, protocolState in Hsame. now injection Hsame. }
  assert (H2 : advances w1 (set_trace
                 (trace w1 ++ [EvFetch site_rpc
                    (rpcRequest mcpUrl method params
                       (if isNotification then None else Some (rpcId w))
                       authHeaders (mcpSessions w !! mcpUrl))])
                 (if isNotification then w1 else set_rpcId (rpcId w + 1) w1))).
  { destruct isNotification; unfold advances; cbn; repeat split; auto; lia. }
  destruct (net E (trace w1) _) as [message|res]; cbn [snd]; [exact H2|].
  eapply advances_trans; [exact H2|]. unfold recordSession.
  destruct (mcpSessionId res) as [sid|]; cbn [optTruthy]; [|apply advances_refl].
  destruct (JSString.truthy sid) eqn:Hsid; [|apply advances_refl].
  cbn [default from_option]. now apply advances_set_sessions.
Qed.

Lemma advances_mcpListTools mcpUrl : Preserves advances (mcpListTools E mcpUrl).
Proof.
  unfold mcpListTools, ensureSession, mcpInitialize. advancing; apply advances_mcpRpc.
Qed.

Lemma advances_fetchToolsRest headers candidates :
  Preserves advances (fetchToolsRest E headers candidates).
Proof.
  induction candidates as [|[base path] more IH]; simpl; [advancing|].
  advancing; first [ apply IH
                   | apply Preserves_modify; intros ?; apply advances_set_protocol ].
Qed.

Lemma advances_fetchToolsFromServer baseUrl rootUrl serverName :
  Preserves advances (fetchToolsFromServer E baseUrl rootUrl serverName).
Proof.
  unfold fetchToolsFromServer. advancing;
    first [ apply advances_mcpListTools | apply advances_fetchToolsRest
          | apply Preserves_modify; intros ?; apply advances_set_protocol ].
Qed.

Lemma advances_callMCPTool toolName args :
  Preserves advances (callMCPTool E toolName args).
Proof.
  assert (Hloop : forall callUrls headers body response,
             Preserves advances (callLoop E callUrls headers body response)).
  { induction callUrls as [|url more IH]; intros headers body response; simpl.
    - advancing.
    - advancing; apply IH. }
  unfold callMCPTool, callMCPToolBody, mcpCallTool, ensureSession, mcpInitialize,
    decodeCallResponse.
  advancing; first [apply advances_mcpRpc | apply Hloop].
Qed.

(** X22. A tool call does not change the routing. [callMCPTool] leaves
    the routing table, the recorded protocols and the current session as
    they are, so every tool resolves to the same server after the call
    as before it; the JSON-RPC counter does not decrease and no MCP
    session is forgotten. *)
Theorem callMCPTool_keeps_routing (toolName : string) (args : JValue) (w : World) :
  let w' := snd (callMCPTool E toolName args w) in
  toolToServerMap w' = toolToServerMap w
  /\ serverProtocol w' = serverProtocol w
  /\ currentSession w' = currentSession w
  /\ (forall other, serverUrlFor E w' other = serverUrlFor E w other)
  /\ rpcId w <= rpcId w'
  /\ (forall url, optTruthy (mcpSessions w !! url) = true ->
                  optTruthy (mcpSessions w' !! url) = true).
Proof.
  cbv zeta. destruct (routing_callMCPTool toolName args w) as (Ht & Hp & Hs).
  destruct (advances_callMCPTool toolName args w) as (_ & Hid & _ & Hm).
  split; [exact Ht|]. split; [exact Hp|]. split; [exact Hs|].
  split; [|split; [exact Hid | exact Hm]].
  intros other. unfold serverUrlFor. now rewrite Ht, Hs.
Qed.

Lemma fetchToolsRest_records headers candidates (w : World) tools base (w' : World) :
  fetchToolsRest E headers candidates w = (Ok (Some (tools, base)), w') ->
  tools <> [] /\ is_Some (serverProtocol w' !! base).
Proof.
  revert w. induction candidates as [|[b path] more IH]; intros w; simpl.
  - discriminate.
  - intros H. apply bind_Ok in H as (found & w1 & Hf & Hk).
    destruct found as [[tools1 base1]|].
    + injection Hk as <- <- <-. unfold tryCatch in Hf.
      destruct (bind _ _ w) as [[r|e] w2] eqn:Hb; [|discriminate].
      injection Hf as -> ->.
      apply bind_Ok in Hb as (res & w3 & _ & Hb).
      destruct (negb (ok res)); [discriminate|].
      apply bind_Ok in Hb as (data & w4 & _ & Hb).
      match type of Hb with
      | context [castTools E ?l] =>
          destruct (0 <? Z.of_nat (length (castTools E l))) eqn:Hlen
      end; [|discriminate].
      apply bind_Ok in Hb as ([] & w5 & Hm & Hr).
      injection Hm as <-. injection Hr as <- <- <-. split.
      * intros Hnil. rewrite Hnil in Hlen. discriminate.
      * cbn. rewrite lookup_insert_eq. eauto.
    + now apply IH in Hk.
Qed.

Lemma fetchToolsFromServer_records baseUrl rootUrl serverName (w : World)
    tools base (w' : World) :
  fetchToolsFromServer E baseUrl rootUrl serverName w = (Ok (tools, base), w') ->
  tools <> [] -> is_Some (serverProtocol w' !! base).
Proof.
  unfold fetchToolsFromServer. intros H Hne.
  apply bind_Ok in H as (viaMcp & w1 & Hm & Hk).
  destruct viaMcp as [[tools1 base1]|].
  - injection Hk as <- <- <-. unfold tryCatch in Hm.
    destruct (bind _ _ w) as [[r|e] w2] eqn:Hb; [|discriminate].
    injection Hm as -> ->.
    apply bind_Ok in Hb as (ts & w3 & _ & Hb).
    destruct (0 <? Z.of_nat (length ts)); [|discriminate].
    apply bind_Ok in Hb as ([] & w5 & Hmod & Hr).
    injection Hmod as <-. injection Hr as <- <- <-.
    cbn. rewrite lookup_insert_eq. eauto.
  - destruct (negb (String.eqb serverName "travel")).
    + apply bind_Ok in Hk as (headers & w2 & _ & Hk).
      apply bind_Ok in Hk as (viaRest & w3 & Hr & Hk).
      destruct viaRest as [[tools1 base1]|].
      * injection Hk as <- <- <-. now apply fetchToolsRest_records in Hr.
      * injection Hk as <- <- <-. contradiction.
    + injection Hk as <- <- <-. contradiction.
Qed.

Lemma discoveries_protocols live servers (w : World) :
  (forall c, In c (fst (discoveries E live servers w)) -> fst c <> [] ->
             is_Some (serverProtocol (snd (discoveries E live servers w)) !! snd c))
  /\ advances w (snd (discoveries E live servers w)).
Proof.
  revert w. induction servers as [|s more IH]; intros w; cbn [discoveries].
  - split; [intros c []|apply advances_refl].
  - pose proof (advances_fetchToolsFromServer (baseUrl s) (rootUrl s) (name s) w) as Ha.
    pose proof (fetchToolsFromServer_records (baseUrl s) (rootUrl s) (name s) w) as Hrec.
    destruct (fetchToolsFromServer E (baseUrl s) (rootUrl s) (name s) w) as [r w1].
    cbn [snd] in Ha.
    set (c := contributionOf s r).
    set (w2 := if live then set_toolToServerMap (recordRoutes c (toolToServerMap w1)) w1
               else w1).
    assert (H12 : advances w1 w2).
    { unfold w2. destruct live; [apply advances_set_toolToServerMap | apply advances_refl]. }
    destruct (IH w2) as [IH1 IH2].
    destruct (discoveries E live more w2) as [cs w'] eqn:Hd. cbn [fst snd] in *.
    split.
    + intros c' [<-|Hin] Hne; [|now apply IH1].
      destruct IH2 as (_ & _ & Hp & _). apply Hp.
      destruct H12 as (_ & _ & Hp12 & _). apply Hp12.
      unfold c in *. destruct r as [[tools base]|e]; cbn [contributionOf fst snd] in *;
        [|contradiction].
      now apply (Hrec tools base w1 eq_refl).
    + eapply advances_trans; [exact Ha|]. eapply advances_trans; [exact H12 | exact IH2].
Qed.

Lemma recordRoutes_owner (c : list MCPTool * string) table toolName url :
  recordRoutes c table !! toolName = Some url ->
  table !! toolName = Some url \/ (snd c = url /\ fst c <> []).
Proof.
  unfold recordRoutes. destruct c as [tools base]. cbn [fst snd].
  revert table. induction tools as [|t tools IH]; intros table; cbn [fold_left].
  - auto.
  - intros H. apply IH in H as [H|[H _]]; [|right; split; [exact H | discriminate]].
    rewrite setRoute_lookup in H.
    destruct (String.eqb (tool_name t) toolName && negb (String.eqb toolName "__proto__")).
    + injection H as <-. right. split; [reflexivity | discriminate].
    + now left.
Qed.

Lemma routes_owner cs table toolName url :
  fold_left (fun m c => recordRoutes c m) cs table !! toolName = Some url ->
  table !! toolName = Some url
  \/ exists c, In c cs /\ snd c = url /\ fst c <> [].
Proof.
  revert table. induction cs as [|c cs IH]; intros table; cbn [fold_left]; [auto|].
  intros H. apply IH in H as [H|(c' & Hin & Hc)].
  - apply recordRoutes_owner in H as [H|H]; [now left|].
    right. exists c. split; [now left | exact H].
  - right. exists c'. split; [now right | exact Hc].
Qed.

(** The world a successful [initializeMCPConnection] leaves: the one the
    discovery pass ended in, with the routing table and the session
    set. *)
Lemma initializeMCPConnection_world (w : World) (session : MCPSession) (w' : World) :
  initializeMCPConnection E w = (Ok session, w') ->
  let cs := fst (discoveries E false (getMcpServerUrls E) (initializeStart E w)) in
  let w1 := snd (discoveries E false (getMcpServerUrls E) (initializeStart E w)) in
  catalogOf cs <> []
  /\ tools session = catalogOf cs
  /\ toolToServer session = routesOf cs
  /\ connected session = true
  /\ currentSession w' = Some session
  /\ toolToServerMap w' = routesOf cs
  /\ serverProtocol w' = serverProtocol w1
  /\ mcpSessions w' = mcpSessions w1
  /\ rpcId w' = rpcId w1.
Proof.
  cbv zeta. intros Hrun.
  destruct (Total_loadPersistedAuth E w) as ([] & w0 & Hl).
  set (ws := set_ticks (S (ticks w0)) w0).
  assert (Hs : initializeStart E w = ws).
  { unfold initializeStart, bind. now rewrite Hl. }
  rewrite Hs.
  destruct (initializeLoop_spec E (getMcpServerUrls E) ([], ∅) ws) as [H1 _].
  cbn [fst snd app] in H1.
  unfold initializeMCPConnection in Hrun. cbv zeta in Hrun.
  unfold bind at 1 in Hrun. rewrite Hl in Hrun.
  unfold bind at 1 in Hrun. unfold dateNow at 1 in Hrun. cbv beta iota zeta in Hrun.
  fold ws in Hrun. unfold bind at 1 in Hrun. rewrite H1 in Hrun. cbn [fst snd] in Hrun.
  fold (routesOf (fst (discoveries E false (getMcpServerUrls E) ws))) in Hrun.
  set (cs := fst (discoveries E false (getMcpServerUrls E) ws)) in *.
  set (w1 := snd (discoveries E false (getMcpServerUrls E) ws)) in *.
  destruct (length (catalogOf cs) =? 0)%nat eqn:Hlen; [discriminate|].
  unfold bind at 1, modify at 1 in Hrun. cbv beta iota in Hrun.
  unfold bind at 1, modify at 1 in Hrun. cbv beta iota in Hrun.
  unfold bind at 1 in Hrun.
  match type of Hrun with
  | context [getMCPAuthMode E ?wx] =>
      pose proof (same_getMCPAuthMode E wx) as Hsame;
      destruct (Total_getMCPAuthMode E wx) as (mode & w2 & Hm)
  end.
  rewrite Hm in Hrun, Hsame. cbn [snd] in Hsame. unfold ret in Hrun.
  injection Hrun as <- <-.
  unfold sameProtocolState, protocolState in Hsame.
  injection Hsame as Hms Hp Hid Hc Ht. cbn in Hms, Hp, Hid, Hc, Ht.
  split.
  { intros Hnil. rewrite Hnil in Hlen. discriminate. }
  repeat split; assumption.
Qed.

(** X23. Discovery records how to call what it routes. After
    [listMCPTools], and after a successful [initializeMCPConnection],
    every server the routing table points to has a recorded protocol
    ("mcp" or "rest"): a discovered tool is called over the protocol its
    server was found to speak. Discovery never forgets a recorded
    protocol or an MCP session, and [listMCPTools] leaves the current
    session alone. *)
Theorem discovery_records_protocols (servers : list Server) (w : World) :
  routesHaveProtocols (snd (listMCPToolsOf E servers w))
  /\ advances w (snd (listMCPToolsOf E servers w))
  /\ (forall session w',
        initializeMCPConnection E w = (Ok session, w') ->
        routesHaveProtocols w'
        /\ (forall url, is_Some (serverProtocol w !! url) ->
                        is_Some (serverProtocol w' !! url))
        /\ (forall url, optTruthy (mcpSessions w !! url) = true ->
                        optTruthy (mcpSessions w' !! url) = true)).
Proof.
  split; [|split].
  - destruct (listMCPToolsOf_spec E servers w) as [Hrun Hroutes]. rewrite Hrun. cbn [snd].
    intros toolName url Hlook. rewrite Hroutes in Hlook. unfold routesOf in Hlook.
    apply routes_owner in Hlook as [Hlook|(c & Hin & <- & Hne)].
    + rewrite lookup_empty in Hlook. discriminate.
    + now apply (proj1 (discoveries_protocols true servers (listingStart E w))).
  - destruct (listMCPToolsOf_spec E servers w) as [Hrun _]. rewrite Hrun. cbn [snd].
    eapply advances_trans;
      [|apply (proj2 (discoveries_protocols true servers (listingStart E w)))].
    unfold listingStart.
    eapply advances_trans; [|apply advances_set_toolToServerMap].
    apply same_advances, same_loadPersistedAuth.
  - intros session w' Hrun.
    destruct (initializeMCPConnection_world w session w' Hrun)
      as (_ & _ & _ & _ & _ & Hroutes & Hp & Hms & _).
    destruct (discoveries_protocols false (getMcpServerUrls E) (initializeStart E w))
      as [Hrec (_ & _ & Hkeep & Hsess)].
    assert (Hstart : sameProtocolState w (initializeStart E w)).
    { unfold initializeStart.
      assert (Hp0 : Preserves sameProtocolState (loadPersistedAuth E;; dateNow E)).
      { apply Preserves_bind; [exact same_trans | apply same_loadPersistedAuth|].
        intros ?. apply same_dateNow. }
      apply Hp0. }
    apply same_advances in Hstart. destruct Hstart as (_ & _ & Hkeep0 & Hsess0).
    split; [|split].
    + intros toolName url Hlook. rewrite Hroutes in Hlook. unfold routesOf in Hlook.
      apply routes_owner in Hlook as [Hlook|(c & Hin & <- & Hne)].
      * rewrite lookup_empty in Hlook. discriminate.
      * rewrite Hp. now apply Hrec.
    + intros url Hu. rewrite Hp. auto.
    + intros url Hu. rewrite Hms. auto.
Qed.

(** X24. [reinitializeMCP] never throws, and it returns [true] exactly
    when a session is connected afterwards. On success the session holds
    a non-empty catalog and the routing table is the session's; every
    tool of the catalog is routed, except one named "__proto__", for
    which the table - a plain object - has no entry. On failure there
    is no session any more, but the routing table is the old one: tools
    stay routed to the servers found earlier. *)
Theorem reinitializeMCP_outcome (w : World) :
  exists b w',
    reinitializeMCP E w = (Ok b, w')
    /\ isMCPConnected w' = (Ok b, w')
    /\ (b = false ->
        currentSession w' = None /\ toolToServerMap w' = toolToServerMap w)
    /\ (b = true ->
        exists session,
          currentSession w' = Some session
          /\ tools session <> []
          /\ toolToServer session = toolToServerMap w'
          /\ (forall t, In t (tools session) -> tool_name t <> "__proto__" ->
                        is_Some (toolToServerMap w' !! tool_name t))
          /\ toolToServerMap w' !! "__proto__" = None).
Proof.
  unfold reinitializeMCP. unfold bind at 1, modify at 1. cbv beta iota.
  set (w0 := set_currentSession None w).
  destruct (initializeMCPConnection_spec E w0) as [Hkeep Hspec]. cbv zeta in Hspec, Hkeep.
  unfold tryCatch, bind.
  destruct (initializeMCPConnection E w0) as [[session|e] w'] eqn:Hrun.
  - destruct (initializeMCPConnection_world w0 session w' Hrun)
      as (Hne & Htools & Hts & Hconn & Hcur & Hroutes & _).
    exists true, w'. split; [reflexivity|]. split; [|split; [discriminate|]].
    + unfold isMCPConnected, bind, gets, ret. now rewrite Hcur, Hconn.
    + intros _. exists session. split; [exact Hcur|]. split; [now rewrite Htools|].
      split; [now rewrite Hts, Hroutes|].
      rewrite Hroutes. split; [|apply routesOf_proto].
      intros t Hin Hproto. rewrite Htools in Hin.
      destruct (catalog_owned
                  (fst (discoveries E false (getMcpServerUrls E) (initializeStart E w0)))
                  t Hin) as [owner Ho].
      rewrite (routesOf_lastOwner _ _ Hproto). eauto.
  - exists false, w'. split; [reflexivity|].
    destruct (length _ =? 0)%nat.
    2:{ destruct Hspec as (s' & w'' & Hr & _). discriminate. }
    injection Hspec as _ Hw'. subst w'.
    assert (Hcur : currentSession
                     (snd (discoveries E false (getMcpServerUrls E) (initializeStart E w0)))
                   = None).
    { destruct (discoveries_protocols false (getMcpServerUrls E) (initializeStart E w0))
        as [_ (Hc & _)].
      rewrite Hc.
      assert (Hp0 : Preserves sameProtocolState (loadPersistedAuth E;; dateNow E)).
      { apply Preserves_bind; [exact same_trans | apply same_loadPersistedAuth|].
        intros ?. apply same_dateNow. }
      specialize (Hp0 w0). unfold sameProtocolState, protocolState in Hp0.
      unfold initializeStart. now injection Hp0. }
    split; [|split; [|discriminate]].
    + unfold isMCPConnected, bind, gets, ret. now rewrite Hcur.
    + intros _. split; [exact Hcur | exact Hkeep].
Qed.

End RoutingFrame.

(* ===================================================================== *)
(** ** The two transports of a tool call *)
(* ===================================================================== *)

Section Transports.

Context (E : Env).

Lemma callPosts_app (xs ys : list Event) :
  callPosts (xs ++ ys) = (callPosts xs ++ callPosts ys)%list.
Proof. unfold callPosts. apply omap_app. Qed.

Lemma callPosts_quiet (evs : list Event) : Forall quiet evs -> callPosts evs = [].
Proof.
  induction 1 as [|e evs He _ IH]; [reflexivity|].
  unfold callPosts in *. cbn [omap list_omap]. rewrite IH.
  destruct He as (_ & _ & He). destruct e as [[] ?| | | |]; try reflexivity; discriminate.
Qed.

Lemma rpcEventAt_quiet (url : string) (e : Event) : rpcEventAt url e -> quiet e.
Proof.
  intros [He|(req & -> & _)]; [now apply authEvent_quiet|].
  repeat split.
Qed.

Lemma Adds_mcpRpc_at mcpUrl method params isNotification :
  Adds (rpcEventAt mcpUrl) (mcpRpc E mcpUrl method params isNotification).
Proof.
  unfold mcpRpc. effects;
    first [ eapply Adds_mono; [|apply Adds_getMCPAuthHeaders]; intros e He; now left
          | apply Adds_fetch; right; eexists; split; reflexivity
          | apply Adds_parseMcpResponse ].
Qed.

Lemma Adds_mcpCallTool_at mcpUrl toolName args :
  Adds (rpcEventAt mcpUrl) (mcpCallTool E mcpUrl toolName args).
Proof.
  unfold mcpCallTool, ensureSession, mcpInitialize. effects; apply Adds_mcpRpc_at.
Qed.

(** A tool of a server that speaks the MCP protocol: once the auth mode
    has been read (for the log line), [callMCPTool] is [mcpCallTool] at
    the server's URL. *)
Lemma callMCPTool_mcp_world toolName args (w : World) :
  remoteServer E w toolName ->
  serverProtocol w !! serverUrlFor E w toolName = Some proto_mcp ->
  snd (callMCPTool E toolName args w)
  = snd (mcpCallTool E (serverUrlFor E w toolName)
           (normalizeToolName (currentSession w) toolName) args
           (snd (getMCPAuthMode E w))).
Proof.
  intros (Ht & Hl & Hs) Hp.
  pose proof (same_getMCPAuthMode E w) as Hsame.
  destruct (Total_getMCPAuthMode E w) as (mode & w1 & Hm).
  rewrite Hm in *. cbn [snd] in *.
  assert (Hproto : serverProtocol w1 = serverProtocol w).
  { unfold sameProtocolState, protocolState in Hsame. now injection Hsame. }
  unfold callMCPTool, tryCatch, callMCPToolBody.
  unfold bind at 1. unfold gets at 1. cbv beta iota zeta.
  unfold bind at 1. unfold gets at 1. cbv beta iota zeta.
  fold (serverUrlFor E w toolName). rewrite Ht, Hl, Hs. cbn [negb orb].
  unfold bind at 1. rewrite Hm. cbv beta iota.
  unfold bind at 1. unfold gets at 1. cbv beta iota.
  rewrite Hproto, Hp.
  now destruct (mcpCallTool E _ _ args w1) as [[r|e] w2].
Qed.

(** X25. A tool of a remote server that was discovered over the MCP
    protocol is called over that protocol: every request of
    [callMCPTool] is a JSON-RPC request to the server's URL, or a token
    refresh request, which [getMCPAuthHeaders] sends before a JSON-RPC
    request when a cached token has expired. There is no REST POST, no
    retry and no refresh because of a 401. When the server has issued a
    session id, the JSON-RPC requests of the call are a single
    "tools/call" request that carries the normalized tool name, the
    arguments, the next request id and the session id. *)
Theorem callMCPTool_over_mcp (toolName : string) (args : JValue) (w : World) :
  remoteServer E w toolName ->
  serverProtocol w !! serverUrlFor E w toolName = Some proto_mcp ->
  let url := serverUrlFor E w toolName in
  let evs := newEvents (callMCPTool E toolName args) w in
  Forall (rpcEventAt url) evs
  /\ (forall site req, In (EvFetch site req) evs ->
                       (site = site_rpc /\ req_url req = url) \/ site = site_refresh)
  /\ callPosts evs = []
  /\ retries evs = 0%nat
  /\ refreshesOn401 evs = 0%nat
  /\ (optTruthy (mcpSessions w !! url) = true ->
      exists authHeaders,
        rpcRequests evs
        = [rpcRequest url "tools/call" (Some (callBody E w toolName args))
             (Some (rpcId w)) authHeaders (mcpSessions w !! url)]).
Proof.
  intros Hr Hp url evs.
  set (n := normalizeToolName (currentSession w) toolName).
  destruct (Adds_getMCPAuthMode E authEvent w) as (pre & Hpre & Hauth).
  pose proof (same_getMCPAuthMode E w) as Hsame.
  set (w1 := snd (getMCPAuthMode E w)) in *.
  destruct (Adds_mcpCallTool_at url n args w1) as (post & Hpost & Hat).
  assert (Hevs : evs = (pre ++ post)%list).
  { apply newEvents_eq. rewrite (callMCPTool_mcp_world toolName args w Hr Hp).
    fold w1 n url. now rewrite Hpost, Hpre, app_assoc. }
  assert (Hall : Forall (rpcEventAt url) evs).
  { rewrite Hevs. apply Forall_app. split; [|exact Hat].
    eapply List.Forall_impl; [|exact Hauth]. intros e He. now left. }
  assert (Hq : Forall quiet evs).
  { eapply List.Forall_impl; [apply (rpcEventAt_quiet url) | exact Hall]. }
  destruct (quiet_counts evs Hq) as (Hretry & Hrefresh & _).
  split; [exact Hall|].
  split.
  { intros site req Hin. rewrite List.Forall_forall in Hall.
    destruct (Hall _ Hin) as [[Hnoise|Heq]|(req' & Heq & Hurl)].
    - destruct site; try contradiction. now right.
    - discriminate.
    - injection Heq as -> ->. now left. }
  split; [now apply callPosts_quiet|].
  split; [exact Hretry|]. split; [exact Hrefresh|].
  intros Hsess.
  assert (Hst : mcpSessions w1 = mcpSessions w /\ rpcId w1 = rpcId w).
  { unfold sameProtocolState, protocolState in Hsame. now injection Hsame. }
  destruct Hst as [Hms Hid].
  destruct (mcpRpc_run E url "tools/call"
              (Some (JObj [("name", JStr n); ("arguments", args)])) false w1)
    as (authHeaders & w2 & evsA & _ & _ & Ht2 & HevsA & Hrun).
  cbv zeta iota in Hrun. rewrite Hms, Hid in Hrun.
  exists authHeaders.
  set (req := rpcRequest url "tools/call"
                (Some (JObj [("name", JStr n); ("arguments", args)]))
                (Some (rpcId w)) authHeaders (mcpSessions w !! url)) in *.
  assert (Htr : trace (snd (mcpCallTool E url n args w1))
                = trace w1 ++ evsA ++ [EvFetch site_rpc req]).
  { unfold mcpCallTool. unfold bind at 1.
    assert (Hens : ensureSession E url w1 = (Ok tt, w1)).
    { unfold ensureSession, bind, gets. now rewrite Hms, Hsess. }
    rewrite Hens. unfold bind at 1. rewrite Hrun.
    assert (Hrec : forall res w0, trace (recordSession url res w0) = trace w0).
    { intros res w0. unfold recordSession.
      destruct (optTruthy (mcpSessionId res)); reflexivity. }
    destruct (net E (trace w2) req) as [message|res].
    - cbn. now rewrite Ht2, app_assoc.
    - destruct (rpcOutcome E "tools/call" res) as [result|message].
      + destruct (JS.truthy (JS.optGet result "content"));
          [|destruct result]; cbn [ret snd]; rewrite Hrec; cbn;
          now rewrite Ht2, app_assoc.
      + cbn [snd]. rewrite Hrec. cbn. now rewrite Ht2, app_assoc. }
  rewrite Hpost in Htr. apply app_inv_head in Htr.
  rewrite Hevs, Htr, !rpcRequests_app, (rpcRequests_auth pre Hauth),
    (rpcRequests_auth evsA HevsA).
  reflexivity.
Qed.

Lemma callPosts_none (evs : list Event) : Forall notPost evs -> callPosts evs = [].
Proof.
  induction 1 as [|e evs He _ IH]; [reflexivity|].
  unfold callPosts in *. cbn [omap list_omap]. rewrite IH.
  destruct e as [[] ?| | | |]; try reflexivity; discriminate.
Qed.

Lemma quiet_notPost (e : Event) : quiet e -> notPost e.
Proof. now intros (_ & _ & H). Qed.

Lemma authNoise_notPost (e : Event) : authNoise e -> notPost e.
Proof. intros H. now apply quiet_notPost, authNoise_quiet. Qed.

Lemma authEvent_notPost (e : Event) : authEvent e -> notPost e.
Proof. intros H. now apply quiet_notPost, authEvent_quiet. Qed.

Ltac posts :=
  rewrite ?callPosts_app;
  repeat match goal with
         | H : Forall notPost _ |- _ => rewrite ?(callPosts_none _ H); clear H
         | H : callPosts _ = _ |- _ => rewrite H; clear H
         end;
  reflexivity.

(** The first POSTs of the call loop: the call paths in their order, up
    to the one the loop stops at, each with the headers and the body the
    loop was given; what a 401 triggers adds none. *)
Lemma callLoop_posts callUrls headers body response (w : World) :
  exists evs k,
    trace (snd (callLoop E callUrls headers body response w)) = trace w ++ evs
    /\ callPosts evs = map (restPost headers body) (take k callUrls)
    /\ (callUrls <> [] -> (1 <= k)%nat).
Proof.
  revert response w. induction callUrls as [|url more IH]; intros response w.
  - exists [], 0%nat. simpl. rewrite app_nil_r. now repeat split.
  - cbn [callLoop]. unfold bind at 1.
    match goal with |- context [fetch E site_call ?q w] => set (req := q) end.
    pose proof (fetch_trace E site_call req w) as Ht1.
    destruct (fetch E site_call req w) as [[res|e] w1]; cbn [snd] in Ht1.
    2:{ exists [EvFetch site_call req], 1%nat.
        split; [cbn [snd]; exact Ht1 | split; [reflexivity | lia]]. }
    destruct (ok res).
    { exists [EvFetch site_call req], 1%nat.
      split; [cbn [snd]; exact Ht1 | split; [reflexivity | lia]]. }
    assert (Hnext : forall wk mid r,
               trace wk = trace w1 ++ mid -> Forall notPost mid ->
               exists evs k,
                 trace (snd (callLoop E more headers body r wk)) = trace w ++ evs
                 /\ callPosts evs = map (restPost headers body) (take k (url :: more))
                 /\ (url :: more <> [] -> (1 <= k)%nat)).
    { intros wk mid r Hk Hq. destruct (IH r wk) as (evs & k & Ht & Hp & _).
      exists ([EvFetch site_call req] ++ mid ++ evs), (S k).
      cbn [snd]; rewrite Ht, Hk, Ht1, <- !app_assoc.
      split; [reflexivity | split; [posts | lia]]. }
    destruct (status res =? 401).
    2:{ apply (Hnext w1 []); [now rewrite app_nil_r | constructor]. }
    unfold bind at 1. unfold gets at 1. cbv beta iota.
    destruct (optTruthy (googleRefreshToken w1)).
    + unfold bind at 1.
      destruct (refreshGoogleToken_trace E cause_unauthorized w1) as (noise & Ht2 & Hn).
      assert (Hq : Forall notPost noise)
        by (eapply List.Forall_impl; [apply authNoise_notPost | exact Hn]).
      clear Hn.
      destruct (refreshGoogleToken E cause_unauthorized w1) as [[refreshed|e] w2];
        cbn [snd] in Ht2.
      2:{ exists ([EvFetch site_call req] ++ [EvRefreshCall cause_unauthorized] ++ noise),
            1%nat.
          cbn [snd]; rewrite Ht2, Ht1, <- !app_assoc.
          split; [reflexivity | split; [posts | lia]]. }
      destruct refreshed.
      2:{ apply (Hnext w2 ([EvRefreshCall cause_unauthorized] ++ noise)).
          - now rewrite Ht2.
          - apply Forall_app. split; [|exact Hq]. repeat constructor. }
      unfold bind at 1.
      destruct (Adds_getMCPAuthHeaders E None w2) as (hs & Ht3 & Hh).
      assert (Hq' : Forall notPost hs)
        by (eapply List.Forall_impl; [apply authEvent_notPost | exact Hh]).
      clear Hh.
      destruct (getMCPAuthHeaders E None w2) as [[retryHeaders|e] w3]; cbn [snd] in Ht3.
      2:{ exists ([EvFetch site_call req] ++ [EvRefreshCall cause_unauthorized]
                  ++ noise ++ hs), 1%nat.
          cbn [snd]; rewrite Ht3, Ht2, Ht1, <- !app_assoc.
          split; [reflexivity | split; [posts | lia]]. }
      unfold bind at 1.
      match goal with |- context [fetch E site_retry ?q w3] => set (rreq := q) end.
      pose proof (fetch_trace E site_retry rreq w3) as Ht4.
      assert (Hmid : Forall notPost ([EvRefreshCall cause_unauthorized] ++ noise ++ hs
                                   ++ [EvFetch site_retry rreq])).
      { repeat (apply Forall_app; split); try assumption; repeat constructor. }
      assert (Hstop : exists evs k,
                 trace (snd (fetch E site_retry rreq w3)) = trace w ++ evs
                 /\ callPosts evs = map (restPost headers body) (take k (url :: more))
                 /\ (url :: more <> [] -> (1 <= k)%nat)).
      { exists ([EvFetch site_call req] ++ [EvRefreshCall cause_unauthorized] ++ noise
                ++ hs ++ [EvFetch site_retry rreq]), 1%nat.
        cbn [snd]; rewrite Ht4, Ht3, Ht2, Ht1, <- !app_assoc.
        split; [reflexivity | split; [clear Hmid; posts | lia]]. }
      destruct (fetch E site_retry rreq w3) as [[retryRes|e] w4]; cbn [snd] in Ht4, Hstop.
      2:{ exact Hstop. }
      destruct (ok retryRes); [exact Hstop|].
      apply (Hnext w4 ([EvRefreshCall cause_unauthorized] ++ noise ++ hs
                       ++ [EvFetch site_retry rreq])); [|exact Hmid].
      cbn [snd]. now rewrite Ht4, Ht3, Ht2, <- !app_assoc.
    + unfold bind at 1.
      destruct (clearMCPGoogleToken_spec E w1) as (w2 & Hc & Ht2 & _).
      rewrite Hc. unfold bind at 1. unfold emitAuthEvent, emit, modify. cbv beta iota.
      apply (Hnext _ [EvAuth token_cleared; EvAuth needs_relogin]).
      * simpl. now rewrite Ht2, <- app_assoc.
      * repeat constructor.
Qed.

(** What the answer to the first POST of the call loop decides. *)
Lemma callLoop_first url more headers body response (w : World) :
  let req := restPost headers body url in
  let evs := newEvents (callLoop E (url :: more) headers body response) w in
  match net E (trace w) req with
  | FetchError _ => callPosts evs = [req]
  | FetchResponse res =>
      if ok res then callPosts evs = [req]
      else exists k,
          callPosts evs = req :: map (restPost headers body) (take k more)
          /\ (status res <> 401 -> more <> [] -> (1 <= k)%nat)
  end.
Proof.
  intros req evs. subst evs. unfold restPost in req.
  destruct (net E (trace w) req) as [message|res] eqn:Hnet.
  - rewrite (newEvents_eq _ _ [EvFetch site_call req]); [reflexivity|].
    cbn [callLoop]. unfold bind at 1, fetch at 1. fold req. now rewrite Hnet.
  - destruct (ok res) eqn:Hok.
    + rewrite (newEvents_eq _ _ [EvFetch site_call req]); [reflexivity|].
      cbn [callLoop]. unfold bind at 1, fetch at 1. fold req. now rewrite Hnet, Hok.
    + destruct (status res =? 401) eqn:H401.
      * destruct (callLoop_posts (url :: more) headers body response w)
          as (evs & k & Ht & Hp & Hk).
        rewrite (newEvents_eq _ _ _ Ht), Hp.
        destruct k as [|k]; [specialize (Hk ltac:(discriminate)); lia|].
        exists k. split; [reflexivity|]. intros Hs. lia.
      * set (w1 := set_trace (trace w ++ [EvFetch site_call req]) w).
        destruct (callLoop_posts more headers body (Some res) w1)
          as (evs & k & Ht & Hp & Hk).
        exists k. split; [|intros _; exact Hk].
        rewrite (newEvents_eq _ _ ([EvFetch site_call req] ++ evs));
          [rewrite callPosts_app, Hp; reflexivity|].
        cbn [callLoop]. unfold bind at 1, fetch at 1. fold req.
        rewrite Hnet, Hok, H401. fold w1. rewrite Ht. subst w1. cbn.
        now rewrite <- app_assoc.
Qed.

Lemma Adds_callLoop_notRpc callUrls headers body response :
  Adds notRpc (callLoop E callUrls headers body response).
Proof.
  assert (Hauth : forall e, authEvent e -> notRpc e).
  { intros e [He| ->]; [|exact I]. now destruct e as [[]| | | |]. }
  revert response. induction callUrls as [|url more IH]; intros response; simpl.
  - apply Adds_ret.
  - effects;
      first [ apply IH | apply Adds_fetch; exact I
            | apply Adds_refreshGoogleToken;
              [intros e He; apply Hauth; now left | exact I]
            | eapply Adds_mono; [exact Hauth | apply Adds_getMCPAuthHeaders]
            | apply Adds_clearMCPGoogleToken; exact I
            | apply Adds_emit; exact I ].
Qed.

Lemma rpcRequests_none (evs : list Event) : Forall notRpc evs -> rpcRequests evs = [].
Proof.
  induction 1 as [|e evs He _ IH]; [reflexivity|].
  unfold rpcRequests in *. cbn [omap list_omap]. rewrite IH.
  destruct e as [[] ?| | | |]; try reflexivity; destruct He.
Qed.

(** A tool of a server that does not speak the MCP protocol: the events
    of [callMCPTool] are those of computing the headers and of the call
    loop over the two call paths. *)
Lemma callMCPTool_rest_events toolName args (w : World) :
  remoteServer E w toolName ->
  serverProtocol w !! serverUrlFor E w toolName <> Some proto_mcp ->
  exists headers w2 pre evs,
    getMCPAuthHeaders E (Some (serverUrlFor E w toolName)) (snd (getMCPAuthMode E w))
    = (Ok headers, w2)
    /\ trace w2 = trace w ++ pre
    /\ Forall authEvent pre
    /\ evs = newEvents (callLoop E [restBaseFor E w toolName +:+ "/api/call";
                                    restBaseFor E w toolName +:+ "/call"]
                          headers (callBody E w toolName args) None) w2
    /\ newEvents (callMCPTool E toolName args) w = (pre ++ evs)%list.
Proof.
  intros (Ht & Hl & Hs) Hp.
  pose proof (same_getMCPAuthMode E w) as Hsame.
  destruct (Adds_getMCPAuthMode E authEvent w) as (pre & Hpre & Hauth).
  destruct (Total_getMCPAuthMode E w) as (mode & w1 & Hm).
  rewrite Hm in *. cbn [snd] in *.
  assert (Hproto : serverProtocol w1 = serverProtocol w).
  { unfold sameProtocolState, protocolState in Hsame. now injection Hsame. }
  destruct (Total_getMCPAuthHeaders E (Some (serverUrlFor E w toolName)) w1)
    as (headers & w2 & Hh).
  destruct (Adds_getMCPAuthHeaders E (Some (serverUrlFor E w toolName)) w1)
    as (hs & Hhs & Hauth').
  rewrite Hh in Hhs. cbn [snd] in Hhs.
  exists headers, w2, (pre ++ hs)%list. eexists.
  split; [exact Hh|]. split; [now rewrite Hhs, Hpre, app_assoc|].
  split; [apply Forall_app; now split|]. split; [reflexivity|].
  set (urls := [restBaseFor E w toolName +:+ "/api/call";
                restBaseFor E w toolName +:+ "/call"]).
  destruct (Adds_callLoop E urls headers (callBody E w toolName args) None w2)
    as (evs & Hevs & _).
  rewrite (newEvents_eq _ _ _ Hevs).
  apply newEvents_eq.
  unfold callMCPTool, tryCatch, callMCPToolBody.
  unfold bind at 1. unfold gets at 1. cbv beta iota zeta.
  unfold bind at 1. unfold gets at 1. cbv beta iota zeta.
  fold (serverUrlFor E w toolName). rewrite Ht, Hl, Hs. cbn [negb orb].
  unfold bind at 1. rewrite Hm. cbv beta iota.
  unfold bind at 1. unfold gets at 1. cbv beta iota.
  rewrite Hproto.
  assert (Hrest :
    trace (snd (match (let* headers := getMCPAuthHeaders E (Some (serverUrlFor E w toolName)) in
                       let* response :=
                         callLoop E urls headers (callBody E w toolName args) None in
                       decodeCallResponse E (normalizeToolName (currentSession w) toolName)
                         response) w1 with
                | (Ok a, w') => (Ok a, w')
                | (Throw message, w') =>
                    ret (errorResult ("Error calling " +:+ toolName +:+ ": " +:+ message)) w'
                end))
    = trace w ++ (pre ++ hs) ++ evs).
  { unfold bind at 1. rewrite Hh. unfold bind at 1.
    destruct (callLoop E urls headers (callBody E w toolName args) None w2)
      as [[response|e] w3]; cbn [snd] in Hevs.
    2:{ cbn. now rewrite Hevs, Hhs, Hpre, <- !app_assoc. }
    destruct (Adds_decodeCallResponse E (fun _ => False)
                (normalizeToolName (currentSession w) toolName) response w3)
      as (ds & Hd & Hnone).
    destruct ds as [|d ds]; [|now inversion Hnone].
    rewrite app_nil_r in Hd.
    destruct (decodeCallResponse E _ response w3) as [[r|e] w4]; cbn [snd] in Hd |- *;
      cbn; now rewrite Hd, Hevs, Hhs, Hpre, <- !app_assoc. }
  destruct (serverProtocol w !! serverUrlFor E w toolName) as [[]|];
    [exact Hrest | congruence | exact Hrest].
Qed.

(** X26. A tool of a remote server that was not discovered over the MCP
    protocol is called over REST: no JSON-RPC request is sent, and the
    first POSTs go to "/api/call" and then, at most once, to "/call" of
    the server's URL without its "/mcp" suffix, both with the headers
    computed before the first POST and the same body. A 2xx answer at
    "/api/call" ends the call there, and so does a network failure: only
    an HTTP error is followed by "/call", always so when it is not a
    401. *)
Theorem callMCPTool_rest_paths (toolName : string) (args : JValue) (w : World) :
  remoteServer E w toolName ->
  serverProtocol w !! serverUrlFor E w toolName <> Some proto_mcp ->
  exists headers w2,
    getMCPAuthHeaders E (Some (serverUrlFor E w toolName)) (snd (getMCPAuthMode E w))
    = (Ok headers, w2)
    /\ let post path := restPost headers (callBody E w toolName args)
                          (restBaseFor E w toolName +:+ path) in
       let evs := newEvents (callMCPTool E toolName args) w in
       rpcRequests evs = []
       /\ (callPosts evs = [post "/api/call"]
           \/ callPosts evs = [post "/api/call"; post "/call"])
       /\ match net E (trace w2) (post "/api/call") with
          | FetchError _ => callPosts evs = [post "/api/call"]
          | FetchResponse res =>
              if ok res then callPosts evs = [post "/api/call"]
              else status res <> 401 ->
                   callPosts evs = [post "/api/call"; post "/call"]
          end.
Proof.
  intros Hr Hp.
  destruct (callMCPTool_rest_events toolName args w Hr Hp)
    as (headers & w2 & pre & evs & Hh & Hpre & Hauth & Hevs & Hnew).
  exists headers, w2. split; [exact Hh|]. cbv zeta. rewrite Hnew.
  rewrite rpcRequests_app, callPosts_app, (rpcRequests_auth pre Hauth).
  assert (Hnone : callPosts pre = []).
  { apply callPosts_none. eapply List.Forall_impl; [apply authEvent_notPost | exact Hauth]. }
  rewrite Hnone. cbn [app].
  pose proof (callLoop_first (restBaseFor E w toolName +:+ "/api/call")
                [restBaseFor E w toolName +:+ "/call"] headers
                (callBody E w toolName args) None w2) as Hfirst.
  cbv zeta in Hfirst. rewrite <- Hevs in Hfirst.
  assert (Htake : forall k,
             map (restPost headers (callBody E w toolName args))
               (take k [restBaseFor E w toolName +:+ "/call"]) = []
             \/ map (restPost headers (callBody E w toolName args))
                  (take k [restBaseFor E w toolName +:+ "/call"])
                = [restPost headers (callBody E w toolName args)
                     (restBaseFor E w toolName +:+ "/call")]).
  { intros [|[|k]]; [now left | now right | now right]. }
  split; [|split].
  - subst evs. apply rpcRequests_none.
    destruct (Adds_callLoop_notRpc
                [restBaseFor E w toolName +:+ "/api/call";
                 restBaseFor E w toolName +:+ "/call"]
                headers (callBody E w toolName args) None w2) as (evs & Ht & Hn).
    now rewrite (newEvents_eq _ _ _ Ht).
  - destruct (net E (trace w2) _) as [message|res]; [now left|].
    destruct (ok res); [now left|].
    destruct Hfirst as (k & Hk & _). rewrite Hk.
    destruct (Htake k) as [-> | ->]; [now left | now right].
  - destruct (net E (trace w2) _) as [message|res]; [exact Hfirst|].
    destruct (ok res); [exact Hfirst|].
    intros H401. destruct Hfirst as (k & Hk & Hone). rewrite Hk.
    specialize (Hone H401 ltac:(discriminate)).
    destruct k as [|[|k]]; [lia | reflexivity | reflexivity].
Qed.

(** *** The 401 handling of the REST path *)

Lemma authNoise_counts (evs : list Event) :
  Forall authNoise evs ->
  refreshCalls evs = 0%nat /\ retries evs = 0%nat /\ refreshesOn401 evs = 0%nat
  /\ firstPosts evs = 0%nat.
Proof.
  intros H. unfold refreshCalls, retries, refreshesOn401, firstPosts.
  repeat split; apply (countEvents_none _ authNoise); auto;
    now intros [[]| | | |].
Qed.

(** How a call of [refreshGoogleToken] runs: it never throws, and after
    its own entry come only auth events and at most one refresh
    request. *)
Lemma refreshGoogleToken_run cause (w : World) :
  exists b w' noise,
    refreshGoogleToken E cause w = (Ok b, w')
    /\ trace w' = trace w ++ EvRefreshCall cause :: noise
    /\ Forall authNoise noise
    /\ (refreshPosts noise <= 1)%nat.
Proof.
  destruct (refreshGoogleToken_spec E cause w) as (b & w' & Hr & Ho).
  pose proof Ho as (noise & Ht & _).
  destruct (refreshOutcome_counts _ _ _ _ _ Ht Ho) as (Hn & Hf & _).
  exists b, w', noise. auto.
Qed.

(** [getMCPAuthHeaders] calls [refreshGoogleToken] at most once, so it
    issues at most one refresh request. *)
Lemma getMCPAuthHeaders_refreshes mcpUrl (w : World) :
  exists evs,
    trace (snd (getMCPAuthHeaders E mcpUrl w)) = trace w ++ evs
    /\ Forall authEvent evs
    /\ (refreshCalls evs <= 1)%nat
    /\ (refreshPosts evs <= 1)%nat.
Proof.
  assert (Hnil : exists evs : list Event,
             trace w = trace w ++ evs /\ Forall authEvent evs
             /\ (refreshCalls evs <= 1)%nat /\ (refreshPosts evs <= 1)%nat).
  { exists []. rewrite app_nil_r. repeat split; [constructor | cbv; lia | cbv; lia]. }
  unfold getMCPAuthHeaders. destruct (usesStaticKey E mcpUrl); [exact Hnil|].
  unfold bind at 1. unfold gets at 1. cbv beta iota.
  destruct (optTruthy (googleAccessToken w)); [|exact Hnil].
  unfold bind at 1. unfold gets at 1. cbv beta iota.
  unfold bind at 1. unfold dateNow at 1. cbv beta iota zeta.
  set (w1 := set_ticks (S (ticks w)) w).
  assert (Htail : forall w2 : World,
             trace (snd ((let* at' := gets googleAccessToken in
                          if optTruthy at' then
                            let* exp' := gets googleTokenExpiry in
                            let* now' := dateNow E in
                            if JS.gtb exp' now'
                            then ret (<["Authorization" := "Bearer " +:+ default "" at']>
                                        jsonHeaders)
                            else ret jsonHeaders
                          else ret jsonHeaders) w2))
             = trace w2).
  { intros w2. unfold bind, gets, dateNow, ret.
    destruct (optTruthy (googleAccessToken w2)); [|reflexivity]. cbv beta iota zeta.
    now destruct (JS.gtb _ _). }
  unfold bind at 1.
  destruct (JS.leb (googleTokenExpiry w) (Num (clock E (ticks w)))).
  - unfold bind at 1.
    destruct (refreshGoogleToken_run cause_expired w1) as (b & w2 & noise & Hr & Ht & Hn & Hp).
    rewrite Hr. unfold ret at 1. cbv beta iota. rewrite Htail, Ht.
    destruct (authNoise_counts noise Hn) as (Hc & _).
    exists (EvRefreshCall cause_expired :: noise). split; [reflexivity|].
    split; [constructor; [now right|]; eapply List.Forall_impl; [|exact Hn]; now left|].
    unfold refreshCalls, refreshPosts in *. rewrite !countEvents_cons. cbn. lia.
  - unfold ret at 1. cbv beta iota. rewrite Htail. exact Hnil.
Qed.

(** One call path. The POST goes out first. A transport error is thrown;
    a 2xx answer, and an error answer other than 401, end the path with
    that answer. A 401 answer triggers a refresh when a refresh token is
    cached: [refreshGoogleToken] is called, and when it returns [true]
    the headers are computed again and the POST is repeated once, with
    these headers, at the same path; the answer to the retried POST then
    ends the path. When the refresh fails the path ends with the 401
    answer and there is no retry. Without a refresh token the credential
    is cleared and "needs_relogin" is signalled. *)
Lemma callLoop_path url headers body response (w0 : World) :
  let req := restPost headers body url in
  let w1 := set_trace (trace w0 ++ [EvFetch site_call req]) w0 in
  match net E (trace w0) req with
  | FetchError message =>
      callLoop E [url] headers body response w0 = (Throw message, w1)
  | FetchResponse res =>
      if ok res || negb (status res =? 401) then
        callLoop E [url] headers body response w0 = (Ok (Some res), w1)
      else if optTruthy (googleRefreshToken w0) then
        exists b w2 noise,
          refreshGoogleToken E cause_unauthorized w1 = (Ok b, w2)
          /\ trace w2 = trace w1 ++ EvRefreshCall cause_unauthorized :: noise
          /\ Forall authNoise noise
          /\ (refreshPosts noise <= 1)%nat
          /\ if b then
               exists retryHeaders w3 hs,
                 getMCPAuthHeaders E None w2 = (Ok retryHeaders, w3)
                 /\ trace w3 = trace w2 ++ hs
                 /\ Forall authEvent hs
                 /\ (refreshCalls hs <= 1)%nat
                 /\ (refreshPosts hs <= 1)%nat
                 /\ let rreq := restPost retryHeaders body url in
                    let w4 := set_trace (trace w3 ++ [EvFetch site_retry rreq]) w3 in
                    callLoop E [url] headers body response w0
                    = match net E (trace w3) rreq with
                      | FetchError message => (Throw message, w4)
                      | FetchResponse retryRes => (Ok (Some retryRes), w4)
                      end
             else callLoop E [url] headers body response w0 = (Ok (Some res), w2)
      else
        exists w2,
          clearMCPGoogleToken E w1 = (Ok tt, w2)
          /\ trace w2 = trace w1 ++ [EvAuth token_cleared]
          /\ callLoop E [url] headers body response w0
             = (Ok (Some res), set_trace (trace w2 ++ [EvAuth needs_relogin]) w2)
  end.
Proof.
  intros req w1. unfold restPost in req.
  remember (callLoop E [url] headers body response w0) as run eqn:Hrun.
  cbn [callLoop] in Hrun. unfold bind at 1 in Hrun. unfold fetch at 1 in Hrun.
  fold req in Hrun. cbv zeta in Hrun. fold w1 in Hrun.
  destruct (net E (trace w0) req) as [message|res]; [exact Hrun|]. cbv beta iota in Hrun.
  destruct (ok res); cbn [orb]; [exact Hrun|].
  destruct (status res =? 401); cbn [negb]; [|exact Hrun].
  unfold bind at 1 in Hrun. unfold gets at 1 in Hrun. cbv beta iota in Hrun.
  change (googleRefreshToken w1) with (googleRefreshToken w0) in Hrun.
  destruct (optTruthy (googleRefreshToken w0)).
  - unfold bind at 1 in Hrun.
    destruct (refreshGoogleToken_run cause_unauthorized w1)
      as (b & w2 & noise & Hr & Ht & Hn & Hp).
    rewrite Hr in Hrun. exists b, w2, noise.
    split; [exact Hr|]. split; [exact Ht|]. split; [exact Hn|]. split; [exact Hp|].
    destruct b; [|exact Hrun].
    unfold bind at 1 in Hrun.
    destruct (Total_getMCPAuthHeaders E None w2) as (retryHeaders & w3 & Hh).
    destruct (getMCPAuthHeaders_refreshes None w2) as (hs & Hhs & Hauth & Hc1 & Hc2).
    rewrite Hh in Hhs. cbn [snd] in Hhs.
    rewrite Hh in Hrun. exists retryHeaders, w3, hs.
    split; [exact Hh|]. split; [exact Hhs|]. split; [exact Hauth|].
    split; [exact Hc1|]. split; [exact Hc2|].
    cbv zeta. unfold bind at 1, fetch at 1 in Hrun. unfold restPost.
    destruct (net E (trace w3) _) as [message|retryRes]; [exact Hrun|].
    cbv beta iota zeta in Hrun. now destruct (ok retryRes).
  - unfold bind at 1 in Hrun. destruct (clearMCPGoogleToken_spec E w1) as (w2 & Hc & Ht2 & _).
    rewrite Hc in Hrun. exists w2. split; [exact Hc|]. split; [exact Ht2|]. exact Hrun.
Qed.

(** The call paths are tried in turn. A path ends with an exception,
    which ends the loop, or with a response; a 2xx response ends the
    loop, any other is followed by the next path, from the world the
    path left and with the headers and the body the loop was given. *)
Lemma callLoop_in_turn url more headers body response (w0 : World) :
  match callLoop E [url] headers body response w0 with
  | (Throw e, w1) => callLoop E (url :: more) headers body response w0 = (Throw e, w1)
  | (Ok last, w1) =>
      exists res,
        last = Some res
        /\ callLoop E (url :: more) headers body response w0
           = if ok res then (Ok (Some res), w1)
             else callLoop E more headers body (Some res) w1
  end.
Proof.
  remember (callLoop E (url :: more) headers body response w0) as all eqn:Hall.
  remember (callLoop E [url] headers body response w0) as one eqn:Hone.
  cbn [callLoop] in Hall, Hone.
  unfold bind at 1 in Hall. unfold bind at 1 in Hone.
  destruct (fetch E site_call _ w0) as [[res|e] w1]; [|now subst].
  destruct (ok res) eqn:Hok.
  { subst one. exists res. rewrite Hok. now split. }
  destruct (status res =? 401).
  2:{ subst one. exists res. rewrite Hok. now split. }
  unfold bind at 1 in Hall. unfold bind at 1 in Hone.
  unfold gets at 1 in Hall. unfold gets at 1 in Hone. cbv beta iota in Hall, Hone.
  destruct (optTruthy (googleRefreshToken w1)).
  - unfold bind at 1 in Hall. unfold bind at 1 in Hone.
    destruct (refreshGoogleToken E cause_unauthorized w1) as [[b|e] w2]; [|now subst].
    destruct b.
    + unfold bind at 1 in Hall. unfold bind at 1 in Hone.
      destruct (getMCPAuthHeaders E None w2) as [[retryHeaders|e] w3]; [|now subst].
      unfold bind at 1 in Hall. unfold bind at 1 in Hone.
      destruct (fetch E site_retry _ w3) as [[retryRes|e] w4]; [|now subst].
      destruct (ok retryRes) eqn:Hok4; subst one; exists retryRes; rewrite Hok4;
        now split.
    + subst one. exists res. rewrite Hok. now split.
  - unfold bind at 1 in Hall. unfold bind at 1 in Hone.
    destruct (clearMCPGoogleToken E w1) as [[[]|e] w2]; [|now subst].
    unfold bind at 1 in Hall. unfold bind at 1 in Hone.
    unfold emitAuthEvent, emit, modify in Hall, Hone. cbv beta iota in Hall, Hone.
    subst one. exists res. rewrite Hok. now split.
Qed.

(** The events of one call path: the first POST, then what a 401 answer
    triggers - one refresh exactly when the answer is a 401 and a
    refresh token is cached, at most one retried POST after it, and at
    most two calls of [refreshGoogleToken] and two refresh requests in
    all (the second of each when the headers of the retried POST are
    computed and the refreshed token has expired already). *)
Lemma callLoop_path_events url headers body response (w0 : World) :
  let req := restPost headers body url in
  exists rest,
    trace (snd (callLoop E [url] headers body response w0))
    = trace w0 ++ EvFetch site_call req :: rest
    /\ firstPosts rest = 0%nat
    /\ (retries rest <= refreshesOn401 rest)%nat
    /\ refreshesOn401 rest
       = match net E (trace w0) req with
         | FetchError _ => 0%nat
         | FetchResponse res =>
             if negb (ok res) && (status res =? 401) && optTruthy (googleRefreshToken w0)
             then 1%nat else 0%nat
         end
    /\ (refreshCalls rest <= 2)%nat
    /\ (refreshPosts rest <= 2)%nat.
Proof.
  intros req. pose proof (callLoop_path url headers body response w0) as Hpath.
  cbv zeta in Hpath. fold req in Hpath.
  set (w1 := set_trace (trace w0 ++ [EvFetch site_call req]) w0) in *.
  assert (Hnil : forall r : Result (option Response),
             exists rest,
               trace (snd (r, w1)) = trace w0 ++ EvFetch site_call req :: rest
               /\ firstPosts rest = 0%nat
               /\ (retries rest <= refreshesOn401 rest)%nat
               /\ refreshesOn401 rest = 0%nat
               /\ (refreshCalls rest <= 2)%nat
               /\ (refreshPosts rest <= 2)%nat).
  { intros r. exists []. cbn. repeat split; lia. }
  destruct (net E (trace w0) req) as [message|res]; [rewrite Hpath; apply Hnil|].
  destruct (ok res); cbn [orb negb andb] in *; [rewrite Hpath; apply Hnil|].
  destruct (status res =? 401); cbn [orb negb andb] in *; [|rewrite Hpath; apply Hnil].
  destruct (optTruthy (googleRefreshToken w0)).
  - destruct Hpath as (b & w2 & noise & _ & Ht & Hn & Hp & Hrun).
    destruct (authNoise_counts noise Hn) as (Hn1 & Hn2 & Hn3 & Hn4).
    unfold refreshCalls, refreshPosts, retries, refreshesOn401, firstPosts in *.
    destruct b.
    + destruct Hrun as (retryHeaders & w3 & hs & _ & Hhs & Hauth & Hc1 & Hc2 & Hrun).
      cbv zeta in Hrun.
      assert (Hq : Forall quiet hs)
        by (eapply List.Forall_impl; [apply authEvent_quiet | exact Hauth]).
      destruct (quiet_counts hs Hq) as (Hq1 & Hq2 & Hq3).
      unfold retries, refreshesOn401, firstPosts in *.
      exists (EvRefreshCall cause_unauthorized :: noise ++ hs
              ++ [EvFetch site_retry (restPost retryHeaders body url)]).
      split.
      { rewrite Hrun.
        destruct (net E (trace w3) _); cbn [snd trace set_trace];
          rewrite Hhs, Ht; unfold w1; cbn [trace set_trace];
          now rewrite <- !app_assoc. }
      rewrite !countEvents_cons, !countEvents_app. cbn. lia.
    + exists (EvRefreshCall cause_unauthorized :: noise). split.
      { rewrite Hrun. cbn [snd]. rewrite Ht. unfold w1. cbn [trace set_trace].
        now rewrite <- !app_assoc. }
      rewrite !countEvents_cons. cbn. lia.
  - destruct Hpath as (w2 & _ & Ht2 & Hrun).
    exists [EvAuth token_cleared; EvAuth needs_relogin]. split.
    { rewrite Hrun. cbn [snd trace set_trace]. rewrite Ht2. unfold w1.
      cbn [trace set_trace]. now rewrite <- !app_assoc. }
    cbn. repeat split; lia.
Qed.

(** Over the call loop: at most two calls of [refreshGoogleToken] and
    two refresh requests per call path. *)
Lemma callLoop_refreshes callUrls headers body response (w : World) :
  exists evs,
    trace (snd (callLoop E callUrls headers body response w)) = trace w ++ evs
    /\ (refreshCalls evs <= 2 * length callUrls)%nat
    /\ (refreshPosts evs <= 2 * length callUrls)%nat.
Proof.
  revert response w. induction callUrls as [|url more IH]; intros response w.
  - exists []. cbn. rewrite app_nil_r. repeat split; lia.
  - pose proof (callLoop_in_turn url more headers body response w) as Hturn.
    destruct (callLoop_path_events url headers body response w)
      as (rest & Ht & _ & _ & _ & Hc1 & Hc2).
    cbv zeta in Ht. unfold refreshCalls, refreshPosts in *.
    destruct (callLoop E [url] headers body response w) as [[last|e] w1];
      cbn [snd] in Ht.
    + destruct Hturn as (res & -> & Hall). rewrite Hall. destruct (ok res).
      * eexists. split; [exact Ht|]. rewrite !countEvents_cons. cbn [length]. cbn. lia.
      * destruct (IH (Some res) w1) as (evs & Hevs & He1 & He2).
        exists ((EvFetch site_call (restPost headers body url) :: rest) ++ evs).
        split; [now rewrite Hevs, Ht, <- app_assoc|].
        rewrite !countEvents_app, !countEvents_cons. cbn [length]. cbn. lia.
    + rewrite Hturn. eexists. split; [exact Ht|].
      rewrite !countEvents_cons. cbn [length]. cbn. lia.
Qed.

(** C6, as the code has it. In the REST path the refresh-and-retry
    belongs to a call path, not to the invocation. On a call path the
    POST goes out first; a 401 answer, and only a 401 answer, triggers
    one call of [refreshGoogleToken] when a refresh token is cached, and
    exactly when that call returns [true] the POST is repeated once at
    the same path, with headers computed anew. The two call paths are
    tried in turn: the second is tried whenever the first ended with a
    response that is not 2xx, with the first headers, and has its own
    refresh and retry. Over one invocation there are no more retried
    POSTs than refreshes on a 401, no more of these than first POSTs,
    and at most two first POSTs. Counting every call of
    [refreshGoogleToken], whatever its cause - [getMCPAuthHeaders]
    refreshes an expired token before the first POST and before a
    retried POST - an invocation makes at most five, and sends at most
    five refresh requests. *)
Theorem callMCPTool_retry_per_path (toolName : string) (args : JValue) (w : World) :
  let evs := newEvents (callMCPTool E toolName args) w in
  wellNested 2 evs
  /\ (remoteServer E w toolName ->
      serverProtocol w !! serverUrlFor E w toolName <> Some proto_mcp ->
      (refreshCalls evs <= 5)%nat /\ (refreshPosts evs <= 5)%nat)
  /\ (forall url headers body response w0,
        let req := restPost headers body url in
        let w1 := set_trace (trace w0 ++ [EvFetch site_call req]) w0 in
        let evs1 := newEvents (callLoop E [url] headers body response) w0 in
        wellNested 1 evs1
        /\ (exists rest,
              evs1 = EvFetch site_call req :: rest
              /\ firstPosts rest = 0%nat
              /\ refreshesOn401 rest
                 = match net E (trace w0) req with
                   | FetchError _ => 0%nat
                   | FetchResponse res =>
                       if negb (ok res) && (status res =? 401)
                          && optTruthy (googleRefreshToken w0)
                       then 1%nat else 0%nat
                   end
              /\ (refreshCalls rest <= 2)%nat
              /\ (refreshPosts rest <= 2)%nat)
        /\ match net E (trace w0) req with
           | FetchError message =>
               callLoop E [url] headers body response w0 = (Throw message, w1)
           | FetchResponse res =>
               if ok res || negb (status res =? 401) then
                 callLoop E [url] headers body response w0 = (Ok (Some res), w1)
               else if optTruthy (googleRefreshToken w0) then
                 exists b w2 noise,
                   refreshGoogleToken E cause_unauthorized w1 = (Ok b, w2)
                   /\ trace w2 = trace w1 ++ EvRefreshCall cause_unauthorized :: noise
                   /\ Forall authNoise noise
                   /\ (refreshPosts noise <= 1)%nat
                   /\ if b then
                        exists retryHeaders w3 hs,
                          getMCPAuthHeaders E None w2 = (Ok retryHeaders, w3)
                          /\ trace w3 = trace w2 ++ hs
                          /\ Forall authEvent hs
                          /\ (refreshCalls hs <= 1)%nat
                          /\ (refreshPosts hs <= 1)%nat
                          /\ let rreq := restPost retryHeaders body url in
                             let w4 := set_trace (trace w3 ++ [EvFetch site_retry rreq]) w3 in
                             callLoop E [url] headers body response w0
                             = match net E (trace w3) rreq with
                               | FetchError message => (Throw message, w4)
                               | FetchResponse retryRes => (Ok (Some retryRes), w4)
                               end
                      else callLoop E [url] headers body response w0
                           = (Ok (Some res), w2)
               else
                 exists w2,
                   clearMCPGoogleToken E w1 = (Ok tt, w2)
                   /\ trace w2 = trace w1 ++ [EvAuth token_cleared]
                   /\ callLoop E [url] headers body response w0
                      = (Ok (Some res),
                         set_trace (trace w2 ++ [EvAuth needs_relogin]) w2)
           end)
  /\ (forall url more headers body response w0,
        match callLoop E [url] headers body response w0 with
        | (Throw e, w1) =>
            callLoop E (url :: more) headers body response w0 = (Throw e, w1)
        | (Ok last, w1) =>
            exists res,
              last = Some res
              /\ callLoop E (url :: more) headers body response w0
                 = if ok res then (Ok (Some res), w1)
                   else callLoop E more headers body (Some res) w1
        end).
Proof.
  cbv zeta. split; [|split; [|split]].
  - destruct (callMCPToolBody_tally E toolName args w) as (evs & Ht & Hw).
    assert (Hnew : newEvents (callMCPTool E toolName args) w = evs).
    { apply newEvents_eq. unfold callMCPTool, tryCatch.
      destruct (callMCPToolBody E toolName args w) as [[r|e] w']; exact Ht. }
    now rewrite Hnew.
  - intros Hr Hp.
    destruct (callMCPTool_rest_events toolName args w Hr Hp)
      as (headers & w2 & pre & evs & Hh & Hpre & _ & Hevs & Hnew).
    rewrite Hnew.
    destruct (callLoop_refreshes
                [restBaseFor E w toolName +:+ "/api/call";
                 restBaseFor E w toolName +:+ "/call"]
                headers (callBody E w toolName args) None w2) as (evs' & Ht & Hc1 & Hc2).
    rewrite (newEvents_eq _ _ _ Ht) in Hevs. subst evs'.
    assert (Hpre' : (refreshCalls pre <= 1)%nat /\ (refreshPosts pre <= 1)%nat).
    { destruct (Adds_getMCPAuthMode E (fun _ => False) w) as (none & Hm & Hnone).
      destruct none as [|e none]; [|now inversion Hnone].
      rewrite app_nil_r in Hm.
      destruct (getMCPAuthHeaders_refreshes (Some (serverUrlFor E w toolName))
                  (snd (getMCPAuthMode E w))) as (hs & Hhs & _ & H1 & H2).
      rewrite Hh in Hhs. cbn [snd] in Hhs. rewrite Hm, Hpre in Hhs.
      apply app_inv_head in Hhs. now subst hs. }
    unfold refreshCalls, refreshPosts in *. rewrite !countEvents_app.
    cbn [length] in Hc1, Hc2. lia.
  - intros url headers body response w0. cbv zeta.
    destruct (callLoop_path_events url headers body response w0)
      as (rest & Ht & Hf & Hnest & H401 & Hc1 & Hc2).
    cbv zeta in Ht. rewrite (newEvents_eq _ _ _ Ht).
    split; [|split].
    + assert (Hone : (refreshesOn401 rest <= 1)%nat).
      { rewrite H401. destruct (net E (trace w0) _); [lia|].
        destruct (_ && _); lia. }
      unfold wellNested, retries, refreshesOn401, firstPosts in *.
      rewrite !countEvents_cons. cbn [isFetchAt isRefreshFor]. lia.
    + exists rest. auto.
    + apply callLoop_path.
  - intros url more headers body response w0. apply callLoop_in_turn.
Qed.

(** X27. What a call over the MCP protocol returns when the server has
    issued a session id. A network failure, an HTTP error, an unreadable
    body and a JSON-RPC error all come back as an error result whose
    text is "Error calling", the tool name as the caller gave it, and
    the message; none is thrown. A result with a (truthy) [content]
    field is returned as it is, unexamined, any other result as one text
    item. *)
Theorem callMCPTool_over_mcp_result (toolName : string) (args : JValue) (w : World) :
  remoteServer E w toolName ->
  serverProtocol w !! serverUrlFor E w toolName = Some proto_mcp ->
  optTruthy (mcpSessions w !! serverUrlFor E w toolName) = true ->
  let url := serverUrlFor E w toolName in
  exists authHeaders w2,
    getMCPAuthHeaders E (Some url) (snd (getMCPAuthMode E w)) = (Ok authHeaders, w2)
    /\ let req := rpcRequest url "tools/call" (Some (callBody E w toolName args))
                    (Some (rpcId w)) authHeaders (mcpSessions w !! url) in
       let failed message :=
         errorResult ("Error calling " +:+ toolName +:+ ": " +:+ message) in
       fst (callMCPTool E toolName args w)
       = Ok match net E (trace w2) req with
            | FetchError message => failed message
            | FetchResponse res =>
                match rpcOutcome E "tools/call" res with
                | Throw message => failed message
                | Ok result =>
                    if JS.truthy (JS.optGet result "content") then result
                    else match result with
                         | JStr s => textResult (Some s)
                         | _ => textResult (JSON_stringify_pretty E result)
                         end
                end
            end.
Proof.
  intros (Ht & Hl & Hs) Hp Hsess url. subst url.
  set (url := serverUrlFor E w toolName) in *.
  set (n := normalizeToolName (currentSession w) toolName).
  pose proof (same_getMCPAuthMode E w) as Hsame.
  destruct (Total_getMCPAuthMode E w) as (mode & w1 & Hm).
  rewrite Hm in *. cbn [snd] in *.
  assert (Hst : serverProtocol w1 = serverProtocol w
                /\ mcpSessions w1 = mcpSessions w /\ rpcId w1 = rpcId w).
  { unfold sameProtocolState, protocolState in Hsame. now injection Hsame. }
  destruct Hst as (Hproto & Hms & Hid).
  destruct (mcpRpc_run E url "tools/call"
              (Some (JObj [("name", JStr n); ("arguments", args)])) false w1)
    as (authHeaders & w2 & evsA & Hh & _ & _ & _ & Hrun).
  cbv zeta iota in Hrun. rewrite Hms, Hid in Hrun.
  exists authHeaders, w2. split; [exact Hh|]. cbv zeta.
  unfold callMCPTool, tryCatch, callMCPToolBody.
  unfold bind at 1. unfold gets at 1. cbv beta iota zeta.
  unfold bind at 1. unfold gets at 1. cbv beta iota zeta.
  fold (serverUrlFor E w toolName). fold url n. rewrite Ht, Hl, Hs. cbn [negb orb].
  unfold bind at 1. rewrite Hm. cbv beta iota.
  unfold bind at 1. unfold gets at 1. cbv beta iota.
  rewrite Hproto, Hp.
  unfold mcpCallTool. unfold bind at 1.
  assert (Hens : ensureSession E url w1 = (Ok tt, w1)).
  { unfold ensureSession, bind, gets. now rewrite Hms, Hsess. }
  rewrite Hens. unfold bind at 1. rewrite Hrun. unfold callBody. fold n.
  destruct (net E (trace w2) _) as [message|res]; [reflexivity|].
  destruct (rpcOutcome E "tools/call" res) as [result|message]; [|reflexivity].
  destruct (JS.truthy (JS.optGet result "content")); [reflexivity|].
  now destruct result.
Qed.

End Transports.

(** C6, as stated, fails: when every call is answered 401 and every
    refresh succeeds, one invocation refreshes twice and retries twice,
    once per call path. When the cached token has expired as well,
    [getMCPAuthHeaders] refreshes it before the first POST: the
    invocation sends three refresh requests. *)
Lemma callMCPTool_two_refreshes :
  let evs := newEvents (callMCPTool Sample.unauthorizedEnv "gmail.list_messages"
                          (JObj [])) Sample.validWorld in
  refreshesOn401 evs = 2%nat /\ retries evs = 2%nat
  /\ ~ atMostOneRefreshAndRetry Sample.unauthorizedEnv "gmail.list_messages" (JObj [])
        Sample.validWorld
  /\ refreshPosts (newEvents (callMCPTool Sample.unauthorizedEnv "gmail.list_messages"
                                (JObj [])) Sample.expiredWorld) = 3%nat.
Proof.
  cbv zeta. unfold atMostOneRefreshAndRetry.
  assert (H : refreshesOn401
                (newEvents (callMCPTool Sample.unauthorizedEnv "gmail.list_messages"
                              (JObj [])) Sample.validWorld) = 2%nat)
    by (vm_compute; reflexivity).
  assert (H' : retries
                 (newEvents (callMCPTool Sample.unauthorizedEnv "gmail.list_messages"
                               (JObj [])) Sample.validWorld) = 2%nat)
    by (vm_compute; reflexivity).
  assert (H3 : refreshPosts
                 (newEvents (callMCPTool Sample.unauthorizedEnv "gmail.list_messages"
                               (JObj [])) Sample.expiredWorld) = 3%nat)
    by (vm_compute; reflexivity).
  cbv zeta. rewrite H, H', H3. split; [reflexivity|]. split; [reflexivity|].
  split; [lia | reflexivity].
Qed.


Lemma callMCPTool_over_mcp_witness :
  remoteServer Sample.twoServersEnv SampleCalls.discovered "search_flights"
  /\ let evs := newEvents (callMCPTool Sample.twoServersEnv "search_flights" (JObj []))
                  SampleCalls.discovered in
     Forall (rpcEventAt "https://travel.example/mcp") evs
     /\ (forall site req, In (EvFetch site req) evs ->
                          (site = site_rpc /\ req_url req = "https://travel.example/mcp")
                          \/ site = site_refresh)
     /\ callPosts evs = []
     /\ retries evs = 0%nat
     /\ refreshesOn401 evs = 0%nat
     /\ (optTruthy (mcpSessions SampleCalls.discovered !! "https://travel.example/mcp")
         = true ->
         exists authHeaders,
           rpcRequests evs
           = [rpcRequest "https://travel.example/mcp" "tools/call"
                (Some (JObj [("name", JStr "search_flights"); ("arguments", JObj [])]))
                (Some 1) authHeaders (Some "session-1")]).
Proof.
  assert (Hr : remoteServer Sample.twoServersEnv SampleCalls.discovered "search_flights")
    by (repeat split; reflexivity).
  split; [exact Hr|].
  exact (callMCPTool_over_mcp Sample.twoServersEnv "search_flights" (JObj [])
           SampleCalls.discovered Hr eq_refl).
Defined.

Lemma callMCPTool_rest_paths_witness :
  remoteServer SampleCalls.legacyEnv initialWorld "gmail_list_emails"
  /\ exists headers w2,
      getMCPAuthHeaders SampleCalls.legacyEnv
        (Some (serverUrlFor SampleCalls.legacyEnv initialWorld "gmail_list_emails"))
        (snd (getMCPAuthMode SampleCalls.legacyEnv initialWorld))
      = (Ok headers, w2)
      /\ let post path :=
           restPost headers
             (callBody SampleCalls.legacyEnv initialWorld "gmail_list_emails" (JObj []))
             (restBaseFor SampleCalls.legacyEnv initialWorld "gmail_list_emails" +:+ path) in
         let evs := newEvents (callMCPTool SampleCalls.legacyEnv "gmail_list_emails"
                                 (JObj [])) initialWorld in
         rpcRequests evs = []
         /\ (callPosts evs = [post "/api/call"]
             \/ callPosts evs = [post "/api/call"; post "/call"])
         /\ match net SampleCalls.legacyEnv (trace w2) (post "/api/call") with
            | FetchError _ => callPosts evs = [post "/api/call"]
            | FetchResponse res =>
                if ok res then callPosts evs = [post "/api/call"]
                else status res <> 401 ->
                     callPosts evs = [post "/api/call"; post "/call"]
            end.
Proof.
  split; [repeat split; reflexivity|].
  apply (callMCPTool_rest_paths SampleCalls.legacyEnv "gmail_list_emails" (JObj [])
           initialWorld).
  - repeat split; reflexivity.
  - intros H. vm_compute in H. discriminate.
Defined.

(* ===================================================================== *)
(** ** A turn while the primary model is down *)
(* ===================================================================== *)

Section Outage.

Context (E : Env).


End Outage.


(* ===================================================================== *)
(** ** Tools without a route *)
(* ===================================================================== *)

Section Unrouted.

Context (E : Env).

(** X29. A tool that the routing table does not know (before discovery,
    or a name no server offered) is sent to the Workspace server, the
    only fallback: the travel server is never chosen for it. When no
    Workspace URL is configured the call fails with "No MCP server
    configured" and does nothing else (no clock reading, no request, no
    event), also when a travel server is configured. *)
Theorem callMCPTool_unrouted (toolName : string) (args : JValue) (w : World) :
  toolToServerMap w !! normalizeToolName (currentSession w) toolName = None ->
  serverUrlFor E w toolName = stripSuffix "/" (MCP_GOOGLE_URL E)
  /\ (stripSuffix "/" (MCP_GOOGLE_URL E) = "" ->
      callMCPTool E toolName args w
      = (Ok (errorResult ("No MCP server configured for tool: "
                          +:+ normalizeToolName (currentSession w) toolName
                          +:+ ". Set EXPO_PUBLIC_MCP_SERVER_URL or connect MCP.")), w)).
Proof.
  intros Hroute.
  assert (Hurl : serverUrlFor E w toolName = stripSuffix "/" (MCP_GOOGLE_URL E)).
  { unfold serverUrlFor, resolveBaseUrl, MCP_SERVER_URL. rewrite Hroute. cbn [optTruthy].
    now destruct (MCP_GOOGLE_URL E). }
  split; [exact Hurl|]. intros Hnone.
  unfold callMCPTool, tryCatch, callMCPToolBody.
  unfold bind at 1. unfold gets at 1. cbv beta iota zeta.
  unfold bind at 1. unfold gets at 1. cbv beta iota zeta.
  fold (serverUrlFor E w toolName). rewrite Hurl, Hnone. reflexivity.
Qed.

End Unrouted.

Lemma callMCPTool_unrouted_witness :
  MCP_TRAVEL_URL SampleRpc.statelessEnv = "https://travel.example/mcp"
  /\ serverUrlFor SampleRpc.statelessEnv initialWorld "search_flights" = ""
  /\ callMCPTool SampleRpc.statelessEnv "search_flights" (JObj []) initialWorld
     = (Ok (errorResult ("No MCP server configured for tool: search_flights"
                         +:+ ". Set EXPO_PUBLIC_MCP_SERVER_URL or connect MCP.")),
        initialWorld).
Proof.
  split; [reflexivity|].
  destruct (callMCPTool_unrouted SampleRpc.statelessEnv "search_flights" (JObj [])
              initialWorld eq_refl) as [Hurl Hcall].
  split; [exact Hurl | exact (Hcall eq_refl)].
Defined.

(* ===================================================================== *)
(** ** Reading an event stream *)
(* ===================================================================== *)

Section EventStream.

Context (E : Env).

Lemma firstEnvelope_skips (pre more : list string) :
  Forall (skippedLine E) pre -> firstEnvelope E (pre ++ more) = firstEnvelope E more.
Proof.
  induction 1 as [|line pre Hskip _ IH]; [reflexivity|].
  cbn [app firstEnvelope]. destruct Hskip as [-> | Hparse]; [exact IH|].
  rewrite Hparse. now destruct (startsWith line "data: ").
Qed.

(** X30. A response declared as an event stream is read line by line:
    the envelope is the first line that starts with "data: " and whose
    remainder, trimmed, parses; the lines before it and everything after
    it are ignored. When no line qualifies, also when the body as a whole
    is valid JSON, reading fails with "No valid JSON-RPC message in SSE
    stream". The world is not touched. *)
Theorem parseMcpResponse_event_stream (res : Response) (w : World) :
  includes (default "" (contentType res)) "text/event-stream" = true ->
  (forall pre line post envelope,
      splitOn newline (bodyText res) = (pre ++ line :: post)%list ->
      Forall (skippedLine E) pre ->
      startsWith line "data: " = true ->
      JSON_parse E (trim E (slice 6 line)) = Some envelope ->
      parseMcpResponse E res w = (Ok envelope, w))
  /\ (Forall (skippedLine E) (splitOn newline (bodyText res)) ->
      parseMcpResponse E res w = (Throw "No valid JSON-RPC message in SSE stream", w)).
Proof.
  intros Hct. unfold parseMcpResponse. rewrite Hct. split.
  - intros pre line post envelope Hlines Hpre Hdata Hparse.
    rewrite Hlines, (firstEnvelope_skips pre _ Hpre).
    cbn [firstEnvelope]. now rewrite Hdata, Hparse.
  - intros Hall.
    rewrite <- (app_nil_r (splitOn newline (bodyText res))),
      (firstEnvelope_skips _ [] Hall).
    reflexivity.
Qed.

End EventStream.

Lemma parseMcpResponse_event_stream_witness :
  parseMcpResponse Sample.twoServersEnv
    {| status := 200; statusText := "OK"; contentType := Some "text/event-stream";
       mcpSessionId := None;
       bodyText := "event: message" +:+ String newline "data: {}" |}
    initialWorld
  = (Ok (JObj []), initialWorld).
Proof.
  destruct (parseMcpResponse_event_stream Sample.twoServersEnv
              {| status := 200; statusText := "OK";
                 contentType := Some "text/event-stream"; mcpSessionId := None;
                 bodyText := "event: message" +:+ String newline "data: {}" |}
              initialWorld eq_refl) as [Hfirst _].
  apply (Hfirst ["event: message"] "data: {}" [] (JObj [])).
  - reflexivity.
  - constructor; [left; reflexivity | constructor].
  - reflexivity.
  - reflexivity.
Defined.

Lemma callMCPTool_over_mcp_result_witness :
  fst (callMCPTool Sample.twoServersEnv "search_flights" (JObj []) SampleCalls.discovered)
  = Ok (textResult (Some "{...}")).
Proof.
  assert (Hr : remoteServer Sample.twoServersEnv SampleCalls.discovered "search_flights")
    by (repeat split; reflexivity).
  destruct (callMCPTool_over_mcp_result Sample.twoServersEnv "search_flights" (JObj [])
              SampleCalls.discovered Hr eq_refl eq_refl)
    as (authHeaders & w2 & _ & Hresult).
  rewrite Hresult. reflexivity.
Defined.
